(** * Renesas R-Car I2C controller core (drivers/i2c/busses/i2c-rcar.c)

    A shallow embedding of the clock calculator, the DMA offload routine,
    the interrupt-driven transfer state machine and the result mapping of
    the blocking transfer entry point, with the properties the design
    document states about them.

    Conventions.
    - A C [u32] is a [Z] in [0, 2^32); every operation that can leave that
      range is followed by [u32] (reduction modulo 2^32).  [u16] and [u8]
      likewise.  [unsigned long] is [BITS_PER_LONG] wide.
    - Bit flags are tested with [Z.land] and set with [Z.lor], as in the
      source.
    - Register accesses, DMA engine calls and wake-ups are recorded, oldest
      first, in a trace carried by the world state. *)

From Stdlib Require Import ZArith Lia Bool List.
From stdpp Require Import base list.
Import ListNotations.

Local Open Scope Z_scope.

(** ** Machine integers *)

Definition u32 (z : Z) : Z := z mod 2 ^ 32.
Definition u16 (z : Z) : Z := z mod 2 ^ 16.
Definition u8 (z : Z) : Z := z mod 2 ^ 8.

(** [unsigned long] arithmetic, [bits] wide (32 on the Gen1/Gen2 SoCs, 64 on
    Gen3/Gen4). *)
Definition ulong (bits : Z) (z : Z) : Z := z mod 2 ^ bits.

(** BIT(n) *)
Definition BIT (n : Z) : Z := 2 ^ n.

(** [flags & mask] read as a C truth value. *)
Definition tst (v mask : Z) : bool := negb (Z.land v mask =? 0).

(** [v & ~mask] on unsigned values. *)
Definition clr (v mask : Z) : Z := Z.ldiff v mask.

(** Modelled from the spec: the kernel macro DIV_ROUND_UP of linux/math.h is
    not part of the driver file; the design calls it "rounding up" and the
    driver's comment "integer up-valuation".  It is ((n) + (d) - 1) / (d),
    evaluated in the operands' unsigned type (here u32). *)
Definition DIV_ROUND_UP (n d : Z) : Z := u32 (n + d - 1) / d.

(** The same macro with an [unsigned long] first operand. *)
Definition DIV_ROUND_UP_ulong (bits n d : Z) : Z := ulong bits (n + d - 1) / d.

(** Modelled from the spec: the kernel macro DIV_ROUND_CLOSEST of linux/math.h
    is not part of the driver file; the design calls the two uses "chained
    rounding divisions".  For unsigned operands it is
    ((x) + ((d) / 2)) / (d), evaluated in u32. *)
Definition DIV_ROUND_CLOSEST (x d : Z) : Z := u32 (x + d / 2) / d.

(** ** Constants of the driver *)

(** ICMCR *)
Definition MDBS := BIT 7.
Definition FSCL := BIT 6.
Definition FSDA := BIT 5.
Definition OBPC := BIT 4.
Definition MIE := BIT 3.
Definition TSBE := BIT 2.
Definition FSB := BIT 1.
Definition ESG := BIT 0.

(** ICSCR *)
Definition SDBS := BIT 3.
Definition SIE := BIT 2.
Definition GCAE := BIT 1.
Definition FNA := BIT 0.

(** ICSSR (also for ICSIER) *)
Definition GCAR := BIT 6.
Definition STM := BIT 5.
Definition SSR := BIT 4.
Definition SDE := BIT 3.
Definition SDT := BIT 2.
Definition SDR := BIT 1.
Definition SAR := BIT 0.

(** ICMSR (also for ICMIER) *)
Definition MNR := BIT 6.
Definition MAL := BIT 5.
Definition MST := BIT 4.
Definition MDE := BIT 3.
Definition MDT := BIT 2.
Definition MDR := BIT 1.
Definition MAT := BIT 0.

(** ICDMAER *)
Definition RSDMAE := BIT 3.
Definition TSDMAE := BIT 2.
Definition RMDMAE := BIT 1.
Definition TMDMAE := BIT 0.

(** ICCCR2 *)
Definition FMPE := BIT 7.
Definition CDFD := BIT 2.
Definition HLSE := BIT 1.
Definition SME := BIT 0.

(** ICFBSCR *)
Definition TCYC17 := 15.

Definition RCAR_MIN_DMA_LEN := 8.

Definition RCAR_SCLD_RATIO := 5.
Definition RCAR_SCHD_RATIO := 4.
Definition RCAR_DEFAULT_SMD := 20.

Definition RCAR_BUS_PHASE_START := Z.lor (Z.lor MDBS MIE) ESG.
Definition RCAR_BUS_PHASE_DATA := Z.lor MDBS MIE.
Definition RCAR_BUS_PHASE_STOP := Z.lor (Z.lor MDBS MIE) FSB.

Definition RCAR_IRQ_SEND := Z.lor (Z.lor (Z.lor (Z.lor MNR MAL) MST) MAT) MDE.
Definition RCAR_IRQ_RECV := Z.lor (Z.lor (Z.lor (Z.lor MNR MAL) MST) MAT) MDR.
Definition RCAR_IRQ_STOP := MST.

Definition ID_LAST_MSG := BIT 0.
Definition ID_REP_AFTER_RD := BIT 1.
Definition ID_DONE := BIT 2.
Definition ID_ARBLOST := BIT 3.
Definition ID_NACK := BIT 4.
Definition ID_EPROTO := BIT 5.
(** persistent flags *)
Definition ID_P_FMPLUS := BIT 27.
Definition ID_P_NOT_ATOMIC := BIT 28.
Definition ID_P_HOST_NOTIFY := BIT 29.
Definition ID_P_NO_RXDMA := BIT 30.
Definition ID_P_PM_BLOCKED := BIT 31.
(** GENMASK(31, 27) *)
Definition ID_P_MASK := 2 ^ 32 - 2 ^ 27.

Definition ID_SLAVE_NACK := BIT 0.

(** Modelled from the spec: errno values and the frequency ceilings are kernel
    header constants that the driver file only names (the design's error
    kinds Nack, ArbitrationLost, ProtocolError, TransferTimeout, the range
    error of the clock calculator, and the standard / fast mode ceilings). *)
Definition EINVAL := 22.
Definition ENXIO := 6.
Definition EAGAIN := 11.
Definition EPROTO := 71.
Definition ETIMEDOUT := 110.
Definition EISCONN := 106.
Definition I2C_MAX_STANDARD_MODE_FREQ := 100000.
Definition I2C_MAX_FAST_MODE_FREQ := 400000.

(** Modelled from the spec: the "block-transfer maximum" of a length-prefixed
    receive, I2C_SMBUS_BLOCK_MAX of the uapi header, which is not part of the
    driver file. *)
Definition I2C_SMBUS_BLOCK_MAX := 32.

Inductive rcar_i2c_type :=
| I2C_RCAR_GEN1
| I2C_RCAR_GEN2
| I2C_RCAR_GEN3
| I2C_RCAR_GEN4.

(** The enumerators' values, for the [<] and [>=] comparisons of the source. *)
Definition devtype_val (t : rcar_i2c_type) : Z :=
  match t with
  | I2C_RCAR_GEN1 => 0
  | I2C_RCAR_GEN2 => 1
  | I2C_RCAR_GEN3 => 2
  | I2C_RCAR_GEN4 => 3
  end.

(** ** Data model *)

(** enum dma_data_direction, the three values the driver uses. *)
Inductive dma_data_direction :=
| DMA_TO_DEVICE
| DMA_FROM_DEVICE
| DMA_NONE.

(** A [struct dma_chan *] as the driver holds it: a channel, or an ERR_PTR
    carrying an errno (ERR_PTR(-EPROBE_DEFER) until a channel was asked
    for). *)
Inductive dma_chan :=
| Chan
| ChanErr (errno : Z).

Definition IS_ERR (c : dma_chan) : bool :=
  match c with Chan => false | ChanErr _ => true end.

(** struct i2c_msg.  Of the flag word the driver tests three bits, kept
    here as booleans: I2C_M_RD, I2C_M_DMA_SAFE and I2C_M_RECV_LEN.  [len] is
    a u16.  [buf] is the caller's buffer; a store beyond its end, which C
    leaves undefined, does nothing here and a load beyond it reads 0. *)
Record i2c_msg := {
  addr : Z;
  m_rd : bool;
  m_dma_safe : bool;
  m_recv_len : bool;
  len : Z;
  buf : list Z
}.

Definition set_len (v : Z) (m : i2c_msg) : i2c_msg :=
  {| addr := addr m; m_rd := m_rd m; m_dma_safe := m_dma_safe m;
     m_recv_len := m_recv_len m; len := v; buf := buf m |}.

Definition set_buf (v : list Z) (m : i2c_msg) : i2c_msg :=
  {| addr := addr m; m_rd := m_rd m; m_dma_safe := m_dma_safe m;
     m_recv_len := m_recv_len m; len := len m; buf := v |}.

(** struct rcar_i2c_priv.  [msgs] is the caller's message array and [msg]
    the position in it that priv->msg points at; [slave] says whether
    priv->slave is set; [sg_len] is sg_dma_len(&priv->sg). *)
Record rcar_i2c_priv := {
  flags : Z;
  msgs : list i2c_msg;
  msg : nat;
  msgs_left : Z;
  pos : Z;
  icccr : Z;
  schd : Z;
  scld : Z;
  smd : Z;
  devtype : rcar_i2c_type;
  slave : bool;
  dma_tx : dma_chan;
  dma_rx : dma_chan;
  sg_len : Z;
  dma_direction : dma_data_direction;
  slave_flags : Z
}.

Definition set_flags (v : Z) (p : rcar_i2c_priv) : rcar_i2c_priv :=
  {| flags := v; msgs := msgs p; msg := msg p; msgs_left := msgs_left p;
     pos := pos p; icccr := icccr p; schd := schd p; scld := scld p;
     smd := smd p; devtype := devtype p; slave := slave p;
     dma_tx := dma_tx p; dma_rx := dma_rx p; sg_len := sg_len p;
     dma_direction := dma_direction p; slave_flags := slave_flags p |}.

Definition set_msgs (v : list i2c_msg) (p : rcar_i2c_priv) : rcar_i2c_priv :=
  {| flags := flags p; msgs := v; msg := msg p; msgs_left := msgs_left p;
     pos := pos p; icccr := icccr p; schd := schd p; scld := scld p;
     smd := smd p; devtype := devtype p; slave := slave p;
     dma_tx := dma_tx p; dma_rx := dma_rx p; sg_len := sg_len p;
     dma_direction := dma_direction p; slave_flags := slave_flags p |}.

Definition set_msg (v : nat) (p : rcar_i2c_priv) : rcar_i2c_priv :=
  {| flags := flags p; msgs := msgs p; msg := v; msgs_left := msgs_left p;
     pos := pos p; icccr := icccr p; schd := schd p; scld := scld p;
     smd := smd p; devtype := devtype p; slave := slave p;
     dma_tx := dma_tx p; dma_rx := dma_rx p; sg_len := sg_len p;
     dma_direction := dma_direction p; slave_flags := slave_flags p |}.

Definition set_msgs_left (v : Z) (p : rcar_i2c_priv) : rcar_i2c_priv :=
  {| flags := flags p; msgs := msgs p; msg := msg p; msgs_left := v;
     pos := pos p; icccr := icccr p; schd := schd p; scld := scld p;
     smd := smd p; devtype := devtype p; slave := slave p;
     dma_tx := dma_tx p; dma_rx := dma_rx p; sg_len := sg_len p;
     dma_direction := dma_direction p; slave_flags := slave_flags p |}.

Definition set_pos (v : Z) (p : rcar_i2c_priv) : rcar_i2c_priv :=
  {| flags := flags p; msgs := msgs p; msg := msg p;
     msgs_left := msgs_left p; pos := v; icccr := icccr p; schd := schd p;
     scld := scld p; smd := smd p; devtype := devtype p; slave := slave p;
     dma_tx := dma_tx p; dma_rx := dma_rx p; sg_len := sg_len p;
     dma_direction := dma_direction p; slave_flags := slave_flags p |}.

Definition set_icccr (v : Z) (p : rcar_i2c_priv) : rcar_i2c_priv :=
  {| flags := flags p; msgs := msgs p; msg := msg p;
     msgs_left := msgs_left p; pos := pos p; icccr := v; schd := schd p;
     scld := scld p; smd := smd p; devtype := devtype p; slave := slave p;
     dma_tx := dma_tx p; dma_rx := dma_rx p; sg_len := sg_len p;
     dma_direction := dma_direction p; slave_flags := slave_flags p |}.

Definition set_schd (v : Z) (p : rcar_i2c_priv) : rcar_i2c_priv :=
  {| flags := flags p; msgs := msgs p; msg := msg p;
     msgs_left := msgs_left p; pos := pos p; icccr := icccr p; schd := v;
     scld := scld p; smd := smd p; devtype := devtype p; slave := slave p;
     dma_tx := dma_tx p; dma_rx := dma_rx p; sg_len := sg_len p;
     dma_direction := dma_direction p; slave_flags := slave_flags p |}.

Definition set_scld (v : Z) (p : rcar_i2c_priv) : rcar_i2c_priv :=
  {| flags := flags p; msgs := msgs p; msg := msg p;
     msgs_left := msgs_left p; pos := pos p; icccr := icccr p;
     schd := schd p; scld := v; smd := smd p; devtype := devtype p;
     slave := slave p; dma_tx := dma_tx p; dma_rx := dma_rx p;
     sg_len := sg_len p; dma_direction := dma_direction p;
     slave_flags := slave_flags p |}.

Definition set_smd (v : Z) (p : rcar_i2c_priv) : rcar_i2c_priv :=
  {| flags := flags p; msgs := msgs p; msg := msg p;
     msgs_left := msgs_left p; pos := pos p; icccr := icccr p;
     schd := schd p; scld := scld p; smd := v; devtype := devtype p;
     slave := slave p; dma_tx := dma_tx p; dma_rx := dma_rx p;
     sg_len := sg_len p; dma_direction := dma_direction p;
     slave_flags := slave_flags p |}.

Definition set_slave (v : bool) (p : rcar_i2c_priv) : rcar_i2c_priv :=
  {| flags := flags p; msgs := msgs p; msg := msg p;
     msgs_left := msgs_left p; pos := pos p; icccr := icccr p;
     schd := schd p; scld := scld p; smd := smd p; devtype := devtype p;
     slave := v; dma_tx := dma_tx p; dma_rx := dma_rx p; sg_len := sg_len p;
     dma_direction := dma_direction p; slave_flags := slave_flags p |}.

Definition set_dma_tx (v : dma_chan) (p : rcar_i2c_priv) : rcar_i2c_priv :=
  {| flags := flags p; msgs := msgs p; msg := msg p;
     msgs_left := msgs_left p; pos := pos p; icccr := icccr p;
     schd := schd p; scld := scld p; smd := smd p; devtype := devtype p;
     slave := slave p; dma_tx := v; dma_rx := dma_rx p; sg_len := sg_len p;
     dma_direction := dma_direction p; slave_flags := slave_flags p |}.

Definition set_dma_rx (v : dma_chan) (p : rcar_i2c_priv) : rcar_i2c_priv :=
  {| flags := flags p; msgs := msgs p; msg := msg p;
     msgs_left := msgs_left p; pos := pos p; icccr := icccr p;
     schd := schd p; scld := scld p; smd := smd p; devtype := devtype p;
     slave := slave p; dma_tx := dma_tx p; dma_rx := v; sg_len := sg_len p;
     dma_direction := dma_direction p; slave_flags := slave_flags p |}.

Definition set_sg_len (v : Z) (p : rcar_i2c_priv) : rcar_i2c_priv :=
  {| flags := flags p; msgs := msgs p; msg := msg p;
     msgs_left := msgs_left p; pos := pos p; icccr := icccr p;
     schd := schd p; scld := scld p; smd := smd p; devtype := devtype p;
     slave := slave p; dma_tx := dma_tx p; dma_rx := dma_rx p; sg_len := v;
     dma_direction := dma_direction p; slave_flags := slave_flags p |}.

Definition set_dma_direction (v : dma_data_direction) (p : rcar_i2c_priv) : rcar_i2c_priv :=
  {| flags := flags p; msgs := msgs p; msg := msg p;
     msgs_left := msgs_left p; pos := pos p; icccr := icccr p;
     schd := schd p; scld := scld p; smd := smd p; devtype := devtype p;
     slave := slave p; dma_tx := dma_tx p; dma_rx := dma_rx p;
     sg_len := sg_len p; dma_direction := v; slave_flags := slave_flags p |}.

Definition set_slave_flags (v : Z) (p : rcar_i2c_priv) : rcar_i2c_priv :=
  {| flags := flags p; msgs := msgs p; msg := msg p;
     msgs_left := msgs_left p; pos := pos p; icccr := icccr p;
     schd := schd p; scld := scld p; smd := smd p; devtype := devtype p;
     slave := slave p; dma_tx := dma_tx p; dma_rx := dma_rx p;
     sg_len := sg_len p; dma_direction := dma_direction p;
     slave_flags := v |}.

(** ** Clock calculator: rcar_i2c_clock_calculate *)

(** struct i2c_timings, the fields the driver reads, after
    i2c_parse_fw_timings has overlaid the firmware's values. *)
Record i2c_timings := {
  bus_freq_hz : Z;
  scl_fall_ns : Z;
  scl_rise_ns : Z;
  scl_int_delay_ns : Z
}.

(** The initialiser of [t] in the source: what is used when the firmware
    supplies nothing. *)
Definition default_timings : i2c_timings :=
  {| bus_freq_hz := I2C_MAX_STANDARD_MODE_FREQ;
     scl_fall_ns := 35;
     scl_rise_ns := 200;
     scl_int_delay_ns := 50 |}.

(** devtype < I2C_RCAR_GEN3: the legacy formula family *)
Definition is_legacy (d : rcar_i2c_type) : bool :=
  devtype_val d <? devtype_val I2C_RCAR_GEN3.

(** cdf = rate / 20000000, stored in a u32 *)
Definition clk_cdf (rate : Z) : Z := u32 (rate / 20000000).

(** cdf_width = (devtype == GEN1) ? 2 : 3 *)
Definition clk_cdf_width (d : rcar_i2c_type) : Z :=
  match d with I2C_RCAR_GEN1 => 2 | _ => 3 end.

(** ick = rate / (devtype < GEN3 ? (cdf + 1) : 1), stored in a u32 *)
Definition clk_ick (d : rcar_i2c_type) (rate : Z) : Z :=
  u32 (rate / (if is_legacy d then u32 (clk_cdf rate + 1) else 1)).

(** sum = t.scl_fall_ns + t.scl_rise_ns + t.scl_int_delay_ns *)
Definition clk_sum (t : i2c_timings) : Z :=
  u32 (u32 (scl_fall_ns t + scl_rise_ns t) + scl_int_delay_ns t).

(** round = DIV_ROUND_CLOSEST(ick, 1000000);
    round = DIV_ROUND_CLOSEST(round * sum, 1000) *)
Definition clk_round (d : rcar_i2c_type) (rate : Z) (t : i2c_timings) : Z :=
  let round := DIV_ROUND_CLOSEST (clk_ick d rate) 1000000 in
  DIV_ROUND_CLOSEST (u32 (round * clk_sum t)) 1000.

(** t.bus_freq_hz ?: 1 *)
Definition clk_freq (t : i2c_timings) : Z :=
  if bus_freq_hz t =? 0 then 1 else bus_freq_hz t.

(** Legacy family, first assignment:
    scgd = DIV_ROUND_UP(ick, t.bus_freq_hz ?: 1) *)
Definition clk_scgd_quot (d : rcar_i2c_type) (rate : Z) (t : i2c_timings) : Z :=
  DIV_ROUND_UP (clk_ick d rate) (clk_freq t).

(** second assignment: scgd = DIV_ROUND_UP(scgd - 20 - round, 8) *)
Definition clk_scgd (d : rcar_i2c_type) (rate : Z) (t : i2c_timings) : Z :=
  DIV_ROUND_UP (u32 (u32 (clk_scgd_quot d rate t - 20) - clk_round d rate t)) 8.

(** Modern family, first assignment:
    x = DIV_ROUND_UP(rate, t.bus_freq_hz ?: 1), computed in unsigned long
    and stored in a u32 *)
Definition clk_x_quot (bits rate : Z) (t : i2c_timings) : Z :=
  u32 (DIV_ROUND_UP_ulong bits rate (clk_freq t)).

Definition sum_ratio := RCAR_SCHD_RATIO + RCAR_SCLD_RATIO.

(** second assignment, with priv->smd = RCAR_DEFAULT_SMD at this point:
    x = DIV_ROUND_UP(x - 8 - 2 * priv->smd - round, sum_ratio) *)
Definition clk_x (bits : Z) (d : rcar_i2c_type) (rate : Z) (t : i2c_timings) : Z :=
  DIV_ROUND_UP
    (u32 (u32 (u32 (clk_x_quot bits rate t - 8) - 2 * RCAR_DEFAULT_SMD)
          - clk_round d rate t))
    sum_ratio.

(** rcar_i2c_clock_calculate.  [bits] is BITS_PER_LONG, [rate] the value of
    clk_get_rate, [t] the timings after the firmware overlay.  The result is
    the return value (0 or -EINVAL) and the context as the function leaves
    it.  The variable [scl] of the source only feeds the debug message and
    is left out. *)
Definition rcar_i2c_clock_calculate (bits : Z) (rate : Z) (t : i2c_timings)
    (priv : rcar_i2c_priv) : Z * rcar_i2c_priv :=
  let priv := set_smd RCAR_DEFAULT_SMD priv in
  let cdf := clk_cdf rate in
  let cdf_width := clk_cdf_width (devtype priv) in
  if Z.shiftl 1 cdf_width <=? cdf then (- EINVAL, priv)
  else
    let priv :=
      if (I2C_MAX_FAST_MODE_FREQ <? bus_freq_hz t)
         && (devtype_val I2C_RCAR_GEN4 <=? devtype_val (devtype priv))
      then set_flags (Z.lor (flags priv) ID_P_FMPLUS) priv
      else set_flags (clr (flags priv) ID_P_FMPLUS) priv in
    if is_legacy (devtype priv) then
      let scgd := clk_scgd (devtype priv) rate t in
      if 63 <? scgd then (- EINVAL, priv)
      else (0, set_icccr (Z.lor (u32 (Z.shiftl scgd cdf_width)) cdf) priv)
    else
      let x := clk_x bits (devtype priv) rate t in
      if (x =? 0) || (65535 <? u32 (x * RCAR_SCLD_RATIO)) then (- EINVAL, priv)
      else
        let priv := set_icccr cdf priv in
        let priv := set_schd (u16 (RCAR_SCHD_RATIO * x)) priv in
        let priv := set_scld (u16 (RCAR_SCLD_RATIO * x)) priv in
        let priv :=
          if schd priv <=? smd priv then set_smd (u8 (schd priv - 1)) priv
          else priv in
        (0, priv).

(** The divisor of the bus clock that a set of register values stands for,
    after the formulas in the source's comment:
    legacy SCL = ick / (20 + 8 * SCGD + round),
    modern SCL = clkp / (8 + 2 * SMD + SCLD + SCHD + round). *)
Definition legacy_divisor (scgd round : Z) : Z := 20 + 8 * scgd + round.

Definition modern_divisor (p : rcar_i2c_priv) (round : Z) : Z :=
  8 + 2 * smd p + scld p + schd p + round.

(** SCGD as the hardware reads it back from ICCCR: the bits above the CDF
    field. *)
Definition icccr_scgd (d : rcar_i2c_type) (v : Z) : Z :=
  Z.shiftr v (clk_cdf_width d).

(** ** Registers, trace and environment *)

Inductive reg :=
| ICSCR | ICMCR | ICSSR | ICMSR | ICSIER | ICMIER | ICCCR | ICSAR
| ICMAR | ICRXTX | ICCCR2 | ICMPR | ICHPR | ICLPR | ICFBSCR | ICDMAER.

(** enum i2c_slave_event, the five events the driver delivers. *)
Inductive i2c_slave_event_t :=
| I2C_SLAVE_READ_REQUESTED
| I2C_SLAVE_WRITE_REQUESTED
| I2C_SLAVE_READ_PROCESSED
| I2C_SLAVE_WRITE_RECEIVED
| I2C_SLAVE_STOP.

(** What the driver does to the outside, in the order it does it. *)
Inductive action :=
| Write (r : reg) (v : Z)                 (* writel *)
| Read (r : reg) (v : Z)                  (* readl and the value it gave *)
| WakeUp                                  (* wake_up(&priv->wait) *)
| Warn                                    (* WARN(..., "spurious irq") *)
| DmaMap (dir : dma_data_direction) (off n : Z) (ok : bool)
                                          (* dma_map_single(buf + off, n) *)
| DmaUnmap (dir : dma_data_direction) (n : Z)
| DmaPrep (ok : bool)                     (* dmaengine_prep_slave_sg *)
| DmaSubmit (ok : bool)                   (* dmaengine_submit *)
| DmaIssuePending
| DmaTerminateSync
| SlaveEvent (ev : i2c_slave_event_t) (v : option Z)
                                          (* i2c_slave_event and the byte
                                             in *val on entry, if the
                                             local was set before *)
| DevErr (ret : Z) (fl : Z).              (* dev_err("error %d : %x") *)

(** The driver's context together with the two enable registers it reads
    back and the trace.  ICMIER and ICSIER are plain read/write registers: a
    read gives the value written last.  Every other register read gives what
    the hardware supplies at that moment. *)
Record world := {
  priv : rcar_i2c_priv;
  r_icmier : Z;
  r_icsier : Z;
  trace : list action
}.

(** What the hardware and the other kernel services answer during one
    invocation of the interrupt handler. *)
Record irq_env := {
  hw_icmsr : Z;
  hw_icrxtx : Z;
  hw_icssr : Z;
  dma_map_ok : bool;       (* !dma_mapping_error *)
  dma_prep_ok : bool;      (* txdesc != NULL *)
  dma_submit_ok : bool;    (* !dma_submit_error *)
  slave_cb : i2c_slave_event_t -> Z * Z
                           (* i2c_slave_event: its return value and the
                              byte it leaves in *val *)
}.

Definition upd_priv (f : rcar_i2c_priv -> rcar_i2c_priv) (w : world) : world :=
  {| priv := f (priv w); r_icmier := r_icmier w; r_icsier := r_icsier w;
     trace := trace w |}.

Definition emit (a : action) (w : world) : world :=
  {| priv := priv w; r_icmier := r_icmier w; r_icsier := r_icsier w;
     trace := trace w ++ [a] |}.

(** rcar_i2c_write *)
Definition rcar_i2c_write (r : reg) (val : Z) (w : world) : world :=
  {| priv := priv w;
     r_icmier := match r with ICMIER => val | _ => r_icmier w end;
     r_icsier := match r with ICSIER => val | _ => r_icsier w end;
     trace := trace w ++ [Write r val] |}.

(** rcar_i2c_read *)
Definition rcar_i2c_read (e : irq_env) (r : reg) (w : world) : Z * world :=
  let v :=
    match r with
    | ICMIER => r_icmier w
    | ICSIER => r_icsier w
    | ICMSR => u32 (hw_icmsr e)
    | ICRXTX => u32 (hw_icrxtx e)
    | ICSSR => u32 (hw_icssr e)
    | _ => 0
    end in
  (v, emit (Read r v) w).

(** rcar_i2c_clear_irq: writel(~val & 0x7f, ICMSR) *)
Definition rcar_i2c_clear_irq (val : Z) (w : world) : world :=
  rcar_i2c_write ICMSR (Z.land (Z.lnot val) 127) w.

(** The message priv->msg points at. *)
Definition no_msg : i2c_msg :=
  {| addr := 0; m_rd := false; m_dma_safe := false; m_recv_len := false;
     len := 0; buf := [] |}.

Definition cur_msg (p : rcar_i2c_priv) : i2c_msg :=
  default no_msg (msgs p !! msg p).

(** An assignment through priv->msg. *)
Definition upd_cur_msg (f : i2c_msg -> i2c_msg) (p : rcar_i2c_priv) : rcar_i2c_priv :=
  set_msgs (<[msg p := f (cur_msg p)]> (msgs p)) p.

(** rcar_i2c_is_recv *)
Definition rcar_i2c_is_recv (p : rcar_i2c_priv) : bool := m_rd (cur_msg p).

(** msg->buf[i] *)
Definition buf_at (m : i2c_msg) (i : Z) : Z := default 0 (buf m !! Z.to_nat i).

(** Modelled from the spec: i2c_8bit_addr_from_msg of linux/i2c.h, the
    "address byte" of a message: the 7-bit address shifted left with the
    direction in bit 0, returned as a u8 (higher bits of the address are
    cut off). *)
Definition i2c_8bit_addr_from_msg (m : i2c_msg) : Z :=
  u8 (Z.lor (Z.shiftl (addr m) 1) (if m_rd m then 1 else 0)).

(** ** Initialisation and message preparation *)

(** rcar_i2c_init *)
Definition rcar_i2c_init (w : world) : world :=
  let w := rcar_i2c_write ICMIER 0 w in
  let w := rcar_i2c_write ICMCR MDBS w in
  let w := rcar_i2c_write ICMSR 0 w in
  if devtype_val (devtype (priv w)) <? devtype_val I2C_RCAR_GEN3 then
    rcar_i2c_write ICCCR (icccr (priv w)) w
  else
    let icccr2 := Z.lor (Z.lor CDFD HLSE) SME in
    let icccr2 :=
      if tst (flags (priv w)) ID_P_FMPLUS then Z.lor icccr2 FMPE else icccr2 in
    let w := rcar_i2c_write ICCCR2 icccr2 w in
    let w := rcar_i2c_write ICCCR (icccr (priv w)) w in
    let w := rcar_i2c_write ICMPR (smd (priv w)) w in
    let w := rcar_i2c_write ICHPR (schd (priv w)) w in
    let w := rcar_i2c_write ICLPR (scld (priv w)) w in
    rcar_i2c_write ICFBSCR TCYC17 w.

(** rcar_i2c_prepare_msg *)
Definition rcar_i2c_prepare_msg (w : world) : world :=
  let read := rcar_i2c_is_recv (priv w) in
  let rep_start := negb (tst (flags (priv w)) ID_REP_AFTER_RD) in
  let w := upd_priv (set_pos 0) w in
  let w := upd_priv (fun p => set_flags (Z.land (flags p) ID_P_MASK) p) w in
  let w :=
    if msgs_left (priv w) =? 1
    then upd_priv (fun p => set_flags (Z.lor (flags p) ID_LAST_MSG) p) w
    else w in
  let w := rcar_i2c_write ICMAR (i2c_8bit_addr_from_msg (cur_msg (priv w))) w in
  let w :=
    if tst (flags (priv w)) ID_P_NOT_ATOMIC
    then rcar_i2c_write ICMIER (if read then RCAR_IRQ_RECV else RCAR_IRQ_SEND) w
    else w in
  if rep_start then rcar_i2c_write ICMCR RCAR_BUS_PHASE_START w else w.

(** rcar_i2c_first_msg *)
Definition rcar_i2c_first_msg (ms : list i2c_msg) (num : Z) (w : world) : world :=
  let w := upd_priv (fun p => set_msg 0%nat (set_msgs ms p)) w in
  let w := upd_priv (set_msgs_left num) w in
  let w := rcar_i2c_write ICMSR 0 w in
  rcar_i2c_prepare_msg w.

(** rcar_i2c_next_msg *)
Definition rcar_i2c_next_msg (w : world) : world :=
  let w := upd_priv (fun p => set_msg (S (msg p)) p) w in
  let w := upd_priv (fun p => set_msgs_left (msgs_left p - 1) p) w in
  rcar_i2c_prepare_msg w.

(** ** DMA offload *)

Definition dir_eqb (a b : dma_data_direction) : bool :=
  match a, b with
  | DMA_TO_DEVICE, DMA_TO_DEVICE => true
  | DMA_FROM_DEVICE, DMA_FROM_DEVICE => true
  | DMA_NONE, DMA_NONE => true
  | _, _ => false
  end.

(** rcar_i2c_cleanup_dma *)
Definition rcar_i2c_cleanup_dma (terminate : bool) (w : world) : world :=
  let w := if terminate then emit DmaTerminateSync w else w in
  let w := emit (DmaUnmap (dma_direction (priv w)) (sg_len (priv w))) w in
  let w :=
    if (devtype_val I2C_RCAR_GEN3 <=? devtype_val (devtype (priv w)))
       && dir_eqb (dma_direction (priv w)) DMA_FROM_DEVICE
    then upd_priv (fun p => set_flags (Z.lor (flags p) ID_P_NO_RXDMA) p) w
    else w in
  let w := upd_priv (set_dma_direction DMA_NONE) w in
  rcar_i2c_write ICDMAER 0 w.

(** rcar_i2c_dma_callback *)
Definition rcar_i2c_dma_callback (w : world) : world :=
  let w := upd_priv (fun p => set_pos (pos p + sg_len p) p) w in
  rcar_i2c_cleanup_dma false w.

(** The feasibility test at the head of rcar_i2c_dma: true when DMA is not
    feasible. *)
Definition dma_infeasible (p : rcar_i2c_priv) : bool :=
  let m := cur_msg p in
  let read := m_rd m in
  let chan := if read then dma_rx p else dma_tx p in
  negb (tst (flags p) ID_P_NOT_ATOMIC) || IS_ERR chan
  || (len m <? RCAR_MIN_DMA_LEN) || negb (m_dma_safe m)
  || (read && tst (flags p) ID_P_NO_RXDMA).

(** rcar_i2c_dma *)
Definition rcar_i2c_dma (e : irq_env) (w : world) : bool * world :=
  let m := cur_msg (priv w) in
  let read := m_rd m in
  let dir := if read then DMA_FROM_DEVICE else DMA_TO_DEVICE in
  if dma_infeasible (priv w) then (false, w)
  else
    let '(off, n) := if read then (0, len m - 2) else (1, len m - 1) in
    let w := emit (DmaMap dir off n (dma_map_ok e)) w in
    if negb (dma_map_ok e) then (false, w)
    else
      let w := upd_priv (set_sg_len n) w in
      let w := upd_priv (set_dma_direction dir) w in
      let w := emit (DmaPrep (dma_prep_ok e)) w in
      if negb (dma_prep_ok e) then (false, rcar_i2c_cleanup_dma false w)
      else
        let w := emit (DmaSubmit (dma_submit_ok e)) w in
        if negb (dma_submit_ok e) then (false, rcar_i2c_cleanup_dma false w)
        else
          let w := rcar_i2c_write ICDMAER (if read then RMDMAE else TMDMAE) w in
          (true, emit DmaIssuePending w).

(** ** Interrupt handlers *)

(** rcar_i2c_irq_send *)
Definition rcar_i2c_irq_send (e : irq_env) (msr : Z) (w : world) : world :=
  let irqs_to_clear := MDE in
  if negb (tst msr MDE) then emit Warn w
  else
    let irqs_to_clear :=
      if tst msr MAT then Z.lor irqs_to_clear MAT else irqs_to_clear in
    let '(taken, w) :=
      if pos (priv w) =? 1 then rcar_i2c_dma e w else (false, w) in
    if taken then w
    else
      let w :=
        if pos (priv w) <? len (cur_msg (priv w)) then
          let w :=
            rcar_i2c_write ICRXTX
              (buf_at (cur_msg (priv w)) (pos (priv w))) w in
          upd_priv (fun p => set_pos (pos p + 1) p) w
        else if tst (flags (priv w)) ID_LAST_MSG then
          rcar_i2c_write ICMCR RCAR_BUS_PHASE_STOP w
        else rcar_i2c_next_msg w in
      rcar_i2c_clear_irq irqs_to_clear w.

(** The part of rcar_i2c_irq_recv after the byte handling: the phase switch
    before the last byte, the step to the next message, and the status
    clear. *)
Definition irq_recv_tail (recv_len_init : bool) (irqs_to_clear : Z)
    (w : world) : world :=
  let w :=
    if (pos (priv w) + 1 =? len (cur_msg (priv w))) && negb recv_len_init then
      if tst (flags (priv w)) ID_LAST_MSG then
        rcar_i2c_write ICMCR RCAR_BUS_PHASE_STOP w
      else
        let w := rcar_i2c_write ICMCR RCAR_BUS_PHASE_START w in
        upd_priv (fun p => set_flags (Z.lor (flags p) ID_REP_AFTER_RD) p) w
    else w in
  let w :=
    if (pos (priv w) =? len (cur_msg (priv w)))
       && negb (tst (flags (priv w)) ID_LAST_MSG)
    then rcar_i2c_next_msg w
    else w in
  rcar_i2c_clear_irq irqs_to_clear w.

(** rcar_i2c_irq_recv *)
Definition rcar_i2c_irq_recv (e : irq_env) (msr : Z) (w : world) : world :=
  let recv_len_init :=
    (pos (priv w) =? 0) && m_recv_len (cur_msg (priv w)) in
  if negb (tst msr MDR) then w
  else if tst msr MAT then
    let '(_, w) := rcar_i2c_dma e w in
    irq_recv_tail recv_len_init (Z.lor MDR MAT) w
  else if pos (priv w) <? len (cur_msg (priv w)) then
    let '(v, w) := rcar_i2c_read e ICRXTX w in
    let data := u8 v in
    let w :=
      upd_priv
        (fun p => upd_cur_msg
           (fun m => set_buf (<[Z.to_nat (pos p) := data]> (buf m)) m) p) w in
    if recv_len_init then
      if (data =? 0) || (I2C_SMBUS_BLOCK_MAX <? data) then
        upd_priv
          (fun p => set_flags (Z.lor (flags p) (Z.lor ID_DONE ID_EPROTO)) p) w
      else
        let w :=
          upd_priv
            (upd_cur_msg (fun m => set_len (u16 (len m + buf_at m 0)) m)) w in
        let '(taken, w) := rcar_i2c_dma e w in
        if taken then w
        else
          let w := upd_priv (fun p => set_pos (pos p + 1) p) w in
          irq_recv_tail false MDR w
    else
      let w := upd_priv (fun p => set_pos (pos p + 1) p) w in
      irq_recv_tail recv_len_init MDR w
  else irq_recv_tail recv_len_init MDR w.

(** i2c_slave_event, as the trace sees it: the event and what the local
    [value] holds on entry ([None] while rcar_i2c_slave_irq has not set it:
    the local is not initialised).  The answer comes from the environment:
    the return value and the byte the call leaves in the local. *)
Definition i2c_slave_event (e : irq_env) (ev : i2c_slave_event_t)
    (v : option Z) (w : world) : Z * Z * world :=
  (slave_cb e ev, emit (SlaveEvent ev v) w).

Definition slave_nack_if (ret : Z) (w : world) : world :=
  if ret =? 0 then w
  else upd_priv (fun p => set_slave_flags (Z.lor (slave_flags p) ID_SLAVE_NACK) p) w.

(** rcar_i2c_slave_irq.  [value] is the u8 local of that name. *)
Definition rcar_i2c_slave_irq (e : irq_env) (w : world) : bool * world :=
  let '(v, w) := rcar_i2c_read e ICSSR w in
  let ssr_raw := Z.land v 255 in
  let '(ier, w) := rcar_i2c_read e ICSIER w in
  let ssr_filtered := Z.land ssr_raw ier in
  if ssr_filtered =? 0 then (false, w)
  else
    let value : option Z := None in
    (* address detected *)
    let '(value, w) :=
      if tst ssr_filtered SAR then
        let '(value, w) :=
          if tst ssr_raw STM then
            let '(_, val, w) := i2c_slave_event e I2C_SLAVE_READ_REQUESTED value w in
            let w := rcar_i2c_write ICRXTX (u8 val) w in
            (Some (u8 val), rcar_i2c_write ICSIER (Z.lor (Z.lor SDE SSR) SAR) w)
          else
            let '(ret, val, w) := i2c_slave_event e I2C_SLAVE_WRITE_REQUESTED value w in
            let w := slave_nack_if ret w in
            let '(_, w) := rcar_i2c_read e ICRXTX w in
            (Some (u8 val), rcar_i2c_write ICSIER (Z.lor (Z.lor SDR SSR) SAR) w) in
        (value, rcar_i2c_write ICSSR (Z.land (Z.lnot (Z.lor SAR SSR)) 255) w)
      else (value, w) in
    (* master sent stop *)
    let '(value, w) :=
      if tst ssr_filtered SSR then
        let '(_, val, w) := i2c_slave_event e I2C_SLAVE_STOP value w in
        let w := rcar_i2c_write ICSCR (Z.lor SIE SDBS) w in
        let w :=
          upd_priv (fun p => set_slave_flags (clr (slave_flags p) ID_SLAVE_NACK) p) w in
        let w := rcar_i2c_write ICSIER SAR w in
        (Some (u8 val), rcar_i2c_write ICSSR (Z.land (Z.lnot SSR) 255) w)
      else (value, w) in
    (* master wants to write to us *)
    let '(value, w) :=
      if tst ssr_filtered SDR then
        let '(v, w) := rcar_i2c_read e ICRXTX w in
        let '(ret, val, w) :=
          i2c_slave_event e I2C_SLAVE_WRITE_RECEIVED (Some (u8 v)) w in
        let w := slave_nack_if ret w in
        let w :=
          rcar_i2c_write ICSCR
            (Z.lor (Z.lor SIE SDBS)
               (if tst (slave_flags (priv w)) ID_SLAVE_NACK then FNA else 0)) w in
        (Some (u8 val), rcar_i2c_write ICSSR (Z.land (Z.lnot SDR) 255) w)
      else (value, w) in
    (* master wants to read from us *)
    let w :=
      if tst ssr_filtered SDE then
        let '(_, val, w) := i2c_slave_event e I2C_SLAVE_READ_PROCESSED value w in
        let w := rcar_i2c_write ICRXTX (u8 val) w in
        rcar_i2c_write ICSSR (Z.land (Z.lnot SDE) 255) w
      else w in
    (true, w).

Inductive irqreturn_t := IRQ_NONE | IRQ_HANDLED.

(** The code at the label [out] of rcar_i2c_irq. *)
Definition irq_out (w : world) : world :=
  if tst (flags (priv w)) ID_DONE then
    let w := rcar_i2c_write ICMIER 0 w in
    let w := rcar_i2c_write ICMSR 0 w in
    if tst (flags (priv w)) ID_P_NOT_ATOMIC then emit WakeUp w else w
  else w.

(** rcar_i2c_irq *)
Definition rcar_i2c_irq (e : irq_env) (msr : Z) (w : world) : irqreturn_t * world :=
  if msr =? 0 then
    let '(handled, w) := rcar_i2c_slave_irq e w in
    (if handled then IRQ_HANDLED else IRQ_NONE, w)
  else if tst msr MAL then
    (* Arbitration lost *)
    let w :=
      upd_priv
        (fun p => set_flags (Z.lor (flags p) (Z.lor ID_DONE ID_ARBLOST)) p) w in
    (IRQ_HANDLED, irq_out w)
  else if tst msr MNR then
    (* Nack *)
    let w :=
      if tst (flags (priv w)) ID_P_NOT_ATOMIC
      then rcar_i2c_write ICMIER RCAR_IRQ_STOP w
      else w in
    let w := upd_priv (fun p => set_flags (Z.lor (flags p) ID_NACK) p) w in
    (IRQ_HANDLED, irq_out w)
  else if tst msr MST then
    (* Stop *)
    let w := upd_priv (fun p => set_msgs_left (msgs_left p - 1) p) w in
    let w := upd_priv (fun p => set_flags (Z.lor (flags p) ID_DONE) p) w in
    (IRQ_HANDLED, irq_out w)
  else
    let w :=
      if rcar_i2c_is_recv (priv w)
      then rcar_i2c_irq_recv e msr w
      else rcar_i2c_irq_send e msr w in
    (IRQ_HANDLED, irq_out w).

(** The status the two entries hand to rcar_i2c_irq: ICMSR, masked by ICMIER
    in interrupt mode. *)
Definition read_msr (e : irq_env) (w : world) : Z * world :=
  let '(msr, w) := rcar_i2c_read e ICMSR w in
  if tst (flags (priv w)) ID_P_NOT_ATOMIC then
    let '(ier, w) := rcar_i2c_read e ICMIER w in
    (Z.land msr ier, w)
  else (msr, w).

(** rcar_i2c_gen2_irq *)
Definition rcar_i2c_gen2_irq (e : irq_env) (w : world) : irqreturn_t * world :=
  let w :=
    if negb (tst (flags (priv w)) ID_REP_AFTER_RD)
    then rcar_i2c_write ICMCR RCAR_BUS_PHASE_DATA w
    else w in
  let '(msr, w) := read_msr e w in
  rcar_i2c_irq e msr w.

(** rcar_i2c_gen3_irq *)
Definition rcar_i2c_gen3_irq (e : irq_env) (w : world) : irqreturn_t * world :=
  let '(msr, w) := read_msr e w in
  let w :=
    if negb (tst (flags (priv w)) ID_REP_AFTER_RD) && negb (msr =? 0)
    then rcar_i2c_write ICMCR RCAR_BUS_PHASE_DATA w
    else w in
  rcar_i2c_irq e msr w.

(** The handler rcar_i2c_probe registers for the device, which is also the
    one the polling loop of the atomic entry calls. *)
Definition irqhandler (e : irq_env) (w : world) : irqreturn_t * world :=
  if devtype_val (devtype (priv w)) <? devtype_val I2C_RCAR_GEN3
  then rcar_i2c_gen2_irq e w
  else rcar_i2c_gen3_irq e w.

(** ** Transfer entry points *)

Definition EPROBE_DEFER := 517.

(** What the collaborators of rcar_i2c_master_xfer answer: the bus barrier
    (rcar_i2c_bus_barrier, built on readl_poll_timeout and
    i2c_recover_bus), the controller reset behind rcar_i2c_do_reset, and
    rcar_i2c_request_dma_chan for a direction ([true] for receive). *)
Record xfer_env := {
  barrier_ret : Z;
  reset_ret : Z;
  request_chan : bool -> dma_chan
}.

(** rcar_i2c_do_reset *)
Definition rcar_i2c_do_reset (xe : xfer_env) (w : world) : Z :=
  if slave (priv w) then - EISCONN else reset_ret xe.

(** rcar_i2c_request_dma *)
Definition rcar_i2c_request_dma (xe : xfer_env) (m : i2c_msg) (w : world) : world :=
  let read := m_rd m in
  let chan := if read then dma_rx (priv w) else dma_tx (priv w) in
  match chan with
  | ChanErr err =>
      if err =? - EPROBE_DEFER then
        if read then upd_priv (set_dma_rx (request_chan xe true)) w
        else upd_priv (set_dma_tx (request_chan xe false)) w
      else w
  | Chan => w
  end.

(** What happens in interrupt context while the submitting thread sleeps in
    wait_event_timeout: interrupts, and completion callbacks of the DMA
    engine. *)
Inductive xfer_event :=
| EvIrq (e : irq_env)
| EvDmaDone.

Definition in_flight (w : world) : bool :=
  negb (dir_eqb (dma_direction (priv w)) DMA_NONE).

Definition run_event (ev : xfer_event) (w : world) : world :=
  match ev with
  | EvIrq e => snd (irqhandler e w)
  | EvDmaDone => if in_flight w then rcar_i2c_dma_callback w else w
  end.

Definition run_events (evs : list xfer_event) (w : world) : world :=
  fold_left (fun w ev => run_event ev w) evs w.

(** The label [out] of both entry points: the error message, for every
    negative result but -ENXIO. *)
Definition xfer_out (ret : Z) (w : world) : Z * world :=
  (ret,
   if (ret <? 0) && negb (ret =? - ENXIO)
   then emit (DevErr ret (flags (priv w))) w
   else w).

(** The result mapping both entry points share, from the remaining time and
    the flags. *)
Definition xfer_result (time_left : bool) (num : Z) (w : world) : Z * world :=
  if negb time_left then (- ETIMEDOUT, rcar_i2c_init w)
  else if tst (flags (priv w)) ID_NACK then (- ENXIO, w)
  else if tst (flags (priv w)) ID_ARBLOST then (- EAGAIN, w)
  else if tst (flags (priv w)) ID_EPROTO then (- EPROTO, w)
  else (num - msgs_left (priv w), w).

(** rcar_i2c_master_xfer up to the wait: [None] when the transfer was
    started, [Some ret] when the function left through [out] before. *)
Definition master_xfer_begin (xe : xfer_env) (ms : list i2c_msg) (num : Z)
    (w : world) : option Z * world :=
  let w := upd_priv (fun p => set_flags (Z.lor (flags p) ID_P_NOT_ATOMIC) p) w in
  let ret := barrier_ret xe in
  if ret <? 0 then (Some ret, w)
  else
    let '(ret, w) :=
      if devtype_val I2C_RCAR_GEN3 <=? devtype_val (devtype (priv w)) then
        let ret := rcar_i2c_do_reset xe w in
        if ret =? 0
        then (ret, upd_priv (fun p => set_flags (clr (flags p) ID_P_NO_RXDMA) p) w)
        else (ret, w)
      else (0, w) in
    if negb (ret =? 0) then (Some ret, w)
    else
      let w := rcar_i2c_init w in
      let w :=
        fold_left (fun w m => rcar_i2c_request_dma xe m w)
          (take (Z.to_nat num) ms) w in
      (None, rcar_i2c_first_msg ms num w).

(** rcar_i2c_master_xfer after the wait.  wait_event_timeout gives 0 exactly
    when ID_DONE is still clear at the end of the wait. *)
Definition master_xfer_end (num : Z) (w : world) : Z * world :=
  let time_left := tst (flags (priv w)) ID_DONE in
  let w := if in_flight w then rcar_i2c_cleanup_dma true w else w in
  let '(ret, w) := xfer_result time_left num w in
  xfer_out ret w.

(** rcar_i2c_master_xfer, given what happens in interrupt context during
    the wait. *)
Definition rcar_i2c_master_xfer (xe : xfer_env) (ms : list i2c_msg) (num : Z)
    (evs : list xfer_event) (w : world) : Z * world :=
  match master_xfer_begin xe ms num w with
  | (Some ret, w) => xfer_out ret w
  | (None, w) => master_xfer_end num (run_events evs w)
  end.

(** One turn of the polling loop of rcar_i2c_master_xfer_atomic: [e0]
    answers the loop's own read of ICMSR, [e] the handler's reads. *)
Definition atomic_poll (e0 e : irq_env) (w : world) : world :=
  let '(msr, w) := rcar_i2c_read e0 ICMSR w in
  let msr :=
    Z.land msr
      (Z.lor (if rcar_i2c_is_recv (priv w) then RCAR_IRQ_RECV else RCAR_IRQ_SEND)
         RCAR_IRQ_STOP) in
  if msr =? 0 then w else snd (irqhandler e w).

(** The loop: each turn comes with the value of
    time_before_eq(jiffies, j) at its end.  The turns supplied are those
    the deadline leaves room for; when they run out the deadline has
    passed. *)
Fixpoint atomic_loop (turns : list (irq_env * irq_env * bool)) (w : world)
    : bool * world :=
  match turns with
  | [] => (false, w)
  | (e0, e, time_left) :: rest =>
      let w := atomic_poll e0 e w in
      if negb (tst (flags (priv w)) ID_DONE) && time_left
      then atomic_loop rest w
      else (time_left, w)
  end.

(** rcar_i2c_master_xfer_atomic *)
Definition rcar_i2c_master_xfer_atomic (xe : xfer_env) (ms : list i2c_msg)
    (num : Z) (turns : list (irq_env * irq_env * bool)) (w : world) : Z * world :=
  let w := upd_priv (fun p => set_flags (clr (flags p) ID_P_NOT_ATOMIC) p) w in
  let ret := barrier_ret xe in
  if ret <? 0 then xfer_out ret w
  else
    let w := rcar_i2c_init w in
    let w := rcar_i2c_first_msg ms num w in
    let '(time_left, w) := atomic_loop turns w in
    let '(ret, w) := xfer_result time_left num w in
    xfer_out ret w.

(** ** The transfer state machine and its environment

    The states a transfer passes through in interrupt context, from the
    state rcar_i2c_first_msg leaves.  The hardware delivers interrupts and
    the DMA engine its completion callback under two rules the driver
    relies on:
    - while a DMA transfer is in flight (the DMA-enable register is set),
      data-ready and data-empty are DMA requests, not interrupts: the
      handler is entered only for arbitration loss, NACK or stop, or
      finds no data status;
    - address-phase-done accompanies only the first data interrupt of a
      message, before any of its bytes was moved (position 0). *)

(** The status rcar_i2c_irq receives for the answers [e] in state [w]. *)
Definition irq_msr (e : irq_env) (w : world) : Z :=
  if tst (flags (priv w)) ID_P_NOT_ATOMIC
  then Z.land (u32 (hw_icmsr e)) (r_icmier w)
  else u32 (hw_icmsr e).

(** The handler would run rcar_i2c_irq_send or rcar_i2c_irq_recv past the
    spurious-interrupt test. *)
Definition data_phase (msr : Z) (w : world) : bool :=
  negb (msr =? 0) && negb (tst msr MAL) && negb (tst msr MNR)
  && negb (tst msr MST)
  && (if rcar_i2c_is_recv (priv w) then tst msr MDR else tst msr MDE).

Definition hw_contract (e : irq_env) (w : world) : Prop :=
  let msr := irq_msr e w in
  (in_flight w = true -> data_phase msr w = false)
  /\ (data_phase msr w = true -> tst msr MAT = true -> pos (priv w) = 0).

Inductive step : world -> world -> Prop :=
| step_irq e w :
    tst (flags (priv w)) ID_P_NOT_ATOMIC = true ->
    hw_contract e w ->
    step w (snd (irqhandler e w))
| step_dma_done w :
    in_flight w = true ->
    step w (rcar_i2c_dma_callback w)
| step_poll e0 e w :
    tst (flags (priv w)) ID_P_NOT_ATOMIC = false ->
    tst (flags (priv w)) ID_DONE = false ->
    hw_contract e w ->
    step w (atomic_poll e0 e w).

(** A message the caller may submit: the length is a u16, and a
    length-prefixed receive leaves room in it for the count byte's value. *)
Definition msg_ok (m : i2c_msg) : Prop :=
  0 <= len m < 2 ^ 16
  /\ (m_recv_len m = true -> len m + I2C_SMBUS_BLOCK_MAX < 2 ^ 16).

(** A batch: at least one message, all well formed. *)
Definition batch_ok (ms : list i2c_msg) : Prop :=
  (0 < length ms)%nat /\ Forall msg_ok ms.

(** The states of a transfer of the batch [ms] started in [w0]. *)
Inductive reachable (ms : list i2c_msg) (w0 : world) : world -> Prop :=
| reach_first :
    reachable ms w0 (rcar_i2c_first_msg ms (Z.of_nat (length ms)) w0)
| reach_step w w' :
    reachable ms w0 w -> step w w' -> reachable ms w0 w'.

(** * Specification vocabulary

    Predicates and sample inputs the theorems below are stated with. *)

(** The inputs as their C types bound them: BITS_PER_LONG at least 32, the
    rate an unsigned long below 2^32 * 20 MHz (every rate on a 32-bit
    kernel), the requested frequency a u32. *)
Definition clk_inputs_ok (bits rate : Z) (t : i2c_timings) : Prop :=
  32 <= bits /\ 0 <= rate < 2 ^ bits /\ rate < 4294967296 * 20000000
  /\ 0 <= bus_freq_hz t < 4294967296.

(** The context as rcar_i2c_probe sets it up before the clock calculation:
    zeroed, no DMA channel requested yet, no DMA transfer in flight. *)
Definition probe_priv (d : rcar_i2c_type) : rcar_i2c_priv :=
  {| flags := 0; msgs := []; msg := 0%nat; msgs_left := 0; pos := 0;
     icccr := 0; schd := 0; scld := 0; smd := 0; devtype := d;
     slave := false; dma_tx := ChanErr (- EPROBE_DEFER);
     dma_rx := ChanErr (- EPROBE_DEFER); sg_len := 0;
     dma_direction := DMA_NONE; slave_flags := 0 |}.

(** The default line timings with a requested bus frequency of [f]. *)
Definition timings_at (f : Z) : i2c_timings :=
  {| bus_freq_hz := f; scl_fall_ns := scl_fall_ns default_timings;
     scl_rise_ns := scl_rise_ns default_timings;
     scl_int_delay_ns := scl_int_delay_ns default_timings |}.

(** The flags rcar_i2c_prepare_msg leaves. *)
Definition prep_flags (p : rcar_i2c_priv) : Z :=
  let f := Z.land (flags p) ID_P_MASK in
  if msgs_left p =? 1 then Z.lor f ID_LAST_MSG else f.

(** The part of the invariant about the context alone. *)
Record core_inv (ms : list i2c_msg) (w : world) : Prop := {
  inv_shape : length (msgs (priv w)) = length ms;
  inv_idx : (msg (priv w) < length ms)%nat;
  inv_later : forall i, (msg (priv w) < i)%nat -> msgs (priv w) !! i = ms !! i;
  inv_len16 : 0 <= len (cur_msg (priv w)) < 2 ^ 16;
  inv_pos : 0 <= pos (priv w) <= len (cur_msg (priv w));
  inv_dma : in_flight w = true ->
            0 < sg_len (priv w)
            /\ pos (priv w) + sg_len (priv w) <= len (cur_msg (priv w));
  inv_left : 0 <= msgs_left (priv w);
  inv_run : tst (flags (priv w)) ID_DONE = false ->
            1 <= msgs_left (priv w)
            /\ Z.of_nat (msg (priv w)) + msgs_left (priv w) = Z.of_nat (length ms)
            /\ (tst (flags (priv w)) ID_LAST_MSG = true <-> msgs_left (priv w) = 1)
            /\ tst (flags (priv w)) ID_ARBLOST = false
            /\ tst (flags (priv w)) ID_EPROTO = false;
  inv_done : tst (flags (priv w)) ID_DONE = true ->
             Z.of_nat (msg (priv w)) + msgs_left (priv w)
             + (if tst (flags (priv w)) ID_ARBLOST || tst (flags (priv w)) ID_EPROTO
                then 0 else 1)
             = Z.of_nat (length ms)
}.

(** The part about the interrupt-enable register in interrupt mode: a
    finished transfer has every master interrupt disabled, and after a NACK
    only the stop interrupt is left enabled. *)
Definition ier_inv (w : world) : Prop :=
  tst (flags (priv w)) ID_P_NOT_ATOMIC = true ->
  (tst (flags (priv w)) ID_DONE = true -> r_icmier w = 0)
  /\ (tst (flags (priv w)) ID_NACK = true ->
      r_icmier w = 0 \/ r_icmier w = RCAR_IRQ_STOP).

(** A message whose first byte is still to come, with no DMA transfer in
    flight, still has the length the caller declared. *)
Definition fresh_inv (w : world) : Prop :=
  pos (priv w) = 0 -> in_flight w = false -> msg_ok (cur_msg (priv w)).

(** The invariant of a transfer of the batch [ms]. *)
Definition xfer_inv (ms : list i2c_msg) (w : world) : Prop :=
  core_inv ms w /\ fresh_inv w /\ ier_inv w.

(** Two flag words agree on the bits the invariant reads. *)
Definition flags_agree (f f' : Z) : Prop :=
  tst f' ID_DONE = tst f ID_DONE
  /\ tst f' ID_LAST_MSG = tst f ID_LAST_MSG
  /\ tst f' ID_ARBLOST = tst f ID_ARBLOST
  /\ tst f' ID_EPROTO = tst f ID_EPROTO
  /\ tst f' ID_NACK = tst f ID_NACK
  /\ tst f' ID_P_NOT_ATOMIC = tst f ID_P_NOT_ATOMIC.

(** What a data-phase step leaves: the invariant of the context, the mode
    bit as it was, and no NACK that was not there before. *)
Definition data_post (ms : list i2c_msg) (w w' : world) : Prop :=
  core_inv ms w' /\ fresh_inv w'
  /\ tst (flags (priv w')) ID_P_NOT_ATOMIC = tst (flags (priv w)) ID_P_NOT_ATOMIC
  /\ (tst (flags (priv w')) ID_NACK = true -> tst (flags (priv w)) ID_NACK = true).

(** The actions the handler's body performs: every one but the wake-up, the
    error message, and a write of the data-phase value to ICMCR, which are
    left to the code at [out], the entry points and the two front ends. *)
Definition quiet (a : action) : bool :=
  match a with
  | WakeUp => false
  | DevErr _ _ => false
  | Write ICMCR v => negb (v =? RCAR_BUS_PHASE_DATA)
  | _ => true
  end.

(** [w'] continues the trace of [w] with quiet actions. *)
Definition appends (w w' : world) : Prop :=
  exists l, trace w' = trace w ++ l /\ forallb quiet l = true.

(** A freshly probed controller: interrupts disabled, nothing done yet. *)
Definition probe_world (d : rcar_i2c_type) : world :=
  {| priv := probe_priv d; r_icmier := 0; r_icsier := 0; trace := [] |}.

(** The answers of an interrupt with status [msr] and data byte [rx]; the
    DMA engine accepts what it is given. *)
Definition irq_answers (msr rx : Z) : irq_env :=
  {| hw_icmsr := msr; hw_icrxtx := rx; hw_icssr := 0;
     dma_map_ok := true; dma_prep_ok := true; dma_submit_ok := true;
     slave_cb := fun _ => (0, 0) |}.

(** A free bus, a reset that works, DMA channels granted on request. *)
Definition xfer_answers : xfer_env :=
  {| barrier_ret := 0; reset_ret := 0; request_chan := fun _ => Chan |}.

(** A write of [bytes] to address [a], from a buffer not marked DMA-safe. *)
Definition msg_write (a : Z) (bytes : list Z) : i2c_msg :=
  {| addr := a; m_rd := false; m_dma_safe := false; m_recv_len := false;
     len := Z.of_nat (length bytes); buf := bytes |}.

(** A read of [n] bytes from address [a], into a buffer not marked DMA-safe. *)
Definition msg_read (a n : Z) : i2c_msg :=
  {| addr := a; m_rd := true; m_dma_safe := false; m_recv_len := false;
     len := n; buf := repeat 0 (Z.to_nat n) |}.

(** A read of two bytes followed by a write, on a legacy controller, after
    the first byte of the read arrived: the repeated start is programmed and
    ID_REP_AFTER_RD is set. *)
Definition world_rep_after_rd : world :=
  run_events [EvIrq (irq_answers 3 0); EvIrq (irq_answers 2 17)]
    (snd (master_xfer_begin xfer_answers [msg_read 80 2; msg_write 80 [7]] 2
            (probe_world I2C_RCAR_GEN2))).

(** What was done between two states. *)
Definition since (w w' : world) : list action :=
  drop (length (trace w)) (trace w').

(** Interrupt mode after a NACK: the flag is set and at most the stop
    interrupt is enabled. *)
Definition nack_pending (w : world) : Prop :=
  tst (flags (priv w)) ID_P_NOT_ATOMIC = true
  /\ tst (flags (priv w)) ID_NACK = true
  /\ (r_icmier w = 0 \/ r_icmier w = RCAR_IRQ_STOP).

(** A turn of the polling loop of an atomic transfer in which the status
    shows a NACK: MNR is set in both reads of ICMSR, the loop's and the
    handler's, and the handler's shows no arbitration loss. *)
Definition nack_turn (t : irq_env * irq_env * bool) : Prop :=
  tst (u32 (hw_icmsr (fst (fst t)))) MNR = true
  /\ tst (u32 (hw_icmsr (snd (fst t)))) MNR = true
  /\ tst (u32 (hw_icmsr (snd (fst t)))) MAL = false.

(** The direction, the first byte and the byte count rcar_i2c_dma hands to
    the engine for the current message. *)
Definition dma_dir (m : i2c_msg) : dma_data_direction :=
  if m_rd m then DMA_FROM_DEVICE else DMA_TO_DEVICE.

Definition dma_first (m : i2c_msg) : Z := if m_rd m then 0 else 1.

Definition dma_count (m : i2c_msg) : Z := if m_rd m then len m - 2 else len m - 1.


(** The events of a wait respect the hardware rules. *)
Fixpoint admissible (evs : list xfer_event) (w : world) : Prop :=
  match evs with
  | [] => True
  | ev :: rest =>
      match ev with EvIrq e => hw_contract e w | EvDmaDone => True end
      /\ admissible rest (run_event ev w)
  end.

(** The states a wait passes through, the first one included. *)
Fixpoint run_history (evs : list xfer_event) (w : world) : list world :=
  w :: match evs with
       | [] => []
       | ev :: rest => run_history rest (run_event ev w)
       end.

(** How often a sequence of values of msgs_left goes down by one. *)
Fixpoint decrements (l : list Z) : nat :=
  match l with
  | a :: (b :: _) as rest =>
      Nat.add (if b =? a - 1 then 1%nat else 0%nat) (decrements rest)
  | _ => 0%nat
  end.

(** A write from a DMA-safe buffer. *)
Definition msg_write_dma (a : Z) (bytes : list Z) : i2c_msg :=
  {| addr := a; m_rd := false; m_dma_safe := true; m_recv_len := false;
     len := Z.of_nat (length bytes); buf := bytes |}.

(** An SMBus block read as the I2C core submits it: one byte declared, room
    for the count byte and 32 more. *)
Definition msg_block_read (a : Z) : i2c_msg :=
  {| addr := a; m_rd := true; m_dma_safe := false; m_recv_len := true;
     len := 1; buf := repeat 0 34 |}.

(** Answers of an engine that has no descriptor to give. *)
Definition irq_answers_no_desc (msr : Z) : irq_env :=
  {| hw_icmsr := msr; hw_icrxtx := 0; hw_icssr := 0;
     dma_map_ok := true; dma_prep_ok := false; dma_submit_ok := true;
     slave_cb := fun _ => (0, 0) |}.

(** The state at the start of the wait of a transfer of [ms] on a freshly
    probed controller. *)
Definition started (d : rcar_i2c_type) (ms : list i2c_msg) : world :=
  snd (master_xfer_begin xfer_answers ms (Z.of_nat (length ms)) (probe_world d)).

(** A controller about to start a transfer in interrupt mode. *)
Definition idle_world (d : rcar_i2c_type) : world :=
  upd_priv (fun p => set_flags (Z.lor (flags p) ID_P_NOT_ATOMIC) p) (probe_world d).

(** A write of two bytes: address and first byte, second byte, end of
    data, stop. *)
Definition write2_events : list xfer_event :=
  [EvIrq (irq_answers 9 0); EvIrq (irq_answers 8 0); EvIrq (irq_answers 8 0);
   EvIrq (irq_answers 16 0)].

(** A write of two bytes followed by a read of two bytes. *)
Definition write2_read2_events : list xfer_event :=
  [EvIrq (irq_answers 9 0); EvIrq (irq_answers 8 0); EvIrq (irq_answers 8 0);
   EvIrq (irq_answers 3 0); EvIrq (irq_answers 2 17); EvIrq (irq_answers 2 18);
   EvIrq (irq_answers 16 0)].

(** The two-byte write with both bytes sent and the stop requested. *)
Definition write2_sent : world :=
  run_events (take 3 write2_events) (started I2C_RCAR_GEN3 [msg_write 80 [1; 2]]).

(** A DMA-safe write of eight bytes after its first byte went out. *)
Definition write8_first_sent : world :=
  run_events [EvIrq (irq_answers 9 0)]
    (started I2C_RCAR_GEN3 [msg_write_dma 80 [1; 2; 3; 4; 5; 6; 7; 8]]).


(** A read into a DMA-safe buffer. *)
Definition msg_read_dma (a n : Z) : i2c_msg :=
  {| addr := a; m_rd := true; m_dma_safe := true; m_recv_len := false;
     len := n; buf := repeat 0 (Z.to_nat n) |}.

(** * Vocabulary of the further properties *)

(** The result rcar_i2c_master_xfer and rcar_i2c_master_xfer_atomic map
    the flags and the count of messages left to, once the wait is over. *)
Definition result_of (num : Z) (p : rcar_i2c_priv) : Z :=
  if tst (flags p) ID_NACK then - ENXIO
  else if tst (flags p) ID_ARBLOST then - EAGAIN
  else if tst (flags p) ID_EPROTO then - EPROTO
  else num - msgs_left p.

(** What the driver may do in atomic context: no wake-up, no use of the DMA
    engine, and no master interrupt enabled. *)
Definition atomic_ok (a : action) : bool :=
  match a with
  | WakeUp => false
  | DmaMap _ _ _ _ => false
  | DmaUnmap _ _ => false
  | DmaPrep _ => false
  | DmaSubmit _ => false
  | DmaIssuePending => false
  | DmaTerminateSync => false
  | Write ICMIER v => v =? 0
  | Write ICDMAER _ => false
  | _ => true
  end.

(** [x] continues [w] in atomic mode with nothing but such actions. *)
Definition akeep (w x : world) : Prop :=
  tst (flags (priv x)) ID_P_NOT_ATOMIC = false
  /\ exists l, trace x = trace w ++ l /\ forallb atomic_ok l = true.

(** * The device around the controller

    The driver's functions outside the transfer path: registration of the
    slave interface, the line callbacks of bus recovery, probe and
    removal. *)

(** Modelled from the spec: the errno values behind the design's error
    kinds AlreadyRegistered and AddressModeUnsupported, and the one of a
    failed allocation; the driver file only names them. *)
Definition EBUSY := 16.
Definition EAFNOSUPPORT := 97.
Definition ENOMEM := 12.

(** Modelled from the spec: IS_ERR and PTR_ERR of linux/err.h for a pointer
    taken as a signed long: an error pointer carries one of the errno
    values -MAX_ERRNO .. -1, and PTR_ERR gives it back unchanged. *)
Definition MAX_ERRNO := 4095.
Definition IS_ERR_PTR (ptr : Z) : bool := (- MAX_ERRNO <=? ptr) && (ptr <? 0).

(** The platform device, as far as the driver changes it: the controller
    with its context; priv->recovery_icmcr (a u8), which the transfer path
    never reads; priv->host_notify_client, a pointer taken as a signed long
    (0 is NULL), and the number of host-notify clients alive
    (i2c_new_slave_host_notify_device makes one,
    i2c_free_slave_host_notify_device frees one); whether runtime PM is
    enabled and the runtime-PM usage count; the depth of disable_irq on the
    interrupt line; whether the adapter is registered
    (i2c_add_numbered_adapter, i2c_del_adapter); and the number of
    dma_release_channel calls made. *)
Record device := {
  ctl : world;
  recovery_icmcr : Z;
  host_notify_client : Z;
  host_notify_devs : Z;
  pm_enabled : bool;
  pm_usage : Z;
  irq_depth : Z;
  adap_added : bool;
  dma_released : Z
}.

Definition upd_ctl (f : world -> world) (d : device) : device :=
  {| ctl := f (ctl d); recovery_icmcr := recovery_icmcr d;
     host_notify_client := host_notify_client d;
     host_notify_devs := host_notify_devs d; pm_enabled := pm_enabled d;
     pm_usage := pm_usage d; irq_depth := irq_depth d;
     adap_added := adap_added d; dma_released := dma_released d |}.

Definition set_recovery_icmcr (v : Z) (d : device) : device :=
  {| ctl := ctl d; recovery_icmcr := v;
     host_notify_client := host_notify_client d;
     host_notify_devs := host_notify_devs d; pm_enabled := pm_enabled d;
     pm_usage := pm_usage d; irq_depth := irq_depth d;
     adap_added := adap_added d; dma_released := dma_released d |}.

Definition set_host_notify (c : Z) (n : Z) (d : device) : device :=
  {| ctl := ctl d; recovery_icmcr := recovery_icmcr d;
     host_notify_client := c; host_notify_devs := n;
     pm_enabled := pm_enabled d; pm_usage := pm_usage d;
     irq_depth := irq_depth d; adap_added := adap_added d;
     dma_released := dma_released d |}.

Definition set_pm_enabled (v : bool) (d : device) : device :=
  {| ctl := ctl d; recovery_icmcr := recovery_icmcr d;
     host_notify_client := host_notify_client d;
     host_notify_devs := host_notify_devs d; pm_enabled := v;
     pm_usage := pm_usage d; irq_depth := irq_depth d;
     adap_added := adap_added d; dma_released := dma_released d |}.

Definition set_pm_usage (v : Z) (d : device) : device :=
  {| ctl := ctl d; recovery_icmcr := recovery_icmcr d;
     host_notify_client := host_notify_client d;
     host_notify_devs := host_notify_devs d; pm_enabled := pm_enabled d;
     pm_usage := v; irq_depth := irq_depth d;
     adap_added := adap_added d; dma_released := dma_released d |}.

Definition set_irq_depth (v : Z) (d : device) : device :=
  {| ctl := ctl d; recovery_icmcr := recovery_icmcr d;
     host_notify_client := host_notify_client d;
     host_notify_devs := host_notify_devs d; pm_enabled := pm_enabled d;
     pm_usage := pm_usage d; irq_depth := v;
     adap_added := adap_added d; dma_released := dma_released d |}.

Definition set_adap_added (v : bool) (d : device) : device :=
  {| ctl := ctl d; recovery_icmcr := recovery_icmcr d;
     host_notify_client := host_notify_client d;
     host_notify_devs := host_notify_devs d; pm_enabled := pm_enabled d;
     pm_usage := pm_usage d; irq_depth := irq_depth d;
     adap_added := v; dma_released := dma_released d |}.

Definition set_dma_released (v : Z) (d : device) : device :=
  {| ctl := ctl d; recovery_icmcr := recovery_icmcr d;
     host_notify_client := host_notify_client d;
     host_notify_devs := host_notify_devs d; pm_enabled := pm_enabled d;
     pm_usage := pm_usage d; irq_depth := irq_depth d;
     adap_added := adap_added d; dma_released := v |}.

(** Modelled from the spec: runtime PM and the interrupt line are among the
    design's external collaborators (power-domain activation,
    interrupt-line registration).  Of pm_runtime_get_sync and
    pm_runtime_put the usage count is kept, of pm_runtime_enable and
    pm_runtime_disable the enabled state, of disable_irq and enable_irq the
    nesting depth. *)
Definition pm_runtime_get_sync (d : device) : device :=
  set_pm_usage (pm_usage d + 1) d.
Definition pm_runtime_put (d : device) : device :=
  set_pm_usage (pm_usage d - 1) d.
Definition pm_runtime_enable (d : device) : device := set_pm_enabled true d.
Definition pm_runtime_disable (d : device) : device := set_pm_enabled false d.
Definition disable_irq (d : device) : device :=
  set_irq_depth (irq_depth d + 1) d.
Definition enable_irq (d : device) : device :=
  set_irq_depth (irq_depth d - 1) d.

(** ** The slave interface *)

(** rcar_i2c_reset_slave *)
Definition rcar_i2c_reset_slave (w : world) : world :=
  let w := rcar_i2c_write ICSIER 0 w in
  let w := rcar_i2c_write ICSSR 0 w in
  let w := rcar_i2c_write ICSCR SDBS w in
  rcar_i2c_write ICSAR 0 w.

(** rcar_reg_slave.  [ten] is slave->flags & I2C_CLIENT_TEN, [addr] is
    slave->addr (an unsigned short). *)
Definition rcar_reg_slave (ten : bool) (addr : Z) (d : device) : Z * device :=
  if slave (priv (ctl d)) then (- EBUSY, d)
  else if ten then (- EAFNOSUPPORT, d)
  else
    (* Keep device active for slave address detection logic *)
    let d := pm_runtime_get_sync d in
    let d := upd_ctl (upd_priv (set_slave true)) d in
    let d := upd_ctl (rcar_i2c_write ICSAR addr) d in
    let d := upd_ctl (rcar_i2c_write ICSSR 0) d in
    let d := upd_ctl (rcar_i2c_write ICSIER SAR) d in
    let d := upd_ctl (rcar_i2c_write ICSCR (Z.lor SIE SDBS)) d in
    (0, d).

(** rcar_unreg_slave.  WARN_ON(!priv->slave) shows in the trace as [Warn]. *)
Definition rcar_unreg_slave (d : device) : Z * device :=
  let d := if slave (priv (ctl d)) then d else upd_ctl (emit Warn) d in
  (* ensure no irq is running before clearing ptr *)
  let d := disable_irq d in
  let d := upd_ctl rcar_i2c_reset_slave d in
  let d := enable_irq d in
  let d := upd_ctl (upd_priv (set_slave false)) d in
  let d := pm_runtime_put d in
  (0, d).

(** Modelled from the spec: i2c_new_slave_host_notify_device and
    i2c_free_slave_host_notify_device, which the driver file only calls.
    The design names host notify as a persistent flag only; what the two
    functions do is taken from the I2C core (i2c-smbus.c and
    i2c-core-slave.c).  The first makes a client at the SMBus host address
    0x08, not a ten-bit one, and registers it as a slave through the
    reg_slave of the adapter, which is rcar_reg_slave; [ptr] is what its
    allocations give, the client or an error pointer.  When the registration
    fails it frees the client again and returns the error as a pointer.  The
    second does nothing for NULL and for an error pointer; otherwise it
    unregisters the slave through the unreg_slave of the adapter, which is
    rcar_unreg_slave, and frees the client. *)
Definition i2c_new_slave_host_notify_device (ptr : Z) (d : device) : Z * device :=
  if IS_ERR_PTR ptr then (ptr, d)
  else
    let d := set_host_notify (host_notify_client d) (host_notify_devs d + 1) d in
    let '(ret, d) := rcar_reg_slave false 8 d in
    if ret =? 0 then (ptr, d)
    else (ret, set_host_notify (host_notify_client d) (host_notify_devs d - 1) d).

Definition i2c_free_slave_host_notify_device (client : Z) (d : device) : device :=
  if IS_ERR_PTR client || (client =? 0) then d
  else
    let '(_, d) := rcar_unreg_slave d in
    set_host_notify (host_notify_client d) (host_notify_devs d - 1) d.

(** ** Bus recovery *)

(** rcar_i2c_get_scl.  [hw_icmcr] is what the read of ICMCR gives. *)
Definition rcar_i2c_get_scl (hw_icmcr : Z) (d : device) : Z * device :=
  let v := u32 hw_icmcr in
  (if tst v FSCL then 1 else 0, upd_ctl (emit (Read ICMCR v)) d).

(** rcar_i2c_set_scl *)
Definition rcar_i2c_set_scl (val : Z) (d : device) : device :=
  let d :=
    if negb (val =? 0)
    then set_recovery_icmcr (u8 (Z.lor (recovery_icmcr d) FSCL)) d
    else set_recovery_icmcr (u8 (Z.land (recovery_icmcr d) (Z.lnot FSCL))) d in
  upd_ctl (rcar_i2c_write ICMCR (recovery_icmcr d)) d.

(** rcar_i2c_set_sda *)
Definition rcar_i2c_set_sda (val : Z) (d : device) : device :=
  let d :=
    if negb (val =? 0)
    then set_recovery_icmcr (u8 (Z.lor (recovery_icmcr d) FSDA)) d
    else set_recovery_icmcr (u8 (Z.land (recovery_icmcr d) (Z.lnot FSDA))) d in
  upd_ctl (rcar_i2c_write ICMCR (recovery_icmcr d)) d.

(** rcar_i2c_get_bus_free *)
Definition rcar_i2c_get_bus_free (hw_icmcr : Z) (d : device) : Z * device :=
  let v := u32 hw_icmcr in
  (if tst v FSDA then 0 else 1, upd_ctl (emit (Read ICMCR v)) d).

(** The calls the recovery collaborator makes through rcar_i2c_bri, each
    read with the value the hardware gives. *)
Inductive bri_call :=
| GetScl (hw_icmcr : Z)
| SetScl (val : Z)
| SetSda (val : Z)
| GetBusFree (hw_icmcr : Z).

Definition run_bri (c : bri_call) (d : device) : device :=
  match c with
  | GetScl v => snd (rcar_i2c_get_scl v d)
  | SetScl val => rcar_i2c_set_scl val d
  | SetSda val => rcar_i2c_set_sda val d
  | GetBusFree v => snd (rcar_i2c_get_bus_free v d)
  end.

(** Modelled from the spec: readl_poll_timeout of linux/iopoll.h on ICMCR
    with the condition !(val & FSDA), the design's poll of the bus-busy
    indicator with a bounded timeout.  [v] is what the first read gives
    and [rest] what the further reads before the deadline give; the result
    is 0 at the first value with FSDA clear and -ETIMEDOUT when there is
    none. *)
Fixpoint readl_poll_timeout_fsda (v : Z) (rest : list Z) (d : device)
    : Z * device :=
  let d := upd_ctl (emit (Read ICMCR (u32 v))) d in
  if negb (tst (u32 v) FSDA) then (0, d)
  else
    match rest with
    | [] => (- ETIMEDOUT, d)
    | v' :: rest' => readl_poll_timeout_fsda v' rest' d
    end.

(** rcar_i2c_bus_barrier.  i2c_recover_bus runs the recovery collaborator;
    [calls] are the line callbacks it makes and [recover_ret] is its
    result. *)
Definition rcar_i2c_bus_barrier (v : Z) (rest : list Z) (calls : list bri_call)
    (recover_ret : Z) (d : device) : Z * device :=
  let '(ret, d) := readl_poll_timeout_fsda v rest d in
  if negb (ret =? 0) then
    (* Waiting did not help, try to recover *)
    let d :=
      set_recovery_icmcr (Z.lor (Z.lor (Z.lor MDBS OBPC) FSDA) FSCL) d in
    (recover_ret, fold_left (fun d c => run_bri c d) calls d)
  else (ret, d).

(** ** Transfers with their runtime-PM reference *)

(** rcar_i2c_master_xfer and rcar_i2c_master_xfer_atomic hold a runtime-PM
    reference from their entry to the label [out]. *)
Definition master_xfer_pm (xe : xfer_env) (ms : list i2c_msg) (num : Z)
    (evs : list xfer_event) (d : device) : Z * device :=
  let d := pm_runtime_get_sync d in
  let '(ret, w) := rcar_i2c_master_xfer xe ms num evs (ctl d) in
  (ret, pm_runtime_put (upd_ctl (fun _ => w) d)).

Definition master_xfer_atomic_pm (xe : xfer_env) (ms : list i2c_msg) (num : Z)
    (turns : list (irq_env * irq_env * bool)) (d : device) : Z * device :=
  let d := pm_runtime_get_sync d in
  let '(ret, w) := rcar_i2c_master_xfer_atomic xe ms num turns (ctl d) in
  (ret, pm_runtime_put (upd_ctl (fun _ => w) d)).

(** ** Probe and removal *)

(** rcar_i2c_release_dma *)
Definition rcar_i2c_release_dma (d : device) : device :=
  let d :=
    if negb (IS_ERR (dma_tx (priv (ctl d)))) then
      let d := set_dma_released (dma_released d + 1) d in
      upd_ctl (upd_priv (set_dma_tx (ChanErr (- EPROBE_DEFER)))) d
    else d in
  if negb (IS_ERR (dma_rx (priv (ctl d)))) then
    let d := set_dma_released (dma_released d + 1) d in
    upd_ctl (upd_priv (set_dma_rx (ChanErr (- EPROBE_DEFER)))) d
  else d.

(** What the platform and the other kernel services answer to
    rcar_i2c_probe: pointers as signed longs, results as ints;
    [pe_match_data] is of_device_get_match_data, [pe_bits], [pe_rate] and
    [pe_timings] are the inputs of the clock calculation, [pe_multi_master]
    and [pe_smbus] the two device-tree properties. *)
Record probe_env := {
  pe_kzalloc : bool;           (* devm_kzalloc gave memory *)
  pe_clk : Z;                  (* devm_clk_get *)
  pe_io : Z;                   (* devm_platform_get_and_ioremap_resource *)
  pe_match_data : rcar_i2c_type;
  pe_bits : Z;
  pe_rate : Z;
  pe_timings : i2c_timings;
  pe_multi_master : bool;
  pe_smbus : bool;
  pe_rstc : Z;                 (* devm_reset_control_get_exclusive *)
  pe_reset_status : Z;         (* reset_control_status *)
  pe_irq : Z;                  (* platform_get_irq *)
  pe_request_irq : Z;          (* devm_request_irq *)
  pe_add_adapter : Z;          (* i2c_add_numbered_adapter *)
  pe_host_notify : Z           (* the client i2c_new_slave_host_notify_device
                                  allocates, or an error pointer *)
}.

(** The labels out_pm_disable, out_pm_put and out_del_device of
    rcar_i2c_probe. *)
Definition probe_out_pm_disable (ret : Z) (d : device) : Z * device :=
  (ret, pm_runtime_disable d).

Definition probe_out_pm_put (ret : Z) (d : device) : Z * device :=
  let d :=
    if tst (flags (priv (ctl d))) ID_P_PM_BLOCKED then pm_runtime_put d
    else d in
  probe_out_pm_disable ret d.

Definition probe_out_del_device (ret : Z) (d : device) : Z * device :=
  probe_out_pm_put ret (set_adap_added false d).

(** rcar_i2c_probe.  The context starts zeroed (devm_kzalloc); the log
    messages and the fields of the adapter the driver only fills in are
    left out. *)
Definition rcar_i2c_probe (pe : probe_env) (d : device) : Z * device :=
  if negb (pe_kzalloc pe) then (- ENOMEM, d)
  else if IS_ERR_PTR (pe_clk pe) then (pe_clk pe, d)
  else if IS_ERR_PTR (pe_io pe) then (pe_io pe, d)
  else
    let d := upd_ctl (upd_priv (fun _ => probe_priv (pe_match_data pe))) d in
    let d := set_recovery_icmcr 0 d in
    let d := set_host_notify 0 (host_notify_devs d) d in
    (* Activate device for clock calculation *)
    let d := pm_runtime_enable d in
    let d := pm_runtime_get_sync d in
    let '(ret, p) :=
      rcar_i2c_clock_calculate (pe_bits pe) (pe_rate pe) (pe_timings pe)
        (priv (ctl d)) in
    let d := upd_ctl (upd_priv (fun _ => p)) d in
    if ret <? 0 then probe_out_pm_disable ret (pm_runtime_put d)
    else
      (* Bring hardware to known state *)
      let d := upd_ctl rcar_i2c_init d in
      let d := upd_ctl rcar_i2c_reset_slave d in
      (* Stay always active when multi-master to keep arbitration working *)
      let d :=
        if pe_multi_master pe
        then upd_ctl (upd_priv
                        (fun p => set_flags (Z.lor (flags p) ID_P_PM_BLOCKED) p)) d
        else pm_runtime_put d in
      let d :=
        if pe_smbus pe
        then upd_ctl (upd_priv
                        (fun p => set_flags (Z.lor (flags p) ID_P_HOST_NOTIFY) p)) d
        else d in
      let '(err, d) :=
        if devtype_val (devtype (priv (ctl d))) <? devtype_val I2C_RCAR_GEN3
        then (None, d)
        else if IS_ERR_PTR (pe_rstc pe) then (Some (pe_rstc pe), d)
        else if pe_reset_status pe <? 0 then (Some (pe_reset_status pe), d)
        else
          (* hard reset disturbs HostNotify local target, so disable it *)
          (None,
           upd_ctl (upd_priv
                      (fun p => set_flags (clr (flags p) ID_P_HOST_NOTIFY) p)) d) in
      match err with
      | Some ret => probe_out_pm_put ret d
      | None =>
          if pe_irq pe <? 0 then probe_out_pm_put (pe_irq pe) d
          else if pe_request_irq pe <? 0
          then probe_out_pm_put (pe_request_irq pe) d
          else if pe_add_adapter pe <? 0
          then probe_out_pm_put (pe_add_adapter pe) d
          else
            let d := set_adap_added true d in
            if tst (flags (priv (ctl d))) ID_P_HOST_NOTIFY then
              let '(client, d) :=
                i2c_new_slave_host_notify_device (pe_host_notify pe) d in
              let d := set_host_notify client (host_notify_devs d) d in
              if IS_ERR_PTR client then probe_out_del_device client d
              else (0, d)
            else (0, d)
      end.

(** rcar_i2c_remove *)
Definition rcar_i2c_remove (d : device) : device :=
  let d :=
    if negb (host_notify_client d =? 0)
    then i2c_free_slave_host_notify_device (host_notify_client d) d
    else d in
  let d := set_adap_added false d in
  let d := rcar_i2c_release_dma d in
  let d :=
    if tst (flags (priv (ctl d))) ID_P_PM_BLOCKED then pm_runtime_put d
    else d in
  pm_runtime_disable d.

(** A device no driver is bound to, with the controller's registers as the
    hardware has them. *)
Definition unbound (d : device) : Prop :=
  pm_enabled d = false /\ adap_added d = false /\ host_notify_devs d = 0.

(** What the users of a probed adapter do with it. *)
Inductive dev_op :=
| OpXfer (xe : xfer_env) (ms : list i2c_msg) (num : Z) (evs : list xfer_event)
| OpXferAtomic (xe : xfer_env) (ms : list i2c_msg) (num : Z)
    (turns : list (irq_env * irq_env * bool))
| OpRegSlave (ten : bool) (addr : Z)
| OpUnregSlave
| OpIrq (e : irq_env).

Definition run_op (o : dev_op) (d : device) : device :=
  match o with
  | OpXfer xe ms num evs => snd (master_xfer_pm xe ms num evs d)
  | OpXferAtomic xe ms num turns => snd (master_xfer_atomic_pm xe ms num turns d)
  | OpRegSlave ten addr => snd (rcar_reg_slave ten addr d)
  | OpUnregSlave => snd (rcar_unreg_slave d)
  | OpIrq e => upd_ctl (fun w => snd (irqhandler e w)) d
  end.

(** priv->host_notify_client points to a client. *)
Definition host_notify_live (d : device) : bool :=
  negb (host_notify_client d =? 0) && negb (IS_ERR_PTR (host_notify_client d)).

(** The i2c core unregisters only a slave that is registered, and the one
    of the host-notify client only from rcar_i2c_remove: a user of the
    adapter unregisters the slave it has registered itself. *)
Definition op_ok (o : dev_op) (d : device) : Prop :=
  match o with
  | OpUnregSlave => slave (priv (ctl d)) = true /\ host_notify_live d = false
  | _ => True
  end.

Fixpoint ops_ok (ops : list dev_op) (d : device) : Prop :=
  match ops with
  | [] => True
  | o :: rest => op_ok o d /\ ops_ok rest (run_op o d)
  end.

Definition run_ops (ops : list dev_op) (d : device) : device :=
  fold_left (fun d o => run_op o d) ops d.

(** The configuration probe leaves in the context: the persistent flags
    for fast-mode plus, host notify and blocked runtime PM, the slave
    registration, the controller generation and the clock settings. *)
Definition cfg (p : rcar_i2c_priv)
    : bool * bool * bool * bool * rcar_i2c_type * (Z * Z * Z * Z) :=
  (tst (flags p) ID_P_FMPLUS, tst (flags p) ID_P_HOST_NOTIFY,
   tst (flags p) ID_P_PM_BLOCKED, slave p, devtype p,
   (icccr p, schd p, scld p, smd p)).

(** The slave interface listens for its address: ICSIER holds one of the
    three values the driver programs while a slave is registered, each with
    the address interrupt enabled. *)
Definition listening (ier : Z) : Prop :=
  ier = SAR \/ ier = Z.lor (Z.lor SDE SSR) SAR \/ ier = Z.lor (Z.lor SDR SSR) SAR.

(** From [w] to [x] the configuration is as it was, and the slave interrupt
    enables are as they were or, if changed, still listening. *)
Definition config_kept (w x : world) : Prop :=
  cfg (priv x) = cfg (priv w)
  /\ (r_icsier x = r_icsier w \/ listening (r_icsier x)).

(** An unbound device with a controller of generation [g] behind it, and
    answers with which rcar_i2c_probe succeeds on it. *)
Definition unbound_device (g : rcar_i2c_type) : device :=
  {| ctl := probe_world g; recovery_icmcr := 0; host_notify_client := 0;
     host_notify_devs := 0; pm_enabled := false; pm_usage := 0;
     irq_depth := 0; adap_added := false; dma_released := 0 |}.

Definition probe_answers (g : rcar_i2c_type) (multi_master smbus : bool)
    : probe_env :=
  {| pe_kzalloc := true; pe_clk := 4096; pe_io := 4096; pe_match_data := g;
     pe_bits := 64; pe_rate := 133330000; pe_timings := timings_at 400000;
     pe_multi_master := multi_master; pe_smbus := smbus; pe_rstc := 4096;
     pe_reset_status := 0; pe_irq := 32; pe_request_irq := 0;
     pe_add_adapter := 0; pe_host_notify := 4096 |}.

(** What the runtime-PM balance of a probed device rests on: one usage
    reference for a multi-master bus, recorded in ID_P_PM_BLOCKED, and one
    for a registered slave; the host-notify client, where there is one, is
    a registered slave. *)
Definition pm_inv (base : Z) (mm : bool) (d : device) : Prop :=
  pm_usage d
  = base + (if mm then 1 else 0) + (if slave (priv (ctl d)) then 1 else 0)
  /\ tst (flags (priv (ctl d))) ID_P_PM_BLOCKED = mm
  /\ pm_enabled d = true /\ adap_added d = true
  /\ host_notify_devs d = (if host_notify_live d then 1 else 0)
  /\ (host_notify_client d = 0 \/ host_notify_live d = true)
  /\ (host_notify_live d = true -> slave (priv (ctl d)) = true).

(** The state rcar_i2c_probe brings the controller to: master interrupts
    disabled, no DMA transfer in flight and no DMA channel asked for yet;
    the slave interface off with no slave registered or, where the
    host-notify client was registered ([hn]), listening for its address. *)
Definition known_state (hn : bool) (w : world) : Prop :=
  r_icmier w = 0 /\ r_icsier w = (if hn then SAR else 0)
  /\ slave (priv w) = hn /\ dma_direction (priv w) = DMA_NONE
  /\ dma_tx (priv w) = ChanErr (- EPROBE_DEFER)
  /\ dma_rx (priv w) = ChanErr (- EPROBE_DEFER).

(** The operations that leave a registration in place. *)
Definition keeps_slave (o : dev_op) : bool :=
  match o with OpUnregSlave => false | _ => true end.

(** The state of a device while the slave registered on [d] is in place. *)
Definition registered (d d' : device) : Prop :=
  slave (priv (ctl d')) = true /\ listening (r_icsier (ctl d'))
  /\ devtype (priv (ctl d')) = devtype (priv (ctl d))
  /\ pm_usage d' = pm_usage d + 1 /\ irq_depth d' = irq_depth d.

(** The value of ICMCR that drives the two lines during recovery: the bus
    interface enabled with override of the pins (MDBS and OBPC), SCL and
    SDA released where [scl] and [sda] are true and held low where they are
    false. *)
Definition icmcr_pins (scl sda : bool) : Z :=
  Z.lor (Z.lor (Z.lor MDBS OBPC) (if sda then FSDA else 0))
    (if scl then FSCL else 0).

(** The levels the recovery collaborator has asked for last, from both
    lines released. *)
Definition pin_levels (calls : list bri_call) : bool * bool :=
  fold_left
    (fun '(scl, sda) c =>
       match c with
       | SetScl val => (negb (val =? 0), sda)
       | SetSda val => (scl, negb (val =? 0))
       | _ => (scl, sda)
       end)
    calls (true, true).

(** What the bus barrier may do to the controller: read ICMCR, and write
    one of the four pin values to it. *)
Definition barrier_ok (a : action) : bool :=
  match a with
  | Read ICMCR _ => true
  | Write ICMCR v =>
      (v =? icmcr_pins true true) || (v =? icmcr_pins true false)
      || (v =? icmcr_pins false true) || (v =? icmcr_pins false false)
  | _ => false
  end.

Definition is_write (a : action) : bool :=
  match a with Write _ _ => true | _ => false end.

(** One of the values the poll reads shows the bus free. *)
Definition polled_free (v : Z) (rest : list Z) : bool :=
  existsb (fun x => negb (tst (u32 x) FSDA)) (v :: rest).

(** * Receive DMA on Gen3 and later *)




Definition gen3 (p : rcar_i2c_priv) : Prop :=
  devtype_val I2C_RCAR_GEN3 <= devtype_val (devtype p).


(** * The data of a transfer done byte by byte *)

(** The bytes written to and read from the data register, in order. *)
Definition sent (l : list action) : list Z :=
  flat_map (fun a => match a with Write ICRXTX v => [v] | _ => [] end) l.

Definition rcvd (l : list action) : list Z :=
  flat_map (fun a => match a with Read ICRXTX v => [u8 v] | _ => [] end) l.

(** buf[0] .. buf[n - 1] *)
Definition first_bytes (m : i2c_msg) (n : Z) : list Z :=
  map (fun i => buf_at m (Z.of_nat i)) (seq 0 (Z.to_nat n)).

(** The bytes a message sends, and those a message holds once received. *)
Definition write_bytes (m : i2c_msg) : list Z :=
  if m_rd m then [] else first_bytes m (len m).

Definition read_bytes (m : i2c_msg) : list Z :=
  if m_rd m then first_bytes m (len m) else [].

(** The message of the caller's batch [ms] that priv->msg points at. *)
Definition ms_at (ms : list i2c_msg) (p : rcar_i2c_priv) : i2c_msg :=
  default no_msg (ms !! msg p).

(** What has been sent when the transfer stands at the position of [p]:
    the write messages before the current one in full, and the current
    one, if it is a write, up to the position. *)
Definition pio_sent (ms : list i2c_msg) (p : rcar_i2c_priv) : list Z :=
  flat_map write_bytes (take (msg p) ms)
  ++ (if m_rd (ms_at ms p) then [] else first_bytes (ms_at ms p) (pos p)).

(** What the buffers hold of received data at the position of [p]. *)
Definition pio_rcvd (p : rcar_i2c_priv) : list Z :=
  flat_map read_bytes (take (msg p) (msgs p))
  ++ (if m_rd (cur_msg p) then first_bytes (cur_msg p) (pos p) else []).

(** No DMA is possible: the transfer is atomic, or there is no channel. *)
Definition pio (p : rcar_i2c_priv) : Prop :=
  tst (flags p) ID_P_NOT_ATOMIC = false
  \/ (IS_ERR (dma_tx p) = true /\ IS_ERR (dma_rx p) = true).

(** A receive buffer holds the declared length, and the 32 bytes more a
    length-prefixed receive may ask for. *)
Definition has_room (m : i2c_msg) : Prop :=
  m_rd m = true ->
  len m + (if m_recv_len m then I2C_SMBUS_BLOCK_MAX else 0)
  <= Z.of_nat (length (buf m)).

(** The current message is the caller's, but for the length and the
    contents of a receive buffer. *)
Definition cur_agrees (ms : list i2c_msg) (p : rcar_i2c_priv) : Prop :=
  m_rd (cur_msg p) = m_rd (ms_at ms p)
  /\ (m_rd (cur_msg p) = false -> cur_msg p = ms_at ms p).

Definition later_agree (ms : list i2c_msg) (p : rcar_i2c_priv) : Prop :=
  forall i, (msg p < i)%nat -> msgs p !! i = ms !! i.

Definition cur_room (p : rcar_i2c_priv) : Prop :=
  m_rd (cur_msg p) = true ->
  len (cur_msg p)
  + (if (pos p =? 0) && m_recv_len (cur_msg p) then I2C_SMBUS_BLOCK_MAX else 0)
  <= Z.of_nat (length (buf (cur_msg p))).

(** The invariant of the data of a transfer of [ms] started in [w0] and
    done byte by byte, with no slave interface enabled.  An invalid count
    byte of a length-prefixed receive is stored like any byte, but the
    position stays where it is: with ID_EPROTO set the buffers hold one
    byte more than the position accounts for. *)
Definition pio_inv (ms : list i2c_msg) (w0 x : world) : Prop :=
  (exists l, trace x = trace w0 ++ l
     /\ sent l = pio_sent ms (priv x)
     /\ (Forall has_room ms -> tst (flags (priv x)) ID_EPROTO = false ->
         rcvd l = pio_rcvd (priv x)))
  /\ length (msgs (priv x)) = length ms
  /\ cur_agrees ms (priv x) /\ later_agree ms (priv x)
  /\ (Forall has_room ms -> cur_room (priv x))
  /\ r_icsier x = 0 /\ in_flight x = false /\ pio (priv x).

(** A step that moves no data and leaves the position alone. *)
Definition neutral (p p' : rcar_i2c_priv) : Prop :=
  msg p' = msg p /\ pos p' = pos p /\ msgs p' = msgs p
  /\ dma_direction p' = dma_direction p
  /\ dma_tx p' = dma_tx p /\ dma_rx p' = dma_rx p
  /\ tst (flags p') ID_P_NOT_ATOMIC = tst (flags p) ID_P_NOT_ATOMIC
  /\ tst (flags p') ID_EPROTO = tst (flags p) ID_EPROTO.

(** * DMA channels and slave interrupts *)

(** A channel handle that still stands for "not asked yet". *)
Definition deferred (c : dma_chan) : bool :=
  match c with
  | ChanErr errno => errno =? - EPROBE_DEFER
  | Chan => false
  end.

(** The loop of rcar_i2c_master_xfer over rcar_i2c_request_dma. *)
Definition request_dma_all (xe : xfer_env) (ms : list i2c_msg) (w : world) : world :=
  fold_left (fun w m => rcar_i2c_request_dma xe m w) ms w.

(** The slave status rcar_i2c_slave_irq acts on: the raw status masked by
    the enabled interrupts. *)
Definition ssr_filtered (e : irq_env) (w : world) : Z :=
  Z.land (Z.land (u32 (hw_icssr e)) 255) (r_icsier w).

(** A run of slave interrupts. *)
Definition slave_run (es : list irq_env) (w : world) : world :=
  fold_left (fun w e => snd (rcar_i2c_slave_irq e w)) es w.

(** None of the interrupts of a run handles a stop. *)
Fixpoint no_stop (es : list irq_env) (w : world) : Prop :=
  match es with
  | [] => True
  | e :: rest =>
      tst (ssr_filtered e w) SSR = false
      /\ no_stop rest (snd (rcar_i2c_slave_irq e w))
  end.

(** The values written to ICSCR. *)
Definition icscr_writes (l : list action) : list Z :=
  flat_map (fun a => match a with Write ICSCR v => [v] | _ => [] end) l.

(** A slave interrupt with raw status [ssr] whose backend answers every
    event with [ret] and the byte 0. *)
Definition slave_answers (ssr ret : Z) : irq_env :=
  {| hw_icmsr := 0; hw_icrxtx := 0; hw_icssr := ssr;
     dma_map_ok := true; dma_prep_ok := true; dma_submit_ok := true;
     slave_cb := fun _ => (ret, 0) |}.

(** A controller in the middle of a write to its slave address: data,
    stop and address interrupts enabled. *)
Definition slave_receiving : world :=
  rcar_i2c_write ICSIER (Z.lor (Z.lor SDR SSR) SAR) (probe_world I2C_RCAR_GEN2).

(** The polling turns of an atomic transfer keep to the hardware's rules,
    as long as the loop runs. *)
Fixpoint admissible_turns (turns : list (irq_env * irq_env * bool)) (w : world)
    : Prop :=
  match turns with
  | [] => True
  | (e0, e, time_left) :: rest =>
      hw_contract e w
      /\ (negb (tst (flags (priv (atomic_poll e0 e w))) ID_DONE) && time_left = true ->
          admissible_turns rest (atomic_poll e0 e w))
  end.

(** The state in which the polling loop of an atomic transfer of [ms]
    begins on [w]. *)
Definition atomic_started (ms : list i2c_msg) (w : world) : world :=
  rcar_i2c_first_msg ms (Z.of_nat (length ms))
    (rcar_i2c_init
       (upd_priv (fun p => set_flags (clr (flags p) ID_P_NOT_ATOMIC) p) w)).

(** * Proofs *)

(** Reduces record projections applied to setters. *)
Ltac priv_simpl :=
  cbn [flags msgs msg msgs_left pos icccr schd scld smd devtype slave dma_tx
       dma_rx sg_len dma_direction slave_flags
       set_flags set_msgs set_msg set_msgs_left set_pos set_icccr set_schd
       set_scld set_smd set_slave set_dma_tx set_dma_rx set_sg_len
       set_dma_direction set_slave_flags fst snd] in *.

(** * The clock calculation *)

(** ** Machine arithmetic *)

Lemma u32_range z : 0 <= u32 z < 4294967296.
Proof. unfold u32. change (2 ^ 32) with 4294967296. apply Z.mod_pos_bound. lia. Qed.

Lemma u32_small z : 0 <= z < 4294967296 -> u32 z = z.
Proof. intros. unfold u32. change (2 ^ 32) with 4294967296. apply Z.mod_small. lia. Qed.

Lemma u32_wrap_neg z : - 4294967296 <= z < 0 -> u32 z = z + 4294967296.
Proof.
  intros. unfold u32. change (2 ^ 32) with 4294967296.
  symmetry. apply Z.mod_unique with (q := -1); lia.
Qed.

Lemma u32_wrap_pos z : 4294967296 <= z < 2 * 4294967296 -> u32 z = z - 4294967296.
Proof.
  intros. unfold u32. change (2 ^ 32) with 4294967296.
  symmetry. apply Z.mod_unique with (q := 1); lia.
Qed.

Lemma u32_sub_idem a b : u32 (u32 a - b) = u32 (a - b).
Proof. unfold u32. apply Zminus_mod_idemp_l. Qed.

Lemma u32_add_idem a b : u32 (u32 a + b) = u32 (a + b).
Proof. unfold u32. apply Zplus_mod_idemp_l. Qed.

(** Division that rounds up, when the sum inside does not wrap. *)
Lemma div_round_up_exact n d :
  0 <= n -> 0 < d -> n + d - 1 < 4294967296 ->
  d * DIV_ROUND_UP n d - d < n <= d * DIV_ROUND_UP n d.
Proof.
  intros Hn Hd Hs. unfold DIV_ROUND_UP. rewrite u32_small by lia.
  pose proof (Z.mul_div_le (n + d - 1) d Hd).
  pose proof (Z.mul_succ_div_gt (n + d - 1) d Hd). lia.
Qed.

(** ... and when it does: the quotient collapses to 0. *)
Lemma div_round_up_wrapped n d :
  0 <= n < 4294967296 -> 0 < d < 4294967296 -> 4294967296 <= n + d - 1 ->
  DIV_ROUND_UP n d = 0.
Proof.
  intros Hn Hd Hs. unfold DIV_ROUND_UP. rewrite u32_wrap_pos by lia.
  apply Z.div_small. lia.
Qed.

Lemma div_round_closest_1000_bound x : 0 <= DIV_ROUND_CLOSEST x 1000 <= 4294967.
Proof.
  unfold DIV_ROUND_CLOSEST. pose proof (u32_range (x + 1000 / 2)).
  split.
  - apply Z.div_pos; lia.
  - assert ((u32 (x + 1000 / 2)) / 1000 < 4294968); [ | lia].
    apply Z.div_lt_upper_bound; lia.
Qed.

Lemma clk_round_bound d rate t : 0 <= clk_round d rate t <= 4294967.
Proof. unfold clk_round. apply div_round_closest_1000_bound. Qed.

(** The second rounding division of the modern family: a result that passes
    the range test comes from a difference that did not wrap. *)
Lemma modern_x_exact q round x :
  0 <= q < 4294967296 -> 0 <= round <= 4294967 ->
  x = DIV_ROUND_UP (u32 (u32 (u32 (q - 8) - 2 * RCAR_DEFAULT_SMD) - round)) sum_ratio ->
  0 <= x <= 477218589 /\
  (x <> 0 -> x * RCAR_SCLD_RATIO <= 65535 ->
   48 + round < q /\ 9 * x - 9 < q - 48 - round <= 9 * x).
Proof.
  intros Hq Hr ->. rewrite (u32_sub_idem (q - 8)), u32_sub_idem.
  unfold RCAR_DEFAULT_SMD, RCAR_SCLD_RATIO, sum_ratio, RCAR_SCHD_RATIO, RCAR_SCLD_RATIO.
  destruct (Z_lt_le_dec (q - 8 - 2 * 20 - round) 0) as [Hneg | Hpos].
  - rewrite (u32_wrap_neg (q - 8 - 2 * 20 - round)) by lia.
    unfold DIV_ROUND_UP.
    destruct (Z_lt_le_dec (q - 8 - 2 * 20 - round + 4294967296 + (4 + 5) - 1) 4294967296).
    + rewrite u32_small by lia.
      split; [ split; [apply Z.div_pos; lia | apply Z.div_le_upper_bound; lia] | ].
      intros _ Hx. exfalso.
      assert (13108 <= (q - 8 - 2 * 20 - round + 4294967296 + (4 + 5) - 1) / (4 + 5)).
      { apply Z.div_le_lower_bound; lia. }
      lia.
    + rewrite u32_wrap_pos by lia.
      rewrite Z.div_small by lia. split; [lia | intros H; congruence].
  - rewrite (u32_small (q - 8 - 2 * 20 - round)) by lia.
    pose proof (div_round_up_exact (q - 8 - 2 * 20 - round) (4 + 5)) as E.
    specialize (E ltac:(lia) ltac:(lia) ltac:(lia)).
    split; [lia | intros Hx0 Hx; lia].
Qed.

(** The second rounding division of the legacy family. *)
Lemma legacy_scgd_exact q round scgd :
  0 <= q < 4294967296 -> 0 <= round <= 4294967 ->
  scgd = DIV_ROUND_UP (u32 (u32 (q - 20) - round)) 8 ->
  0 <= scgd /\
  (scgd <= 63 -> 8 * scgd - 8 < q - 20 - round <= 8 * scgd).
Proof.
  intros Hq Hr ->. rewrite !u32_sub_idem.
  destruct (Z_lt_le_dec (q - 20 - round) 0) as [Hneg | Hpos].
  - rewrite (u32_wrap_neg (q - 20 - round)) by lia.
    unfold DIV_ROUND_UP.
    destruct (Z_lt_le_dec (q - 20 - round + 4294967296 + 8 - 1) 4294967296).
    + rewrite u32_small by lia.
      split; [apply Z.div_pos; lia | ].
      intros Hx. exfalso.
      assert (64 <= (q - 20 - round + 4294967296 + 8 - 1) / 8).
      { apply Z.div_le_lower_bound; lia. }
      lia.
    + rewrite u32_wrap_pos by lia.
      rewrite Z.div_small by lia. lia.
  - rewrite (u32_small (q - 20 - round)) by lia.
    pose proof (div_round_up_exact (q - 20 - round) 8) as E.
    specialize (E ltac:(lia) ltac:(lia) ltac:(lia)). lia.
Qed.

Lemma pow2_bits_ge bits : 32 <= bits -> 4294967296 <= 2 ^ bits.
Proof.
  intros. change 4294967296 with (2 ^ 32). apply Z.pow_le_mono_r; lia.
Qed.

Lemma clk_freq_pos t : 0 <= bus_freq_hz t -> 1 <= clk_freq t.
Proof. unfold clk_freq. destruct (Z.eqb_spec (bus_freq_hz t) 0); lia. Qed.

Lemma clk_freq_id t : 1 <= bus_freq_hz t -> clk_freq t = bus_freq_hz t.
Proof. unfold clk_freq. destruct (Z.eqb_spec (bus_freq_hz t) 0); lia. Qed.

Lemma clk_cdf_exact rate :
  0 <= rate < 4294967296 * 20000000 ->
  clk_cdf rate = rate / 20000000 /\ 0 <= clk_cdf rate
  /\ 20000000 * clk_cdf rate <= rate < 20000000 * clk_cdf rate + 20000000.
Proof.
  intros H. unfold clk_cdf.
  assert (0 <= rate / 20000000 < 4294967296).
  { split; [apply Z.div_pos; lia | apply Z.div_lt_upper_bound; lia]. }
  rewrite u32_small by lia.
  pose proof (Z.mul_div_le rate 20000000 ltac:(lia)).
  pose proof (Z.mul_succ_div_gt rate 20000000 ltac:(lia)). lia.
Qed.

(** First division of the modern family: either exact, or collapsed to 0 by
    a wrap of the unsigned long sum. *)
Lemma clk_x_quot_cases bits rate t :
  clk_inputs_ok bits rate t -> rate < 160000000 ->
  let q := clk_x_quot bits rate t in
  0 <= q < 4294967296 /\
  (q = 0 \/ (clk_freq t * q - clk_freq t < rate <= clk_freq t * q)).
Proof.
  intros (Hb & Hr & Hr' & Hf) Hsmall q. subst q. unfold clk_x_quot.
  split; [apply u32_range | ].
  pose proof (clk_freq_pos t ltac:(lia)) as Hf1.
  assert (clk_freq t < 4294967296) as Hf2.
  { unfold clk_freq. destruct (Z.eqb_spec (bus_freq_hz t) 0); lia. }
  pose proof (pow2_bits_ge bits Hb) as HB.
  unfold DIV_ROUND_UP_ulong, ulong.
  destruct (Z_lt_le_dec (rate + clk_freq t - 1) (2 ^ bits)) as [Hs | Hw].
  - right. rewrite Z.mod_small by lia.
    pose proof (Z.mul_div_le (rate + clk_freq t - 1) (clk_freq t) ltac:(lia)).
    pose proof (Z.mul_succ_div_gt (rate + clk_freq t - 1) (clk_freq t) ltac:(lia)).
    assert (0 <= (rate + clk_freq t - 1) / clk_freq t) by (apply Z.div_pos; lia).
    assert ((rate + clk_freq t - 1) / clk_freq t < 4294967296).
    { apply Z.div_lt_upper_bound; nia. }
    rewrite u32_small by lia. lia.
  - left.
    assert ((rate + clk_freq t - 1) mod 2 ^ bits = rate + clk_freq t - 1 - 2 ^ bits) as ->.
    { symmetry. apply Z.mod_unique with (q := 1); lia. }
    rewrite Z.div_small by lia. reflexivity.
Qed.

(** First division of the legacy family, likewise. *)
Lemma clk_scgd_quot_cases d rate t :
  0 <= bus_freq_hz t < 4294967296 ->
  let q := clk_scgd_quot d rate t in
  0 <= q < 4294967296 /\
  (q = 0 \/ (clk_freq t * q - clk_freq t < clk_ick d rate <= clk_freq t * q)).
Proof.
  intros Hf q. subst q. unfold clk_scgd_quot.
  pose proof (clk_freq_pos t ltac:(lia)) as Hf1.
  assert (clk_freq t < 4294967296) as Hf2.
  { unfold clk_freq. destruct (Z.eqb_spec (bus_freq_hz t) 0); lia. }
  assert (0 <= clk_ick d rate < 4294967296) as Hi by (apply u32_range).
  split.
  - unfold DIV_ROUND_UP.
    pose proof (u32_range (clk_ick d rate + clk_freq t - 1)).
    split; [apply Z.div_pos; lia | apply Z.div_lt_upper_bound; nia].
  - destruct (Z_lt_le_dec (clk_ick d rate + clk_freq t - 1) 4294967296).
    + right. apply div_round_up_exact; lia.
    + left. apply div_round_up_wrapped; lia.
Qed.

Lemma clk_ick_legacy d rate :
  is_legacy d = true -> 0 <= rate < 4294967296 * 20000000 ->
  clk_cdf rate < 8 ->
  clk_ick d rate = rate / (clk_cdf rate + 1) /\ 0 <= clk_ick d rate < 20000000.
Proof.
  intros Hl Hr Hc. unfold clk_ick. rewrite Hl.
  destruct (clk_cdf_exact rate Hr) as (_ & H0 & H1 & H2).
  rewrite (u32_small (clk_cdf rate + 1)) by lia.
  assert (0 <= rate / (clk_cdf rate + 1) < 20000000).
  { split; [apply Z.div_pos; lia | apply Z.div_lt_upper_bound; lia]. }
  rewrite u32_small by lia. lia.
Qed.

Lemma shiftl1_pow w : 0 <= w -> Z.shiftl 1 w = 2 ^ w.
Proof. intros. rewrite Z.shiftl_mul_pow2 by lia. lia. Qed.

Lemma cdf_width_cases d : clk_cdf_width d = 2 \/ clk_cdf_width d = 3.
Proof. destruct d; cbn; auto. Qed.

(** Packing SCGD above CDF and reading the two fields back. *)
Lemma icccr_fields a c w :
  0 <= w -> 0 <= a -> 0 <= c < 2 ^ w ->
  Z.shiftr (Z.lor (Z.shiftl a w) c) w = a
  /\ Z.land (Z.lor (Z.shiftl a w) c) (Z.ones w) = c
  /\ 0 <= Z.lor (Z.shiftl a w) c.
Proof.
  intros Hw Ha Hc. repeat split.
  - rewrite Z.shiftr_lor, Z.shiftr_shiftl_l, Z.sub_diag, Z.shiftl_0_r by lia.
    rewrite (Z.shiftr_div_pow2 c) by lia. rewrite Z.div_small by lia.
    apply Z.lor_0_r.
  - rewrite Z.land_lor_distr_l, !Z.land_ones by lia.
    rewrite Z.shiftl_mul_pow2 by lia. rewrite Z.mod_mul by lia.
    rewrite Z.mod_small by lia. reflexivity.
  - apply Z.lor_nonneg. split; [apply Z.shiftl_nonneg; lia | lia].
Qed.

(** Projections of updated contexts. *)

(** What rcar_i2c_clock_calculate returns, branch by branch. *)
Lemma clock_calculate_cdf_error bits rate t p :
  2 ^ clk_cdf_width (devtype p) <= clk_cdf rate ->
  fst (rcar_i2c_clock_calculate bits rate t p) = - EINVAL.
Proof.
  intros H. unfold rcar_i2c_clock_calculate. priv_simpl.
  rewrite shiftl1_pow by (destruct (devtype p); cbn; lia).
  destruct (Z.leb_spec (2 ^ clk_cdf_width (devtype p)) (clk_cdf rate)); [reflexivity | lia].
Qed.

Lemma clock_calculate_legacy bits rate t p :
  clk_cdf rate < 2 ^ clk_cdf_width (devtype p) ->
  is_legacy (devtype p) = true ->
  let scgd := clk_scgd (devtype p) rate t in
  let r := rcar_i2c_clock_calculate bits rate t p in
  (63 < scgd -> fst r = - EINVAL)
  /\ (scgd <= 63 ->
      fst r = 0
      /\ icccr (snd r)
         = Z.lor (u32 (Z.shiftl scgd (clk_cdf_width (devtype p)))) (clk_cdf rate)).
Proof.
  intros Hc Hl scgd r. subst scgd r. unfold rcar_i2c_clock_calculate.
  priv_simpl.
  rewrite shiftl1_pow by (destruct (devtype p); cbn; lia).
  destruct (Z.leb_spec (2 ^ clk_cdf_width (devtype p)) (clk_cdf rate)); [lia | ].
  match goal with |- context [if ?c then set_flags ?a ?q else set_flags ?b ?q] =>
    destruct c end; priv_simpl; rewrite Hl;
  (destruct (Z.ltb_spec 63 (clk_scgd (devtype p) rate t)); priv_simpl;
   split; intros; try lia; auto).
Qed.

Lemma clock_calculate_modern bits rate t p :
  clk_cdf rate < 2 ^ clk_cdf_width (devtype p) ->
  is_legacy (devtype p) = false ->
  let x := clk_x bits (devtype p) rate t in
  let r := rcar_i2c_clock_calculate bits rate t p in
  (x = 0 \/ 65535 < u32 (x * RCAR_SCLD_RATIO) -> fst r = - EINVAL)
  /\ (x <> 0 -> u32 (x * RCAR_SCLD_RATIO) <= 65535 ->
      fst r = 0
      /\ icccr (snd r) = clk_cdf rate
      /\ schd (snd r) = u16 (RCAR_SCHD_RATIO * x)
      /\ scld (snd r) = u16 (RCAR_SCLD_RATIO * x)
      /\ smd (snd r)
         = if u16 (RCAR_SCHD_RATIO * x) <=? RCAR_DEFAULT_SMD
           then u8 (u16 (RCAR_SCHD_RATIO * x) - 1) else RCAR_DEFAULT_SMD).
Proof.
  intros Hc Hl x r. subst x r. unfold rcar_i2c_clock_calculate.
  priv_simpl.
  rewrite shiftl1_pow by (destruct (devtype p); cbn; lia).
  destruct (Z.leb_spec (2 ^ clk_cdf_width (devtype p)) (clk_cdf rate)); [lia | ].
  match goal with |- context [if ?c then set_flags ?a ?q else set_flags ?b ?q] =>
    destruct c end; priv_simpl; rewrite Hl;
  (destruct (Z.eqb_spec (clk_x bits (devtype p) rate t) 0) as [E0 | E0];
   destruct (Z.ltb_spec 65535 (u32 (clk_x bits (devtype p) rate t * RCAR_SCLD_RATIO)));
   cbn [orb fst snd];
   (split; [ intros [? | ?]; try reflexivity; try lia; try congruence
           | intros; try lia; try congruence ]);
   priv_simpl;
   destruct (Z.leb_spec (u16 (RCAR_SCHD_RATIO * clk_x bits (devtype p) rate t)) RCAR_DEFAULT_SMD);
   priv_simpl; auto).
Qed.

Lemma clk_x_unfold bits d rate t :
  clk_x bits d rate t
  = DIV_ROUND_UP
      (u32 (u32 (u32 (clk_x_quot bits rate t - 8) - 2 * RCAR_DEFAULT_SMD)
            - clk_round d rate t)) sum_ratio.
Proof. unfold clk_x. reflexivity. Qed.

Lemma clk_scgd_unfold d rate t :
  clk_scgd d rate t
  = DIV_ROUND_UP (u32 (u32 (clk_scgd_quot d rate t - 20) - clk_round d rate t)) 8.
Proof. unfold clk_scgd. reflexivity. Qed.

Lemma clk_x_bounds bits d rate t :
  0 <= clk_x bits d rate t <= 477218589
  /\ u32 (clk_x bits d rate t * RCAR_SCLD_RATIO) = RCAR_SCLD_RATIO * clk_x bits d rate t.
Proof.
  assert (0 <= clk_x_quot bits rate t < 4294967296) as Hq by (apply u32_range).
  destruct (modern_x_exact (clk_x_quot bits rate t) (clk_round d rate t)
              (clk_x bits d rate t) Hq (clk_round_bound d rate t)
              (clk_x_unfold bits d rate t)) as [Hx _].
  split; [exact Hx | ].
  unfold RCAR_SCLD_RATIO. rewrite u32_small by lia. lia.
Qed.

(** The register values of a successful modern-family calculation, with
    the truncating stores resolved. *)
Lemma clock_calculate_modern_ok bits rate t p :
  clk_cdf rate < 2 ^ clk_cdf_width (devtype p) ->
  is_legacy (devtype p) = false ->
  let x := clk_x bits (devtype p) rate t in
  let r := rcar_i2c_clock_calculate bits rate t p in
  fst r = 0 ->
  1 <= x <= 13107
  /\ icccr (snd r) = clk_cdf rate
  /\ schd (snd r) = RCAR_SCHD_RATIO * x
  /\ scld (snd r) = RCAR_SCLD_RATIO * x
  /\ smd (snd r) = (if RCAR_SCHD_RATIO * x <=? RCAR_DEFAULT_SMD
                    then RCAR_SCHD_RATIO * x - 1 else RCAR_DEFAULT_SMD).
Proof.
  intros Hc Hl x r Hr. subst x r.
  destruct (clock_calculate_modern bits rate t p Hc Hl) as [He Hok].
  destruct (clk_x_bounds bits (devtype p) rate t) as [Hb Hu].
  rewrite Hu in He, Hok.
  assert (clk_x bits (devtype p) rate t <> 0
          /\ RCAR_SCLD_RATIO * clk_x bits (devtype p) rate t <= 65535) as [Hx0 Hx5].
  { split.
    - intros E. rewrite He in Hr by (left; exact E). unfold EINVAL in Hr. lia.
    - destruct (Z_lt_le_dec 65535 (RCAR_SCLD_RATIO * clk_x bits (devtype p) rate t)); [ | lia].
      rewrite He in Hr by (right; assumption). unfold EINVAL in Hr. lia. }
  destruct (Hok Hx0 Hx5) as (_ & Hi & Hh & Hs & Hm).
  unfold RCAR_SCLD_RATIO, RCAR_SCHD_RATIO, RCAR_DEFAULT_SMD in *.
  assert (u16 (4 * clk_x bits (devtype p) rate t) = 4 * clk_x bits (devtype p) rate t) as E4.
  { unfold u16. change (2 ^ 16) with 65536. apply Z.mod_small. lia. }
  assert (u16 (5 * clk_x bits (devtype p) rate t) = 5 * clk_x bits (devtype p) rate t) as E5.
  { unfold u16. change (2 ^ 16) with 65536. apply Z.mod_small. lia. }
  rewrite E4 in *. rewrite E5 in *.
  repeat split; try lia; try assumption.
  rewrite Hm. destruct (Z.leb_spec (4 * clk_x bits (devtype p) rate t) 20); [ | reflexivity].
  unfold u8. change (2 ^ 8) with 256. apply Z.mod_small. lia.
Qed.

(** Supporting fact for the legacy family: with a requested frequency of at
    least 1 Hz, the register values of a successful calculation stand for a
    bus clock at or below the request:
    ick <= bus_freq * (20 + 8 * SCGD + round). *)
Theorem legacy_scl_le_requested bits rate t p :
  clk_inputs_ok bits rate t -> 1 <= bus_freq_hz t ->
  is_legacy (devtype p) = true ->
  fst (rcar_i2c_clock_calculate bits rate t p) = 0 ->
  clk_ick (devtype p) rate
  <= bus_freq_hz t
     * legacy_divisor
         (icccr_scgd (devtype p) (icccr (snd (rcar_i2c_clock_calculate bits rate t p))))
         (clk_round (devtype p) rate t).
Proof.
  intros (Hb & Hr & Hr' & Hf) Hf1 Hl Hok.
  destruct (Z_lt_le_dec (clk_cdf rate) (2 ^ clk_cdf_width (devtype p))) as [Hc | Hc].
  2: { rewrite clock_calculate_cdf_error in Hok by assumption. unfold EINVAL in Hok. lia. }
  destruct (clock_calculate_legacy bits rate t p Hc Hl) as [He Hs].
  destruct (clk_scgd_quot_cases (devtype p) rate t Hf) as [Hq Hqc].
  destruct (legacy_scgd_exact (clk_scgd_quot (devtype p) rate t)
              (clk_round (devtype p) rate t) (clk_scgd (devtype p) rate t)
              Hq (clk_round_bound _ _ _) (clk_scgd_unfold _ _ _)) as [Hs0 Hex].
  destruct (Z_lt_le_dec 63 (clk_scgd (devtype p) rate t)) as [Hbig | Hsm].
  { rewrite He in Hok by assumption. unfold EINVAL in Hok. lia. }
  destruct (Hs Hsm) as [_ Hi]. specialize (Hex Hsm).
  pose proof (clk_round_bound (devtype p) rate t) as Hrd.
  assert (0 <= clk_cdf_width (devtype p) <= 3) as Hw by (destruct (devtype p); cbn; lia).
  assert (0 <= clk_cdf rate) as Hc0 by (apply u32_range).
  assert (Z.shiftl (clk_scgd (devtype p) rate t) (clk_cdf_width (devtype p)) < 4294967296
          /\ 0 <= Z.shiftl (clk_scgd (devtype p) rate t) (clk_cdf_width (devtype p))) as [Hsh Hsh0].
  { rewrite Z.shiftl_mul_pow2 by lia.
    assert (2 ^ clk_cdf_width (devtype p) <= 8) by (destruct (devtype p); cbn; lia).
    assert (0 < 2 ^ clk_cdf_width (devtype p)) by (destruct (devtype p); cbn; lia).
    nia. }
  rewrite u32_small in Hi by lia.
  unfold icccr_scgd. rewrite Hi.
  destruct (icccr_fields (clk_scgd (devtype p) rate t) (clk_cdf rate)
              (clk_cdf_width (devtype p)) ltac:(lia) ltac:(lia) ltac:(lia)) as (-> & _ & _).
  unfold legacy_divisor. rewrite (clk_freq_id t Hf1) in Hqc.
  destruct Hqc as [Hq0 | Hqe]; [lia | ]. nia.
Qed.

(** Supporting fact for the modern family: when the mask duration keeps its
    default (the high period is above it), the register values of a
    successful calculation stand for a bus clock at or below the request:
    rate <= bus_freq * (8 + 2 * SMD + SCLD + SCHD + round). *)
Theorem modern_scl_le_requested_unclamped bits rate t p :
  clk_inputs_ok bits rate t -> 1 <= bus_freq_hz t ->
  is_legacy (devtype p) = false ->
  fst (rcar_i2c_clock_calculate bits rate t p) = 0 ->
  RCAR_DEFAULT_SMD < schd (snd (rcar_i2c_clock_calculate bits rate t p)) ->
  smd (snd (rcar_i2c_clock_calculate bits rate t p)) = RCAR_DEFAULT_SMD
  /\ rate
     <= bus_freq_hz t
        * modern_divisor (snd (rcar_i2c_clock_calculate bits rate t p))
            (clk_round (devtype p) rate t).
Proof.
  intros Hin Hf1 Hl Hok Hcl.
  destruct (Z_lt_le_dec (clk_cdf rate) (2 ^ clk_cdf_width (devtype p))) as [Hc | Hc].
  2: { rewrite clock_calculate_cdf_error in Hok by assumption. unfold EINVAL in Hok. lia. }
  destruct (clock_calculate_modern_ok bits rate t p Hc Hl Hok) as (Hx & Hi & Hh & Hs & Hm).
  rewrite Hh in Hcl.
  destruct (Z.leb_spec (RCAR_SCHD_RATIO * clk_x bits (devtype p) rate t) RCAR_DEFAULT_SMD);
    [lia | ].
  split; [exact Hm | ].
  unfold modern_divisor. rewrite Hm, Hh, Hs.
  assert (rate < 160000000) as Hsmall.
  { destruct Hin as (Hb & Hr & Hr' & Hf).
    destruct (clk_cdf_exact rate ltac:(lia)) as (_ & _ & _ & Hlt).
    assert (2 ^ clk_cdf_width (devtype p) <= 8) by (destruct (devtype p); cbn; lia).
    lia. }
  destruct (clk_x_quot_cases bits rate t Hin Hsmall) as [Hq Hqc].
  destruct (modern_x_exact (clk_x_quot bits rate t) (clk_round (devtype p) rate t)
              (clk_x bits (devtype p) rate t) Hq (clk_round_bound _ _ _)
              (clk_x_unfold _ _ _ _))
    as [_ Hex].
  unfold RCAR_SCLD_RATIO, RCAR_SCHD_RATIO, RCAR_DEFAULT_SMD in *.
  specialize (Hex ltac:(lia) ltac:(lia)).
  rewrite (clk_freq_id t Hf1) in Hqc.
  pose proof (clk_round_bound (devtype p) rate t) as Hrd.
  destruct Hqc as [Hq0 | Hqe]; [lia | ]. nia.
Qed.

(** C7.  For every reference rate below 2^32 * 20 MHz and every target
    frequency ([clk_inputs_ok]), rcar_i2c_clock_calculate returns -EINVAL
    exactly when a divider does not fit its field: CDF its 2-bit (Gen1) or
    3-bit field, legacy SCGD its 6-bit field, modern x being 0 or 5 * x
    exceeding 16 bits.  Otherwise it returns 0 and every register value it
    produced fits its width, and no unsigned wrap went into one: SCGD and x
    are the exact rounded-up quotients the formulas ask for. *)
Theorem clock_calculate_range bits rate t p :
  clk_inputs_ok bits rate t ->
  let d := devtype p in
  let cdf := clk_cdf rate in
  let round := clk_round d rate t in
  let scgd := clk_scgd d rate t in
  let x := clk_x bits d rate t in
  let r := rcar_i2c_clock_calculate bits rate t p in
  (fst r = - EINVAL <->
     2 ^ clk_cdf_width d <= cdf
     \/ (is_legacy d = true /\ 63 < scgd)
     \/ (is_legacy d = false /\ (x = 0 \/ 65535 < RCAR_SCLD_RATIO * x)))
  /\ (fst r = 0 \/ fst r = - EINVAL)
  /\ (fst r = 0 ->
      0 <= cdf < 2 ^ clk_cdf_width d
      /\ if is_legacy d then
           let q := clk_scgd_quot d rate t in
           0 <= scgd < 2 ^ 6
           /\ icccr_scgd d (icccr (snd r)) = scgd
           /\ Z.land (icccr (snd r)) (Z.ones (clk_cdf_width d)) = cdf
           /\ 0 <= icccr (snd r) < 2 ^ (clk_cdf_width d + 6)
           /\ 8 * scgd - 8 < q - 20 - round <= 8 * scgd
           /\ clk_freq t * q - clk_freq t < clk_ick d rate <= clk_freq t * q
         else
           let q := clk_x_quot bits rate t in
           icccr (snd r) = cdf
           /\ 1 <= x
           /\ schd (snd r) = RCAR_SCHD_RATIO * x
           /\ scld (snd r) = RCAR_SCLD_RATIO * x
           /\ 0 <= schd (snd r) < 2 ^ 16
           /\ 0 <= scld (snd r) < 2 ^ 16
           /\ 0 <= smd (snd r) < 2 ^ 8
           /\ smd (snd r) < schd (snd r)
           /\ 48 + round < q
           /\ 9 * x - 9 < q - 48 - round <= 9 * x
           /\ clk_freq t * q - clk_freq t < rate <= clk_freq t * q).
Proof.
  intros Hin d cdf round scgd x r. subst d cdf round scgd x r.
  pose proof Hin as (Hb & Hr & Hr' & Hf).
  assert (0 <= clk_cdf rate) as Hc0 by (apply u32_range).
  assert (0 <= clk_cdf_width (devtype p) <= 3 /\ 0 < 2 ^ clk_cdf_width (devtype p) <= 8)
    as [Hw Hw2] by (destruct (devtype p); cbn; lia).
  pose proof (clk_round_bound (devtype p) rate t) as Hrd.
  destruct (Z_lt_le_dec (clk_cdf rate) (2 ^ clk_cdf_width (devtype p))) as [Hc | Hc].
  2: { pose proof (clock_calculate_cdf_error bits rate t p Hc) as E. rewrite E.
       unfold EINVAL. split; [ | split]; [ split; auto | right; reflexivity | lia ]. }
  destruct (is_legacy (devtype p)) eqn:Hl.
  - (* legacy family *)
    destruct (clock_calculate_legacy bits rate t p Hc Hl) as [He Hs].
    destruct (clk_scgd_quot_cases (devtype p) rate t Hf) as [Hq Hqc].
    destruct (legacy_scgd_exact (clk_scgd_quot (devtype p) rate t)
                (clk_round (devtype p) rate t) (clk_scgd (devtype p) rate t)
                Hq Hrd (clk_scgd_unfold _ _ _)) as [Hs0 Hex].
    destruct (Z_lt_le_dec 63 (clk_scgd (devtype p) rate t)) as [Hbig | Hsm].
    { rewrite (He Hbig). unfold EINVAL.
      split; [ | split]; [ split; auto | right; reflexivity | lia ]. }
    destruct (Hs Hsm) as [H0 Hi]. specialize (Hex Hsm). rewrite H0.
    split; [ | split]; [ | left; reflexivity | intros _ ].
    { unfold EINVAL. split; [lia | ].
      intros [? | [[_ ?] | [? _]]]; [lia | lia | congruence]. }
    split; [lia | ]. cbn zeta.
    assert (0 <= Z.shiftl (clk_scgd (devtype p) rate t) (clk_cdf_width (devtype p))
            < 4294967296) as Hsh.
    { rewrite Z.shiftl_mul_pow2 by lia. nia. }
    rewrite u32_small in Hi by lia.
    destruct (icccr_fields (clk_scgd (devtype p) rate t) (clk_cdf rate)
                (clk_cdf_width (devtype p)) ltac:(lia) ltac:(lia) ltac:(lia))
      as (F1 & F2 & F3).
    assert (Z.lor (Z.shiftl (clk_scgd (devtype p) rate t) (clk_cdf_width (devtype p)))
              (clk_cdf rate) < 2 ^ (clk_cdf_width (devtype p) + 6)) as Hfit.
    { rewrite Z.pow_add_r by lia. change (2 ^ 6) with 64.
      pose proof (Z.mul_succ_div_gt
                    (Z.lor (Z.shiftl (clk_scgd (devtype p) rate t)
                              (clk_cdf_width (devtype p))) (clk_cdf rate))
                    (2 ^ clk_cdf_width (devtype p)) ltac:(lia)) as G.
      rewrite <- Z.shiftr_div_pow2, F1 in G by lia. nia. }
    unfold icccr_scgd. rewrite Hi, F1, F2. change (2 ^ 6) with 64.
    repeat split; try lia; destruct Hqc as [Hq0 | Hqe]; lia.
  - (* modern family *)
    destruct (clock_calculate_modern bits rate t p Hc Hl) as [He Hs].
    destruct (clk_x_bounds bits (devtype p) rate t) as [Hxb Hu].
    rewrite Hu in He, Hs.
    destruct (Z.eq_dec (clk_x bits (devtype p) rate t) 0) as [Hx0 | Hx0].
    { rewrite (He (or_introl Hx0)). unfold EINVAL.
      split; [ | split]; [ split; auto | right; reflexivity | lia ]. }
    destruct (Z_lt_le_dec 65535 (RCAR_SCLD_RATIO * clk_x bits (devtype p) rate t))
      as [Hbig | Hsm].
    { rewrite (He (or_intror Hbig)). unfold EINVAL.
      split; [ | split]; [ split; auto | right; reflexivity | lia ]. }
    destruct (Hs Hx0 Hsm) as [H0 _].
    pose proof (clock_calculate_modern_ok bits rate t p Hc Hl H0)
      as (Hx & Hi & Hh & Hsc & Hm).
    rewrite H0.
    split; [ | split]; [ | left; reflexivity | intros _ ].
    { unfold EINVAL. split; [lia | ].
      intros [? | [[? _] | [_ [? | ?]]]]; [lia | congruence | lia | lia]. }
    split; [lia | ]. cbn zeta.
    assert (rate < 160000000) as Hsmall.
    { destruct (clk_cdf_exact rate ltac:(lia)) as (_ & _ & _ & Hlt). lia. }
    destruct (clk_x_quot_cases bits rate t Hin Hsmall) as [Hq Hqc].
    destruct (modern_x_exact (clk_x_quot bits rate t) (clk_round (devtype p) rate t)
                (clk_x bits (devtype p) rate t) Hq Hrd (clk_x_unfold _ _ _ _))
      as [_ Hex].
    unfold RCAR_SCLD_RATIO, RCAR_SCHD_RATIO, RCAR_DEFAULT_SMD in *.
    specialize (Hex ltac:(lia) ltac:(lia)).
    rewrite Hi, Hh, Hsc, Hm.
    change (2 ^ 16) with 65536. change (2 ^ 8) with 256.
    destruct (Z.leb_spec (4 * clk_x bits (devtype p) rate t) 20);
      (repeat split; try lia; destruct Hqc as [Hq0 | Hqe]; lia).
Qed.

Lemma clock_calculate_range_witness :
  clk_inputs_ok 64 133330000 (timings_at 400000)
  /\ fst (rcar_i2c_clock_calculate 64 133330000 (timings_at 400000)
            (probe_priv I2C_RCAR_GEN3)) = 0.
Proof.
  assert (clk_inputs_ok 64 133330000 (timings_at 400000)) as H.
  { unfold clk_inputs_ok. cbn. lia. }
  split; [exact H | ].
  destruct (clock_calculate_range 64 133330000 (timings_at 400000)
              (probe_priv I2C_RCAR_GEN3) H) as (_ & [E | E] & _).
  - exact E.
  - vm_compute in E. discriminate E.
Defined.

(** The bound on the rate in [clk_inputs_ok] is needed.  On a 64-bit kernel
    a rate of 2^32 * 20 MHz + 133.33 MHz loses its upper part when the
    pre-divider and the quotient are stored in a u32: the calculation
    succeeds with the register values of 133.33 MHz. *)
Example clock_wraps_beyond_input_bound :
  let rate := 4294967296 * 20000000 + 133330000 in
  ~ clk_inputs_ok 64 rate (timings_at 400000)
  /\ rcar_i2c_clock_calculate 64 rate (timings_at 400000) (probe_priv I2C_RCAR_GEN3)
     = rcar_i2c_clock_calculate 64 133330000 (timings_at 400000)
         (probe_priv I2C_RCAR_GEN3)
  /\ fst (rcar_i2c_clock_calculate 64 rate (timings_at 400000)
            (probe_priv I2C_RCAR_GEN3)) = 0.
Proof.
  cbv zeta. split; [ | split; vm_compute; reflexivity].
  unfold clk_inputs_ok. lia.
Qed.

(** C1, at the input where the code leaves the claim.  Gen4, a 70 MHz
    reference clock and a request of 1 MHz with the default line timings:
    the calculation succeeds with x = 1, so SCHD = 4 and SCLD = 5, and the
    mask duration is lowered from 20 to 3 after x was solved for 20.  The
    registers then stand for a divisor of 8 + 2*3 + 5 + 4 + 20 = 43, and
    70 MHz / 43 is above the requested 1 MHz. *)
Theorem modern_clamp_scl_above_requested :
  let t := timings_at 1000000 in
  let r := rcar_i2c_clock_calculate 64 70000000 t (probe_priv I2C_RCAR_GEN4) in
  clk_inputs_ok 64 70000000 t
  /\ fst r = 0
  /\ schd (snd r) = 4 /\ scld (snd r) = 5 /\ smd (snd r) = 3
  /\ clk_round I2C_RCAR_GEN4 70000000 t = 20
  /\ modern_divisor (snd r) (clk_round I2C_RCAR_GEN4 70000000 t) = 43
  /\ bus_freq_hz t * modern_divisor (snd r) (clk_round I2C_RCAR_GEN4 70000000 t)
     < 70000000
  /\ bus_freq_hz t
     < 70000000 / modern_divisor (snd r) (clk_round I2C_RCAR_GEN4 70000000 t).
Proof.
  cbn zeta. split; [unfold clk_inputs_ok; cbn; lia | ].
  vm_compute. repeat split; congruence.
Qed.

(** * Transfers *)

(** ** Flag words *)

Lemma tst_bit f k : 0 <= k -> tst f (BIT k) = Z.testbit f k.
Proof.
  intros Hk. unfold tst, BIT.
  destruct (Z.testbit f k) eqn:E.
  - destruct (Z.eqb_spec (Z.land f (2 ^ k)) 0) as [H | H]; [ | reflexivity].
    apply (f_equal (fun z => Z.testbit z k)) in H.
    rewrite Z.land_spec, E, Z.pow2_bits_true, Z.bits_0 in H by lia. discriminate.
  - destruct (Z.eqb_spec (Z.land f (2 ^ k)) 0) as [H | H]; [reflexivity | ].
    exfalso. apply H. apply Z.bits_inj'. intros n Hn.
    rewrite Z.land_spec, Z.bits_0, Z.pow2_bits_eqb by lia.
    destruct (Z.eqb_spec k n); [subst; rewrite E; reflexivity | apply andb_false_r].
Qed.

Lemma tst_lor f m k : 0 <= k -> tst (Z.lor f m) (BIT k) = tst f (BIT k) || tst m (BIT k).
Proof. intros. rewrite !tst_bit by lia. apply Z.lor_spec. Qed.

Lemma tst_land f m k : 0 <= k -> tst (Z.land f m) (BIT k) = tst f (BIT k) && tst m (BIT k).
Proof. intros. rewrite !tst_bit by lia. apply Z.land_spec. Qed.

Lemma tst_clr f m k : 0 <= k -> tst (clr f m) (BIT k) = tst f (BIT k) && negb (tst m (BIT k)).
Proof. intros. unfold clr. rewrite !tst_bit by lia. apply Z.ldiff_spec. Qed.

Lemma tst_0 m : tst 0 m = false.
Proof. unfold tst. rewrite Z.land_0_l. reflexivity. Qed.

(** Rewrites every flag test down to tests of the original word: the names
    of the bits are unfolded, [|], [&] and [& ~] are distributed, and tests
    of constants are evaluated. *)
Ltac flag_closed c :=
  lazymatch c with
  | BIT ?k => idtac
  | ID_P_MASK => idtac
  | Z.lor ?a ?b => flag_closed a; flag_closed b
  | Z.land ?a ?b => flag_closed a; flag_closed b
  | RCAR_IRQ_SEND => idtac
  | RCAR_IRQ_RECV => idtac
  end.

Ltac flag_consts :=
  repeat match goal with
         | |- context [tst ?c (BIT ?k)] =>
             flag_closed c;
             let v := eval vm_compute in (tst c (BIT k)) in
             change (tst c (BIT k)) with v
         | H : context [tst ?c (BIT ?k)] |- _ =>
             flag_closed c;
             let v := eval vm_compute in (tst c (BIT k)) in
             change (tst c (BIT k)) with v in H
         end.

Ltac flag_names :=
  unfold ID_LAST_MSG, ID_REP_AFTER_RD, ID_DONE, ID_ARBLOST, ID_NACK, ID_EPROTO,
    ID_P_FMPLUS, ID_P_NOT_ATOMIC, ID_P_HOST_NOTIFY, ID_P_NO_RXDMA, ID_P_PM_BLOCKED,
    RCAR_IRQ_STOP, MNR, MAL, MST, MDE, MDT, MDR, MAT in *.

Ltac flags_norm :=
  flag_names;
  rewrite ?tst_lor, ?tst_land, ?tst_clr, ?tst_0 in * by lia;
  flag_consts;
  rewrite ?orb_false_r, ?orb_true_r, ?andb_true_r, ?andb_false_r,
    ?orb_false_l, ?andb_true_l, ?andb_false_l, ?orb_true_l in *.

Example flags_norm_test f :
  tst (Z.lor (Z.land f ID_P_MASK) ID_LAST_MSG) ID_P_NOT_ATOMIC = tst f ID_P_NOT_ATOMIC
  /\ tst (Z.lor (Z.land f ID_P_MASK) ID_LAST_MSG) ID_DONE = false
  /\ tst (Z.lor f (Z.lor ID_DONE ID_EPROTO)) ID_DONE = true
  /\ tst (Z.lor f (Z.lor ID_DONE ID_EPROTO)) ID_NACK = tst f ID_NACK.
Proof. flags_norm. auto. Qed.

(** Splits conjunctions only (not records). *)
Ltac conj_split := repeat match goal with |- _ /\ _ => split end.

(** ** Frame facts *)

Ltac w_simpl :=
  cbn [priv r_icmier r_icsier trace upd_priv emit rcar_i2c_write
       rcar_i2c_clear_irq] in *.

(** Takes the blocks of rcar_i2c_slave_irq apart: each block hands on the
    local [value] together with the state. *)
Ltac slave_blocks :=
  repeat match goal with
         | |- context [if ?c then _ else (_, _)] => destruct c; cbn [fst snd]
         | |- context [if ?c then (_, _) else _] => destruct c; cbn [fst snd]
         end.

Lemma priv_eta p :
  set_dma_direction (dma_direction p) (set_sg_len (sg_len p) (set_flags (flags p) p)) = p.
Proof. destruct p; reflexivity. Qed.

Lemma dir_eqb_eq a b : dir_eqb a b = true <-> a = b.
Proof. destruct a, b; cbn; split; intros; congruence. Qed.

Lemma in_flight_none w : dma_direction (priv w) = DMA_NONE -> in_flight w = false.
Proof. unfold in_flight. intros ->. reflexivity. Qed.

Lemma in_flight_false w : in_flight w = false -> dma_direction (priv w) = DMA_NONE.
Proof.
  unfold in_flight. intros H. apply negb_false_iff in H. apply dir_eqb_eq in H. exact H.
Qed.

Lemma prepare_msg_priv w :
  priv (rcar_i2c_prepare_msg w) = set_flags (prep_flags (priv w)) (set_pos 0 (priv w)).
Proof.
  unfold rcar_i2c_prepare_msg, prep_flags. w_simpl. priv_simpl.
  destruct (msgs_left (priv w) =? 1); w_simpl; priv_simpl;
    repeat match goal with |- context [if ?c then _ else _] => destruct c; w_simpl end;
    reflexivity.
Qed.

Lemma prepare_msg_icmier w :
  r_icmier (rcar_i2c_prepare_msg w)
  = if tst (flags (priv w)) ID_P_NOT_ATOMIC
    then (if rcar_i2c_is_recv (priv w) then RCAR_IRQ_RECV else RCAR_IRQ_SEND)
    else r_icmier w.
Proof.
  unfold rcar_i2c_prepare_msg. w_simpl. priv_simpl.
  assert (forall f, tst (Z.land f ID_P_MASK) ID_P_NOT_ATOMIC = tst f ID_P_NOT_ATOMIC) as E1
    by (intros; flags_norm; reflexivity).
  assert (forall f, tst (Z.lor (Z.land f ID_P_MASK) ID_LAST_MSG) ID_P_NOT_ATOMIC
                    = tst f ID_P_NOT_ATOMIC) as E2
    by (intros; flags_norm; reflexivity).
  destruct (msgs_left (priv w) =? 1); w_simpl; priv_simpl; rewrite ?E1, ?E2;
    destruct (tst (flags (priv w)) ID_P_NOT_ATOMIC); w_simpl;
    destruct (negb (tst (flags (priv w)) ID_REP_AFTER_RD)); w_simpl; reflexivity.
Qed.

Lemma next_msg_priv w :
  priv (rcar_i2c_next_msg w)
  = set_flags (prep_flags (set_msgs_left (msgs_left (priv w) - 1) (priv w)))
      (set_pos 0 (set_msgs_left (msgs_left (priv w) - 1)
                    (set_msg (S (msg (priv w))) (priv w)))).
Proof. unfold rcar_i2c_next_msg. rewrite prepare_msg_priv. reflexivity. Qed.

Lemma next_msg_icmier w :
  r_icmier (rcar_i2c_next_msg w)
  = if tst (flags (priv w)) ID_P_NOT_ATOMIC
    then (if m_rd (default no_msg (msgs (priv w) !! S (msg (priv w))))
          then RCAR_IRQ_RECV else RCAR_IRQ_SEND)
    else r_icmier w.
Proof. unfold rcar_i2c_next_msg. rewrite prepare_msg_icmier. reflexivity. Qed.

Lemma cleanup_dma_priv t w :
  priv (rcar_i2c_cleanup_dma t w)
  = set_dma_direction DMA_NONE
      (set_flags (if (devtype_val I2C_RCAR_GEN3 <=? devtype_val (devtype (priv w)))
                     && dir_eqb (dma_direction (priv w)) DMA_FROM_DEVICE
                  then Z.lor (flags (priv w)) ID_P_NO_RXDMA else flags (priv w))
         (priv w))
  /\ r_icmier (rcar_i2c_cleanup_dma t w) = r_icmier w
  /\ r_icsier (rcar_i2c_cleanup_dma t w) = r_icsier w.
Proof.
  unfold rcar_i2c_cleanup_dma. destruct t; w_simpl;
    destruct ((devtype_val I2C_RCAR_GEN3 <=? devtype_val (devtype (priv w)))
              && dir_eqb (dma_direction (priv w)) DMA_FROM_DEVICE);
    w_simpl; repeat split; destruct (priv w); reflexivity.
Qed.

Lemma rcar_i2c_dma_spec e w :
  let r := rcar_i2c_dma e w in
  let m := cur_msg (priv w) in
  r_icmier (snd r) = r_icmier w /\ r_icsier (snd r) = r_icsier w /\
  exists D n F,
    priv (snd r) = set_dma_direction D (set_sg_len n (set_flags F (priv w)))
    /\ (F = flags (priv w) \/ F = Z.lor (flags (priv w)) ID_P_NO_RXDMA)
    /\ (fst r = true ->
        dma_infeasible (priv w) = false /\ F = flags (priv w)
        /\ D = (if m_rd m then DMA_FROM_DEVICE else DMA_TO_DEVICE)
        /\ n = (if m_rd m then len m - 2 else len m - 1))
    /\ (fst r = false ->
        (D = dma_direction (priv w) /\ n = sg_len (priv w) /\ F = flags (priv w))
        \/ D = DMA_NONE).
Proof.
  assert (forall D n F p,
             set_dma_direction D (set_sg_len n (set_flags F p))
             = set_dma_direction D (set_flags F (set_dma_direction DMA_NONE (set_sg_len n p))))
    as Hsw by reflexivity.
  assert (forall D n p,
             set_dma_direction D (set_sg_len n p)
             = set_dma_direction D (set_sg_len n (set_flags (flags p) p))) as Hid
    by (intros ? ? []; reflexivity).
  cbn zeta. unfold rcar_i2c_dma.
  destruct (dma_infeasible (priv w)) eqn:Hinf.
  { cbn [fst snd]. repeat split.
    exists (dma_direction (priv w)), (sg_len (priv w)), (flags (priv w)).
    rewrite priv_eta. repeat split; auto; discriminate. }
  destruct (m_rd (cur_msg (priv w))) eqn:Hrd;
    (destruct (dma_map_ok e);
     [ destruct (dma_prep_ok e);
       [ destruct (dma_submit_ok e) | ] | ]);
    cbn [negb fst snd]; w_simpl;
    rewrite ?(proj1 (cleanup_dma_priv _ _));
    rewrite ?(proj1 (proj2 (cleanup_dma_priv _ _)));
    rewrite ?(proj2 (proj2 (cleanup_dma_priv _ _)));
    w_simpl; priv_simpl; (split; [reflexivity | split; [reflexivity | ]]).
  all: match goal with
       | |- exists D m F, priv _ = _ /\ _ =>
           exists (dma_direction (priv w)), (sg_len (priv w)), (flags (priv w));
           rewrite priv_eta; repeat split; auto; discriminate
       | |- exists D m F,
             set_dma_direction DMA_NONE
               (set_flags ?f (set_dma_direction _ (set_sg_len ?n _))) = _ /\ _ =>
           exists DMA_NONE, n, f;
           split; [ reflexivity | ];
           split;
           [ destruct (devtype_val I2C_RCAR_GEN3 <=? devtype_val (devtype (priv w)));
             cbn [andb dir_eqb]; auto
           | split; [discriminate | right; reflexivity]]
       | |- exists D m F, set_dma_direction ?d (set_sg_len ?n _) = _ /\ _ =>
           exists d, n, (flags (priv w));
           split; [ apply Hid | ];
           split; [left; reflexivity | split; [intros; auto | intros; discriminate]]
       end.
Qed.

(** ** The invariant of a transfer *)

Lemma cur_msg_in ms i m : ms !! i = Some m -> Forall msg_ok ms -> msg_ok m.
Proof.
  intros Hl Hall. rewrite Forall_forall in Hall. apply Hall.
  eapply list_elem_of_lookup_2. exact Hl.
Qed.

Lemma msg_ok_len m : msg_ok m -> 0 <= len m < 2 ^ 16.
Proof. intros [H _]. exact H. Qed.

Lemma prep_flags_tests p :
  tst (prep_flags p) ID_DONE = false
  /\ tst (prep_flags p) ID_ARBLOST = false
  /\ tst (prep_flags p) ID_EPROTO = false
  /\ tst (prep_flags p) ID_NACK = false
  /\ tst (prep_flags p) ID_REP_AFTER_RD = false
  /\ tst (prep_flags p) ID_P_NOT_ATOMIC = tst (flags p) ID_P_NOT_ATOMIC
  /\ tst (prep_flags p) ID_P_NO_RXDMA = tst (flags p) ID_P_NO_RXDMA
  /\ (tst (prep_flags p) ID_LAST_MSG = true <-> msgs_left p = 1).
Proof.
  unfold prep_flags. destruct (Z.eqb_spec (msgs_left p) 1) as [E | E];
    flags_norm; repeat split; auto; try discriminate; try congruence.
Qed.

Lemma first_msg_inv ms w0 :
  batch_ok ms -> in_flight w0 = false ->
  xfer_inv ms (rcar_i2c_first_msg ms (Z.of_nat (length ms)) w0).
Proof.
  intros [Hn Hall] Hfl. apply in_flight_false in Hfl.
  destruct ms as [ | m0 ms']; [cbn in Hn; lia | ].
  assert (msg_ok m0) as Hm0 by (inversion Hall; assumption).
  pose proof (msg_ok_len _ Hm0) as Hl0.
  set (w1 := rcar_i2c_first_msg (m0 :: ms') (Z.of_nat (length (m0 :: ms'))) w0).
  assert (priv w1
          = set_flags
              (prep_flags (set_msgs_left (Z.of_nat (length (m0 :: ms'))) (priv w0)))
              (set_pos 0 (set_msgs_left (Z.of_nat (length (m0 :: ms')))
                            (set_msg 0%nat (set_msgs (m0 :: ms') (priv w0)))))) as Hp.
  { subst w1. unfold rcar_i2c_first_msg. rewrite prepare_msg_priv. reflexivity. }
  clearbody w1.
  pose proof (prep_flags_tests
                (set_msgs_left (Z.of_nat (length (m0 :: ms'))) (priv w0)))
    as (T1 & T2 & T3 & T4 & T5 & T6 & T7 & T8).
  assert (in_flight w1 = false) as Hnf.
  { unfold in_flight. rewrite Hp. priv_simpl. rewrite Hfl. reflexivity. }
  assert (cur_msg (priv w1) = m0) as Hc by (unfold cur_msg; rewrite Hp; reflexivity).
  split; [ | split].
  - constructor; rewrite ?Hc; rewrite ?Hp; priv_simpl; rewrite ?T1, ?T2, ?T3, ?T4;
      try discriminate; auto; try lia.
    + rewrite Hnf. discriminate.
    + intros _. repeat split; try lia; try (apply T8); auto.
  - unfold fresh_inv. rewrite Hc. auto.
  - intros _. rewrite Hp. priv_simpl. rewrite T1, T4. split; discriminate.
Qed.

Lemma flags_agree_refl f : flags_agree f f.
Proof. repeat split. Qed.

Lemma flags_agree_trans f g h : flags_agree f g -> flags_agree g h -> flags_agree f h.
Proof.
  intros (A1 & A2 & A3 & A4 & A5 & A6) (B1 & B2 & B3 & B4 & B5 & B6).
  repeat split; congruence.
Qed.

Lemma flags_agree_no_rxdma f : flags_agree f (Z.lor f ID_P_NO_RXDMA).
Proof. repeat split; flags_norm; reflexivity. Qed.

Lemma flags_agree_rep f : flags_agree f (Z.lor f ID_REP_AFTER_RD).
Proof. repeat split; flags_norm; reflexivity. Qed.

Lemma core_inv_frame ms w w' :
  core_inv ms w ->
  msgs (priv w') = msgs (priv w) -> msg (priv w') = msg (priv w) ->
  pos (priv w') = pos (priv w) ->
  (in_flight w = true -> sg_len (priv w') = sg_len (priv w)) ->
  dma_direction (priv w') = dma_direction (priv w) ->
  msgs_left (priv w') = msgs_left (priv w) ->
  flags_agree (flags (priv w)) (flags (priv w')) ->
  core_inv ms w'.
Proof.
  intros [] E1 E2 E3 E4 E5 E6 (F1 & F2 & F3 & F4 & F5 & F6).
  assert (cur_msg (priv w') = cur_msg (priv w)) as Ec
    by (unfold cur_msg; rewrite E1, E2; reflexivity).
  assert (in_flight w' = in_flight w) as Ef by (unfold in_flight; rewrite E5; reflexivity).
  constructor; rewrite ?Ec, ?Ef, ?E1, ?E2, ?E3, ?E6, ?F1, ?F2, ?F3, ?F4; try assumption.
  intros Hf. rewrite (E4 Hf). auto.
Qed.

Lemma fresh_inv_frame w w' :
  fresh_inv w ->
  msgs (priv w') = msgs (priv w) -> msg (priv w') = msg (priv w) ->
  pos (priv w') = pos (priv w) ->
  dma_direction (priv w') = dma_direction (priv w) ->
  fresh_inv w'.
Proof.
  intros H E1 E2 E3 E5. unfold fresh_inv, in_flight, cur_msg in *.
  rewrite E1, E2, E3, E5. exact H.
Qed.

Lemma ier_inv_frame w w' :
  ier_inv w -> r_icmier w' = r_icmier w ->
  flags_agree (flags (priv w)) (flags (priv w')) -> ier_inv w'.
Proof.
  intros H E (F1 & F2 & F3 & F4 & F5 & F6). unfold ier_inv in *.
  rewrite E, F1, F5, F6. exact H.
Qed.

(** A DMA completion keeps the invariant. *)
Lemma dma_callback_inv ms w :
  xfer_inv ms w -> in_flight w = true -> xfer_inv ms (rcar_i2c_dma_callback w).
Proof.
  intros (Hc & _ & Hi) Hfl. unfold rcar_i2c_dma_callback.
  destruct (cleanup_dma_priv false
              (upd_priv (fun p => set_pos (pos p + sg_len p) p) w)) as (Hp & Hr & _).
  set (w' := rcar_i2c_cleanup_dma false _) in *. clearbody w'. w_simpl. priv_simpl.
  assert (flags_agree (flags (priv w)) (flags (priv w'))) as Hfa.
  { rewrite Hp. priv_simpl.
    destruct ((devtype_val I2C_RCAR_GEN3 <=? devtype_val (devtype (priv w)))
              && dir_eqb (dma_direction (priv w)) DMA_FROM_DEVICE);
      [apply flags_agree_no_rxdma | apply flags_agree_refl]. }
  split; [ | split; [ | eapply ier_inv_frame; eauto]].
  2: { destruct Hc. destruct (inv_dma0 Hfl) as [Hs Hps].
       unfold fresh_inv. rewrite Hp. priv_simpl. lia. }
  destruct Hc. destruct (inv_dma0 Hfl) as [Hs Hps].
  destruct Hfa as (F1 & F2 & F3 & F4 & F5 & F6).
  assert (cur_msg (priv w') = cur_msg (priv w)) as Ec
    by (unfold cur_msg; rewrite Hp; reflexivity).
  assert (in_flight w' = false) as Ef by (unfold in_flight; rewrite Hp; reflexivity).
  constructor; rewrite ?Ec, ?Ef, ?F1, ?F2, ?F3, ?F4; try assumption;
    rewrite ?Hp; priv_simpl; try assumption; try lia; try discriminate.
Qed.

(** The responder handler leaves the master side of the context alone. *)
Lemma slave_irq_frame e w :
  (exists sf, priv (snd (rcar_i2c_slave_irq e w)) = set_slave_flags sf (priv w))
  /\ r_icmier (snd (rcar_i2c_slave_irq e w)) = r_icmier w.
Proof.
  assert (forall p, set_slave_flags (slave_flags p) p = p) as Heta
    by (intros []; reflexivity).
  assert (forall a b p, set_slave_flags a (set_slave_flags b p) = set_slave_flags a p) as Hss
    by reflexivity.
  unfold rcar_i2c_slave_irq, i2c_slave_event, slave_nack_if, rcar_i2c_read.
  cbn [fst snd]. w_simpl.
  repeat match goal with
         | |- context [slave_cb e ?ev] => destruct (slave_cb e ev) as [? ?]
         end.
  repeat match goal with
         | |- context [if ?c then _ else _] => destruct c; w_simpl; cbn [fst snd]
         end;
    (split; [ | reflexivity]);
    (first [ exists (slave_flags (priv w)); rewrite Heta; reflexivity
           | eexists; rewrite ?Hss; reflexivity ]).
Qed.

(** ** The steps of the data phase, one by one *)

Lemma dma_feasible_len p :
  dma_infeasible p = false ->
  RCAR_MIN_DMA_LEN <= len (cur_msg p)
  /\ tst (flags p) ID_P_NOT_ATOMIC = true
  /\ m_dma_safe (cur_msg p) = true
  /\ IS_ERR (if m_rd (cur_msg p) then dma_rx p else dma_tx p) = false
  /\ (m_rd (cur_msg p) = true -> tst (flags p) ID_P_NO_RXDMA = false).
Proof.
  unfold dma_infeasible. intros H.
  repeat (apply orb_false_elim in H; destruct H as [H ?]).
  apply negb_false_iff in H.
  repeat split; auto.
  - destruct (Z.ltb_spec (len (cur_msg p)) RCAR_MIN_DMA_LEN); [discriminate | lia].
  - destruct (m_dma_safe (cur_msg p)); [reflexivity | discriminate].
  - intros Hr. rewrite Hr in *. cbn [andb] in *. assumption.
Qed.

Lemma dma_false_inv ms e w :
  core_inv ms w -> in_flight w = false ->
  fst (rcar_i2c_dma e w) = false ->
  let w1 := snd (rcar_i2c_dma e w) in
  core_inv ms w1 /\ (fresh_inv w -> fresh_inv w1) /\ in_flight w1 = false
  /\ flags_agree (flags (priv w)) (flags (priv w1))
  /\ tst (flags (priv w1)) ID_REP_AFTER_RD = tst (flags (priv w)) ID_REP_AFTER_RD
  /\ pos (priv w1) = pos (priv w) /\ msgs (priv w1) = msgs (priv w)
  /\ msg (priv w1) = msg (priv w) /\ msgs_left (priv w1) = msgs_left (priv w)
  /\ r_icmier w1 = r_icmier w.
Proof.
  intros Hc Hfl Hres. cbn zeta.
  destruct (rcar_i2c_dma_spec e w) as (Hi & _ & D & n & F & Hp & HF & _ & Hf).
  specialize (Hf Hres).
  pose proof (in_flight_false w Hfl) as Hd.
  assert (D = DMA_NONE) as -> by (destruct Hf as [(-> & _) | ->]; auto).
  assert (flags_agree (flags (priv w)) F /\ tst F ID_REP_AFTER_RD
                                            = tst (flags (priv w)) ID_REP_AFTER_RD)
    as [Hfa Hrep].
  { destruct HF as [-> | ->]; split; try reflexivity;
      [apply flags_agree_refl | apply flags_agree_no_rxdma | flags_norm; reflexivity]. }
  set (w1 := snd (rcar_i2c_dma e w)) in *. clearbody w1.
  assert (in_flight w1 = false) as Hfl1 by (unfold in_flight; rewrite Hp; reflexivity).
  conj_split; try (rewrite Hp; priv_simpl; auto; fail); auto.
  - eapply core_inv_frame; try exact Hc; rewrite Hp; priv_simpl; auto.
    rewrite Hfl. discriminate.
  - intros Hfr. eapply fresh_inv_frame; try exact Hfr; rewrite Hp; priv_simpl; auto.
Qed.

Lemma dma_true_inv ms e w :
  core_inv ms w -> in_flight w = false -> pos (priv w) <= 1 ->
  fst (rcar_i2c_dma e w) = true ->
  let w1 := snd (rcar_i2c_dma e w) in
  core_inv ms w1 /\ in_flight w1 = true
  /\ RCAR_MIN_DMA_LEN <= len (cur_msg (priv w))
  /\ sg_len (priv w1) = (if m_rd (cur_msg (priv w)) then len (cur_msg (priv w)) - 2
                         else len (cur_msg (priv w)) - 1)
  /\ flags (priv w1) = flags (priv w)
  /\ pos (priv w1) = pos (priv w) /\ msgs (priv w1) = msgs (priv w)
  /\ msg (priv w1) = msg (priv w) /\ msgs_left (priv w1) = msgs_left (priv w)
  /\ r_icmier w1 = r_icmier w.
Proof.
  intros Hc Hfl Hpos Hres. cbn zeta.
  destruct (rcar_i2c_dma_spec e w) as (Hi & _ & D & n & F & Hp & _ & Ht & _).
  destruct (Ht Hres) as (Hfeas & -> & -> & ->).
  destruct (dma_feasible_len _ Hfeas) as (Hlen & _).
  set (w1 := snd (rcar_i2c_dma e w)) in *. clearbody w1.
  assert (in_flight w1 = true) as Hfl1
    by (unfold in_flight; rewrite Hp; priv_simpl; destruct (m_rd _); reflexivity).
  assert (cur_msg (priv w1) = cur_msg (priv w)) as Ec
    by (unfold cur_msg; rewrite Hp; reflexivity).
  conj_split; try (rewrite Hp; priv_simpl; auto; fail); auto.
  destruct Hc. unfold RCAR_MIN_DMA_LEN in *.
  constructor; rewrite ?Ec, ?Hfl1; rewrite ?Hp; priv_simpl; try assumption.
  intros _. destruct (m_rd (cur_msg (priv w))); lia.
Qed.

Lemma pos_incr_inv ms w :
  core_inv ms w -> in_flight w = false ->
  pos (priv w) < len (cur_msg (priv w)) ->
  let w1 := upd_priv (fun p => set_pos (pos p + 1) p) w in
  core_inv ms w1 /\ fresh_inv w1.
Proof.
  intros Hc Hfl Hlt. cbn zeta. split.
  - destruct Hc. constructor; w_simpl; priv_simpl; try assumption.
    + change (cur_msg (set_pos (pos (priv w) + 1) (priv w))) with (cur_msg (priv w)). lia.
    + intros H. unfold in_flight in *. w_simpl. priv_simpl. congruence.
  - unfold fresh_inv. w_simpl. priv_simpl. destruct Hc. lia.
Qed.

Lemma cur_msg_upd f p :
  (msg p < length (msgs p))%nat -> cur_msg (upd_cur_msg f p) = f (cur_msg p).
Proof.
  intros H. unfold cur_msg, upd_cur_msg. priv_simpl.
  rewrite list_lookup_insert_eq by exact H. reflexivity.
Qed.

(** An assignment through priv->msg that keeps the length. *)
Lemma upd_cur_inv ms w f :
  core_inv ms w ->
  (forall m, len (f m) = len m) ->
  let w1 := upd_priv (upd_cur_msg f) w in
  core_inv ms w1 /\ cur_msg (priv w1) = f (cur_msg (priv w)).
Proof.
  intros Hc Hlen. cbn zeta.
  assert (cur_msg (priv (upd_priv (upd_cur_msg f) w)) = f (cur_msg (priv w))) as Ec.
  { w_simpl. apply cur_msg_upd. destruct Hc. lia. }
  split; [ | exact Ec].
  destruct Hc. constructor; rewrite ?Ec, ?Hlen; try assumption.
  - w_simpl. unfold upd_cur_msg. priv_simpl. rewrite length_insert. assumption.
  - intros i Hi. w_simpl. unfold upd_cur_msg in *. priv_simpl.
    rewrite list_lookup_insert_ne by lia. apply inv_later0. exact Hi.
Qed.

(** The length-prefix step: the count byte is added to the length. *)
Lemma extend_inv ms w :
  core_inv ms w -> fresh_inv w -> pos (priv w) = 0 -> in_flight w = false ->
  0 <= buf_at (cur_msg (priv w)) 0 <= I2C_SMBUS_BLOCK_MAX ->
  m_recv_len (cur_msg (priv w)) = true ->
  let w1 := upd_priv (upd_cur_msg (fun m => set_len (u16 (len m + buf_at m 0)) m)) w in
  core_inv ms w1
  /\ len (cur_msg (priv w1)) = len (cur_msg (priv w)) + buf_at (cur_msg (priv w)) 0.
Proof.
  intros Hc Hfr Hp0 Hfl Hb Hrl. cbn zeta.
  destruct (Hfr Hp0 Hfl) as [Hl Hroom]. specialize (Hroom Hrl).
  unfold I2C_SMBUS_BLOCK_MAX in *.
  set (b := buf_at (cur_msg (priv w)) 0) in *.
  set (w1 := upd_priv (upd_cur_msg (fun m => set_len (u16 (len m + buf_at m 0)) m)) w).
  assert (cur_msg (priv w1) = set_len (u16 (len (cur_msg (priv w)) + b)) (cur_msg (priv w)))
    as Ec.
  { subst w1 b. w_simpl.
    apply (cur_msg_upd (fun m => set_len (u16 (len m + buf_at m 0)) m)).
    destruct Hc. lia. }
  assert (u16 (len (cur_msg (priv w)) + b) = len (cur_msg (priv w)) + b) as Eu.
  { unfold u16. apply Z.mod_small. lia. }
  assert (in_flight w1 = false) as Ef by exact Hfl.
  assert (priv w1 = upd_cur_msg (fun m => set_len (u16 (len m + buf_at m 0)) m) (priv w))
    as Hp1 by reflexivity.
  clearbody w1.
  split; [ | rewrite Ec; cbn [len set_len]; exact Eu].
  destruct Hc. constructor; rewrite ?Ec, ?Ef; cbn [len set_len]; rewrite ?Eu;
    rewrite ?Hp1; unfold upd_cur_msg; priv_simpl;
    try assumption; try lia; try discriminate.
  - rewrite length_insert. assumption.
  - intros i Hi. rewrite list_lookup_insert_ne by lia. apply inv_later0. exact Hi.
Qed.

Lemma next_msg_inv ms w :
  Forall msg_ok ms -> core_inv ms w ->
  tst (flags (priv w)) ID_DONE = false ->
  tst (flags (priv w)) ID_LAST_MSG = false ->
  in_flight w = false ->
  let w1 := rcar_i2c_next_msg w in
  core_inv ms w1 /\ fresh_inv w1 /\ in_flight w1 = false
  /\ tst (flags (priv w1)) ID_DONE = false
  /\ tst (flags (priv w1)) ID_NACK = false
  /\ tst (flags (priv w1)) ID_P_NOT_ATOMIC = tst (flags (priv w)) ID_P_NOT_ATOMIC
  /\ msgs_left (priv w1) = msgs_left (priv w) - 1
  /\ msg (priv w1) = S (msg (priv w)).
Proof.
  intros Hall Hc Hnd Hnl Hfl. cbn zeta.
  pose proof (next_msg_priv w) as Hp.
  set (w1 := rcar_i2c_next_msg w) in *. clearbody w1.
  pose proof (prep_flags_tests (set_msgs_left (msgs_left (priv w) - 1) (priv w)))
    as (T1 & T2 & T3 & T4 & T5 & T6 & T7 & T8). priv_simpl.
  destruct Hc. destruct (inv_run0 Hnd) as (R1 & R2 & R3 & R4 & R5).
  assert (msgs_left (priv w) <> 1) as Hne.
  { intros E. apply R3 in E. congruence. }
  assert (S (msg (priv w)) < length ms)%nat as Hidx by lia.
  destruct (lookup_lt_is_Some_2 ms (S (msg (priv w))) Hidx) as [m Hm].
  pose proof (cur_msg_in _ _ _ Hm Hall) as Hok.
  assert (cur_msg (priv w1) = m) as Ec.
  { unfold cur_msg. rewrite Hp. priv_simpl. rewrite inv_later0 by lia. rewrite Hm.
    reflexivity. }
  assert (in_flight w1 = false) as Hfl1.
  { unfold in_flight in *. rewrite Hp. priv_simpl. exact Hfl. }
  conj_split; try (rewrite Hp; priv_simpl; auto; fail); auto.
  - constructor; rewrite ?Ec, ?Hfl1; rewrite ?Hp; priv_simpl; rewrite ?T1, ?T2, ?T3;
      try assumption; try discriminate; try lia.
    + intros i Hi. apply inv_later0. lia.
    + apply msg_ok_len. exact Hok.
    + pose proof (msg_ok_len _ Hok). lia.
    + intros _. conj_split; try lia; auto.
  - unfold fresh_inv. rewrite Ec. auto.
Qed.

(** The invariant reads the context only. *)
Lemma core_inv_priv ms w w' : priv w' = priv w -> core_inv ms w -> core_inv ms w'.
Proof.
  intros E H. eapply core_inv_frame; try exact H; rewrite ?E; auto using flags_agree_refl.
Qed.

Lemma fresh_inv_priv w w' : priv w' = priv w -> fresh_inv w -> fresh_inv w'.
Proof. intros E H. eapply fresh_inv_frame; try exact H; rewrite ?E; auto. Qed.

Lemma in_flight_priv w w' : priv w' = priv w -> in_flight w' = in_flight w.
Proof. intros E. unfold in_flight. rewrite E. reflexivity. Qed.

Lemma data_post_priv ms w w1 w2 :
  priv w2 = priv w1 -> data_post ms w w1 -> data_post ms w w2.
Proof.
  intros E (A & B & C & D). unfold data_post. rewrite E.
  conj_split; auto; [eapply core_inv_priv | eapply fresh_inv_priv]; eauto.
Qed.

Lemma data_post_refl ms w : core_inv ms w -> fresh_inv w -> data_post ms w w.
Proof. intros. unfold data_post. auto. Qed.

Lemma next_msg_post ms w0 w :
  Forall msg_ok ms -> core_inv ms w ->
  tst (flags (priv w)) ID_P_NOT_ATOMIC = tst (flags (priv w0)) ID_P_NOT_ATOMIC ->
  tst (flags (priv w)) ID_DONE = false ->
  tst (flags (priv w)) ID_LAST_MSG = false ->
  in_flight w = false ->
  data_post ms w0 (rcar_i2c_next_msg w).
Proof.
  intros Hall Hc Hna Hnd Hnl Hfl.
  destruct (next_msg_inv ms w Hall Hc Hnd Hnl Hfl) as (A & B & _ & _ & N & At & _).
  unfold data_post. conj_split; auto; congruence.
Qed.

Lemma irq_recv_tail_inv ms rli itc w0 w :
  Forall msg_ok ms -> core_inv ms w -> fresh_inv w ->
  tst (flags (priv w)) ID_P_NOT_ATOMIC = tst (flags (priv w0)) ID_P_NOT_ATOMIC ->
  (tst (flags (priv w)) ID_NACK = true -> tst (flags (priv w0)) ID_NACK = true) ->
  tst (flags (priv w)) ID_DONE = false ->
  (in_flight w = true -> pos (priv w) = 0 /\ RCAR_MIN_DMA_LEN <= len (cur_msg (priv w))) ->
  data_post ms w0 (irq_recv_tail rli itc w).
Proof.
  intros Hall Hc Hfr Hna Hnk Hnd Hfl. unfold irq_recv_tail.
  (* the state after the phase switch *)
  match goal with
  | |- context [rcar_i2c_clear_irq itc (if ?c2 then rcar_i2c_next_msg ?w1 else _)] =>
      set (w1' := w1)
  end.
  assert (core_inv ms w1' /\ fresh_inv w1'
          /\ flags_agree (flags (priv w)) (flags (priv w1'))
          /\ pos (priv w1') = pos (priv w) /\ cur_msg (priv w1') = cur_msg (priv w)
          /\ in_flight w1' = in_flight w) as (Hc1 & Hfr1 & Hfa & Hp1 & Hm1 & Hf1).
  { subst w1'.
    destruct ((pos (priv w) + 1 =? len (cur_msg (priv w))) && negb rli);
      [destruct (tst (flags (priv w)) ID_LAST_MSG) | ]; w_simpl;
      conj_split; auto using flags_agree_refl, flags_agree_rep;
      first [ eapply core_inv_frame; [exact Hc | ..]; w_simpl; priv_simpl;
              auto using flags_agree_refl, flags_agree_rep; fail
            | eapply fresh_inv_frame; [exact Hfr | ..]; w_simpl; priv_simpl; auto; fail ]. }
  clearbody w1'.
  destruct Hfa as (F1 & F2 & F3 & F4 & F5 & F6).
  apply data_post_priv with
    (w1 := if (pos (priv w1') =? len (cur_msg (priv w1')))
              && negb (tst (flags (priv w1')) ID_LAST_MSG)
           then rcar_i2c_next_msg w1' else w1'); [reflexivity | ].
  destruct (Z.eqb_spec (pos (priv w1')) (len (cur_msg (priv w1')))) as [Epl | Epl];
    [destruct (tst (flags (priv w1')) ID_LAST_MSG) eqn:EL | ]; cbn [andb negb].
  - unfold data_post. conj_split; auto; try congruence.
    intros HN. rewrite F5 in HN. auto.
  - apply next_msg_post; auto; try congruence.
    rewrite Hf1. destruct (in_flight w) eqn:Ef; [ | reflexivity].
    destruct (Hfl eq_refl) as [P0 L8]. unfold RCAR_MIN_DMA_LEN in L8.
    rewrite Hp1, Hm1 in Epl. lia.
  - unfold data_post. conj_split; auto; try congruence.
    intros HN. rewrite F5 in HN. auto.
Qed.

Lemma data_post_in_flight ms w0 w1 :
  core_inv ms w1 -> in_flight w1 = true -> flags (priv w1) = flags (priv w0) ->
  data_post ms w0 w1.
Proof.
  intros Hc Hf E. unfold data_post, fresh_inv. rewrite E, Hf.
  conj_split; auto. discriminate.
Qed.

(** rcar_i2c_irq_send past the DMA test. *)
Lemma irq_send_rest_inv ms itc w0 w :
  Forall msg_ok ms -> core_inv ms w -> fresh_inv w ->
  tst (flags (priv w)) ID_P_NOT_ATOMIC = tst (flags (priv w0)) ID_P_NOT_ATOMIC ->
  (tst (flags (priv w)) ID_NACK = true -> tst (flags (priv w0)) ID_NACK = true) ->
  tst (flags (priv w)) ID_DONE = false ->
  in_flight w = false ->
  data_post ms w0
    (rcar_i2c_clear_irq itc
       (if pos (priv w) <? len (cur_msg (priv w)) then
          upd_priv (fun p => set_pos (pos p + 1) p)
            (rcar_i2c_write ICRXTX (buf_at (cur_msg (priv w)) (pos (priv w))) w)
        else if tst (flags (priv w)) ID_LAST_MSG then
          rcar_i2c_write ICMCR RCAR_BUS_PHASE_STOP w
        else rcar_i2c_next_msg w)).
Proof.
  intros Hall Hc Hfr Hna Hnk Hnd Hfl.
  match goal with
  | |- data_post _ _ (rcar_i2c_clear_irq _ ?x) =>
      apply data_post_priv with (w1 := x); [reflexivity | ]
  end.
  destruct (Z.ltb_spec (pos (priv w)) (len (cur_msg (priv w)))) as [Hlt | Hge];
    [ | destruct (tst (flags (priv w)) ID_LAST_MSG) eqn:EL].
  - destruct (pos_incr_inv ms w Hc Hfl Hlt) as [A B].
    apply data_post_priv with (w1 := upd_priv (fun p => set_pos (pos p + 1) p) w);
      [reflexivity | ].
    unfold data_post. conj_split; auto.
  - apply data_post_priv with (w1 := w); [reflexivity | ].
    unfold data_post. conj_split; auto.
  - apply next_msg_post; auto.
Qed.

Lemma irq_send_inv ms e msr w :
  Forall msg_ok ms -> core_inv ms w -> fresh_inv w ->
  tst (flags (priv w)) ID_DONE = false ->
  (tst msr MDE = true -> in_flight w = false) ->
  data_post ms w (rcar_i2c_irq_send e msr w).
Proof.
  intros Hall Hc Hfr Hnd Hfl. unfold rcar_i2c_irq_send.
  destruct (tst msr MDE) eqn:Hmde; cbn [negb].
  2: { apply data_post_priv with (w1 := w); [reflexivity | ].
       apply data_post_refl; assumption. }
  specialize (Hfl eq_refl).
  destruct (Z.eqb_spec (pos (priv w)) 1) as [Hp1 | Hp1].
  - destruct (rcar_i2c_dma e w) as [taken w1] eqn:Hd.
    destruct taken.
    + destruct (dma_true_inv ms e w Hc Hfl ltac:(lia) ltac:(rewrite Hd; reflexivity))
        as (A & B & _ & _ & F & _).
      rewrite Hd in A, B, F. cbn [snd] in A, B, F.
      apply data_post_in_flight; assumption.
    + destruct (dma_false_inv ms e w Hc Hfl ltac:(rewrite Hd; reflexivity))
        as (A & B & C & (F1 & F2 & F3 & F4 & F5 & F6) & _).
      rewrite Hd in A, B, C, F1, F2, F5, F6. cbn [snd] in A, B, C, F1, F2, F5, F6.
      apply irq_send_rest_inv; auto; try congruence.
  - apply irq_send_rest_inv; auto.
Qed.

Lemma msg_ok_set_buf b m : msg_ok (set_buf b m) <-> msg_ok m.
Proof. unfold msg_ok. cbn [len m_recv_len set_buf]. tauto. Qed.

(** Storing the received byte. *)
Lemma store_inv ms w d :
  core_inv ms w -> fresh_inv w ->
  let w1 :=
    upd_priv
      (fun p => upd_cur_msg
         (fun m => set_buf (<[Z.to_nat (pos p) := d]> (buf m)) m) p) w in
  core_inv ms w1 /\ fresh_inv w1
  /\ cur_msg (priv w1)
     = set_buf (<[Z.to_nat (pos (priv w)) := d]> (buf (cur_msg (priv w))))
         (cur_msg (priv w))
  /\ flags (priv w1) = flags (priv w) /\ pos (priv w1) = pos (priv w)
  /\ in_flight w1 = in_flight w.
Proof.
  intros Hc Hfr. cbn zeta.
  destruct (upd_cur_inv ms w
              (fun m => set_buf (<[Z.to_nat (pos (priv w)) := d]> (buf m)) m) Hc
              ltac:(reflexivity)) as [A B].
  conj_split; auto.
  unfold fresh_inv in *. intros P0 F0.
  change (msg_ok (cur_msg (priv (upd_priv
            (upd_cur_msg
               (fun m => set_buf (<[Z.to_nat (pos (priv w)) := d]> (buf m)) m)) w)))).
  rewrite B. apply msg_ok_set_buf. apply Hfr; assumption.
Qed.

Lemma u8_range z : 0 <= u8 z < 256.
Proof. unfold u8. change (2 ^ 8) with 256. apply Z.mod_pos_bound. lia. Qed.

Lemma buf_at_stored_0 m d :
  buf_at (set_buf (<[0%nat := d]> (buf m)) m) 0 = d
  \/ buf_at (set_buf (<[0%nat := d]> (buf m)) m) 0 = 0.
Proof.
  unfold buf_at. cbn [buf set_buf Z.to_nat]. destruct (buf m); cbn; auto.
Qed.

Lemma cur_msg_eq p p' : msgs p' = msgs p -> msg p' = msg p -> cur_msg p' = cur_msg p.
Proof. intros E1 E2. unfold cur_msg. rewrite E1, E2. reflexivity. Qed.

(** The protocol-error exit of the length-prefix step. *)
Lemma eproto_inv ms w :
  core_inv ms w -> tst (flags (priv w)) ID_DONE = false ->
  let w1 :=
    upd_priv (fun p => set_flags (Z.lor (flags p) (Z.lor ID_DONE ID_EPROTO)) p) w in
  core_inv ms w1
  /\ tst (flags (priv w1)) ID_P_NOT_ATOMIC = tst (flags (priv w)) ID_P_NOT_ATOMIC
  /\ tst (flags (priv w1)) ID_NACK = tst (flags (priv w)) ID_NACK.
Proof.
  intros Hc Hnd. cbn zeta. w_simpl. priv_simpl.
  split; [ | split; flags_norm; reflexivity].
  destruct Hc. destruct (inv_run0 Hnd) as (R1 & R2 & R3 & R4 & R5).
  constructor; w_simpl; priv_simpl; try assumption.
  - intros H. flags_norm. discriminate.
  - intros _. flags_norm. cbn [orb]. lia.
Qed.

Lemma irq_recv_inv ms e msr w :
  Forall msg_ok ms -> core_inv ms w -> fresh_inv w ->
  tst (flags (priv w)) ID_DONE = false ->
  (tst msr MDR = true ->
   in_flight w = false /\ (tst msr MAT = true -> pos (priv w) = 0)) ->
  data_post ms w (rcar_i2c_irq_recv e msr w).
Proof.
  intros Hall Hc Hfr Hnd Hhw. unfold rcar_i2c_irq_recv.
  destruct (tst msr MDR) eqn:Hmdr; cbn [negb].
  2: { apply data_post_refl; assumption. }
  destruct (Hhw eq_refl) as [Hfl Hmat]. clear Hhw.
  destruct (tst msr MAT) eqn:Hm.
  - (* address phase done: DMA is tried for the whole message *)
    specialize (Hmat eq_refl).
    destruct (rcar_i2c_dma e w) as [taken w1] eqn:Hd. destruct taken.
    + destruct (dma_true_inv ms e w Hc Hfl ltac:(lia) ltac:(rewrite Hd; reflexivity))
        as (A & B & L8 & _ & F & P & M1 & M2 & _).
      rewrite Hd in A, B, F, P, M1, M2. cbn [snd] in A, B, F, P, M1, M2.
      apply irq_recv_tail_inv; auto; try (rewrite F; auto; fail).
      * unfold fresh_inv. rewrite B. discriminate.
      * intros _. rewrite P, (cur_msg_eq _ _ M1 M2). auto.
    + destruct (dma_false_inv ms e w Hc Hfl ltac:(rewrite Hd; reflexivity))
        as (A & B & C & (F1 & F2 & F3 & F4 & F5 & F6) & _).
      rewrite Hd in A, B, C, F1, F2, F5, F6. cbn [snd] in A, B, C, F1, F2, F5, F6.
      apply irq_recv_tail_inv; auto; try congruence.
  - destruct (Z.ltb_spec (pos (priv w)) (len (cur_msg (priv w)))) as [Hlt | Hge].
    2: { apply irq_recv_tail_inv; auto; congruence. }
    (* a byte is read and stored *)
    unfold rcar_i2c_read. cbn [fst snd].
    set (d := u8 (u32 (hw_icrxtx e))).
    set (wr := emit (Read ICRXTX (u32 (hw_icrxtx e))) w).
    assert (priv wr = priv w) as Hwr by reflexivity.
    destruct (store_inv ms wr d (core_inv_priv _ _ _ Hwr Hc) (fresh_inv_priv _ _ Hwr Hfr))
      as (S1 & S2 & S3 & S4 & S5 & S6).
    set (ws := upd_priv
                 (fun p => upd_cur_msg
                    (fun m => set_buf (<[Z.to_nat (pos p) := d]> (buf m)) m) p) wr) in *.
    rewrite Hwr in S3, S4, S5. rewrite (in_flight_priv _ _ Hwr) in S6.
    clearbody ws. clear wr Hwr.
    assert (len (cur_msg (priv ws)) = len (cur_msg (priv w))) as Sl
      by (rewrite S3; reflexivity).
    assert (m_recv_len (cur_msg (priv ws)) = m_recv_len (cur_msg (priv w))) as Sr
      by (rewrite S3; reflexivity).
    destruct ((pos (priv w) =? 0) && m_recv_len (cur_msg (priv w))) eqn:Hrli.
    + apply andb_true_iff in Hrli. destruct Hrli as [Hp0 Hrl].
      apply Z.eqb_eq in Hp0.
      destruct ((d =? 0) || (I2C_SMBUS_BLOCK_MAX <? d)) eqn:Hbad.
      * (* invalid count *)
        destruct (eproto_inv ms ws S1 ltac:(congruence)) as (E1 & E2 & E3).
        unfold data_post. conj_split; auto; try congruence.
      * (* the count is added to the length *)
        apply orb_false_iff in Hbad. destruct Hbad as [Hd0 Hd32].
        apply Z.eqb_neq in Hd0. apply Z.ltb_ge in Hd32.
        pose proof (u8_range (u32 (hw_icrxtx e))) as Hdr. fold d in Hdr.
        assert (0 <= buf_at (cur_msg (priv ws)) 0 <= I2C_SMBUS_BLOCK_MAX) as Hb.
        { rewrite S3, Hp0. change (Z.to_nat 0) with 0%nat.
          destruct (buf_at_stored_0 (cur_msg (priv w)) d) as [-> | ->];
            unfold I2C_SMBUS_BLOCK_MAX in *; lia. }
        destruct (extend_inv ms ws S1 S2 ltac:(congruence) ltac:(congruence) Hb
                    ltac:(congruence)) as [X1 X2].
        set (wx := upd_priv
                     (upd_cur_msg (fun m => set_len (u16 (len m + buf_at m 0)) m)) ws)
          in *.
        assert (flags (priv wx) = flags (priv w) /\ pos (priv wx) = 0
                /\ in_flight wx = false) as (X3 & X4 & X5).
        { subst wx. w_simpl. unfold upd_cur_msg. priv_simpl.
          unfold in_flight in *. w_simpl. unfold upd_cur_msg. priv_simpl.
          rewrite S4, S5. conj_split; auto. congruence. }
        clearbody wx.
        destruct (rcar_i2c_dma e wx) as [taken w1] eqn:Hd. destruct taken.
        -- destruct (dma_true_inv ms e wx X1 X5 ltac:(lia) ltac:(rewrite Hd; reflexivity))
             as (A & B & _ & _ & F & _).
           rewrite Hd in A, B, F. cbn [snd] in A, B, F.
           apply data_post_in_flight; auto. congruence.
        -- destruct (dma_false_inv ms e wx X1 X5 ltac:(rewrite Hd; reflexivity))
             as (A & _ & C & (F1 & F2 & F3 & F4 & F5 & F6) & _ & P & M1 & M2 & _).
           rewrite Hd in A, C, F1, F2, F5, F6, P, M1, M2.
           cbn [snd] in A, C, F1, F2, F5, F6, P, M1, M2.
           assert (pos (priv w1) < len (cur_msg (priv w1))) as Hlt1.
           { rewrite P, (cur_msg_eq _ _ M1 M2), X4, X2, Sl. lia. }
           destruct (pos_incr_inv ms w1 A C Hlt1) as [I1 I2].
           apply irq_recv_tail_inv; auto; w_simpl; priv_simpl; try congruence.
           unfold in_flight in *. w_simpl. priv_simpl. congruence.
    + (* an ordinary byte *)
      assert (pos (priv ws) < len (cur_msg (priv ws))) as Hlt1 by (rewrite S5, Sl; lia).
      destruct (pos_incr_inv ms ws S1 ltac:(congruence) Hlt1) as [I1 I2].
      apply irq_recv_tail_inv; auto; w_simpl; priv_simpl; try congruence.
      unfold in_flight in *. w_simpl. priv_simpl. congruence.
Qed.

Lemma irq_out_spec w :
  priv (irq_out w) = priv w
  /\ r_icmier (irq_out w) = (if tst (flags (priv w)) ID_DONE then 0 else r_icmier w).
Proof.
  unfold irq_out. destruct (tst (flags (priv w)) ID_DONE); [ | auto].
  w_simpl. destruct (tst (flags (priv w)) ID_P_NOT_ATOMIC); w_simpl; auto.
Qed.

(** After the code at [out], the enable register is as the invariant wants
    it, provided a NACK flag that is set was set before with the register
    already narrowed. *)
Lemma irq_out_inv ms w :
  core_inv ms w -> fresh_inv w ->
  (tst (flags (priv w)) ID_P_NOT_ATOMIC = true ->
   tst (flags (priv w)) ID_DONE = false ->
   tst (flags (priv w)) ID_NACK = true ->
   r_icmier w = 0 \/ r_icmier w = RCAR_IRQ_STOP) ->
  xfer_inv ms (irq_out w).
Proof.
  intros Hc Hfr Hn. destruct (irq_out_spec w) as [Hp Hi].
  split; [eapply core_inv_priv; eauto | split; [eapply fresh_inv_priv; eauto | ]].
  unfold ier_inv. rewrite Hp, Hi. intros Hna.
  destruct (tst (flags (priv w)) ID_DONE) eqn:Hd; split; auto; discriminate.
Qed.

Lemma data_phase_bit msr w :
  msr <> 0 -> tst msr MAL = false -> tst msr MNR = false -> tst msr MST = false ->
  data_phase msr w
  = (if rcar_i2c_is_recv (priv w) then tst msr MDR else tst msr MDE).
Proof.
  intros H0 H1 H2 H3. unfold data_phase. rewrite H1, H2, H3.
  destruct (Z.eqb_spec msr 0); [contradiction | reflexivity].
Qed.

Lemma core_inv_flags ms w w' F :
  core_inv ms w -> priv w' = set_flags F (priv w) ->
  tst F ID_DONE = tst (flags (priv w)) ID_DONE ->
  tst F ID_LAST_MSG = tst (flags (priv w)) ID_LAST_MSG ->
  tst F ID_ARBLOST = tst (flags (priv w)) ID_ARBLOST ->
  tst F ID_EPROTO = tst (flags (priv w)) ID_EPROTO ->
  core_inv ms w' /\ (fresh_inv w -> fresh_inv w').
Proof.
  intros [] Hp F1 F2 F3 F4.
  assert (cur_msg (priv w') = cur_msg (priv w)) as Ec
    by (unfold cur_msg; rewrite Hp; reflexivity).
  assert (in_flight w' = in_flight w) as Ef by (unfold in_flight; rewrite Hp; reflexivity).
  split.
  - constructor; rewrite ?Ec, ?Ef; rewrite ?Hp; priv_simpl;
      rewrite ?F1, ?F2, ?F3, ?F4; assumption.
  - unfold fresh_inv. rewrite Ec, Ef, Hp. priv_simpl. auto.
Qed.

(** One invocation of rcar_i2c_irq keeps the invariant. *)
Lemma irq_inv ms e msr w :
  Forall msg_ok ms -> xfer_inv ms w ->
  (msr <> 0 -> tst (flags (priv w)) ID_DONE = false) ->
  (tst (flags (priv w)) ID_P_NOT_ATOMIC = true ->
   tst (flags (priv w)) ID_NACK = true -> data_phase msr w = false) ->
  (in_flight w = true -> data_phase msr w = false) ->
  (data_phase msr w = true -> tst msr MAT = true -> pos (priv w) = 0) ->
  xfer_inv ms (snd (rcar_i2c_irq e msr w)).
Proof.
  intros Hall (Hc & Hfr & Hi) Hnd Hnk Hfl Hmat. unfold rcar_i2c_irq.
  destruct (Z.eqb_spec msr 0) as [E0 | E0].
  { (* no master status: the responder handler *)
    destruct (slave_irq_frame e w) as [[sf Hp] Hr].
    destruct (rcar_i2c_slave_irq e w) as [h w1]. cbn [fst snd] in *.
    split; [ | split].
    - eapply core_inv_frame; try exact Hc; rewrite Hp; auto using flags_agree_refl.
    - eapply fresh_inv_frame; try exact Hfr; rewrite Hp; auto.
    - eapply ier_inv_frame; try exact Hi; rewrite ?Hp; auto using flags_agree_refl. }
  specialize (Hnd E0).
  pose proof Hc as Hc'. destruct Hc'.
  destruct (inv_run0 Hnd) as (R1 & R2 & R3 & R4 & R5).
  destruct (tst msr MAL) eqn:Hmal; cbn [snd].
  { (* arbitration lost *)
    apply irq_out_inv; w_simpl; priv_simpl.
    - constructor; w_simpl; priv_simpl; try assumption.
      + intros H. flags_norm. discriminate.
      + intros _. flags_norm. cbn [orb]. lia.
    - exact Hfr.
    - intros _ H. flags_norm. discriminate. }
  destruct (tst msr MNR) eqn:Hmnr; cbn [snd].
  { (* NACK *)
    match goal with |- xfer_inv _ (irq_out ?x) => set (w1 := x) end.
    assert (priv w1 = set_flags (Z.lor (flags (priv w)) ID_NACK) (priv w)) as Hp.
    { subst w1. destruct (tst (flags (priv w)) ID_P_NOT_ATOMIC); reflexivity. }
    assert (tst (flags (priv w)) ID_P_NOT_ATOMIC = true -> r_icmier w1 = RCAR_IRQ_STOP)
      as Hr.
    { subst w1. intros ->. reflexivity. }
    clearbody w1.
    destruct (core_inv_flags ms w w1 _ Hc Hp) as [A B]; try (flags_norm; reflexivity).
    apply irq_out_inv; auto.
    rewrite Hp. priv_simpl. intros Hna _ _. right. apply Hr.
    revert Hna. flags_norm. auto. }
  destruct (tst msr MST) eqn:Hmst; cbn [snd].
  { (* stop *)
    apply irq_out_inv; w_simpl; priv_simpl.
    - constructor; w_simpl; priv_simpl; try assumption; try lia.
      + intros H. flags_norm. discriminate.
      + intros _. flags_norm. rewrite R4, R5. cbn [orb]. lia.
    - exact Hfr.
    - intros _ H. flags_norm. discriminate. }
  (* data phase *)
  pose proof (data_phase_bit msr w E0 Hmal Hmnr Hmst) as Hdp.
  destruct (data_phase msr w) eqn:Edp.
  - (* the handler moves data *)
    specialize (Hmat eq_refl).
    assert (in_flight w = false) as Hnf.
    { destruct (in_flight w); [ specialize (Hfl eq_refl); discriminate | reflexivity ]. }
    assert (data_post ms w
              (if rcar_i2c_is_recv (priv w) then rcar_i2c_irq_recv e msr w
               else rcar_i2c_irq_send e msr w)) as (A & B & C & D).
    { destruct (rcar_i2c_is_recv (priv w)).
      - apply irq_recv_inv; auto.
      - apply irq_send_inv; auto. }
    apply irq_out_inv; auto.
    rewrite C. intros Hna _ HN. specialize (D HN). specialize (Hnk Hna D). discriminate.
  - (* spurious: nothing moves *)
    assert (priv (if rcar_i2c_is_recv (priv w) then rcar_i2c_irq_recv e msr w
                  else rcar_i2c_irq_send e msr w) = priv w
            /\ r_icmier (if rcar_i2c_is_recv (priv w) then rcar_i2c_irq_recv e msr w
                         else rcar_i2c_irq_send e msr w) = r_icmier w) as [Hp Hr].
    { unfold rcar_i2c_irq_recv, rcar_i2c_irq_send.
      destruct (rcar_i2c_is_recv (priv w)); rewrite <- Hdp; cbn [negb]; auto. }
    match goal with |- xfer_inv _ (irq_out ?x) => set (w1 := x) in * end.
    clearbody w1.
    apply irq_out_inv.
    + eapply core_inv_priv; eauto.
    + eapply fresh_inv_priv; eauto.
    + rewrite Hp, Hr. intros Hna _ HN. destruct (Hi Hna) as [_ H]. auto.
Qed.

(** The mode bit is persistent. *)
Lemma irq_mode_kept ms e msr w :
  Forall msg_ok ms -> xfer_inv ms w ->
  (msr <> 0 -> tst (flags (priv w)) ID_DONE = false) ->
  (in_flight w = true -> data_phase msr w = false) ->
  (data_phase msr w = true -> tst msr MAT = true -> pos (priv w) = 0) ->
  tst (flags (priv (snd (rcar_i2c_irq e msr w)))) ID_P_NOT_ATOMIC
  = tst (flags (priv w)) ID_P_NOT_ATOMIC.
Proof.
  intros Hall (Hc & Hfr & Hi) Hnd Hfl Hmat. unfold rcar_i2c_irq.
  destruct (Z.eqb_spec msr 0) as [E0 | E0].
  { destruct (slave_irq_frame e w) as [[sf Hp] Hr].
    destruct (rcar_i2c_slave_irq e w) as [h w1]. cbn [fst snd] in *.
    rewrite Hp. reflexivity. }
  specialize (Hnd E0).
  destruct (tst msr MAL) eqn:Hmal; cbn [snd].
  { rewrite (proj1 (irq_out_spec _)). w_simpl. priv_simpl. flags_norm. reflexivity. }
  destruct (tst msr MNR) eqn:Hmnr; cbn [snd].
  { rewrite (proj1 (irq_out_spec _)).
    destruct (tst (flags (priv w)) ID_P_NOT_ATOMIC) eqn:Hna; w_simpl; priv_simpl;
      flags_norm; assumption. }
  destruct (tst msr MST) eqn:Hmst; cbn [snd].
  { rewrite (proj1 (irq_out_spec _)). w_simpl. priv_simpl. flags_norm. reflexivity. }
  rewrite (proj1 (irq_out_spec _)).
  pose proof (data_phase_bit msr w E0 Hmal Hmnr Hmst) as Hdp.
  destruct (data_phase msr w) eqn:Edp.
  - specialize (Hmat eq_refl).
    assert (in_flight w = false) as Hnf.
    { destruct (in_flight w); [ specialize (Hfl eq_refl); discriminate | reflexivity ]. }
    destruct (rcar_i2c_is_recv (priv w)).
    + apply (irq_recv_inv ms e msr w); auto.
    + apply (irq_send_inv ms e msr w); auto.
  - unfold rcar_i2c_irq_recv, rcar_i2c_irq_send.
    destruct (rcar_i2c_is_recv (priv w)); rewrite <- Hdp; cbn [negb]; reflexivity.
Qed.

(** The two entries hand rcar_i2c_irq the masked status and a state that
    differs from theirs in the trace only. *)
Lemma read_msr_spec e w :
  fst (read_msr e w) = irq_msr e w
  /\ priv (snd (read_msr e w)) = priv w
  /\ r_icmier (snd (read_msr e w)) = r_icmier w
  /\ r_icsier (snd (read_msr e w)) = r_icsier w.
Proof.
  unfold read_msr, irq_msr, rcar_i2c_read. w_simpl.
  destruct (tst (flags (priv w)) ID_P_NOT_ATOMIC); cbn [fst snd]; w_simpl; auto.
Qed.

Lemma irqhandler_spec e w :
  exists w1,
    irqhandler e w = rcar_i2c_irq e (irq_msr e w) w1
    /\ priv w1 = priv w /\ r_icmier w1 = r_icmier w.
Proof.
  unfold irqhandler, rcar_i2c_gen2_irq, rcar_i2c_gen3_irq.
  destruct (devtype_val (devtype (priv w)) <? devtype_val I2C_RCAR_GEN3).
  - match goal with |- context [read_msr e ?x] => set (wa := x) end.
    assert (priv wa = priv w /\ r_icmier wa = r_icmier w /\ irq_msr e wa = irq_msr e w)
      as (A1 & A2 & A3).
    { subst wa. destruct (negb (tst (flags (priv w)) ID_REP_AFTER_RD)); auto. }
    clearbody wa.
    destruct (read_msr_spec e wa) as (B1 & B2 & B3 & _).
    destruct (read_msr e wa) as [msr wb]. cbn [fst snd] in *.
    exists wb. subst msr. rewrite A3. conj_split; congruence.
  - destruct (read_msr_spec e w) as (B1 & B2 & B3 & _).
    destruct (read_msr e w) as [msr wb]. cbn [fst snd] in *.
    subst msr.
    match goal with |- context [rcar_i2c_irq e _ ?x] => exists x end.
    conj_split; auto;
      destruct (negb (tst (flags (priv wb)) ID_REP_AFTER_RD) && negb (irq_msr e w =? 0));
      auto.
Qed.

Lemma xfer_inv_same ms w w1 :
  priv w1 = priv w -> r_icmier w1 = r_icmier w -> xfer_inv ms w -> xfer_inv ms w1.
Proof.
  intros Hp Hr (A & B & C).
  split; [eapply core_inv_priv; eauto | split; [eapply fresh_inv_priv; eauto | ]].
  eapply ier_inv_frame; try exact C; rewrite ?Hp; auto using flags_agree_refl.
Qed.

Lemma data_phase_same msr w w1 : priv w1 = priv w -> data_phase msr w1 = data_phase msr w.
Proof. intros Hp. unfold data_phase. rewrite Hp. reflexivity. Qed.

(** The handler under the hardware's rules keeps the invariant, in either
    mode. *)
Lemma irqhandler_inv ms e w :
  Forall msg_ok ms -> xfer_inv ms w -> hw_contract e w ->
  (tst (flags (priv w)) ID_P_NOT_ATOMIC = false -> tst (flags (priv w)) ID_DONE = false) ->
  xfer_inv ms (snd (irqhandler e w))
  /\ tst (flags (priv (snd (irqhandler e w)))) ID_P_NOT_ATOMIC
     = tst (flags (priv w)) ID_P_NOT_ATOMIC.
Proof.
  intros Hall Hinv [H1 H2] Hat.
  destruct (irqhandler_spec e w) as (w1 & -> & Hp & Hr).
  pose proof (xfer_inv_same ms w w1 Hp Hr Hinv) as Hinv1.
  pose proof (data_phase_same (irq_msr e w) w w1 Hp) as Hdp.
  pose proof (in_flight_priv w w1 Hp) as Hif.
  destruct Hinv as (Hc & Hfr & Hi).
  assert (irq_msr e w <> 0 -> tst (flags (priv w1)) ID_DONE = false) as P1.
  { rewrite Hp. intros Hne.
    destruct (tst (flags (priv w)) ID_P_NOT_ATOMIC) eqn:Hna; [ | auto].
    destruct (tst (flags (priv w)) ID_DONE) eqn:Hd; [ | reflexivity].
    exfalso. apply Hne. unfold irq_msr. rewrite Hna.
    destruct (Hi Hna) as [Hz _]. rewrite (Hz Hd). apply Z.land_0_r. }
  assert (tst (flags (priv w1)) ID_P_NOT_ATOMIC = true ->
          tst (flags (priv w1)) ID_NACK = true -> data_phase (irq_msr e w) w1 = false) as P2.
  { rewrite Hp, Hdp. intros Hna Hnk. destruct (Hi Hna) as [_ Hz].
    unfold data_phase, irq_msr. rewrite Hna.
    destruct (Hz Hnk) as [-> | ->].
    - rewrite Z.land_0_r. reflexivity.
    - destruct (rcar_i2c_is_recv (priv w)); flags_norm; cbn [negb andb];
        rewrite ?andb_false_r; reflexivity. }
  split.
  - apply irq_inv; auto; rewrite ?Hdp, ?Hif, ?Hp; auto.
  - rewrite <- Hp. apply (irq_mode_kept ms); auto; rewrite ?Hdp, ?Hif, ?Hp; auto.
Qed.

Lemma step_inv ms w w' :
  Forall msg_ok ms -> xfer_inv ms w -> step w w' ->
  xfer_inv ms w'
  /\ tst (flags (priv w')) ID_P_NOT_ATOMIC = tst (flags (priv w)) ID_P_NOT_ATOMIC.
Proof.
  intros Hall Hinv Hstep. destruct Hstep as [e w Hna Hhw | w Hfl | e0 e w Hna Hnd Hhw].
  - apply irqhandler_inv; auto. congruence.
  - split; [apply dma_callback_inv; auto | ].
    unfold rcar_i2c_dma_callback.
    rewrite (proj1 (cleanup_dma_priv _ _)). w_simpl. priv_simpl.
    destruct ((devtype_val I2C_RCAR_GEN3 <=? devtype_val (devtype (priv w)))
              && dir_eqb (dma_direction (priv w)) DMA_FROM_DEVICE);
      flags_norm; reflexivity.
  - unfold atomic_poll, rcar_i2c_read. w_simpl.
    match goal with |- context [if ?c then _ else _] => destruct c end.
    + split; [ | reflexivity].
      eapply xfer_inv_same; try exact Hinv; reflexivity.
    + match goal with |- context [irqhandler e ?x] => set (wa := x) end.
      assert (priv wa = priv w) as Hp by reflexivity.
      assert (r_icmier wa = r_icmier w) as Hr by reflexivity.
      assert (hw_contract e wa) as Hhw'.
      { unfold hw_contract, irq_msr in *.
        rewrite (in_flight_priv _ _ Hp), (data_phase_same _ _ _ Hp), Hp, Hr. exact Hhw. }
      clearbody wa. rewrite <- Hp.
      apply irqhandler_inv; auto.
      * eapply xfer_inv_same; eauto.
      * rewrite Hp. auto.
Qed.

Lemma reachable_inv ms w0 w :
  batch_ok ms -> in_flight w0 = false -> reachable ms w0 w ->
  xfer_inv ms w
  /\ tst (flags (priv w)) ID_P_NOT_ATOMIC = tst (flags (priv w0)) ID_P_NOT_ATOMIC.
Proof.
  intros Hb Hfl Hr. induction Hr as [ | w w' Hr IH Hs].
  - split; [apply first_msg_inv; assumption | ].
    unfold rcar_i2c_first_msg. rewrite prepare_msg_priv. priv_simpl.
    apply (prep_flags_tests
             (set_msgs_left (Z.of_nat (length ms)) (priv w0))).
  - destruct IH as [IH1 IH2].
    destruct (step_inv ms w w' (proj2 Hb) IH1 Hs) as [A B].
    split; [exact A | congruence].
Qed.

(** ** Traces *)

Lemma appends_refl w : appends w w.
Proof. exists []. rewrite app_nil_r. auto. Qed.

Lemma appends_trans w1 w2 w3 : appends w1 w2 -> appends w2 w3 -> appends w1 w3.
Proof.
  intros (l1 & E1 & Q1) (l2 & E2 & Q2). exists (l1 ++ l2).
  rewrite E2, E1, app_assoc, forallb_app, Q1, Q2. auto.
Qed.

Lemma appends_trace w w' : trace w' = trace w -> appends w w'.
Proof. intros E. exists []. rewrite app_nil_r. auto. Qed.

Lemma appends_write w x r v :
  appends w x -> quiet (Write r v) = true -> appends w (rcar_i2c_write r v x).
Proof.
  intros H Q. eapply appends_trans; [exact H | ].
  exists [Write r v]. cbn [forallb]. rewrite Q. auto.
Qed.

Lemma appends_emit w x a : appends w x -> quiet a = true -> appends w (emit a x).
Proof.
  intros H Q. eapply appends_trans; [exact H | ].
  exists [a]. cbn [forallb]. rewrite Q. auto.
Qed.

Lemma appends_upd w x f : appends w x -> appends w (upd_priv f x).
Proof. intros H. eapply appends_trans; [exact H | ]. apply appends_trace. reflexivity. Qed.

Lemma quiet_consts :
  quiet (Write ICMCR RCAR_BUS_PHASE_START) = true
  /\ quiet (Write ICMCR RCAR_BUS_PHASE_STOP) = true.
Proof. split; vm_compute; reflexivity. Qed.

Ltac app_base :=
  repeat first
    [ apply appends_refl
    | assumption
    | apply appends_upd
    | apply appends_write; [ | first [ reflexivity | apply quiet_consts ] ]
    | apply appends_emit; [ | reflexivity ]
    | match goal with
      | |- appends _ (if ?c then _ else _) => destruct c
      | |- appends _ (rcar_i2c_clear_irq _ _) => unfold rcar_i2c_clear_irq
      end ].

Lemma appends_prepare_msg w x : appends w x -> appends w (rcar_i2c_prepare_msg x).
Proof. intros H. unfold rcar_i2c_prepare_msg. cbv zeta. app_base. Qed.

Lemma appends_next_msg w x : appends w x -> appends w (rcar_i2c_next_msg x).
Proof. intros H. unfold rcar_i2c_next_msg. cbv zeta. apply appends_prepare_msg. app_base. Qed.

Lemma appends_cleanup_dma t w x : appends w x -> appends w (rcar_i2c_cleanup_dma t x).
Proof. intros H. unfold rcar_i2c_cleanup_dma. cbv zeta. app_base. Qed.

Lemma appends_dma e w x : appends w x -> appends w (snd (rcar_i2c_dma e x)).
Proof.
  intros H. unfold rcar_i2c_dma. cbv zeta.
  destruct (dma_infeasible (priv x)); [exact H | ].
  destruct (m_rd (cur_msg (priv x)));
    destruct (dma_map_ok e), (dma_prep_ok e), (dma_submit_ok e); cbn [negb snd];
    repeat first [ apply appends_cleanup_dma | progress app_base ].
Qed.

Lemma appends_irq_send e msr w : appends w (rcar_i2c_irq_send e msr w).
Proof.
  unfold rcar_i2c_irq_send. cbv zeta.
  destruct (negb (tst msr MDE)); [app_base | ].
  assert (forall itc x, appends w x ->
            appends w
              (rcar_i2c_clear_irq itc
                 (if pos (priv x) <? len (cur_msg (priv x)) then
                    upd_priv (fun p => set_pos (pos p + 1) p)
                      (rcar_i2c_write ICRXTX (buf_at (cur_msg (priv x)) (pos (priv x))) x)
                  else if tst (flags (priv x)) ID_LAST_MSG then
                    rcar_i2c_write ICMCR RCAR_BUS_PHASE_STOP x
                  else rcar_i2c_next_msg x))) as Hrest.
  { intros itc x Hx. unfold rcar_i2c_clear_irq. apply appends_write; [ | reflexivity].
    destruct (pos (priv x) <? len (cur_msg (priv x))); [app_base | ].
    destruct (tst (flags (priv x)) ID_LAST_MSG); [app_base | ].
    apply appends_next_msg. exact Hx. }
  destruct (pos (priv w) =? 1).
  - pose proof (appends_dma e w w (appends_refl w)) as Hd.
    destruct (rcar_i2c_dma e w) as [taken w1]. cbn [snd] in Hd.
    destruct taken; [exact Hd | apply Hrest; exact Hd].
  - apply Hrest. apply appends_refl.
Qed.

Lemma appends_irq_recv_tail rli itc w x :
  appends w x -> appends w (irq_recv_tail rli itc x).
Proof.
  intros H. unfold irq_recv_tail. cbv zeta.
  unfold rcar_i2c_clear_irq. apply appends_write; [ | reflexivity].
  match goal with
  | |- appends _ (if ?c then rcar_i2c_next_msg ?y else _) =>
      assert (appends w y) as Hy; [ app_base | destruct c; [apply appends_next_msg | ]; exact Hy ]
  end.
Qed.

Lemma appends_irq_recv e msr w : appends w (rcar_i2c_irq_recv e msr w).
Proof.
  unfold rcar_i2c_irq_recv. cbv zeta.
  destruct (negb (tst msr MDR)); [apply appends_refl | ].
  destruct (tst msr MAT).
  { pose proof (appends_dma e w w (appends_refl w)) as Hd.
    destruct (rcar_i2c_dma e w) as [taken w1]. cbn [snd] in Hd.
    apply appends_irq_recv_tail. exact Hd. }
  destruct (pos (priv w) <? len (cur_msg (priv w)));
    [ | apply appends_irq_recv_tail; apply appends_refl].
  unfold rcar_i2c_read. cbn [fst snd].
  match goal with
  | |- context [upd_priv ?f (emit ?a w)] => set (ws := upd_priv f (emit a w))
  end.
  assert (appends w ws) as Hs by (subst ws; app_base).
  clearbody ws.
  destruct ((pos (priv w) =? 0) && m_recv_len (cur_msg (priv w))).
  - destruct ((u8 (u32 (hw_icrxtx e)) =? 0) || (I2C_SMBUS_BLOCK_MAX <? u8 (u32 (hw_icrxtx e))));
      [app_base | ].
    match goal with
    | |- context [rcar_i2c_dma e ?y] =>
        pose proof (appends_dma e w y ltac:(app_base)) as Hd;
        destruct (rcar_i2c_dma e y) as [taken w1]
    end.
    cbn [snd] in Hd. destruct taken; [exact Hd | ].
    apply appends_irq_recv_tail. app_base.
  - apply appends_irq_recv_tail. app_base.
Qed.

Lemma appends_slave_irq e w : appends w (snd (rcar_i2c_slave_irq e w)).
Proof.
  unfold rcar_i2c_slave_irq, i2c_slave_event, slave_nack_if, rcar_i2c_read.
  cbn [fst snd]. cbv zeta.
  repeat match goal with
         | |- context [slave_cb e ?ev] => destruct (slave_cb e ev) as [? ?]
         end.
  match goal with |- context [if ?c then (false, _) else _] => destruct c end;
    cbn [snd]; [app_base | ].
  repeat match goal with
         | |- context [if ?c then _ else _] => destruct c; cbn [fst snd]
         | |- appends _ (rcar_i2c_write _ _ _) => apply appends_write; [ | reflexivity ]
         | |- appends _ (emit _ _) => apply appends_emit; [ | reflexivity ]
         | |- appends _ (upd_priv _ _) => apply appends_upd
         | |- appends ?a ?a => apply appends_refl
         end.
Qed.

(** With master status to handle, rcar_i2c_irq is a quiet body followed by
    the code at [out]. *)
Lemma irq_shape e msr w :
  msr <> 0 ->
  exists w1, snd (rcar_i2c_irq e msr w) = irq_out w1 /\ appends w w1.
Proof.
  intros H0. unfold rcar_i2c_irq.
  destruct (Z.eqb_spec msr 0); [contradiction | ].
  destruct (tst msr MAL); [eexists; split; [reflexivity | app_base] | ].
  destruct (tst msr MNR); [eexists; split; [reflexivity | app_base] | ].
  destruct (tst msr MST); [eexists; split; [reflexivity | app_base] | ].
  eexists; split; [reflexivity | ].
  destruct (rcar_i2c_is_recv (priv w)); [apply appends_irq_recv | apply appends_irq_send].
Qed.

Lemma quiet_not_wakeup l : forallb quiet l = true -> ~ In WakeUp l.
Proof.
  intros H Hin. rewrite forallb_forall in H. specialize (H _ Hin). discriminate.
Qed.

Lemma quiet_not_data l :
  forallb quiet l = true -> ~ In (Write ICMCR RCAR_BUS_PHASE_DATA) l.
Proof.
  intros H Hin. rewrite forallb_forall in H. specialize (H _ Hin).
  vm_compute in H. discriminate.
Qed.

(** C10.  Whenever an invocation of rcar_i2c_irq that handles master status
    ends with ID_DONE set, whatever the terminal outcome, the last register
    accesses of the handler are the write of 0 to ICMIER and then the write
    of 0 to ICMSR; the waiter is woken after these two writes, only in
    non-atomic mode, and nowhere else in the invocation. *)
Theorem irq_done_cleanup e msr w :
  msr <> 0 ->
  tst (flags (priv (snd (rcar_i2c_irq e msr w)))) ID_DONE = true ->
  exists body,
    trace (snd (rcar_i2c_irq e msr w))
    = trace w ++ body ++ [Write ICMIER 0; Write ICMSR 0]
      ++ (if tst (flags (priv (snd (rcar_i2c_irq e msr w)))) ID_P_NOT_ATOMIC
          then [WakeUp] else [])
    /\ ~ In WakeUp body
    /\ r_icmier (snd (rcar_i2c_irq e msr w)) = 0.
Proof.
  intros H0. destruct (irq_shape e msr w H0) as (w1 & -> & (body & Ht & Hq)).
  destruct (irq_out_spec w1) as [Hp Hi]. rewrite Hp, Hi. intros Hd. rewrite Hd.
  exists body. split; [ | split; [apply quiet_not_wakeup; exact Hq | reflexivity]].
  unfold irq_out. rewrite Hd. w_simpl.
  destruct (tst (flags (priv w1)) ID_P_NOT_ATOMIC); w_simpl; rewrite Ht;
    rewrite <- ?app_assoc; reflexivity.
Qed.

Lemma irq_done_cleanup_witness :
  let w' := snd (rcar_i2c_irq (irq_answers 16 0) 16 write2_sent) in
  exists body,
    trace w'
    = trace write2_sent ++ body ++ [Write ICMIER 0; Write ICMSR 0]
      ++ (if tst (flags (priv w')) ID_P_NOT_ATOMIC then [WakeUp] else [])
    /\ ~ In WakeUp body /\ r_icmier w' = 0.
Proof.
  cbv zeta. apply (irq_done_cleanup (irq_answers 16 0) 16 write2_sent).
  - discriminate.
  - vm_compute. reflexivity.
Defined.

(** The terminal outcomes do set ID_DONE. *)
Lemma irq_terminal_done e msr w :
  (tst msr MAL = true ->
   tst (flags (priv (snd (rcar_i2c_irq e msr w)))) ID_DONE = true
   /\ tst (flags (priv (snd (rcar_i2c_irq e msr w)))) ID_ARBLOST = true)
  /\ (tst msr MAL = false -> tst msr MNR = false -> tst msr MST = true ->
      tst (flags (priv (snd (rcar_i2c_irq e msr w)))) ID_DONE = true
      /\ msgs_left (priv (snd (rcar_i2c_irq e msr w))) = msgs_left (priv w) - 1).
Proof.
  assert (forall k, 0 <= k -> tst msr (BIT k) = true -> msr <> 0) as Hnz.
  { intros k Hk Ht ->. rewrite tst_0 in Ht. discriminate. }
  split.
  - intros Hm. pose proof (Hnz 5 ltac:(lia) Hm) as H0.
    unfold rcar_i2c_irq. destruct (Z.eqb_spec msr 0); [contradiction | ].
    rewrite Hm. cbn [snd]. rewrite (proj1 (irq_out_spec _)). w_simpl. priv_simpl.
    flags_norm. auto.
  - intros Hm Hn Hs. pose proof (Hnz 4 ltac:(lia) Hs) as H0.
    unfold rcar_i2c_irq. destruct (Z.eqb_spec msr 0); [contradiction | ].
    rewrite Hm, Hn, Hs. cbn [snd]. rewrite (proj1 (irq_out_spec _)). w_simpl. priv_simpl.
    flags_norm. auto.
Qed.

(** rcar_i2c_irq itself never writes the data-phase value to ICMCR. *)
Lemma irq_no_data_write e msr w :
  exists l,
    trace (snd (rcar_i2c_irq e msr w)) = trace w ++ l
    /\ ~ In (Write ICMCR RCAR_BUS_PHASE_DATA) l.
Proof.
  destruct (Z.eq_dec msr 0) as [E0 | E0].
  - unfold rcar_i2c_irq. subst msr. cbn [Z.eqb].
    destruct (appends_slave_irq e w) as (l & Ht & Hq).
    destruct (rcar_i2c_slave_irq e w) as [h w1]. cbn [snd] in *.
    exists l. split; [exact Ht | apply quiet_not_data; exact Hq].
  - destruct (irq_shape e msr w E0) as (w1 & -> & (body & Ht & Hq)).
    pose proof (quiet_not_data _ Hq) as Hb.
    unfold irq_out. destruct (tst (flags (priv w1)) ID_DONE).
    + w_simpl. destruct (tst (flags (priv w1)) ID_P_NOT_ATOMIC); w_simpl; rewrite Ht;
        rewrite <- ?app_assoc; eexists; (split; [reflexivity | ]);
        intros Hin; apply in_app_or in Hin; destruct Hin as [Hin | Hin];
        [contradiction | | contradiction | ];
        cbn [In app] in Hin; intuition discriminate.
    + exists body. auto.
Qed.

(** C8, as the code has it.  The legacy entry writes the data-phase value to
    ICMCR before it reads the status, whatever the status turns out to be,
    but only when no repeated start after a read is in progress
    (ID_REP_AFTER_RD clear); when one is, its first register access is the
    status read and it writes no data-phase value at all.  The later entry
    reads the status first and writes the data-phase value only when the
    masked status is non-zero and no repeated start after a read is in
    progress.  Neither entry writes the data-phase value anywhere else. *)
Theorem irq_entry_order e w :
  let rep := tst (flags (priv w)) ID_REP_AFTER_RD in
  let msr := irq_msr e w in
  let reads :=
    Read ICMSR (u32 (hw_icmsr e))
    :: (if tst (flags (priv w)) ID_P_NOT_ATOMIC then [Read ICMIER (r_icmier w)] else []) in
  (exists rest,
      trace (snd (rcar_i2c_gen2_irq e w))
      = trace w
        ++ (if rep then [] else [Write ICMCR RCAR_BUS_PHASE_DATA]) ++ reads ++ rest
      /\ ~ In (Write ICMCR RCAR_BUS_PHASE_DATA) rest)
  /\ (exists rest,
         trace (snd (rcar_i2c_gen3_irq e w))
         = trace w
           ++ reads
           ++ (if negb rep && negb (msr =? 0) then [Write ICMCR RCAR_BUS_PHASE_DATA] else [])
           ++ rest
         /\ ~ In (Write ICMCR RCAR_BUS_PHASE_DATA) rest).
Proof.
  cbv zeta. split.
  - unfold rcar_i2c_gen2_irq, read_msr, rcar_i2c_read.
    destruct (tst (flags (priv w)) ID_REP_AFTER_RD); cbn [negb]; w_simpl;
      destruct (tst (flags (priv w)) ID_P_NOT_ATOMIC); cbn [fst snd]; w_simpl;
      match goal with
      | |- context [rcar_i2c_irq e ?m ?x] =>
          destruct (irq_no_data_write e m x) as (l & Ht & Hn)
      end;
      exists l; (split; [ | exact Hn]); rewrite Ht; w_simpl;
      rewrite <- ?app_assoc; reflexivity.
  - unfold rcar_i2c_gen3_irq, read_msr, rcar_i2c_read, irq_msr. w_simpl.
    destruct (tst (flags (priv w)) ID_P_NOT_ATOMIC) eqn:Hna; cbn [fst snd]; w_simpl;
      destruct (tst (flags (priv w)) ID_REP_AFTER_RD); cbn [negb andb];
      try match goal with
        | |- context [negb (?m =? 0)] => destruct (m =? 0); cbn [negb]
        end;
      match goal with
      | |- context [rcar_i2c_irq e ?m ?x] =>
          destruct (irq_no_data_write e m x) as (l & Ht & Hn)
      end;
      exists l; (split; [ | exact Hn]); rewrite Ht; w_simpl;
      rewrite <- ?app_assoc; reflexivity.
Qed.

(** C8 as worded fails on the code: with a repeated start after a read in
    progress the legacy entry does not write the data-phase value before
    reading the status; it does not write it at all. *)
Lemma gen2_irq_skips_data_write :
  tst (flags (priv world_rep_after_rd)) ID_REP_AFTER_RD = true
  /\ ~ (exists rest,
           trace (snd (rcar_i2c_gen2_irq (irq_answers 2 18) world_rep_after_rd))
           = trace world_rep_after_rd ++ Write ICMCR RCAR_BUS_PHASE_DATA :: rest)
  /\ ~ In (Write ICMCR RCAR_BUS_PHASE_DATA)
         (drop (length (trace world_rep_after_rd))
            (trace (snd (rcar_i2c_gen2_irq (irq_answers 2 18) world_rep_after_rd)))).
Proof.
  split; [vm_compute; reflexivity | split].
  - intros [rest H]. vm_compute in H. discriminate H.
  - vm_compute. intuition discriminate.
Qed.

Lemma since_app w w' l : trace w' = trace w ++ l -> since w w' = l.
Proof. intros E. unfold since. rewrite E. apply drop_app_length. Qed.

Lemma cleanup_dma_trace t w :
  trace (rcar_i2c_cleanup_dma t w)
  = trace w ++ (if t then [DmaTerminateSync] else [])
    ++ [DmaUnmap (dma_direction (priv w)) (sg_len (priv w)); Write ICDMAER 0].
Proof.
  unfold rcar_i2c_cleanup_dma. destruct t; w_simpl;
    destruct ((devtype_val I2C_RCAR_GEN3 <=? devtype_val (devtype (priv w)))
              && dir_eqb (dma_direction (priv w)) DMA_FROM_DEVICE);
    w_simpl; rewrite <- ?app_assoc; reflexivity.
Qed.

(** ** NACK *)

Lemma nack_pending_event ev w : nack_pending w -> nack_pending (run_event ev w).
Proof.
  intros (Hna & Hnk & Hi). destruct ev as [e | ]; cbn [run_event].
  - destruct (irqhandler_spec e w) as (w1 & -> & Hp & Hr).
    unfold irq_msr. rewrite Hna.
    assert (forall x, x = 0 -> nack_pending (snd (rcar_i2c_irq e x w1))) as Hz.
    { intros x ->. unfold rcar_i2c_irq. cbn [Z.eqb].
      destruct (slave_irq_frame e w1) as [[sf Hp2] Hr2].
      destruct (rcar_i2c_slave_irq e w1) as [h w2]. cbn [fst snd] in *.
      unfold nack_pending. rewrite Hp2, Hr2, Hr. priv_simpl. rewrite Hp. auto. }
    destruct Hi as [Hi | Hi]; rewrite Hi.
    + apply Hz. apply Z.land_0_r.
    + destruct (Z.eq_dec (Z.land (u32 (hw_icmsr e)) RCAR_IRQ_STOP) 0) as [E0 | E0];
        [apply Hz; exact E0 | ].
      set (msr := Z.land (u32 (hw_icmsr e)) RCAR_IRQ_STOP) in *.
      assert (tst msr MAL = false /\ tst msr MNR = false /\ tst msr MST = true)
        as (M1 & M2 & M3).
      { assert (tst (u32 (hw_icmsr e)) (BIT 4) = true) as Hb.
        { unfold tst. fold MST. fold RCAR_IRQ_STOP. fold msr.
          destruct (Z.eqb_spec msr 0); [contradiction | reflexivity]. }
        subst msr. flags_norm. rewrite Hb. auto. }
      unfold rcar_i2c_irq. destruct (Z.eqb_spec msr 0); [contradiction | ].
      rewrite M1, M2, M3. cbn [snd].
      destruct (irq_out_spec
                  (upd_priv (fun p => set_flags (Z.lor (flags p) ID_DONE) p)
                     (upd_priv (fun p => set_msgs_left (msgs_left p - 1) p) w1)))
        as [Hp2 Hr2].
      unfold nack_pending. rewrite Hp2, Hr2. w_simpl. priv_simpl. rewrite Hp.
      flags_norm. rewrite Hna, Hnk. auto.
  - destruct (in_flight w); [ | unfold nack_pending; auto].
    unfold rcar_i2c_dma_callback.
    destruct (cleanup_dma_priv false
                (upd_priv (fun p => set_pos (pos p + sg_len p) p) w)) as (Hp & Hr & _).
    unfold nack_pending. rewrite Hp, Hr. w_simpl. priv_simpl.
    destruct ((devtype_val I2C_RCAR_GEN3 <=? devtype_val (devtype (priv w)))
              && dir_eqb (dma_direction (priv w)) DMA_FROM_DEVICE);
      flags_norm; auto.
Qed.

Lemma nack_pending_events evs w : nack_pending w -> nack_pending (run_events evs w).
Proof.
  revert w. induction evs as [ | ev evs IH]; intros w H; [exact H | ].
  cbn [run_events fold_left]. apply IH. apply nack_pending_event. exact H.
Qed.

Lemma master_xfer_end_nack num w :
  tst (flags (priv w)) ID_NACK = true -> tst (flags (priv w)) ID_DONE = true ->
  master_xfer_end num w
  = (- ENXIO, if in_flight w then rcar_i2c_cleanup_dma true w else w).
Proof.
  intros Hnk Hd. unfold master_xfer_end. rewrite Hd.
  set (w1 := if in_flight w then rcar_i2c_cleanup_dma true w else w).
  assert (tst (flags (priv w1)) ID_NACK = true) as Hnk1.
  { subst w1. destruct (in_flight w); [ | exact Hnk].
    rewrite (proj1 (cleanup_dma_priv _ _)). priv_simpl.
    destruct ((devtype_val I2C_RCAR_GEN3 <=? devtype_val (devtype (priv w)))
              && dir_eqb (dma_direction (priv w)) DMA_FROM_DEVICE);
      flags_norm; rewrite ?Hnk; auto. }
  clearbody w1. unfold xfer_result. cbn [negb]. rewrite Hnk1. reflexivity.
Qed.

(** The error message at [out]: for every negative result but -ENXIO. *)
Lemma xfer_out_logging ret w :
  ret < 0 ->
  (ret = - ENXIO -> xfer_out ret w = (ret, w))
  /\ (ret <> - ENXIO -> xfer_out ret w = (ret, emit (DevErr ret (flags (priv w))) w)).
Proof.
  intros Hneg. unfold xfer_out.
  destruct (Z.ltb_spec ret 0); [ | lia].
  destruct (Z.eqb_spec ret (- ENXIO)); cbn [negb andb]; split; intros; congruence.
Qed.

(** C6 in interrupt mode.  When rcar_i2c_irq takes its NACK branch (MNR
    set, arbitration not lost) during a transfer: it programs no stop
    condition (it writes ICMCR not at all); it sets ID_NACK; in interrupt
    mode its only register access narrows ICMIER to the stop interrupt; from
    then on, in interrupt mode, whatever interrupts and DMA completions
    follow, ID_NACK stays, and once the transfer is done
    rcar_i2c_master_xfer returns -ENXIO without an error message.  Every
    other negative result is logged. *)
Theorem nack_handling e msr w :
  tst msr MAL = false -> tst msr MNR = true ->
  tst (flags (priv w)) ID_DONE = false ->
  let w1 := snd (rcar_i2c_irq e msr w) in
  since w w1
  = (if tst (flags (priv w)) ID_P_NOT_ATOMIC then [Write ICMIER RCAR_IRQ_STOP] else [])
  /\ (forall v, ~ In (Write ICMCR v) (since w w1))
  /\ flags (priv w1) = Z.lor (flags (priv w)) ID_NACK
  /\ tst (flags (priv w1)) ID_NACK = true
  /\ (tst (flags (priv w)) ID_P_NOT_ATOMIC = true ->
      r_icmier w1 = RCAR_IRQ_STOP
      /\ forall evs num,
           let w2 := run_events evs w1 in
           tst (flags (priv w2)) ID_NACK = true
           /\ (tst (flags (priv w2)) ID_DONE = true ->
               fst (master_xfer_end num w2) = - ENXIO
               /\ forall r f, ~ In (DevErr r f) (since w2 (snd (master_xfer_end num w2)))))
  /\ (forall ret w', ret < 0 ->
      (since w' (snd (xfer_out ret w')) = [] <-> ret = - ENXIO)
      /\ (ret <> - ENXIO ->
          since w' (snd (xfer_out ret w')) = [DevErr ret (flags (priv w'))])).
Proof.
  intros Hmal Hmnr Hnd. cbv zeta.
  assert (msr <> 0) as H0 by (intros ->; rewrite tst_0 in Hmnr; discriminate).
  assert (snd (rcar_i2c_irq e msr w)
          = upd_priv (fun p => set_flags (Z.lor (flags p) ID_NACK) p)
              (if tst (flags (priv w)) ID_P_NOT_ATOMIC
               then rcar_i2c_write ICMIER RCAR_IRQ_STOP w else w)) as Hw1.
  { unfold rcar_i2c_irq. destruct (Z.eqb_spec msr 0); [contradiction | ].
    rewrite Hmal, Hmnr. cbn [snd]. unfold irq_out.
    match goal with |- (if ?c then _ else _) = _ => assert (c = false) as -> end;
      [ | reflexivity].
    destruct (tst (flags (priv w)) ID_P_NOT_ATOMIC); w_simpl; priv_simpl;
      flags_norm; exact Hnd. }
  rewrite Hw1.
  assert (since w
            (upd_priv (fun p => set_flags (Z.lor (flags p) ID_NACK) p)
               (if tst (flags (priv w)) ID_P_NOT_ATOMIC
                then rcar_i2c_write ICMIER RCAR_IRQ_STOP w else w))
          = (if tst (flags (priv w)) ID_P_NOT_ATOMIC
             then [Write ICMIER RCAR_IRQ_STOP] else [])) as Hs.
  { apply since_app. destruct (tst (flags (priv w)) ID_P_NOT_ATOMIC); w_simpl;
      rewrite ?app_nil_r; reflexivity. }
  assert (flags (priv (upd_priv (fun p => set_flags (Z.lor (flags p) ID_NACK) p)
                         (if tst (flags (priv w)) ID_P_NOT_ATOMIC
                          then rcar_i2c_write ICMIER RCAR_IRQ_STOP w else w)))
          = Z.lor (flags (priv w)) ID_NACK) as Hf.
  { destruct (tst (flags (priv w)) ID_P_NOT_ATOMIC); reflexivity. }
  split; [exact Hs | ]. split.
  { intros v. rewrite Hs. destruct (tst (flags (priv w)) ID_P_NOT_ATOMIC); cbn [In];
      intuition discriminate. }
  split; [exact Hf | ]. split; [rewrite Hf; flags_norm; reflexivity | ]. split.
  - intros Hna. rewrite Hna. split; [reflexivity | ].
    intros evs num. cbv zeta.
    set (w1 := upd_priv (fun p => set_flags (Z.lor (flags p) ID_NACK) p)
                 (rcar_i2c_write ICMIER RCAR_IRQ_STOP w)).
    assert (nack_pending w1) as Hnp.
    { subst w1. unfold nack_pending. w_simpl. priv_simpl. flags_norm.
      rewrite Hna. auto. }
    destruct (nack_pending_events evs w1 Hnp) as (_ & Hnk2 & _).
    split; [exact Hnk2 | ]. intros Hd2.
    rewrite (master_xfer_end_nack num _ Hnk2 Hd2). cbn [fst snd].
    split; [reflexivity | ]. intros r f.
    destruct (in_flight (run_events evs w1)).
    + erewrite since_app; [ | apply cleanup_dma_trace ].
      cbn [In app]. intuition discriminate.
    + erewrite since_app; [ | symmetry; apply app_nil_r ]. cbn [In]. tauto.
  - intros ret w' Hneg. destruct (xfer_out_logging ret w' Hneg) as [L1 L2].
    destruct (Z.eq_dec ret (- ENXIO)) as [E | E].
    + rewrite (L1 E). cbn [snd].
      erewrite since_app; [ | symmetry; apply app_nil_r ].
      split; [tauto | contradiction].
    + rewrite (L2 E). cbn [snd].
      erewrite since_app; [ | reflexivity ].
      split; [ split; [discriminate | contradiction] | reflexivity ].
Qed.

Lemma nack_handling_witness :
  let w := started I2C_RCAR_GEN3 [msg_write 80 [1; 2]] in
  let w1 := snd (rcar_i2c_irq (irq_answers 64 0) 64 w) in
  flags (priv w1) = Z.lor (flags (priv w)) ID_NACK
  /\ tst (flags (priv w1)) ID_NACK = true.
Proof.
  cbv zeta.
  assert (tst 64 MAL = false) as H1 by reflexivity.
  assert (tst 64 MNR = true) as H2 by reflexivity.
  assert (tst (flags (priv (started I2C_RCAR_GEN3 [msg_write 80 [1; 2]]))) ID_DONE = false)
    as H3 by (vm_compute; reflexivity).
  pose proof (nack_handling (irq_answers 64 0) 64
                (started I2C_RCAR_GEN3 [msg_write 80 [1; 2]]) H1 H2 H3) as H.
  cbv zeta in H. destruct H as (_ & _ & Hf & Hn & _).
  split; [exact Hf | exact Hn].
Defined.

(** ** DMA offload *)

Lemma rcar_i2c_dma_trace e w :
  let m := cur_msg (priv w) in
  since w (snd (rcar_i2c_dma e w))
  = if dma_infeasible (priv w) then []
    else DmaMap (dma_dir m) (dma_first m) (dma_count m) (dma_map_ok e)
         :: (if dma_map_ok e then
               DmaPrep (dma_prep_ok e)
               :: (if dma_prep_ok e then
                     DmaSubmit (dma_submit_ok e)
                     :: (if dma_submit_ok e then
                           [Write ICDMAER (if m_rd m then RMDMAE else TMDMAE);
                            DmaIssuePending]
                         else [DmaUnmap (dma_dir m) (dma_count m); Write ICDMAER 0])
                   else [DmaUnmap (dma_dir m) (dma_count m); Write ICDMAER 0])
             else []).
Proof.
  cbv zeta. apply since_app. unfold rcar_i2c_dma, dma_dir, dma_first, dma_count.
  destruct (dma_infeasible (priv w)); [cbn [snd]; rewrite app_nil_r; reflexivity | ].
  destruct (m_rd (cur_msg (priv w)));
    destruct (dma_map_ok e), (dma_prep_ok e), (dma_submit_ok e); cbn [negb snd];
    rewrite ?cleanup_dma_trace; w_simpl; priv_simpl; rewrite <- ?app_assoc; reflexivity.
Qed.

Lemma rcar_i2c_dma_result e w :
  fst (rcar_i2c_dma e w)
  = negb (dma_infeasible (priv w)) && dma_map_ok e && dma_prep_ok e && dma_submit_ok e.
Proof.
  unfold rcar_i2c_dma.
  destruct (dma_infeasible (priv w)); [reflexivity | ].
  destruct (m_rd (cur_msg (priv w)));
    destruct (dma_map_ok e), (dma_prep_ok e), (dma_submit_ok e); reflexivity.
Qed.

Lemma dma_infeasible_iff p :
  let m := cur_msg p in
  dma_infeasible p = false <->
  tst (flags p) ID_P_NOT_ATOMIC = true
  /\ IS_ERR (if m_rd m then dma_rx p else dma_tx p) = false
  /\ 8 <= len m
  /\ m_dma_safe m = true
  /\ (m_rd m = true -> tst (flags p) ID_P_NO_RXDMA = false).
Proof.
  cbv zeta. unfold dma_infeasible, RCAR_MIN_DMA_LEN. cbv zeta.
  destruct (tst (flags p) ID_P_NOT_ATOMIC),
    (IS_ERR (if m_rd (cur_msg p) then dma_rx p else dma_tx p)),
    (Z.ltb_spec (len (cur_msg p)) 8), (m_dma_safe (cur_msg p)),
    (m_rd (cur_msg p)), (tst (flags p) ID_P_NO_RXDMA);
    cbn; split; intros Hx; try discriminate; try reflexivity;
    try (conj_split; first [reflexivity | lia | intros; reflexivity | intros; discriminate]);
    destruct Hx as (H1 & H2 & H3 & H4 & H5);
    first [discriminate | lia | discriminate (H5 eq_refl)].
Qed.

(** C5.  rcar_i2c_dma engages exactly when every eligibility condition
    holds and the engine takes the job: non-atomic mode, a channel for the
    direction, a length of at least 8, a DMA-safe buffer and, for a receive,
    ID_P_NO_RXDMA clear.  When it engages it maps the interior of the
    buffer only: for a receive the first len - 2 bytes, so that the last two
    stay for the byte-wise path; for a transmit the len - 1 bytes from
    offset 1.  The completion callback advances the position by exactly
    that count.  A message shorter than 8 bytes never engages it; a receive
    of exactly 8 bytes under the other conditions does, for the 6 bytes from
    offset 0. *)
Theorem dma_eligibility e w :
  let p := priv w in
  let m := cur_msg p in
  let r := rcar_i2c_dma e w in
  (fst r = true ->
   tst (flags p) ID_P_NOT_ATOMIC = true
   /\ IS_ERR (if m_rd m then dma_rx p else dma_tx p) = false
   /\ 8 <= len m
   /\ m_dma_safe m = true
   /\ (m_rd m = true -> tst (flags p) ID_P_NO_RXDMA = false)
   /\ since w (snd r)
      = [DmaMap (if m_rd m then DMA_FROM_DEVICE else DMA_TO_DEVICE)
           (if m_rd m then 0 else 1) (if m_rd m then len m - 2 else len m - 1) true;
         DmaPrep true; DmaSubmit true;
         Write ICDMAER (if m_rd m then RMDMAE else TMDMAE); DmaIssuePending]
   /\ sg_len (priv (snd r)) = (if m_rd m then len m - 2 else len m - 1)
   /\ dma_direction (priv (snd r))
      = (if m_rd m then DMA_FROM_DEVICE else DMA_TO_DEVICE)
   /\ pos (priv (rcar_i2c_dma_callback (snd r)))
      = pos p + (if m_rd m then len m - 2 else len m - 1)
   /\ in_flight (rcar_i2c_dma_callback (snd r)) = false)
  /\ (fst r = true <->
      tst (flags p) ID_P_NOT_ATOMIC = true
      /\ IS_ERR (if m_rd m then dma_rx p else dma_tx p) = false
      /\ 8 <= len m
      /\ m_dma_safe m = true
      /\ (m_rd m = true -> tst (flags p) ID_P_NO_RXDMA = false)
      /\ dma_map_ok e = true /\ dma_prep_ok e = true /\ dma_submit_ok e = true)
  /\ (len m < 8 -> fst r = false /\ snd r = w)
  /\ (m_rd m = true -> len m = 8 ->
      tst (flags p) ID_P_NOT_ATOMIC = true -> IS_ERR (dma_rx p) = false ->
      m_dma_safe m = true -> tst (flags p) ID_P_NO_RXDMA = false ->
      dma_map_ok e = true -> dma_prep_ok e = true -> dma_submit_ok e = true ->
      fst r = true
      /\ since w (snd r)
         = [DmaMap DMA_FROM_DEVICE 0 6 true; DmaPrep true; DmaSubmit true;
            Write ICDMAER RMDMAE; DmaIssuePending]
      /\ sg_len (priv (snd r)) = 6
      /\ pos (priv (rcar_i2c_dma_callback (snd r))) = pos p + 6).
Proof.
  cbv zeta.
  assert (fst (rcar_i2c_dma e w) = true <->
          dma_infeasible (priv w) = false
          /\ dma_map_ok e = true /\ dma_prep_ok e = true /\ dma_submit_ok e = true) as Hiff.
  { rewrite rcar_i2c_dma_result.
    destruct (dma_infeasible (priv w)), (dma_map_ok e), (dma_prep_ok e), (dma_submit_ok e);
      cbn; intuition discriminate. }
  pose proof (dma_infeasible_iff (priv w)) as Hprim. cbv zeta in Hprim.
  assert (fst (rcar_i2c_dma e w) = true ->
          sg_len (priv (snd (rcar_i2c_dma e w))) = dma_count (cur_msg (priv w))
          /\ dma_direction (priv (snd (rcar_i2c_dma e w))) = dma_dir (cur_msg (priv w))
          /\ pos (priv (snd (rcar_i2c_dma e w))) = pos (priv w)) as Hsg.
  { intros Ht.
    destruct (rcar_i2c_dma_spec e w) as (_ & _ & D & n & F & Hp & _ & H1 & _).
    destruct (H1 Ht) as (_ & _ & -> & ->). rewrite Hp. priv_simpl.
    unfold dma_count, dma_dir. auto. }
  assert (fst (rcar_i2c_dma e w) = true ->
          since w (snd (rcar_i2c_dma e w))
          = [DmaMap (dma_dir (cur_msg (priv w))) (dma_first (cur_msg (priv w)))
               (dma_count (cur_msg (priv w))) true;
             DmaPrep true; DmaSubmit true;
             Write ICDMAER (if m_rd (cur_msg (priv w)) then RMDMAE else TMDMAE);
             DmaIssuePending]
          /\ pos (priv (rcar_i2c_dma_callback (snd (rcar_i2c_dma e w))))
             = pos (priv w) + dma_count (cur_msg (priv w))) as Hrun.
  { intros Ht. destruct (proj1 Hiff Ht) as (Hf & Hm & Hpr & Hs).
    destruct (Hsg Ht) as (S1 & S2 & S3). split.
    - rewrite rcar_i2c_dma_trace. cbv zeta. rewrite Hf, Hm, Hpr, Hs. reflexivity.
    - unfold rcar_i2c_dma_callback. rewrite (proj1 (cleanup_dma_priv _ _)).
      w_simpl. priv_simpl. rewrite S1, S3. reflexivity. }
  split; [ | split; [ | split]].
  - intros Ht. destruct (proj1 Hiff Ht) as (Hf & Hm & Hpr & Hs).
    destruct (proj1 Hprim Hf) as (NA & CH & L & SAFE & RX).
    destruct (Hsg Ht) as (S1 & S2 & S3). destruct (Hrun Ht) as (T1 & T2).
    unfold dma_dir, dma_first, dma_count in *.
    conj_split; auto.
  - rewrite Hiff, Hprim. tauto.
  - intros Hlt. unfold rcar_i2c_dma.
    assert (dma_infeasible (priv w) = true) as ->; [ | auto].
    destruct (dma_infeasible (priv w)); [reflexivity | ].
    destruct (proj1 Hprim eq_refl) as (_ & _ & L & _). lia.
  - intros Hrd H8 NA CH SAFE RX Hm Hpr Hs.
    assert (fst (rcar_i2c_dma e w) = true) as Ht.
    { apply Hiff. split; [ | auto]. apply Hprim. rewrite Hrd.
      conj_split; first [assumption | lia | intros; assumption]. }
    destruct (Hsg Ht) as (S1 & _). destruct (Hrun Ht) as (T1 & T2).
    unfold dma_dir, dma_first, dma_count in *. rewrite Hrd, H8 in *.
    conj_split; assumption.
Qed.

Lemma dma_eligibility_witness :
  let w := started I2C_RCAR_GEN3 [msg_read_dma 80 8] in
  let r := rcar_i2c_dma (irq_answers 3 0) w in
  fst r = true
  /\ since w (snd r)
     = [DmaMap DMA_FROM_DEVICE 0 6 true; DmaPrep true; DmaSubmit true;
        Write ICDMAER RMDMAE; DmaIssuePending]
  /\ sg_len (priv (snd r)) = 6
  /\ pos (priv (rcar_i2c_dma_callback (snd r))) = pos (priv w) + 6.
Proof.
  cbv zeta.
  apply (proj2 (proj2 (proj2 (dma_eligibility (irq_answers 3 0)
                                (started I2C_RCAR_GEN3 [msg_read_dma 80 8])))));
    vm_compute; reflexivity.
Defined.

(** ** The count byte of a length-prefixed receive *)

Lemma upd_cur_msg_fields f p :
  flags (upd_cur_msg f p) = flags p /\ msg (upd_cur_msg f p) = msg p
  /\ pos (upd_cur_msg f p) = pos p /\ msgs_left (upd_cur_msg f p) = msgs_left p
  /\ dma_direction (upd_cur_msg f p) = dma_direction p
  /\ dma_rx (upd_cur_msg f p) = dma_rx p /\ dma_tx (upd_cur_msg f p) = dma_tx p
  /\ length (msgs (upd_cur_msg f p)) = length (msgs p).
Proof.
  unfold upd_cur_msg. priv_simpl. rewrite length_insert. conj_split; reflexivity.
Qed.


Lemma tst_msr_nonzero msr mask : tst msr mask = true -> msr <> 0.
Proof. intros H ->. unfold tst in H. rewrite Z.land_0_l in H. discriminate. Qed.




Lemma irq_out_trace w :
  trace (irq_out w)
  = trace w
    ++ (if tst (flags (priv w)) ID_DONE
        then Write ICMIER 0 :: Write ICMSR 0
             :: (if tst (flags (priv w)) ID_P_NOT_ATOMIC then [WakeUp] else [])
        else []).
Proof.
  unfold irq_out. destruct (tst (flags (priv w)) ID_DONE);
    [ | rewrite app_nil_r; reflexivity].
  w_simpl. destruct (tst (flags (priv w)) ID_P_NOT_ATOMIC); w_simpl;
    rewrite <- ?app_assoc; reflexivity.
Qed.

Lemma set_flags_eta p : set_flags (flags p) p = p.
Proof. destruct p; reflexivity. Qed.

Lemma irq_recv_tail_mid rli itc w :
  pos (priv w) <> len (cur_msg (priv w)) ->
  priv (irq_recv_tail rli itc w) = priv w
  \/ priv (irq_recv_tail rli itc w)
     = set_flags (Z.lor (flags (priv w)) ID_REP_AFTER_RD) (priv w).
Proof.
  intros Hne. unfold irq_recv_tail.
  destruct ((pos (priv w) + 1 =? len (cur_msg (priv w))) && negb rli).
  - destruct (tst (flags (priv w)) ID_LAST_MSG); w_simpl.
    + destruct (Z.eqb_spec (pos (priv w)) (len (cur_msg (priv w)))); [contradiction | ].
      cbn [andb]. w_simpl. left; reflexivity.
    + assert (cur_msg (set_flags (Z.lor (flags (priv w)) ID_REP_AFTER_RD) (priv w))
              = cur_msg (priv w)) as -> by reflexivity.
      priv_simpl.
      destruct (Z.eqb_spec (pos (priv w)) (len (cur_msg (priv w)))); [contradiction | ].
      cbn [andb]. w_simpl. right; reflexivity.
  - destruct (Z.eqb_spec (pos (priv w)) (len (cur_msg (priv w)))); [contradiction | ].
    cbn [andb]. w_simpl. left; reflexivity.
Qed.



(** A block read on Gen3, whole transfers.  A count byte of 0 or of 33 ends
    the transfer with -EPROTO, logged, the declared length untouched; a
    count byte of 2 extends the length to 3 and the transfer returns 1. *)
Example block_read_transfers :
  let go rx rest :=
    rcar_i2c_master_xfer xfer_answers [msg_block_read 80] 1
      (EvIrq (irq_answers 3 0) :: EvIrq (irq_answers 2 rx) :: rest)
      (probe_world I2C_RCAR_GEN3) in
  fst (go 0 []) = - EPROTO
  /\ fst (go 33 []) = - EPROTO
  /\ since (started I2C_RCAR_GEN3 [msg_block_read 80]) (snd (go 33 []))
     = [Read ICMSR 3; Read ICMIER 115; Write ICMCR 136; Write ICMSR 124;
        Read ICMSR 2; Read ICMIER 115; Write ICMCR 136; Read ICRXTX 33;
        Write ICMIER 0; Write ICMSR 0; WakeUp; DevErr (-71) 268435493]
  /\ len (cur_msg (priv (snd (go 33 [])))) = 1
  /\ fst (go 2 [EvIrq (irq_answers 2 10); EvIrq (irq_answers 2 11);
                EvIrq (irq_answers 16 0)]) = 1
  /\ len (cur_msg (priv (snd (go 2 [EvIrq (irq_answers 2 10);
                                     EvIrq (irq_answers 2 11);
                                     EvIrq (irq_answers 16 0)])))) = 3.
Proof. cbv zeta. vm_compute. intuition. Qed.

(** ** When the engine refuses *)

Lemma irq_recv_addr_phase e msr w :
  tst msr MDR = true -> tst msr MAT = true ->
  pos (priv w) + 1 < len (cur_msg (priv w)) ->
  fst (rcar_i2c_dma e w) = false -> in_flight w = false ->
  let w' := rcar_i2c_irq_recv e msr w in
  pos (priv w') = pos (priv w) /\ in_flight w' = false
  /\ msgs (priv w') = msgs (priv w) /\ msg (priv w') = msg (priv w).
Proof.
  intros Hmdr Hmat Hlen Hres Hfl. cbv zeta.
  unfold rcar_i2c_irq_recv. rewrite Hmdr, Hmat. cbn [negb].
  destruct (rcar_i2c_dma_spec e w) as (_ & _ & D & n & F & Hp & _ & _ & Hd).
  specialize (Hd Hres).
  assert (D = DMA_NONE) as ->.
  { destruct Hd as [(-> & _) | ->]; [apply in_flight_false; exact Hfl | reflexivity]. }
  destruct (rcar_i2c_dma e w) as [taken w1]. cbn [fst snd] in *.
  assert (cur_msg (priv w1) = cur_msg (priv w)) as Ec by (rewrite Hp; reflexivity).
  assert (pos (priv w1) <> len (cur_msg (priv w1))) as Hne
    by (rewrite Ec, Hp; priv_simpl; lia).
  unfold in_flight.
  destruct (irq_recv_tail_mid ((pos (priv w) =? 0) && m_recv_len (cur_msg (priv w)))
              (Z.lor MDR MAT) w1 Hne) as [-> | ->];
    rewrite Hp; priv_simpl; auto.
Qed.

Lemma irq_recv_plain_byte e msr w :
  tst msr MDR = true -> tst msr MAT = false ->
  m_recv_len (cur_msg (priv w)) = false ->
  0 <= pos (priv w) -> pos (priv w) + 1 < len (cur_msg (priv w)) ->
  let w' := rcar_i2c_irq_recv e msr w in
  pos (priv w') = pos (priv w) + 1
  /\ exists l, since w w' = Read ICRXTX (u32 (hw_icrxtx e)) :: l.
Proof.
  intros Hmdr Hmat Hrl H0 Hlen. cbv zeta.
  assert ((msg (priv w) < length (msgs (priv w)))%nat) as Hi.
  { destruct (msgs (priv w) !! msg (priv w)) as [m | ] eqn:E.
    - exact (lookup_lt_Some _ _ _ E).
    - exfalso. unfold cur_msg in Hlen. rewrite E in Hlen. cbn in Hlen. lia. }
  unfold rcar_i2c_irq_recv. rewrite Hmdr, Hmat, Hrl. cbn [negb]. rewrite andb_false_r.
  destruct (Z.ltb_spec (pos (priv w)) (len (cur_msg (priv w)))); [ | lia].
  unfold rcar_i2c_read.
  match goal with |- context [irq_recv_tail false MDR ?x] => set (x2 := x) end.
  set (f1 := fun m : i2c_msg =>
               set_buf (<[Z.to_nat (pos (priv w)) := u8 (u32 (hw_icrxtx e))]> (buf m)) m).
  assert (priv x2 = set_pos (pos (priv w) + 1) (upd_cur_msg f1 (priv w))) as Ep
    by reflexivity.
  assert (trace x2 = trace w ++ [Read ICRXTX (u32 (hw_icrxtx e))]) as Et by reflexivity.
  assert (cur_msg (priv x2) = f1 (cur_msg (priv w))) as Ec.
  { rewrite Ep. rewrite <- (cur_msg_upd f1 (priv w) Hi). reflexivity. }
  assert (pos (priv x2) <> len (cur_msg (priv x2))) as Hne.
  { rewrite Ec, Ep. unfold f1. priv_simpl. cbn [len set_buf]. lia. }
  destruct (appends_irq_recv_tail false MDR x2 x2 (appends_refl x2)) as (l & Hl & _).
  clearbody x2. split.
  - destruct (irq_recv_tail_mid false MDR x2 Hne) as [-> | ->]; rewrite Ep; priv_simpl;
      reflexivity.
  - exists l. apply since_app. rewrite Hl, Et, <- app_assoc. reflexivity.
Qed.

(** C9.  When the engine refuses an attempt that passed the feasibility
    test (mapping error, no descriptor, or submit error), rcar_i2c_dma
    undoes what it did (unmap and DMA-enable cleared once something was
    mapped), leaves nothing in flight and returns false.  Position, message
    and message count are as before, the flags differ at most in
    ID_P_NO_RXDMA, so the result the transfer will return is not affected;
    and the transfer goes on byte-wise: the transmit interrupt that made the
    attempt writes the next byte to the data port; after an attempt at the
    address phase of a receive the next data interrupt reads its byte from
    the data port. *)
Theorem dma_failure_fallback e w :
  dma_infeasible (priv w) = false ->
  in_flight w = false ->
  dma_map_ok e && dma_prep_ok e && dma_submit_ok e = false ->
  let m := cur_msg (priv w) in
  let r := rcar_i2c_dma e w in
  fst r = false
  /\ in_flight (snd r) = false
  /\ (dma_map_ok e = false ->
      priv (snd r) = priv w
      /\ since w (snd r) = [DmaMap (dma_dir m) (dma_first m) (dma_count m) false])
  /\ (dma_map_ok e = true ->
      exists tried,
        since w (snd r)
        = DmaMap (dma_dir m) (dma_first m) (dma_count m) true :: tried
          ++ [DmaUnmap (dma_dir m) (dma_count m); Write ICDMAER 0])
  /\ pos (priv (snd r)) = pos (priv w)
  /\ msgs (priv (snd r)) = msgs (priv w)
  /\ msg (priv (snd r)) = msg (priv w)
  /\ msgs_left (priv (snd r)) = msgs_left (priv w)
  /\ r_icmier (snd r) = r_icmier w
  /\ (flags (priv (snd r)) = flags (priv w)
      \/ flags (priv (snd r)) = Z.lor (flags (priv w)) ID_P_NO_RXDMA)
  /\ (forall time_left num,
         fst (xfer_result time_left num (snd r)) = fst (xfer_result time_left num w))
  /\ (m_rd m = false -> pos (priv w) = 1 -> forall msr, tst msr MDE = true ->
      let w' := rcar_i2c_irq_send e msr w in
      pos (priv w') = 2
      /\ In (Write ICRXTX (buf_at m 1)) (since w w')
      /\ in_flight w' = false)
  /\ (m_rd m = true -> m_recv_len m = false -> pos (priv w) = 0 ->
      forall msr, tst msr MDR = true -> tst msr MAT = true ->
      let w' := rcar_i2c_irq_recv e msr w in
      pos (priv w') = 0 /\ in_flight w' = false
      /\ forall e2 msr2, tst msr2 MDR = true -> tst msr2 MAT = false ->
         let w'' := rcar_i2c_irq_recv e2 msr2 w' in
         pos (priv w'') = 1
         /\ exists l, since w' w'' = Read ICRXTX (u32 (hw_icrxtx e2)) :: l).
Proof.
  intros Hf Hfl Henv. cbv zeta.
  assert (fst (rcar_i2c_dma e w) = false) as Hres.
  { rewrite rcar_i2c_dma_result, Hf. cbn [negb andb]. exact Henv. }
  destruct (rcar_i2c_dma_spec e w) as (Hi & _ & D & n & F & Hp & HF & _ & Hd).
  specialize (Hd Hres).
  pose proof (in_flight_false w Hfl) as Hnone.
  assert (D = DMA_NONE) as -> by (destruct Hd as [(-> & _) | ->]; auto).
  pose proof (rcar_i2c_dma_trace e w) as Ht. cbv zeta in Ht. rewrite Hf in Ht.
  assert (forall time_left num,
             fst (xfer_result time_left num (snd (rcar_i2c_dma e w)))
             = fst (xfer_result time_left num w)) as Hxr.
  { intros tl num. unfold xfer_result. rewrite Hp. priv_simpl.
    destruct tl; cbn [negb]; [ | reflexivity].
    destruct HF as [-> | ->]; flags_norm;
      destruct (tst (flags (priv w)) (BIT 4)), (tst (flags (priv w)) (BIT 3)),
        (tst (flags (priv w)) (BIT 5)); reflexivity. }
  conj_split; auto; try (rewrite Hp; priv_simpl; auto; fail).
  - unfold in_flight. rewrite Hp. reflexivity.
  - intros Hm. rewrite Hm in Ht. split; [ | exact Ht].
    unfold rcar_i2c_dma. rewrite Hf.
    destruct (m_rd (cur_msg (priv w))); rewrite Hm; reflexivity.
  - intros Hm. rewrite Hm in Ht. rewrite Hm in Henv. cbn [andb] in Henv.
    destruct (dma_prep_ok e); [cbn [andb] in Henv; rewrite Henv in Ht | ].
    + exists [DmaPrep true; DmaSubmit false]. exact Ht.
    + exists [DmaPrep false]. exact Ht.
  - intros Hrd Hp1 msr Hmde. cbv zeta.
    destruct (dma_feasible_len _ Hf) as (L & _). unfold RCAR_MIN_DMA_LEN in L.
    unfold rcar_i2c_irq_send. rewrite Hmde, Hp1. cbn [negb Z.eqb Pos.eqb].
    pose proof (appends_dma e w w (appends_refl w)) as (l & Hl & _).
    assert (cur_msg (priv (snd (rcar_i2c_dma e w))) = cur_msg (priv w)) as Ec
      by (unfold cur_msg; rewrite Hp; reflexivity).
    assert (pos (priv (snd (rcar_i2c_dma e w))) = 1) as Ep
      by (rewrite Hp; priv_simpl; exact Hp1).
    assert (in_flight (snd (rcar_i2c_dma e w)) = false) as Ef
      by (unfold in_flight; rewrite Hp; reflexivity).
    destruct (rcar_i2c_dma e w) as [taken w1]. cbn [fst snd] in *. subst taken.
    rewrite Ec, Ep.
    destruct (Z.ltb_spec 1 (len (cur_msg (priv w)))); [ | lia].
    w_simpl. priv_simpl. rewrite Ep.
    conj_split; [reflexivity | | exact Ef].
    erewrite since_app; [ | w_simpl; rewrite Hl, <- !app_assoc; reflexivity ].
    rewrite !in_app_iff. right. left. left. reflexivity.
  - intros Hrd Hrl Hp0 msr Hmdr Hmat. cbv zeta.
    destruct (dma_feasible_len _ Hf) as (L & _). unfold RCAR_MIN_DMA_LEN in L.
    destruct (irq_recv_addr_phase e msr w Hmdr Hmat ltac:(lia) Hres Hfl)
      as (E1 & E2 & E3 & E4).
    rewrite E1, Hp0. conj_split; [reflexivity | exact E2 | ].
    intros e2 msr2 Hmdr2 Hmat2.
    assert (cur_msg (priv (rcar_i2c_irq_recv e msr w)) = cur_msg (priv w)) as Ec
      by (apply cur_msg_eq; assumption).
    destruct (irq_recv_plain_byte e2 msr2 (rcar_i2c_irq_recv e msr w) Hmdr2 Hmat2)
      as (F1 & F2); rewrite ?Ec, ?E1, ?Hp0; auto; try lia.
    rewrite F1, E1, Hp0. split; [reflexivity | exact F2].
Qed.

Lemma dma_failure_fallback_witness :
  fst (rcar_i2c_dma (irq_answers_no_desc 8) write8_first_sent) = false
  /\ in_flight (snd (rcar_i2c_dma (irq_answers_no_desc 8) write8_first_sent)) = false.
Proof.
  assert (dma_infeasible (priv write8_first_sent) = false) as H1
    by (vm_compute; reflexivity).
  assert (in_flight write8_first_sent = false) as H2 by (vm_compute; reflexivity).
  pose proof (dma_failure_fallback (irq_answers_no_desc 8) write8_first_sent
                H1 H2 eq_refl) as H.
  cbv zeta in H. destruct H as (Hr & Hf & _).
  split; [exact Hr | exact Hf].
Defined.

(** ** Whole transfers *)

Lemma init_priv w : priv (rcar_i2c_init w) = priv w.
Proof.
  unfold rcar_i2c_init. w_simpl.
  destruct (devtype_val (devtype (priv w)) <? devtype_val I2C_RCAR_GEN3); reflexivity.
Qed.

Lemma request_dma_frame xe m w :
  flags (priv (rcar_i2c_request_dma xe m w)) = flags (priv w)
  /\ dma_direction (priv (rcar_i2c_request_dma xe m w)) = dma_direction (priv w).
Proof.
  unfold rcar_i2c_request_dma.
  destruct (m_rd m), (dma_rx (priv w)) as [ | er], (dma_tx (priv w)) as [ | et];
    try (split; reflexivity);
    try (destruct (er =? - EPROBE_DEFER); split; reflexivity);
    try (destruct (et =? - EPROBE_DEFER); split; reflexivity).
Qed.

Lemma request_dma_fold xe l w :
  flags (priv (fold_left (fun w m => rcar_i2c_request_dma xe m w) l w)) = flags (priv w)
  /\ dma_direction (priv (fold_left (fun w m => rcar_i2c_request_dma xe m w) l w))
     = dma_direction (priv w).
Proof.
  revert w. induction l as [ | m l IH]; intros w; [split; reflexivity | ].
  cbn [fold_left]. destruct (IH (rcar_i2c_request_dma xe m w)) as (-> & ->).
  apply request_dma_frame.
Qed.

Lemma master_xfer_begin_started xe ms num w w1 :
  master_xfer_begin xe ms num w = (None, w1) ->
  exists w',
    w1 = rcar_i2c_first_msg ms num w'
    /\ dma_direction (priv w') = dma_direction (priv w)
    /\ tst (flags (priv w')) ID_P_NOT_ATOMIC = true.
Proof.
  unfold master_xfer_begin. intros H.
  destruct (barrier_ret xe <? 0); [discriminate H | ].
  match type of H with
  | (let '(ret, w) := ?c in _) = _ => destruct c as [ret wr] eqn:Hc
  end.
  destruct (negb (ret =? 0)); [discriminate H | ].
  injection H as <-. eexists. split; [reflexivity | ].
  destruct (request_dma_fold xe (take (Z.to_nat num) ms) (rcar_i2c_init wr)) as (-> & ->).
  rewrite init_priv.
  w_simpl. priv_simpl.
  destruct (devtype_val I2C_RCAR_GEN3 <=? devtype_val (devtype (priv w))).
  - destruct (rcar_i2c_do_reset xe _ =? 0); injection Hc as <- <-; w_simpl; priv_simpl;
      (split; [reflexivity | do 2 flags_norm; reflexivity]).
  - injection Hc as <- <-. w_simpl; priv_simpl. split; [reflexivity | flags_norm; reflexivity].
Qed.

Lemma run_events_reachable ms w0 evs w :
  batch_ok ms -> in_flight w0 = false ->
  tst (flags (priv w0)) ID_P_NOT_ATOMIC = true ->
  reachable ms w0 w -> admissible evs w ->
  reachable ms w0 (run_events evs w).
Proof.
  intros Hb Hfl Hna. revert w. induction evs as [ | ev evs IH]; intros w Hr Ha.
  - exact Hr.
  - cbn [admissible] in Ha. destruct Ha as (Hev & Ha).
    unfold run_events. cbn [fold_left]. apply IH; [ | exact Ha].
    destruct ev as [e | ]; cbn [run_event].
    + eapply reach_step; [exact Hr | ]. apply step_irq; [ | exact Hev].
      rewrite (proj2 (reachable_inv ms w0 w Hb Hfl Hr)). exact Hna.
    + destruct (in_flight w) eqn:Hf; [ | exact Hr].
      eapply reach_step; [exact Hr | ]. apply step_dma_done. exact Hf.
Qed.

Lemma msgs_left_accounting ms w0 w :
  batch_ok ms -> in_flight w0 = false -> reachable ms w0 w ->
  let n := Z.of_nat (length ms) in
  0 <= msgs_left (priv w)
  /\ (msg (priv w) < length ms)%nat
  /\ (tst (flags (priv w)) ID_DONE = false ->
      msgs_left (priv w) = n - Z.of_nat (msg (priv w)))
  /\ (tst (flags (priv w)) ID_DONE = true ->
      tst (flags (priv w)) ID_ARBLOST = false ->
      tst (flags (priv w)) ID_EPROTO = false ->
      msgs_left (priv w) = n - Z.of_nat (msg (priv w)) - 1).
Proof.
  intros Hb Hfl Hr. cbv zeta.
  destruct (reachable_inv ms w0 w Hb Hfl Hr) as ((Hc & _) & _).
  conj_split.
  - exact (inv_left _ _ Hc).
  - exact (inv_idx _ _ Hc).
  - intros Hd. destruct (inv_run _ _ Hc Hd) as (_ & E & _). lia.
  - intros Hd Ha He. pose proof (inv_done _ _ Hc Hd) as E.
    rewrite Ha, He in E. cbn [orb] in E. lia.
Qed.

Lemma master_xfer_end_count num w :
  tst (flags (priv w)) ID_DONE = true ->
  tst (flags (priv w)) ID_NACK = false ->
  tst (flags (priv w)) ID_ARBLOST = false ->
  tst (flags (priv w)) ID_EPROTO = false ->
  0 <= msgs_left (priv w) <= num ->
  fst (master_xfer_end num w) = num - msgs_left (priv w).
Proof.
  intros Hd Hn Ha He Hl. unfold master_xfer_end. rewrite Hd.
  assert (forall x, tst (flags (priv x)) ID_NACK = false ->
                    tst (flags (priv x)) ID_ARBLOST = false ->
                    tst (flags (priv x)) ID_EPROTO = false ->
                    msgs_left (priv x) = msgs_left (priv w) ->
                    fst (let '(ret, w2) := xfer_result true num x in xfer_out ret w2)
                    = num - msgs_left (priv w)) as Hx.
  { intros x En Ea Ee El. unfold xfer_result. cbn [negb]. rewrite En, Ea, Ee, El.
    reflexivity. }
  destruct (in_flight w); [ | apply Hx; auto].
  apply Hx; rewrite (proj1 (cleanup_dma_priv _ _)); priv_simpl; auto;
    destruct ((devtype_val I2C_RCAR_GEN3 <=? devtype_val (devtype (priv w)))
              && dir_eqb (dma_direction (priv w)) DMA_FROM_DEVICE);
    auto; flags_norm; auto.
Qed.

(** ** NACK in an atomic transfer *)

Lemma init_trace w : exists l, trace (rcar_i2c_init w) = trace w ++ l.
Proof.
  unfold rcar_i2c_init. cbv zeta. w_simpl.
  destruct (devtype_val (devtype (priv w)) <? devtype_val I2C_RCAR_GEN3); w_simpl;
    rewrite <- ?app_assoc; eexists; reflexivity.
Qed.

Lemma first_msg_trace ms num w :
  exists l, trace (rcar_i2c_first_msg ms num w) = trace w ++ l.
Proof.
  assert (appends w (rcar_i2c_first_msg ms num w)) as (l & Tl & _).
  { unfold rcar_i2c_first_msg. apply appends_prepare_msg. app_base. }
  exists l. exact Tl.
Qed.

Lemma atomic_poll_nack e0 e w :
  tst (flags (priv w)) ID_P_NOT_ATOMIC = false ->
  tst (flags (priv w)) ID_DONE = false ->
  tst (u32 (hw_icmsr e0)) MNR = true ->
  tst (u32 (hw_icmsr e)) MNR = true ->
  tst (u32 (hw_icmsr e)) MAL = false ->
  let x := atomic_poll e0 e w in
  flags (priv x) = Z.lor (flags (priv w)) ID_NACK
  /\ exists l, trace x = trace w ++ l.
Proof.
  intros Hna Hnd H0 H1 H2. cbv zeta.
  unfold atomic_poll, rcar_i2c_read. cbv zeta. cbn [fst snd]. w_simpl.
  assert ((Z.land (u32 (hw_icmsr e0))
             (Z.lor (if rcar_i2c_is_recv (priv w) then RCAR_IRQ_RECV else RCAR_IRQ_SEND)
                RCAR_IRQ_STOP) =? 0) = false) as ->.
  { apply Z.eqb_neq. apply (tst_msr_nonzero _ MNR).
    destruct (rcar_i2c_is_recv (priv w)); flags_norm; rewrite H0; reflexivity. }
  assert ((u32 (hw_icmsr e) =? 0) = false) as Hz
    by (apply Z.eqb_neq; exact (tst_msr_nonzero _ _ H1)).
  unfold irqhandler, rcar_i2c_gen2_irq, rcar_i2c_gen3_irq, read_msr, rcar_i2c_read.
  cbv zeta. w_simpl.
  destruct (devtype_val (devtype (priv w)) <? devtype_val I2C_RCAR_GEN3).
  - destruct (negb (tst (flags (priv w)) ID_REP_AFTER_RD)); w_simpl; rewrite Hna;
      unfold rcar_i2c_irq; rewrite Hz, H2, H1; w_simpl; rewrite Hna; cbn [snd];
      unfold irq_out; w_simpl; priv_simpl; flags_norm; rewrite Hnd; w_simpl; priv_simpl;
      (split; [reflexivity | ]); rewrite <- ?app_assoc; eexists; reflexivity.
  - rewrite Hna. w_simpl. rewrite Hz.
    destruct (negb (tst (flags (priv w)) ID_REP_AFTER_RD)); cbn [negb andb]; w_simpl;
      unfold rcar_i2c_irq; rewrite Hz, H2, H1; w_simpl; rewrite Hna; cbn [snd];
      unfold irq_out; w_simpl; priv_simpl; flags_norm; rewrite Hnd; w_simpl; priv_simpl;
      (split; [reflexivity | ]); rewrite <- ?app_assoc; eexists; reflexivity.
Qed.

Lemma atomic_loop_nack turns : forall w,
  tst (flags (priv w)) ID_P_NOT_ATOMIC = false ->
  tst (flags (priv w)) ID_DONE = false ->
  Forall nack_turn turns ->
  let r := atomic_loop turns w in
  fst r = false
  /\ tst (flags (priv (snd r))) ID_DONE = false
  /\ tst (flags (priv (snd r))) ID_P_NOT_ATOMIC = false
  /\ (turns <> [] -> tst (flags (priv (snd r))) ID_NACK = true)
  /\ (tst (flags (priv w)) ID_NACK = true -> tst (flags (priv (snd r))) ID_NACK = true)
  /\ exists l, trace (snd r) = trace w ++ l.
Proof.
  induction turns as [ | [[e0 e] tl] rest IH]; intros w Hna Hnd Hall; cbv zeta.
  - cbn [atomic_loop fst snd]. conj_split; auto; try congruence.
    exists []. rewrite app_nil_r. reflexivity.
  - inversion Hall as [ | t ts (H0 & H1 & H2) Hrest]; subst. cbn [fst snd] in H0, H1, H2.
    cbn [atomic_loop]. cbv zeta.
    destruct (atomic_poll_nack e0 e w Hna Hnd H0 H1 H2) as (Hf & l & Tl).
    assert (tst (flags (priv (atomic_poll e0 e w))) ID_DONE = false) as Hd1
      by (rewrite Hf; flags_norm; exact Hnd).
    assert (tst (flags (priv (atomic_poll e0 e w))) ID_P_NOT_ATOMIC = false) as Hn1
      by (rewrite Hf; flags_norm; exact Hna).
    assert (tst (flags (priv (atomic_poll e0 e w))) ID_NACK = true) as Hk1
      by (rewrite Hf; flags_norm; reflexivity).
    rewrite Hd1. cbn [negb andb]. destruct tl.
    + specialize (IH _ Hn1 Hd1 Hrest). cbv zeta in IH.
      destruct IH as (I1 & I2 & I3 & _ & I5 & l2 & T2).
      conj_split; auto. exists (l ++ l2). rewrite T2, Tl, app_assoc. reflexivity.
    + cbn [fst snd]. conj_split; auto. exists l. exact Tl.
Qed.

(** C6 in atomic mode.  rcar_i2c_master_xfer_atomic polls the status
    unmasked, and the NACK branch of rcar_i2c_irq comes before the stop
    branch and leaves MNR as it is.  While the status shows MNR (and no
    arbitration loss) every poll takes the NACK branch again: ID_NACK is
    set, ID_DONE never, the loop runs to its deadline, and the transfer
    returns -ETIMEDOUT with an error message as the last thing it does,
    where the interrupt path, with ICMIER narrowed to the stop, returns
    -ENXIO without one. *)
Theorem atomic_nack_times_out xe ms num turns w :
  0 <= barrier_ret xe -> turns <> [] -> Forall nack_turn turns ->
  let r := rcar_i2c_master_xfer_atomic xe ms num turns w in
  fst r = - ETIMEDOUT
  /\ tst (flags (priv (snd r))) ID_NACK = true
  /\ tst (flags (priv (snd r))) ID_DONE = false
  /\ exists l, since w (snd r) = l ++ [DevErr (- ETIMEDOUT) (flags (priv (snd r)))].
Proof.
  intros Hbar Hne Hall. cbv zeta. unfold rcar_i2c_master_xfer_atomic. cbv zeta.
  destruct (Z.ltb_spec (barrier_ret xe) 0) as [Hlt | _]; [lia | ].
  set (w1 := rcar_i2c_first_msg ms num _).
  assert (tst (flags (priv w1)) ID_P_NOT_ATOMIC = false
          /\ tst (flags (priv w1)) ID_DONE = false
          /\ exists l, trace w1 = trace w ++ l) as (Hna & Hnd & l1 & T1).
  { subst w1. split; [ | split].
    - unfold rcar_i2c_first_msg. cbv zeta. rewrite prepare_msg_priv.
      priv_simpl. w_simpl. rewrite init_priv. w_simpl. priv_simpl.
      unfold prep_flags. priv_simpl. destruct (_ =? 1); flags_norm; reflexivity.
    - unfold rcar_i2c_first_msg. cbv zeta. rewrite prepare_msg_priv.
      priv_simpl. w_simpl. rewrite init_priv. w_simpl. priv_simpl.
      unfold prep_flags. priv_simpl. destruct (_ =? 1); flags_norm; reflexivity.
    - match goal with
      | |- exists l, trace (rcar_i2c_first_msg _ _ (rcar_i2c_init ?y)) = _ =>
          destruct (first_msg_trace ms num (rcar_i2c_init y)) as (la & Ta);
          destruct (init_trace y) as (lb & Tb)
      end.
      exists (lb ++ la). rewrite Ta, Tb, app_assoc. reflexivity. }
  clearbody w1.
  pose proof (atomic_loop_nack turns w1 Hna Hnd Hall) as H. cbv zeta in H.
  destruct (atomic_loop turns w1) as [tl x]. cbn [fst snd] in H.
  destruct H as (-> & Hd & Hn & Hk & _ & l2 & T2). specialize (Hk Hne).
  unfold xfer_result. cbn [negb]. unfold xfer_out. cbn [fst snd].
  change (- ETIMEDOUT <? 0) with true. change (- ETIMEDOUT =? - ENXIO) with false.
  cbn [negb andb]. w_simpl. rewrite init_priv.
  conj_split; try assumption; try reflexivity.
  destruct (init_trace x) as (l3 & T3).
  exists (l1 ++ l2 ++ l3). apply since_app. w_simpl.
  rewrite T3, T2, T1, <- !app_assoc. reflexivity.
Qed.

Lemma atomic_nack_times_out_witness :
  let turns :=
    [(irq_answers 73 0, irq_answers 73 0, true);
     (irq_answers 80 0, irq_answers 80 0, true);
     (irq_answers 80 0, irq_answers 80 0, false)] in
  let w := probe_world I2C_RCAR_GEN3 in
  let r := rcar_i2c_master_xfer_atomic xfer_answers [msg_write 80 [1; 2]] 1 turns w in
  fst r = - ETIMEDOUT
  /\ tst (flags (priv (snd r))) ID_NACK = true
  /\ tst (flags (priv (snd r))) ID_DONE = false
  /\ exists l, since w (snd r) = l ++ [DevErr (- ETIMEDOUT) (flags (priv (snd r)))].
Proof.
  cbv zeta.
  apply (atomic_nack_times_out xfer_answers [msg_write 80 [1; 2]] 1
           [(irq_answers 73 0, irq_answers 73 0, true);
            (irq_answers 80 0, irq_answers 80 0, true);
            (irq_answers 80 0, irq_answers 80 0, false)]
           (probe_world I2C_RCAR_GEN3)).
  - cbn. lia.
  - discriminate.
  - repeat constructor.
Defined.

(** The same statuses in interrupt mode: ICMIER, narrowed to the stop by
    the first interrupt, masks MNR in the second, the stop branch sets
    ID_DONE, and the transfer returns -ENXIO without an error message. *)
Example nack_interrupt_mode_same_statuses :
  let r :=
    rcar_i2c_master_xfer xfer_answers [msg_write 80 [1; 2]] 1
      [EvIrq (irq_answers 73 0); EvIrq (irq_answers 80 0)]
      (probe_world I2C_RCAR_GEN3) in
  fst r = - ENXIO
  /\ tst (flags (priv (snd r))) ID_DONE = true
  /\ forallb (fun a => match a with DevErr _ _ => false | _ => true end)
       (trace (snd r)) = true.
Proof. cbv zeta. vm_compute. auto. Qed.

(** ** Sample transfers, checked by evaluation *)

Ltac contract_check :=
  split;
  [ let H := fresh in
    intros H; vm_compute in H; vm_compute; first [reflexivity | congruence]
  | let H := fresh in
    let H' := fresh in
    intros H H'; vm_compute in H; vm_compute in H'; vm_compute;
    first [reflexivity | congruence] ].

Ltac batch_check :=
  split; [cbn; lia | ];
  repeat (constructor; [split; cbn; [lia | intros; first [lia | congruence]] | ]);
  constructor.

(** C2.  In every state a transfer of a well-formed batch reaches, by any
    sequence of interrupts (data phases, message transitions, NACK,
    arbitration loss, stop), DMA completions and polling turns the hardware
    rules admit, the position lies between 0 and the length of the current
    message, and the count of messages left is not negative. *)
Theorem transfer_state_invariant ms w0 w :
  batch_ok ms -> in_flight w0 = false -> reachable ms w0 w ->
  0 <= pos (priv w) <= len (cur_msg (priv w)) /\ 0 <= msgs_left (priv w).
Proof.
  intros Hb Hfl Hr.
  destruct (reachable_inv ms w0 w Hb Hfl Hr) as ((Hc & _) & _).
  split; [exact (inv_pos _ _ Hc) | exact (inv_left _ _ Hc)].
Qed.

Lemma transfer_state_invariant_witness :
  let ms := [msg_write 80 [1; 2]; msg_read 80 2] in
  let w :=
    snd (irqhandler (irq_answers 9 0)
           (rcar_i2c_first_msg ms 2 (idle_world I2C_RCAR_GEN3))) in
  0 <= pos (priv w) <= len (cur_msg (priv w)) /\ 0 <= msgs_left (priv w).
Proof.
  cbv zeta.
  apply (transfer_state_invariant [msg_write 80 [1; 2]; msg_read 80 2]
           (idle_world I2C_RCAR_GEN3)).
  - batch_check.
  - reflexivity.
  - eapply reach_step; [apply reach_first | ].
    apply step_irq; [vm_compute; reflexivity | contract_check].
Defined.

(** C3, as amended.  The count of messages left starts at the batch size n
    and, in every state of the wait, is n less the index of the current
    message, less one once the stop was observed: it goes down by one at
    each advance to a next message (n - 1 times over a whole batch) and by
    one more at the stop, n times in all.  A transfer that ends with the
    stop and no error returns n less that count, the number of messages
    completed, which is n when the stop came in the last message. *)
Theorem master_xfer_counts_messages xe ms evs w0 w1 :
  batch_ok ms -> in_flight w0 = false ->
  master_xfer_begin xe ms (Z.of_nat (length ms)) w0 = (None, w1) ->
  admissible evs w1 ->
  let n := Z.of_nat (length ms) in
  let wf := run_events evs w1 in
  let stopped :=
    tst (flags (priv wf)) ID_DONE
    && negb (tst (flags (priv wf)) ID_ARBLOST || tst (flags (priv wf)) ID_EPROTO) in
  msgs_left (priv w1) = n /\ msg (priv w1) = 0%nat
  /\ msgs_left (priv wf)
     = n - Z.of_nat (msg (priv wf)) - (if stopped then 1 else 0)
  /\ (msg (priv wf) < length ms)%nat
  /\ (forall w, msgs_left (priv (rcar_i2c_next_msg w)) = msgs_left (priv w) - 1
                /\ msg (priv (rcar_i2c_next_msg w)) = S (msg (priv w)))
  /\ (tst (flags (priv wf)) ID_DONE = true ->
      tst (flags (priv wf)) ID_NACK = false ->
      tst (flags (priv wf)) ID_ARBLOST = false ->
      tst (flags (priv wf)) ID_EPROTO = false ->
      fst (rcar_i2c_master_xfer xe ms n evs w0) = n - msgs_left (priv wf)
      /\ fst (rcar_i2c_master_xfer xe ms n evs w0) = Z.of_nat (msg (priv wf)) + 1
      /\ (S (msg (priv wf)) = length ms ->
          msgs_left (priv wf) = 0
          /\ fst (rcar_i2c_master_xfer xe ms n evs w0) = n)).
Proof.
  intros Hb Hfl Hbeg Hadm. cbv zeta.
  destruct (master_xfer_begin_started _ _ _ _ _ Hbeg) as (w' & -> & Hdir & Hna).
  assert (in_flight w' = false) as Hfl' by (unfold in_flight in *; rewrite Hdir; exact Hfl).
  pose proof (run_events_reachable ms w' evs _ Hb Hfl' Hna (reach_first ms w') Hadm) as Hr.
  set (w1 := rcar_i2c_first_msg ms (Z.of_nat (length ms)) w') in *.
  set (wf := run_events evs w1) in *.
  destruct (reachable_inv ms w' wf Hb Hfl' Hr) as ((Hc & _) & _).
  assert (priv w1
          = set_flags (prep_flags (set_msgs_left (Z.of_nat (length ms))
                                     (set_msg 0%nat (set_msgs ms (priv w')))))
              (set_pos 0 (set_msgs_left (Z.of_nat (length ms))
                            (set_msg 0%nat (set_msgs ms (priv w')))))) as Ep1.
  { unfold w1, rcar_i2c_first_msg. rewrite prepare_msg_priv. reflexivity. }
  assert (msgs_left (priv wf)
          = Z.of_nat (length ms) - Z.of_nat (msg (priv wf))
            - (if tst (flags (priv wf)) ID_DONE
                  && negb (tst (flags (priv wf)) ID_ARBLOST
                           || tst (flags (priv wf)) ID_EPROTO)
               then 1 else 0)) as Eacc.
  { destruct (tst (flags (priv wf)) ID_DONE) eqn:Hd.
    - pose proof (inv_done _ _ Hc Hd) as E. cbn [andb].
      destruct (tst (flags (priv wf)) ID_ARBLOST || tst (flags (priv wf)) ID_EPROTO);
        cbn [negb]; lia.
    - destruct (inv_run _ _ Hc Hd) as (_ & E & _). cbn [andb]. lia. }
  conj_split.
  - rewrite Ep1. reflexivity.
  - rewrite Ep1. reflexivity.
  - exact Eacc.
  - exact (inv_idx _ _ Hc).
  - intros w. rewrite next_msg_priv. split; reflexivity.
  - intros Hd Hn Ha He.
    assert (fst (rcar_i2c_master_xfer xe ms (Z.of_nat (length ms)) evs w0)
            = Z.of_nat (length ms) - msgs_left (priv wf)) as Eret.
    { unfold rcar_i2c_master_xfer. rewrite Hbeg. fold w1. fold wf.
      apply master_xfer_end_count; auto.
      pose proof (inv_left _ _ Hc) as Hl. pose proof Eacc as E2.
      rewrite Hd, Ha, He in E2. cbn [andb orb negb] in E2. lia. }
    rewrite Hd, Ha, He in Eacc. cbn [andb orb negb] in Eacc.
    conj_split.
    + exact Eret.
    + rewrite Eret. lia.
    + intros Hlast. split; [lia | rewrite Eret; lia].
Qed.

Lemma master_xfer_counts_messages_witness :
  let ms := [msg_write 80 [1; 2]; msg_read 80 2] in
  fst (rcar_i2c_master_xfer xfer_answers ms 2 write2_read2_events
         (probe_world I2C_RCAR_GEN3)) = 2.
Proof.
  cbv zeta.
  assert (batch_ok [msg_write 80 [1; 2]; msg_read 80 2]) as Hb by batch_check.
  assert (admissible write2_read2_events
            (started I2C_RCAR_GEN3 [msg_write 80 [1; 2]; msg_read 80 2])) as Ha.
  { unfold write2_read2_events. cbn [admissible].
    repeat (split; [contract_check | ]). exact I. }
  assert (master_xfer_begin xfer_answers [msg_write 80 [1; 2]; msg_read 80 2] 2
            (probe_world I2C_RCAR_GEN3)
          = (None, started I2C_RCAR_GEN3 [msg_write 80 [1; 2]; msg_read 80 2])) as Hs
    by (vm_compute; reflexivity).
  pose proof (master_xfer_counts_messages xfer_answers
                [msg_write 80 [1; 2]; msg_read 80 2] write2_read2_events
                (probe_world I2C_RCAR_GEN3)
                (started I2C_RCAR_GEN3 [msg_write 80 [1; 2]; msg_read 80 2])
                Hb eq_refl Hs Ha) as H.
  cbv zeta in H. destruct H as (_ & _ & _ & _ & _ & H).
  assert (flags (priv (run_events write2_read2_events
                         (started I2C_RCAR_GEN3 [msg_write 80 [1; 2]; msg_read 80 2])))
          = 268435461) as Ef by (vm_compute; reflexivity).
  rewrite Ef in H.
  destruct (H eq_refl eq_refl eq_refl eq_refl) as (_ & _ & Hn).
  apply Hn. vm_compute. reflexivity.
Defined.

(** C3 as worded fails on the code: over a complete transfer of one
    message the count of messages left goes down once, at the stop, and not
    once for the message and once more for the stop; it ends at 0 and the
    transfer returns 1. *)
Lemma single_message_decrements_once :
  let ms := [msg_write 80 [1; 2]] in
  let history :=
    map (fun w => msgs_left (priv w))
      (run_history write2_events (started I2C_RCAR_GEN3 ms)) in
  fst (rcar_i2c_master_xfer xfer_answers ms 1 write2_events
         (probe_world I2C_RCAR_GEN3)) = 1
  /\ history = [1; 1; 1; 1; 0]
  /\ decrements history = 1%nat
  /\ decrements history <> (length ms + 1)%nat.
Proof.
  cbv zeta. conj_split; try (vm_compute; reflexivity).
  vm_compute. discriminate.
Qed.

(** A DMA-safe read of eight bytes on Gen3: the engine takes the first six
    bytes at the address phase, the last two come through ICRXTX, and the
    transfer returns 1. *)
Example dma_read_eight_bytes :
  let w1 := started I2C_RCAR_GEN3 [msg_read_dma 80 8] in
  let w2 := run_events [EvIrq (irq_answers 3 0)] w1 in
  let w3 := run_events [EvDmaDone] w2 in
  let evs := [EvIrq (irq_answers 3 0); EvDmaDone; EvIrq (irq_answers 2 7);
              EvIrq (irq_answers 2 9); EvIrq (irq_answers 16 0)] in
  In (DmaMap DMA_FROM_DEVICE 0 6 true) (since w1 w2)
  /\ sg_len (priv w2) = 6 /\ pos (priv w2) = 0
  /\ pos (priv w3) = 6
  /\ since w3 (run_events (skipn 2 evs) w3)
     = [Read ICMSR 2; Read ICMIER 115; Write ICMCR 136; Read ICRXTX 7;
        Write ICMCR 138; Write ICMSR 125;
        Read ICMSR 2; Read ICMIER 115; Write ICMCR 136; Read ICRXTX 9;
        Write ICMSR 125;
        Read ICMSR 16; Read ICMIER 115; Write ICMCR 136;
        Write ICMIER 0; Write ICMSR 0; WakeUp]
  /\ fst (rcar_i2c_master_xfer xfer_answers [msg_read_dma 80 8] 1 evs
            (probe_world I2C_RCAR_GEN3)) = 1.
Proof. cbv zeta. vm_compute. intuition. Qed.

(** The first hardware rule is needed for the position bound.  Were
    data-ready interrupts delivered while the engine runs, the handler would
    count bytes that the completion callback counts again: three such
    interrupts in the eight-byte read, a well-formed batch, leave the
    position at 9, beyond the length of the message.  Over arbitrary
    sequences of interrupts and completion callbacks the bound of C2 does
    not hold. *)
Example position_needs_hardware_rule :
  let ms := [msg_read_dma 80 8] in
  let w1 := run_events [EvIrq (irq_answers 3 0)] (started I2C_RCAR_GEN3 ms) in
  let w :=
    run_events [EvIrq (irq_answers 2 7); EvIrq (irq_answers 2 7);
                EvIrq (irq_answers 2 7); EvDmaDone] w1 in
  batch_ok ms
  /\ in_flight w1 = true
  /\ ~ hw_contract (irq_answers 2 7) w1
  /\ pos (priv w) = 9 /\ len (cur_msg (priv w)) = 8
  /\ ~ (0 <= pos (priv w) <= len (cur_msg (priv w)) /\ 0 <= msgs_left (priv w)).
Proof.
  cbv zeta. split; [batch_check | ].
  assert (pos (priv (run_events
                       [EvIrq (irq_answers 2 7); EvIrq (irq_answers 2 7);
                        EvIrq (irq_answers 2 7); EvDmaDone]
                       (run_events [EvIrq (irq_answers 3 0)]
                          (started I2C_RCAR_GEN3 [msg_read_dma 80 8])))) = 9) as P
    by (vm_compute; reflexivity).
  assert (len (cur_msg (priv (run_events
                       [EvIrq (irq_answers 2 7); EvIrq (irq_answers 2 7);
                        EvIrq (irq_answers 2 7); EvDmaDone]
                       (run_events [EvIrq (irq_answers 3 0)]
                          (started I2C_RCAR_GEN3 [msg_read_dma 80 8]))))) = 8) as L
    by (vm_compute; reflexivity).
  conj_split; try assumption; try (vm_compute; reflexivity).
  - intros (H & _). specialize (H ltac:(vm_compute; reflexivity)).
    vm_compute in H. discriminate H.
  - rewrite P, L. lia.
Qed.

(** * Further properties of the code *)

(** ** The clock calculation *)

Lemma legacy_scl_le_requested_witness :
  clk_ick I2C_RCAR_GEN2 100000000
  <= bus_freq_hz (timings_at 100000)
     * legacy_divisor
         (icccr_scgd I2C_RCAR_GEN2
            (icccr (snd (rcar_i2c_clock_calculate 32 100000000 (timings_at 100000)
                           (probe_priv I2C_RCAR_GEN2)))))
         (clk_round I2C_RCAR_GEN2 100000000 (timings_at 100000)).
Proof.
  apply (legacy_scl_le_requested 32 100000000 (timings_at 100000)
           (probe_priv I2C_RCAR_GEN2)).
  - unfold clk_inputs_ok. cbn. lia.
  - cbn. lia.
  - reflexivity.
  - vm_compute. reflexivity.
Defined.

Lemma modern_scl_le_requested_unclamped_witness :
  smd (snd (rcar_i2c_clock_calculate 64 133330000 (timings_at 400000)
              (probe_priv I2C_RCAR_GEN3))) = RCAR_DEFAULT_SMD
  /\ 133330000
     <= bus_freq_hz (timings_at 400000)
        * modern_divisor
            (snd (rcar_i2c_clock_calculate 64 133330000 (timings_at 400000)
                    (probe_priv I2C_RCAR_GEN3)))
            (clk_round I2C_RCAR_GEN3 133330000 (timings_at 400000)).
Proof.
  apply (modern_scl_le_requested_unclamped 64 133330000 (timings_at 400000)
           (probe_priv I2C_RCAR_GEN3)).
  - unfold clk_inputs_ok. cbn. lia.
  - cbn. lia.
  - reflexivity.
  - vm_compute. reflexivity.
  - vm_compute. reflexivity.
Defined.

(** On Gen1 and Gen2, a calculation that succeeds divided by CDF + 1 with
    CDF below 8, never by zero, and the internal clock it computed the
    divider SCGD for is below 20 MHz, as the comment in the source asks. *)
Theorem legacy_ick_below_20mhz bits rate t p :
  clk_inputs_ok bits rate t ->
  is_legacy (devtype p) = true ->
  fst (rcar_i2c_clock_calculate bits rate t p) = 0 ->
  clk_cdf rate < 8
  /\ clk_ick (devtype p) rate = rate / (clk_cdf rate + 1)
  /\ 0 <= clk_ick (devtype p) rate < 20000000
  /\ (20000000 <= rate -> 10000000 <= clk_ick (devtype p) rate).
Proof.
  intros (Hb & Hr & Hr2 & Hf) Hl H0.
  assert (clk_cdf rate < 8) as Hc.
  { destruct (Z_lt_le_dec (clk_cdf rate) (2 ^ clk_cdf_width (devtype p))) as [Hlt | Hge].
    - destruct (devtype p); cbn in Hlt; lia.
    - rewrite (clock_calculate_cdf_error bits rate t p Hge) in H0.
      vm_compute in H0. discriminate H0. }
  destruct (clk_ick_legacy (devtype p) rate Hl ltac:(lia) Hc) as (E & B).
  conj_split; auto; try lia.
  intros Hbig. rewrite E.
  assert (clk_cdf rate = rate / 20000000) as Ec.
  { unfold clk_cdf. apply u32_small. split; [apply Z.div_pos; lia | ].
    apply Z.div_lt_upper_bound; lia. }
  rewrite Ec in *.
  pose proof (Z.mul_div_le rate 20000000 ltac:(lia)) as H1.
  assert (1 <= rate / 20000000) as Hq.
  { apply Z.div_le_lower_bound; lia. }
  apply Z.div_le_lower_bound; [lia | ]. nia.
Qed.

Lemma legacy_ick_below_20mhz_witness :
  clk_cdf 100000000 < 8
  /\ clk_ick I2C_RCAR_GEN2 100000000 = 100000000 / (clk_cdf 100000000 + 1)
  /\ 0 <= clk_ick I2C_RCAR_GEN2 100000000 < 20000000
  /\ (20000000 <= 100000000 -> 10000000 <= clk_ick I2C_RCAR_GEN2 100000000).
Proof.
  apply (legacy_ick_below_20mhz 32 100000000 (timings_at 100000)
           (probe_priv I2C_RCAR_GEN2)).
  - unfold clk_inputs_ok. cbn. lia.
  - reflexivity.
  - vm_compute. reflexivity.
Defined.

(** What rcar_i2c_init programs after a successful clock calculation.  On
    Gen1 and Gen2 only ICCCR is written.  On Gen3 and later ICCCR2 always
    gets CDFD, HLSE and SME, and Fast Mode Plus (FMPE) exactly when the
    controller is a Gen4 and more than 400 kHz was requested: a Gen3 never
    gets it, whatever the request. *)
Theorem init_programs_fast_mode_plus bits rate t w :
  let d := devtype (priv w) in
  let r := rcar_i2c_clock_calculate bits rate t (priv w) in
  let w1 := rcar_i2c_init (upd_priv (fun _ => snd r) w) in
  let fmplus :=
    (I2C_MAX_FAST_MODE_FREQ <? bus_freq_hz t)
    && match d with I2C_RCAR_GEN4 => true | _ => false end in
  fst r = 0 ->
  tst (flags (snd r)) ID_P_FMPLUS = fmplus
  /\ since w w1
     = [Write ICMIER 0; Write ICMCR MDBS; Write ICMSR 0]
       ++ (if is_legacy d then [Write ICCCR (icccr (snd r))]
           else [Write ICCCR2
                   (if fmplus then Z.lor (Z.lor (Z.lor CDFD HLSE) SME) FMPE
                    else Z.lor (Z.lor CDFD HLSE) SME);
                 Write ICCCR (icccr (snd r)); Write ICMPR (smd (snd r));
                 Write ICHPR (schd (snd r)); Write ICLPR (scld (snd r));
                 Write ICFBSCR TCYC17])
  /\ r_icmier w1 = 0.
Proof.
  cbv zeta. intros H0.
  assert (devtype (snd (rcar_i2c_clock_calculate bits rate t (priv w))) = devtype (priv w)
          /\ tst (flags (snd (rcar_i2c_clock_calculate bits rate t (priv w)))) ID_P_FMPLUS
             = (I2C_MAX_FAST_MODE_FREQ <? bus_freq_hz t)
               && match devtype (priv w) with I2C_RCAR_GEN4 => true | _ => false end)
    as (Ed & Ef).
  { revert H0. unfold rcar_i2c_clock_calculate. cbv zeta. priv_simpl.
    destruct (Z.shiftl 1 (clk_cdf_width (devtype (priv w))) <=? clk_cdf rate);
      [intros H; vm_compute in H; discriminate H | ].
    assert ((devtype_val I2C_RCAR_GEN4 <=? devtype_val (devtype (priv w)))
            = match devtype (priv w) with I2C_RCAR_GEN4 => true | _ => false end) as ->
      by (destruct (devtype (priv w)); reflexivity).
    destruct ((I2C_MAX_FAST_MODE_FREQ <? bus_freq_hz t)
              && match devtype (priv w) with I2C_RCAR_GEN4 => true | _ => false end) eqn:Efm;
      priv_simpl.
    - destruct (is_legacy (devtype (priv w))).
      + destruct (63 <? clk_scgd (devtype (priv w)) rate t);
          [intros H; vm_compute in H; discriminate H | ].
        intros _. priv_simpl. split; [reflexivity | flags_norm; reflexivity].
      + destruct ((clk_x bits (devtype (priv w)) rate t =? 0)
                  || (65535 <? u32 (clk_x bits (devtype (priv w)) rate t * RCAR_SCLD_RATIO)));
          [intros H; vm_compute in H; discriminate H | ].
        priv_simpl.
        match goal with |- context [if ?c then _ else _] => destruct c end;
          intros _; priv_simpl; (split; [reflexivity | flags_norm; reflexivity]).
    - destruct (is_legacy (devtype (priv w))).
      + destruct (63 <? clk_scgd (devtype (priv w)) rate t);
          [intros H; vm_compute in H; discriminate H | ].
        intros _. priv_simpl. split; [reflexivity | flags_norm; reflexivity].
      + destruct ((clk_x bits (devtype (priv w)) rate t =? 0)
                  || (65535 <? u32 (clk_x bits (devtype (priv w)) rate t * RCAR_SCLD_RATIO)));
          [intros H; vm_compute in H; discriminate H | ].
        priv_simpl.
        match goal with |- context [if ?c then _ else _] => destruct c end;
          intros _; priv_simpl; (split; [reflexivity | flags_norm; reflexivity]). }
  set (r := rcar_i2c_clock_calculate bits rate t (priv w)) in *.
  split; [exact Ef | ].
  unfold rcar_i2c_init. w_simpl. rewrite Ed, Ef. unfold is_legacy.
  destruct (devtype_val (devtype (priv w)) <? devtype_val I2C_RCAR_GEN3).
  - split; [ | reflexivity]. apply since_app. w_simpl. rewrite <- !app_assoc. reflexivity.
  - split; [ | reflexivity]. apply since_app. w_simpl. rewrite <- !app_assoc.
    destruct ((I2C_MAX_FAST_MODE_FREQ <? bus_freq_hz t)
              && match devtype (priv w) with I2C_RCAR_GEN4 => true | _ => false end);
      reflexivity.
Qed.

Lemma init_programs_fast_mode_plus_witness :
  tst (flags (snd (rcar_i2c_clock_calculate 64 133330000 (timings_at 1000000)
                     (priv (probe_world I2C_RCAR_GEN4))))) ID_P_FMPLUS = true.
Proof.
  exact (proj1 (init_programs_fast_mode_plus 64 133330000 (timings_at 1000000)
                  (probe_world I2C_RCAR_GEN4) ltac:(vm_compute; reflexivity))).
Defined.

(** ** The result of a transfer *)

Lemma cleanup_dma_result_bits t w k :
  0 <= k -> k <> 30 ->
  tst (flags (priv (rcar_i2c_cleanup_dma t w))) (BIT k) = tst (flags (priv w)) (BIT k).
Proof.
  intros Hk Hne. rewrite (proj1 (cleanup_dma_priv _ _)). priv_simpl.
  destruct ((devtype_val I2C_RCAR_GEN3 <=? devtype_val (devtype (priv w)))
            && dir_eqb (dma_direction (priv w)) DMA_FROM_DEVICE); [ | reflexivity].
  unfold ID_P_NO_RXDMA. rewrite tst_lor by lia.
  assert (tst (BIT 30) (BIT k) = false) as ->; [ | apply orb_false_r].
  rewrite tst_bit by lia. unfold BIT. apply Z.pow2_bits_false. lia.
Qed.

Lemma result_of_cleanup t num w :
  result_of num (priv (rcar_i2c_cleanup_dma t w)) = result_of num (priv w).
Proof.
  unfold result_of, ID_NACK, ID_ARBLOST, ID_EPROTO.
  rewrite !cleanup_dma_result_bits by lia.
  rewrite (proj1 (cleanup_dma_priv _ _)). reflexivity.
Qed.

Lemma master_xfer_end_result num w :
  fst (master_xfer_end num w)
  = if tst (flags (priv w)) ID_DONE then result_of num (priv w) else - ETIMEDOUT.
Proof.
  unfold master_xfer_end.
  set (w1 := if in_flight w then rcar_i2c_cleanup_dma true w else w).
  assert (result_of num (priv w1) = result_of num (priv w)) as Er
    by (subst w1; destruct (in_flight w); [apply result_of_cleanup | reflexivity]).
  clearbody w1. rewrite <- Er. unfold xfer_result, result_of.
  destruct (tst (flags (priv w)) ID_DONE); cbn [negb]; [ | reflexivity].
  destruct (tst (flags (priv w1)) ID_NACK); [reflexivity | ].
  destruct (tst (flags (priv w1)) ID_ARBLOST); [reflexivity | ].
  destruct (tst (flags (priv w1)) ID_EPROTO); reflexivity.
Qed.

(** Arbitration loss: it wins over every other status bit in the same
    interrupt (no NACK is recorded, no message is counted), ends the
    transfer at once with the usual cleanup, and makes the transfer return
    -EAGAIN, unless a NACK was recorded before, which then decides. *)
Theorem arbitration_lost e msr w :
  tst msr MAL = true ->
  let r := rcar_i2c_irq e msr w in
  fst r = IRQ_HANDLED
  /\ priv (snd r)
     = set_flags (Z.lor (flags (priv w)) (Z.lor ID_DONE ID_ARBLOST)) (priv w)
  /\ since w (snd r)
     = Write ICMIER 0 :: Write ICMSR 0
       :: (if tst (flags (priv w)) ID_P_NOT_ATOMIC then [WakeUp] else [])
  /\ r_icmier (snd r) = 0
  /\ forall num,
       fst (master_xfer_end num (snd r))
       = if tst (flags (priv w)) ID_NACK then - ENXIO else - EAGAIN.
Proof.
  intros Hmal. cbv zeta.
  pose proof (tst_msr_nonzero _ _ Hmal) as Hnz.
  unfold rcar_i2c_irq. destruct (Z.eqb_spec msr 0) as [E | _]; [contradiction | ].
  rewrite Hmal. cbn [fst snd].
  set (w1 := upd_priv (fun p => set_flags (Z.lor (flags p) (Z.lor ID_DONE ID_ARBLOST)) p) w).
  assert (tst (flags (priv w1)) ID_DONE = true) as Hd
    by (subst w1; w_simpl; priv_simpl; flags_norm; reflexivity).
  assert (tst (flags (priv w1)) ID_P_NOT_ATOMIC = tst (flags (priv w)) ID_P_NOT_ATOMIC) as Hna
    by (subst w1; w_simpl; priv_simpl; flags_norm; reflexivity).
  destruct (irq_out_spec w1) as (Ep & Ei). rewrite Hd in Ei.
  pose proof (irq_out_trace w1) as Et. rewrite Hd, Hna in Et.
  conj_split; auto.
  - apply since_app. rewrite Et. reflexivity.
  - intros num. rewrite master_xfer_end_result, Ep. unfold result_of.
    subst w1. w_simpl. priv_simpl. flags_norm.
    destruct (tst (flags (priv w)) (BIT 4)); reflexivity.
Qed.

Lemma arbitration_lost_witness :
  fst (master_xfer_end 1
         (snd (rcar_i2c_irq (irq_answers 32 0) 32
                 (started I2C_RCAR_GEN3 [msg_write 80 [1; 2]]))))
  = - EAGAIN.
Proof.
  exact (proj2 (proj2 (proj2 (proj2
           (arbitration_lost (irq_answers 32 0) 32
              (started I2C_RCAR_GEN3 [msg_write 80 [1; 2]]) eq_refl)))) 1).
Defined.

(** Timeout: when the wait ends with ID_DONE still clear, whatever else is
    recorded (a NACK included), the transfer returns -ETIMEDOUT.  A DMA
    transfer still in flight is terminated and unmapped first, then the
    controller is initialised again, which leaves the master interrupts
    disabled, and the error is logged. *)
Theorem transfer_timeout num w :
  tst (flags (priv w)) ID_DONE = false ->
  let w1 := if in_flight w then rcar_i2c_cleanup_dma true w else w in
  let r := master_xfer_end num w in
  fst r = - ETIMEDOUT
  /\ snd r = emit (DevErr (- ETIMEDOUT) (flags (priv w1))) (rcar_i2c_init w1)
  /\ in_flight (snd r) = false
  /\ r_icmier (snd r) = 0
  /\ (in_flight w = true ->
      since w w1
      = [DmaTerminateSync; DmaUnmap (dma_direction (priv w)) (sg_len (priv w));
         Write ICDMAER 0])
  /\ msgs_left (priv (snd r)) = msgs_left (priv w)
  /\ pos (priv (snd r)) = pos (priv w).
Proof.
  intros Hd. cbv zeta.
  assert (master_xfer_end num w
          = (- ETIMEDOUT,
             emit (DevErr (- ETIMEDOUT)
                     (flags (priv (if in_flight w then rcar_i2c_cleanup_dma true w else w))))
               (rcar_i2c_init (if in_flight w then rcar_i2c_cleanup_dma true w else w))))
    as E.
  { unfold master_xfer_end. rewrite Hd. unfold xfer_result. cbn [negb].
    unfold xfer_out.
    change ((- ETIMEDOUT <? 0) && negb (- ETIMEDOUT =? - ENXIO)) with true.
    cbv beta iota. rewrite init_priv. reflexivity. }
  rewrite E. cbn [fst snd].
  set (w1 := if in_flight w then rcar_i2c_cleanup_dma true w else w).
  assert (priv (emit (DevErr (- ETIMEDOUT) (flags (priv w1))) (rcar_i2c_init w1)) = priv w1)
    as Ep by (w_simpl; apply init_priv).
  assert (r_icmier (emit (DevErr (- ETIMEDOUT) (flags (priv w1))) (rcar_i2c_init w1)) = 0)
    as Ei.
  { unfold rcar_i2c_init. cbv zeta. w_simpl.
    match goal with |- context [if ?c then _ else _] => destruct c end; reflexivity. }
  rewrite (in_flight_priv _ _ Ep), Ep, Ei.
  assert (in_flight w1 = false /\ msgs_left (priv w1) = msgs_left (priv w)
          /\ pos (priv w1) = pos (priv w)) as (F1 & F2 & F3).
  { subst w1. destruct (in_flight w) eqn:Hf; [ | auto].
    unfold in_flight. rewrite (proj1 (cleanup_dma_priv _ _)). priv_simpl. auto. }
  conj_split; auto.
  intros Hf. subst w1. rewrite Hf. apply since_app. rewrite cleanup_dma_trace. reflexivity.
Qed.

Lemma transfer_timeout_witness :
  fst (master_xfer_end 1 (started I2C_RCAR_GEN3 [msg_write 80 [1; 2]])) = - ETIMEDOUT.
Proof.
  exact (proj1 (transfer_timeout 1 (started I2C_RCAR_GEN3 [msg_write 80 [1; 2]])
                  ltac:(vm_compute; reflexivity))).
Defined.

(** A transfer that is refused before it starts.  When the bus barrier
    fails its error is returned; on Gen3 and later a registered slave makes
    the transfer fail with -EISCONN, and a failing reset with the reset's
    error.  In all three cases, apart from what the bus barrier does, no
    register is accessed, no message is installed, and the error is logged
    (unless it is -ENXIO).  On Gen1 and Gen2 neither the slave nor the
    reset stops a transfer. *)
Theorem master_xfer_refused xe ms num evs w :
  let r := rcar_i2c_master_xfer xe ms num evs w in
  let gen3 := devtype_val I2C_RCAR_GEN3 <=? devtype_val (devtype (priv w)) in
  let armed := set_flags (Z.lor (flags (priv w)) ID_P_NOT_ATOMIC) (priv w) in
  let refused ret :=
    fst r = ret /\ priv (snd r) = armed
    /\ r_icmier (snd r) = r_icmier w
    /\ since w (snd r)
       = if (ret <? 0) && negb (ret =? - ENXIO) then [DevErr ret (flags armed)] else [] in
  (barrier_ret xe < 0 -> refused (barrier_ret xe))
  /\ (0 <= barrier_ret xe -> gen3 = true -> slave (priv w) = true ->
      refused (- EISCONN))
  /\ (0 <= barrier_ret xe -> gen3 = true -> slave (priv w) = false ->
      reset_ret xe <> 0 -> refused (reset_ret xe))
  /\ (0 <= barrier_ret xe -> gen3 = false ->
      exists w0,
        master_xfer_begin xe ms num w = (None, rcar_i2c_first_msg ms num w0)).
Proof.
  cbv zeta.
  assert (forall ret w1,
             priv w1 = set_flags (Z.lor (flags (priv w)) ID_P_NOT_ATOMIC) (priv w) ->
             r_icmier w1 = r_icmier w -> trace w1 = trace w ->
             master_xfer_begin xe ms num w = (Some ret, w1) ->
             fst (rcar_i2c_master_xfer xe ms num evs w) = ret
             /\ priv (snd (rcar_i2c_master_xfer xe ms num evs w))
                = set_flags (Z.lor (flags (priv w)) ID_P_NOT_ATOMIC) (priv w)
             /\ r_icmier (snd (rcar_i2c_master_xfer xe ms num evs w)) = r_icmier w
             /\ since w (snd (rcar_i2c_master_xfer xe ms num evs w))
                = if (ret <? 0) && negb (ret =? - ENXIO)
                  then [DevErr ret
                          (flags (set_flags (Z.lor (flags (priv w)) ID_P_NOT_ATOMIC) (priv w)))]
                  else []) as Hout.
  { intros ret w1 Ep Ei Et Hb. unfold rcar_i2c_master_xfer. rewrite Hb. unfold xfer_out.
    cbn [fst snd].
    destruct ((ret <? 0) && negb (ret =? - ENXIO)); w_simpl; rewrite ?Ep; conj_split; auto.
    - apply since_app. w_simpl. rewrite Et. reflexivity.
    - apply since_app. w_simpl. rewrite Et, app_nil_r. reflexivity. }
  conj_split.
  - intros Hb. apply (Hout _ (upd_priv (fun p => set_flags (Z.lor (flags p) ID_P_NOT_ATOMIC) p) w));
      try reflexivity.
    unfold master_xfer_begin. destruct (Z.ltb_spec (barrier_ret xe) 0); [reflexivity | lia].
  - intros Hb Hg Hs.
    apply (Hout _ (upd_priv (fun p => set_flags (Z.lor (flags p) ID_P_NOT_ATOMIC) p) w));
      try reflexivity.
    unfold master_xfer_begin. destruct (Z.ltb_spec (barrier_ret xe) 0); [lia | ].
    w_simpl. priv_simpl. rewrite Hg. unfold rcar_i2c_do_reset. w_simpl. priv_simpl.
    rewrite Hs. reflexivity.
  - intros Hb Hg Hs Hr.
    apply (Hout _ (upd_priv (fun p => set_flags (Z.lor (flags p) ID_P_NOT_ATOMIC) p) w));
      try reflexivity.
    unfold master_xfer_begin. destruct (Z.ltb_spec (barrier_ret xe) 0); [lia | ].
    w_simpl. priv_simpl. rewrite Hg. unfold rcar_i2c_do_reset. w_simpl. priv_simpl.
    rewrite Hs. assert ((reset_ret xe =? 0) = false) as E0 by (apply Z.eqb_neq; exact Hr).
    rewrite E0. cbv beta iota. rewrite E0. reflexivity.
  - intros Hb Hg. unfold master_xfer_begin.
    destruct (Z.ltb_spec (barrier_ret xe) 0); [lia | ].
    w_simpl. priv_simpl. rewrite Hg. cbn [Z.eqb negb]. eexists. reflexivity.
Qed.

(** What rcar_i2c_master_xfer can return.  Whatever the hardware does
    within its rules, the result is a negative error or the number of
    messages completed, which lies between 1 and the number submitted: it
    is never 0 and never more than was asked for. *)
Theorem master_xfer_result_range xe ms evs w0 :
  batch_ok ms -> in_flight w0 = false -> reset_ret xe <= 0 ->
  (forall w1, master_xfer_begin xe ms (Z.of_nat (length ms)) w0 = (None, w1) ->
              admissible evs w1) ->
  let r := fst (rcar_i2c_master_xfer xe ms (Z.of_nat (length ms)) evs w0) in
  r < 0 \/ 1 <= r <= Z.of_nat (length ms).
Proof.
  intros Hb Hfl Hreset Hadm. cbv zeta.
  destruct (master_xfer_begin xe ms (Z.of_nat (length ms)) w0) as [[ret | ] w1] eqn:Hbeg.
  - left. unfold rcar_i2c_master_xfer. rewrite Hbeg. unfold xfer_out. cbn [fst].
    revert Hbeg. unfold master_xfer_begin.
    destruct (Z.ltb_spec (barrier_ret xe) 0); [intros H1; injection H1 as <- _; lia | ].
    w_simpl. priv_simpl.
    destruct (devtype_val I2C_RCAR_GEN3 <=? devtype_val (devtype (priv w0))).
    + unfold rcar_i2c_do_reset. w_simpl. priv_simpl.
      destruct (slave (priv w0)).
      * cbn. intros H1. injection H1 as <- _. reflexivity.
      * destruct (Z.eqb_spec (reset_ret xe) 0) as [E | E]; cbv beta iota;
          [rewrite E; cbn; intros H1; discriminate H1 | ].
        assert ((reset_ret xe =? 0) = false) as -> by (apply Z.eqb_neq; exact E).
        cbn [negb]. intros H1. injection H1 as <- _. lia.
    + cbn. intros H1. discriminate H1.
  - specialize (Hadm w1 eq_refl).
    destruct (master_xfer_begin_started _ _ _ _ _ Hbeg) as (w' & -> & Hdir & Hna).
    assert (in_flight w' = false) as Hfl'
      by (unfold in_flight in *; rewrite Hdir; exact Hfl).
    pose proof (run_events_reachable ms w' evs _ Hb Hfl' Hna (reach_first ms w') Hadm) as Hr.
    unfold rcar_i2c_master_xfer. rewrite Hbeg.
    set (wf := run_events evs (rcar_i2c_first_msg ms (Z.of_nat (length ms)) w')) in *.
    rewrite master_xfer_end_result.
    destruct (msgs_left_accounting ms w' wf Hb Hfl' Hr) as (_ & Hidx & _ & Hdone).
    destruct (tst (flags (priv wf)) ID_DONE); [ | left; reflexivity].
    unfold result_of.
    destruct (tst (flags (priv wf)) ID_NACK); [left; reflexivity | ].
    destruct (tst (flags (priv wf)) ID_ARBLOST); [left; reflexivity | ].
    destruct (tst (flags (priv wf)) ID_EPROTO); [left; reflexivity | ].
    right. rewrite (Hdone eq_refl eq_refl eq_refl). lia.
Qed.

Lemma master_xfer_result_range_witness :
  let r :=
    fst (rcar_i2c_master_xfer xfer_answers [msg_write 80 [1; 2]; msg_read 80 2] 2
           write2_read2_events (probe_world I2C_RCAR_GEN3)) in
  r < 0 \/ 1 <= r <= 2.
Proof.
  cbv zeta.
  apply (master_xfer_result_range xfer_answers [msg_write 80 [1; 2]; msg_read 80 2]
           write2_read2_events (probe_world I2C_RCAR_GEN3)).
  - batch_check.
  - reflexivity.
  - cbn. lia.
  - intros w1 H. vm_compute in H. injection H as <-.
    change (admissible write2_read2_events
              (started I2C_RCAR_GEN3 [msg_write 80 [1; 2]; msg_read 80 2])).
    unfold write2_read2_events. cbn [admissible].
    repeat (split; [contract_check | ]). exact I.
Defined.

Lemma done_event_stable ev w :
  tst (flags (priv w)) ID_P_NOT_ATOMIC = true -> r_icmier w = 0 ->
  let w' := run_event ev w in
  tst (flags (priv w')) ID_P_NOT_ATOMIC = true /\ r_icmier w' = 0
  /\ msgs_left (priv w') = msgs_left (priv w)
  /\ msg (priv w') = msg (priv w)
  /\ forall k, 0 <= k -> k <> 30 ->
       tst (flags (priv w')) (BIT k) = tst (flags (priv w)) (BIT k).
Proof.
  intros Hna Hi. cbv zeta. destruct ev as [e | ]; cbn [run_event].
  - destruct (irqhandler_spec e w) as (w1 & E & Ep & Ei). rewrite E.
    assert (irq_msr e w = 0) as ->.
    { unfold irq_msr. rewrite Hna, Hi. apply Z.land_0_r. }
    unfold rcar_i2c_irq. cbn [Z.eqb].
    destruct (slave_irq_frame e w1) as ((sf & Es) & Er).
    destruct (rcar_i2c_slave_irq e w1) as [handled w2]. cbn [fst snd] in *.
    rewrite Es, Er, Ei, Ep. priv_simpl. auto.
  - destruct (in_flight w); [ | auto].
    unfold rcar_i2c_dma_callback.
    destruct (cleanup_dma_priv false (upd_priv (fun p => set_pos (pos p + sg_len p) p) w))
      as (Ep & Ei & _).
    rewrite Ei. w_simpl. conj_split; auto.
    + unfold ID_P_NOT_ATOMIC in *. rewrite cleanup_dma_result_bits by lia. exact Hna.
    + rewrite Ep. reflexivity.
    + rewrite Ep. reflexivity.
    + intros k Hk Hne. rewrite cleanup_dma_result_bits by assumption. reflexivity.
Qed.

(** The result of a finished transfer is stable in interrupt mode.  Once
    ID_DONE is set the master interrupts are disabled, so whatever
    interrupts and DMA completions still arrive before the submitting
    thread runs, within the hardware's rules or not, the flags that decide
    the result and the count of messages left stay as they are, and
    rcar_i2c_master_xfer returns what it would have returned at once. *)
Theorem finished_transfer_is_stable ms w0 w evs num :
  batch_ok ms -> in_flight w0 = false ->
  tst (flags (priv w0)) ID_P_NOT_ATOMIC = true ->
  reachable ms w0 w ->
  tst (flags (priv w)) ID_DONE = true ->
  let w' := run_events evs w in
  tst (flags (priv w')) ID_DONE = true
  /\ r_icmier w' = 0
  /\ msgs_left (priv w') = msgs_left (priv w)
  /\ result_of num (priv w') = result_of num (priv w)
  /\ fst (master_xfer_end num w') = fst (master_xfer_end num w).
Proof.
  intros Hb Hfl Hna0 Hr Hd. cbv zeta.
  destruct (reachable_inv ms w0 w Hb Hfl Hr) as ((_ & _ & Hier) & Hna).
  rewrite Hna0 in Hna. destruct (Hier Hna) as (Hi & _). specialize (Hi Hd).
  assert (forall evs w1,
             tst (flags (priv w1)) ID_P_NOT_ATOMIC = true -> r_icmier w1 = 0 ->
             r_icmier (run_events evs w1) = 0
             /\ msgs_left (priv (run_events evs w1)) = msgs_left (priv w1)
             /\ forall k, 0 <= k -> k <> 30 ->
                  tst (flags (priv (run_events evs w1))) (BIT k)
                  = tst (flags (priv w1)) (BIT k)) as Hall.
  { clear. induction evs as [ | ev evs IH]; intros w1 Hna Hi; [auto | ].
    change (run_events (ev :: evs) w1) with (run_events evs (run_event ev w1)).
    destruct (done_event_stable ev w1 Hna Hi) as (A1 & A2 & A3 & _ & A5).
    destruct (IH _ A1 A2) as (B1 & B2 & B3).
    conj_split; [exact B1 | congruence | ].
    intros k Hk Hne. rewrite (B3 k Hk Hne). apply A5; assumption. }
  destruct (Hall evs w Hna Hi) as (C1 & C2 & C3).
  assert (tst (flags (priv (run_events evs w))) ID_DONE = true) as Hd'
    by (unfold ID_DONE in *; rewrite C3 by lia; exact Hd).
  assert (result_of num (priv (run_events evs w)) = result_of num (priv w)) as Er.
  { unfold result_of, ID_NACK, ID_ARBLOST, ID_EPROTO. rewrite !C3 by lia.
    rewrite C2. reflexivity. }
  conj_split; auto.
  rewrite !master_xfer_end_result, Hd, Hd', Er. reflexivity.
Qed.

Lemma finished_transfer_is_stable_witness :
  let w :=
    snd (irqhandler (irq_answers 32 0)
           (rcar_i2c_first_msg [msg_write 80 [1; 2]] 1 (idle_world I2C_RCAR_GEN3))) in
  let w' := run_events [EvIrq (irq_answers 64 0); EvIrq (irq_answers 16 0)] w in
  fst (master_xfer_end 1 w') = fst (master_xfer_end 1 w).
Proof.
  cbv zeta.
  refine (proj2 (proj2 (proj2 (proj2
            (finished_transfer_is_stable [msg_write 80 [1; 2]] (idle_world I2C_RCAR_GEN3)
               _ [EvIrq (irq_answers 64 0); EvIrq (irq_answers 16 0)] 1 _ _ _ _ _))))).
  - batch_check.
  - reflexivity.
  - vm_compute. reflexivity.
  - eapply reach_step; [apply reach_first | ].
    apply step_irq; [vm_compute; reflexivity | contract_check].
  - vm_compute. reflexivity.
Defined.

(** ** Atomic transfers *)

Lemma akeep_trans w x f :
  akeep w x ->
  (tst (flags (priv x)) ID_P_NOT_ATOMIC = false -> akeep x (f x)) ->
  akeep w (f x).
Proof.
  intros (Hna & l1 & E1 & Q1) Hf. destruct (Hf Hna) as (Hna2 & l2 & E2 & Q2).
  split; [exact Hna2 | ]. exists (l1 ++ l2).
  rewrite E2, E1, app_assoc, forallb_app, Q1, Q2. auto.
Qed.

Lemma akeep_refl w : tst (flags (priv w)) ID_P_NOT_ATOMIC = false -> akeep w w.
Proof. intros H. split; [exact H | ]. exists []. rewrite app_nil_r. auto. Qed.

Lemma akeep_write w x r v :
  akeep w x -> atomic_ok (Write r v) = true -> akeep w (rcar_i2c_write r v x).
Proof.
  intros (Hna & l & E & Q) Ha. split; [exact Hna | ].
  exists (l ++ [Write r v]). w_simpl. rewrite E, app_assoc, forallb_app, Q.
  cbn [forallb]. rewrite Ha. auto.
Qed.

Lemma akeep_emit w x a : akeep w x -> atomic_ok a = true -> akeep w (emit a x).
Proof.
  intros (Hna & l & E & Q) Ha. split; [exact Hna | ].
  exists (l ++ [a]). w_simpl. rewrite E, app_assoc, forallb_app, Q.
  cbn [forallb]. rewrite Ha. auto.
Qed.

Lemma akeep_upd w x f :
  akeep w x ->
  tst (flags (f (priv x))) ID_P_NOT_ATOMIC = tst (flags (priv x)) ID_P_NOT_ATOMIC ->
  akeep w (upd_priv f x).
Proof.
  intros (Hna & l & E & Q) Hf. split; [w_simpl; rewrite Hf; exact Hna | ].
  exists l. auto.
Qed.

Lemma akeep_na w x : akeep w x -> tst (flags (priv x)) ID_P_NOT_ATOMIC = false.
Proof. intros (H & _). exact H. Qed.

Ltac ak_flags :=
  first [ reflexivity
        | cbn [flags set_flags]; flags_norm; reflexivity ].

Ltac ak_base :=
  repeat first
    [ assumption
    | apply akeep_upd; [ | ak_flags ]
    | apply akeep_write; [ | reflexivity ]
    | apply akeep_emit; [ | reflexivity ]
    | match goal with
      | |- akeep _ (rcar_i2c_clear_irq _ _) => unfold rcar_i2c_clear_irq
      | |- akeep _ (if tst (flags (priv ?y)) ID_P_NOT_ATOMIC then _ else _) =>
          let H := fresh in
          assert (tst (flags (priv y)) ID_P_NOT_ATOMIC = false) as H
            by (first [ apply (akeep_na _ y); ak_base
                      | w_simpl; cbn [flags set_flags]; flags_norm;
                        first [ assumption | eapply akeep_na; eassumption ] ]);
          rewrite H; clear H
      | |- akeep _ (if ?c then _ else _) => destruct c
      end ].

Lemma prepare_msg_trace w :
  trace (rcar_i2c_prepare_msg w)
  = trace w
    ++ Write ICMAR (i2c_8bit_addr_from_msg (cur_msg (priv w)))
       :: (if tst (flags (priv w)) ID_P_NOT_ATOMIC
           then [Write ICMIER (if rcar_i2c_is_recv (priv w)
                               then RCAR_IRQ_RECV else RCAR_IRQ_SEND)]
           else [])
       ++ (if tst (flags (priv w)) ID_REP_AFTER_RD then []
           else [Write ICMCR RCAR_BUS_PHASE_START]).
Proof.
  unfold rcar_i2c_prepare_msg. cbv zeta. w_simpl. priv_simpl.
  destruct (msgs_left (priv w) =? 1); w_simpl; priv_simpl; flags_norm;
    destruct (tst (flags (priv w)) (BIT 1)), (tst (flags (priv w)) (BIT 28));
    cbn [negb]; w_simpl; rewrite <- ?app_assoc; reflexivity.
Qed.

Lemma akeep_prepare_msg w x : akeep w x -> akeep w (rcar_i2c_prepare_msg x).
Proof.
  intros H. pose proof (akeep_na _ _ H) as Hna.
  apply (akeep_trans w x rcar_i2c_prepare_msg H). intros _.
  split.
  - rewrite prepare_msg_priv. priv_simpl.
    rewrite (proj1 (proj2 (proj2 (proj2 (proj2 (proj2 (prep_flags_tests (priv x)))))))).
    exact Hna.
  - eexists. split; [apply prepare_msg_trace | ].
    rewrite Hna. destruct (tst (flags (priv x)) ID_REP_AFTER_RD); reflexivity.
Qed.

Lemma akeep_next_msg w x : akeep w x -> akeep w (rcar_i2c_next_msg x).
Proof. intros H. unfold rcar_i2c_next_msg. cbv zeta. apply akeep_prepare_msg. ak_base. Qed.

Lemma dma_atomic e w :
  tst (flags (priv w)) ID_P_NOT_ATOMIC = false -> rcar_i2c_dma e w = (false, w).
Proof.
  intros H. unfold rcar_i2c_dma, dma_infeasible. cbv zeta. rewrite H. reflexivity.
Qed.

Lemma akeep_irq_send e msr w x : akeep w x -> akeep w (rcar_i2c_irq_send e msr x).
Proof.
  intros H. pose proof (akeep_na _ _ H) as Hna.
  unfold rcar_i2c_irq_send. cbv zeta. rewrite (dma_atomic e x Hna).
  destruct (negb (tst msr MDE)); [ak_base | ].
  assert ((if pos (priv x) =? 1 then (false, x) else (false, x)) = (false, x)) as ->
    by (destruct (pos (priv x) =? 1); reflexivity).
  unfold rcar_i2c_clear_irq. apply akeep_write; [ | reflexivity].
  destruct (pos (priv x) <? len (cur_msg (priv x))); [ak_base | ].
  destruct (tst (flags (priv x)) ID_LAST_MSG); [ak_base | ].
  apply akeep_next_msg. exact H.
Qed.

Lemma akeep_irq_recv_tail rli itc w x : akeep w x -> akeep w (irq_recv_tail rli itc x).
Proof.
  intros H. unfold irq_recv_tail. cbv zeta.
  unfold rcar_i2c_clear_irq. apply akeep_write; [ | reflexivity].
  match goal with
  | |- akeep _ (if ?c then rcar_i2c_next_msg ?y else _) =>
      assert (akeep w y) as Hy; [ ak_base | destruct c; [apply akeep_next_msg | ]; exact Hy ]
  end.
Qed.

Lemma akeep_irq_recv e msr w x : akeep w x -> akeep w (rcar_i2c_irq_recv e msr x).
Proof.
  intros H. pose proof (akeep_na _ _ H) as Hna.
  unfold rcar_i2c_irq_recv. cbv zeta.
  destruct (negb (tst msr MDR)); [exact H | ].
  destruct (tst msr MAT).
  { rewrite (dma_atomic e x Hna). apply akeep_irq_recv_tail. exact H. }
  destruct (pos (priv x) <? len (cur_msg (priv x)));
    [ | apply akeep_irq_recv_tail; exact H].
  unfold rcar_i2c_read. cbn [fst snd].
  match goal with
  | |- context [upd_priv ?f (emit ?a x)] => set (ws := upd_priv f (emit a x))
  end.
  assert (akeep w ws) as Hs by (subst ws; ak_base).
  clearbody ws.
  destruct ((pos (priv x) =? 0) && m_recv_len (cur_msg (priv x))).
  - destruct ((u8 (u32 (hw_icrxtx e)) =? 0) || (I2C_SMBUS_BLOCK_MAX <? u8 (u32 (hw_icrxtx e))));
      [ak_base | ].
    match goal with
    | |- context [rcar_i2c_dma e ?y] =>
        assert (akeep w y) as Hy by ak_base;
        rewrite (dma_atomic e y (akeep_na _ _ Hy))
    end.
    apply akeep_irq_recv_tail. ak_base.
  - apply akeep_irq_recv_tail. ak_base.
Qed.

Lemma akeep_slave_irq e w x : akeep w x -> akeep w (snd (rcar_i2c_slave_irq e x)).
Proof.
  intros H.
  unfold rcar_i2c_slave_irq, i2c_slave_event, slave_nack_if, rcar_i2c_read.
  cbn [fst snd]. cbv zeta.
  repeat match goal with
         | |- context [slave_cb e ?ev] => destruct (slave_cb e ev) as [? ?]
         end.
  match goal with |- context [if ?c then (false, _) else _] => destruct c end;
    cbn [snd]; [ak_base | ].
  repeat match goal with
         | |- context [if ?c then _ else _] => destruct c; cbn [fst snd]
         | |- akeep _ (rcar_i2c_write _ _ _) => apply akeep_write; [ | reflexivity ]
         | |- akeep _ (emit _ _) => apply akeep_emit; [ | reflexivity ]
         | |- akeep _ (upd_priv _ _) => apply akeep_upd; [ | reflexivity ]
         | |- akeep _ x => exact H
         end.
Qed.

Lemma akeep_irq_out w x : akeep w x -> akeep w (irq_out x).
Proof.
  intros H. pose proof (akeep_na _ _ H) as Hna.
  unfold irq_out. cbv zeta. destruct (tst (flags (priv x)) ID_DONE); [ | exact H].
  w_simpl. rewrite Hna.
  change (akeep w (rcar_i2c_write ICMSR 0 (rcar_i2c_write ICMIER 0 x))). ak_base.
Qed.

Lemma akeep_irq e msr w x : akeep w x -> akeep w (snd (rcar_i2c_irq e msr x)).
Proof.
  intros H. pose proof (akeep_na _ _ H) as Hna.
  unfold rcar_i2c_irq.
  destruct (msr =? 0).
  { pose proof (akeep_slave_irq e w x H) as Hs.
    destruct (rcar_i2c_slave_irq e x) as [handled w1]. exact Hs. }
  destruct (tst msr MAL); [cbn [snd]; apply akeep_irq_out; ak_base | ].
  destruct (tst msr MNR).
  { cbn [snd]. rewrite Hna. apply akeep_irq_out. ak_base. }
  destruct (tst msr MST); [cbn [snd]; apply akeep_irq_out; ak_base | ].
  cbn [snd]. apply akeep_irq_out.
  destruct (rcar_i2c_is_recv (priv x)); [apply akeep_irq_recv | apply akeep_irq_send]; exact H.
Qed.

Lemma read_msr_atomic e w :
  tst (flags (priv w)) ID_P_NOT_ATOMIC = false ->
  read_msr e w = (u32 (hw_icmsr e), emit (Read ICMSR (u32 (hw_icmsr e))) w).
Proof. intros H. unfold read_msr, rcar_i2c_read. w_simpl. rewrite H. reflexivity. Qed.

Lemma akeep_irqhandler e w x : akeep w x -> akeep w (snd (irqhandler e x)).
Proof.
  intros H. pose proof (akeep_na _ _ H) as Hna.
  unfold irqhandler, rcar_i2c_gen2_irq, rcar_i2c_gen3_irq. cbv zeta.
  destruct (devtype_val (devtype (priv x)) <? devtype_val I2C_RCAR_GEN3).
  - destruct (negb (tst (flags (priv x)) ID_REP_AFTER_RD)).
    + rewrite read_msr_atomic by exact Hna. apply akeep_irq. ak_base.
    + rewrite read_msr_atomic by exact Hna. apply akeep_irq. ak_base.
  - rewrite read_msr_atomic by exact Hna. w_simpl.
    apply akeep_irq.
    destruct (negb (tst (flags (priv x)) ID_REP_AFTER_RD) && negb (u32 (hw_icmsr e) =? 0));
      ak_base.
Qed.

Lemma akeep_atomic_poll e0 e w x : akeep w x -> akeep w (atomic_poll e0 e x).
Proof.
  intros H. unfold atomic_poll, rcar_i2c_read. cbv zeta.
  match goal with |- context [if ?c then _ else _] => destruct c end.
  - ak_base.
  - apply akeep_irqhandler. ak_base.
Qed.

Lemma akeep_atomic_loop turns w x :
  akeep w x -> akeep w (snd (atomic_loop turns x)).
Proof.
  revert x. induction turns as [ | [[e0 e] tl] turns IH]; intros x H; [exact H | ].
  cbn [atomic_loop]. cbv zeta.
  pose proof (akeep_atomic_poll e0 e w x H) as Hp.
  destruct (negb (tst (flags (priv (atomic_poll e0 e x))) ID_DONE) && tl);
    [apply IH; exact Hp | exact Hp].
Qed.

Lemma akeep_init w x : akeep w x -> akeep w (rcar_i2c_init x).
Proof. intros H. unfold rcar_i2c_init. cbv zeta. ak_base. Qed.

Lemma akeep_first_msg ms num w x : akeep w x -> akeep w (rcar_i2c_first_msg ms num x).
Proof. intros H. unfold rcar_i2c_first_msg. cbv zeta. apply akeep_prepare_msg. ak_base. Qed.

(** An atomic transfer relies on neither interrupts nor DMA: whatever the
    hardware answers and however long the polling lasts, apart from what
    the bus barrier does, rcar_i2c_master_xfer_atomic never enables a
    master interrupt (it writes nothing but 0 to ICMIER), never wakes the
    wait queue, and never touches the DMA engine or the DMA enable
    register; and it leaves ID_P_NOT_ATOMIC clear. *)
Theorem atomic_transfer_polls_only xe ms num turns w :
  let r := rcar_i2c_master_xfer_atomic xe ms num turns w in
  forallb atomic_ok (since w (snd r)) = true
  /\ tst (flags (priv (snd r))) ID_P_NOT_ATOMIC = false.
Proof.
  cbv zeta.
  assert (akeep w (snd (rcar_i2c_master_xfer_atomic xe ms num turns w))) as (Hna & l & E & Q).
  { unfold rcar_i2c_master_xfer_atomic. cbv zeta.
    set (w1 := upd_priv (fun p => set_flags (clr (flags p) ID_P_NOT_ATOMIC) p) w).
    assert (akeep w w1) as H1.
    { split; [subst w1; w_simpl; priv_simpl; flags_norm; reflexivity | ].
      exists []. rewrite app_nil_r. auto. }
    clearbody w1.
    assert (forall ret x, akeep w x -> akeep w (snd (xfer_out ret x))) as Hout.
    { intros ret x Hx. unfold xfer_out. cbn [snd].
      destruct ((ret <? 0) && negb (ret =? - ENXIO)); ak_base. }
    destruct (barrier_ret xe <? 0); [apply Hout; exact H1 | ].
    pose proof (akeep_atomic_loop turns w _
                  (akeep_first_msg ms num w _ (akeep_init w w1 H1))) as Hl.
    destruct (atomic_loop turns (rcar_i2c_first_msg ms num (rcar_i2c_init w1)))
      as [tl w2]. cbn [snd] in Hl.
    unfold xfer_result.
    destruct tl; cbn [negb].
    - destruct (tst (flags (priv w2)) ID_NACK); [apply Hout; exact Hl | ].
      destruct (tst (flags (priv w2)) ID_ARBLOST); [apply Hout; exact Hl | ].
      destruct (tst (flags (priv w2)) ID_EPROTO); apply Hout; exact Hl.
    - apply Hout. apply akeep_init. exact Hl. }
  split; [ | exact Hna].
  rewrite (since_app _ _ _ E). exact Q.
Qed.

(** ** The configuration is kept *)

Lemma ck_refl w : config_kept w w.
Proof. split; [reflexivity | left; reflexivity]. Qed.

Lemma ck_trans w x y : config_kept w x -> config_kept x y -> config_kept w y.
Proof.
  intros (H1 & L1) (H2 & L2). split; [rewrite H2; exact H1 | ].
  destruct L2 as [E | L2]; [rewrite E; exact L1 | right; exact L2].
Qed.

Lemma ck_upd w x f :
  config_kept w x -> cfg (f (priv x)) = cfg (priv x) -> config_kept w (upd_priv f x).
Proof. intros (H & L) E. split; [w_simpl; rewrite E; exact H | exact L]. Qed.

Lemma ck_write w x r v :
  config_kept w x ->
  match r with ICSIER => listening v | _ => True end ->
  config_kept w (rcar_i2c_write r v x).
Proof.
  intros (H & L) Hr. split; [exact H | ].
  destruct r; w_simpl; first [exact L | right; exact Hr].
Qed.

Lemma ck_emit w x a : config_kept w x -> config_kept w (emit a x).
Proof. intros H. exact H. Qed.

Lemma ck_read e r w x : config_kept w x -> config_kept w (snd (rcar_i2c_read e r x)).
Proof. intros H. exact H. Qed.

Ltac ck_cfg :=
  first [ reflexivity
        | unfold cfg, upd_cur_msg; priv_simpl; flags_norm; reflexivity ].

Ltac ck_base :=
  repeat first
    [ assumption
    | apply ck_refl
    | apply ck_upd; [ | ck_cfg ]
    | apply ck_write; [ | first [ exact I | unfold listening; auto ] ]
    | apply ck_emit
    | match goal with
      | |- config_kept _ (rcar_i2c_clear_irq _ _) => unfold rcar_i2c_clear_irq
      | |- config_kept _ (if ?c then _ else _) => destruct c
      end ].

Lemma ck_prepare_msg w x : config_kept w x -> config_kept w (rcar_i2c_prepare_msg x).
Proof. intros H. unfold rcar_i2c_prepare_msg. cbv zeta. ck_base. Qed.

Lemma ck_next_msg w x : config_kept w x -> config_kept w (rcar_i2c_next_msg x).
Proof. intros H. unfold rcar_i2c_next_msg. cbv zeta. apply ck_prepare_msg. ck_base. Qed.

Lemma ck_first_msg ms num w x :
  config_kept w x -> config_kept w (rcar_i2c_first_msg ms num x).
Proof. intros H. unfold rcar_i2c_first_msg. cbv zeta. apply ck_prepare_msg. ck_base. Qed.

Lemma ck_init w x : config_kept w x -> config_kept w (rcar_i2c_init x).
Proof. intros H. unfold rcar_i2c_init. cbv zeta. ck_base. Qed.

Lemma ck_cleanup_dma t w x : config_kept w x -> config_kept w (rcar_i2c_cleanup_dma t x).
Proof. intros H. unfold rcar_i2c_cleanup_dma. cbv zeta. ck_base. Qed.

Lemma ck_dma_callback w x : config_kept w x -> config_kept w (rcar_i2c_dma_callback x).
Proof. intros H. unfold rcar_i2c_dma_callback. cbv zeta. apply ck_cleanup_dma. ck_base. Qed.

Lemma ck_dma e w x : config_kept w x -> config_kept w (snd (rcar_i2c_dma e x)).
Proof.
  intros H. unfold rcar_i2c_dma. cbv zeta.
  destruct (dma_infeasible (priv x)); [exact H | ].
  destruct (m_rd (cur_msg (priv x)));
    destruct (dma_map_ok e), (dma_prep_ok e), (dma_submit_ok e); cbn [negb snd];
    repeat first [ apply ck_cleanup_dma | progress ck_base ].
Qed.

Lemma ck_irq_send e msr w x : config_kept w x -> config_kept w (rcar_i2c_irq_send e msr x).
Proof.
  intros H. unfold rcar_i2c_irq_send. cbv zeta.
  destruct (negb (tst msr MDE)); [ck_base | ].
  assert (forall itc y, config_kept w y ->
            config_kept w
              (rcar_i2c_clear_irq itc
                 (if pos (priv y) <? len (cur_msg (priv y)) then
                    upd_priv (fun p => set_pos (pos p + 1) p)
                      (rcar_i2c_write ICRXTX (buf_at (cur_msg (priv y)) (pos (priv y))) y)
                  else if tst (flags (priv y)) ID_LAST_MSG then
                    rcar_i2c_write ICMCR RCAR_BUS_PHASE_STOP y
                  else rcar_i2c_next_msg y))) as Hrest.
  { intros itc y Hy. unfold rcar_i2c_clear_irq. apply ck_write; [ | exact I].
    destruct (pos (priv y) <? len (cur_msg (priv y))); [ck_base | ].
    destruct (tst (flags (priv y)) ID_LAST_MSG); [ck_base | ].
    apply ck_next_msg. exact Hy. }
  destruct (pos (priv x) =? 1).
  - pose proof (ck_dma e w x H) as Hd.
    destruct (rcar_i2c_dma e x) as [taken w1]. cbn [snd] in Hd.
    destruct taken; [exact Hd | apply Hrest; exact Hd].
  - apply Hrest. exact H.
Qed.

Lemma ck_irq_recv_tail rli itc w x :
  config_kept w x -> config_kept w (irq_recv_tail rli itc x).
Proof.
  intros H. unfold irq_recv_tail. cbv zeta.
  unfold rcar_i2c_clear_irq. apply ck_write; [ | exact I].
  match goal with
  | |- config_kept _ (if ?c then rcar_i2c_next_msg ?y else _) =>
      assert (config_kept w y) as Hy;
        [ ck_base | destruct c; [apply ck_next_msg | ]; exact Hy ]
  end.
Qed.

Lemma ck_irq_recv e msr w x : config_kept w x -> config_kept w (rcar_i2c_irq_recv e msr x).
Proof.
  intros H. unfold rcar_i2c_irq_recv. cbv zeta.
  destruct (negb (tst msr MDR)); [exact H | ].
  destruct (tst msr MAT).
  { pose proof (ck_dma e w x H) as Hd.
    destruct (rcar_i2c_dma e x) as [taken w1]. cbn [snd] in Hd.
    apply ck_irq_recv_tail. exact Hd. }
  destruct (pos (priv x) <? len (cur_msg (priv x)));
    [ | apply ck_irq_recv_tail; exact H].
  unfold rcar_i2c_read. cbn [fst snd].
  match goal with
  | |- context [upd_priv ?f (emit ?a x)] => set (ws := upd_priv f (emit a x))
  end.
  assert (config_kept w ws) as Hs by (subst ws; ck_base).
  clearbody ws.
  destruct ((pos (priv x) =? 0) && m_recv_len (cur_msg (priv x))).
  - destruct ((u8 (u32 (hw_icrxtx e)) =? 0) || (I2C_SMBUS_BLOCK_MAX <? u8 (u32 (hw_icrxtx e))));
      [ck_base | ].
    match goal with
    | |- context [rcar_i2c_dma e ?y] =>
        pose proof (ck_dma e w y ltac:(ck_base)) as Hd;
        destruct (rcar_i2c_dma e y) as [taken w1]
    end.
    cbn [snd] in Hd. destruct taken; [exact Hd | ].
    apply ck_irq_recv_tail. ck_base.
  - apply ck_irq_recv_tail. ck_base.
Qed.

Lemma ck_slave_irq e w x : config_kept w x -> config_kept w (snd (rcar_i2c_slave_irq e x)).
Proof.
  intros H.
  unfold rcar_i2c_slave_irq, i2c_slave_event, slave_nack_if, rcar_i2c_read.
  cbn [fst snd]. cbv zeta.
  repeat match goal with
         | |- context [slave_cb e ?ev] => destruct (slave_cb e ev) as [? ?]
         end.
  match goal with |- context [if ?c then (false, _) else _] => destruct c end;
    cbn [snd]; [ck_base | ].
  repeat match goal with
         | |- context [if ?c then _ else _] => destruct c; cbn [fst snd]
         | |- config_kept _ (rcar_i2c_write _ _ _) =>
             apply ck_write; [ | first [ exact I | unfold listening; auto ] ]
         | |- config_kept _ (emit _ _) => apply ck_emit
         | |- config_kept _ (upd_priv _ _) => apply ck_upd; [ | ck_cfg ]
         | |- config_kept _ x => exact H
         end.
Qed.

Lemma ck_irq_out w x : config_kept w x -> config_kept w (irq_out x).
Proof. intros H. unfold irq_out. cbv zeta. ck_base. Qed.

Lemma ck_irq e msr w x : config_kept w x -> config_kept w (snd (rcar_i2c_irq e msr x)).
Proof.
  intros H. unfold rcar_i2c_irq.
  destruct (msr =? 0).
  { pose proof (ck_slave_irq e w x H) as Hs.
    destruct (rcar_i2c_slave_irq e x) as [handled w1]. exact Hs. }
  destruct (tst msr MAL); [cbn [snd]; apply ck_irq_out; ck_base | ].
  destruct (tst msr MNR); [cbn [snd]; apply ck_irq_out; ck_base | ].
  destruct (tst msr MST); [cbn [snd]; apply ck_irq_out; ck_base | ].
  cbn [snd]. apply ck_irq_out.
  destruct (rcar_i2c_is_recv (priv x)); [apply ck_irq_recv | apply ck_irq_send]; exact H.
Qed.

Lemma ck_read_msr e w x : config_kept w x -> config_kept w (snd (read_msr e x)).
Proof.
  intros H. unfold read_msr, rcar_i2c_read. w_simpl.
  destruct (tst (flags (priv x)) ID_P_NOT_ATOMIC); exact H.
Qed.

Lemma ck_irqhandler e w x : config_kept w x -> config_kept w (snd (irqhandler e x)).
Proof.
  intros H.
  unfold irqhandler, rcar_i2c_gen2_irq, rcar_i2c_gen3_irq. cbv zeta.
  destruct (devtype_val (devtype (priv x)) <? devtype_val I2C_RCAR_GEN3).
  - match goal with
    | |- context [read_msr e ?y] =>
        assert (config_kept w y) as Hy by ck_base;
        pose proof (ck_read_msr e w y Hy) as Hm;
        destruct (read_msr e y) as [msr w1]
    end.
    cbn [snd] in Hm. apply ck_irq. exact Hm.
  - pose proof (ck_read_msr e w x H) as Hm.
    destruct (read_msr e x) as [msr w1]. cbn [snd] in Hm.
    apply ck_irq. ck_base.
Qed.

Lemma ck_run_event ev w x : config_kept w x -> config_kept w (run_event ev x).
Proof.
  intros H. destruct ev as [e | ]; cbn [run_event].
  - apply ck_irqhandler. exact H.
  - destruct (in_flight x); [apply ck_dma_callback | ]; exact H.
Qed.

Lemma ck_run_events evs w x : config_kept w x -> config_kept w (run_events evs x).
Proof.
  revert x. induction evs as [ | ev evs IH]; intros x H; [exact H | ].
  change (run_events (ev :: evs) x) with (run_events evs (run_event ev x)).
  apply IH. apply ck_run_event. exact H.
Qed.

Lemma ck_atomic_poll e0 e w x : config_kept w x -> config_kept w (atomic_poll e0 e x).
Proof.
  intros H. unfold atomic_poll, rcar_i2c_read. cbv zeta.
  match goal with |- context [if ?c then _ else _] => destruct c end.
  - ck_base.
  - apply ck_irqhandler. ck_base.
Qed.

Lemma ck_atomic_loop turns w x :
  config_kept w x -> config_kept w (snd (atomic_loop turns x)).
Proof.
  revert x. induction turns as [ | [[e0 e] tl] turns IH]; intros x H; [exact H | ].
  cbn [atomic_loop]. cbv zeta.
  pose proof (ck_atomic_poll e0 e w x H) as Hp.
  destruct (negb (tst (flags (priv (atomic_poll e0 e x))) ID_DONE) && tl);
    [apply IH; exact Hp | exact Hp].
Qed.

Lemma ck_request_dma xe m w x :
  config_kept w x -> config_kept w (rcar_i2c_request_dma xe m x).
Proof.
  intros H. unfold rcar_i2c_request_dma. cbv zeta.
  destruct (m_rd m).
  - destruct (dma_rx (priv x)); [exact H | ].
    destruct (_ =? _); [ | exact H]. apply ck_upd; [exact H | reflexivity].
  - destruct (dma_tx (priv x)); [exact H | ].
    destruct (_ =? _); [ | exact H]. apply ck_upd; [exact H | reflexivity].
Qed.

Lemma ck_request_dma_fold xe ms w x :
  config_kept w x ->
  config_kept w (fold_left (fun w m => rcar_i2c_request_dma xe m w) ms x).
Proof.
  revert x. induction ms as [ | m ms IH]; intros x H; [exact H | ].
  cbn [fold_left]. apply IH. apply ck_request_dma. exact H.
Qed.

Lemma ck_xfer_out ret w x : config_kept w x -> config_kept w (snd (xfer_out ret x)).
Proof. intros H. unfold xfer_out. cbn [snd]. ck_base. Qed.

Lemma ck_xfer_result tl num w x :
  config_kept w x -> config_kept w (snd (xfer_result tl num x)).
Proof.
  intros H. unfold xfer_result.
  destruct (negb tl); [apply ck_init; exact H | ].
  repeat match goal with |- context [if ?c then _ else _] => destruct c end; exact H.
Qed.

Lemma ck_master_xfer xe ms num evs w :
  config_kept w (snd (rcar_i2c_master_xfer xe ms num evs w)).
Proof.
  unfold rcar_i2c_master_xfer.
  assert (config_kept w (snd (master_xfer_begin xe ms num w))) as Hb.
  { unfold master_xfer_begin. cbv zeta.
    set (w1 := upd_priv _ w).
    assert (config_kept w w1) as H1 by (subst w1; ck_base). clearbody w1.
    destruct (barrier_ret xe <? 0); [exact H1 | ].
    match goal with
    | |- context [let '(ret, w) := ?t in _] =>
        assert (config_kept w (snd t)) as Ht;
          [ | destruct t as [ret w2]; cbn [snd] in Ht ]
    end.
    { destruct (_ <=? _); [ | exact H1].
      destruct (_ =? 0); cbn [snd]; ck_base. }
    destruct (negb (ret =? 0)); [exact Ht | ].
    cbn [snd]. apply ck_first_msg. apply ck_request_dma_fold. apply ck_init. exact Ht. }
  destruct (master_xfer_begin xe ms num w) as [[ret | ] w1]; cbn [snd] in Hb.
  - apply ck_xfer_out. exact Hb.
  - unfold master_xfer_end. cbv zeta.
    set (w2 := run_events evs w1).
    assert (config_kept w w2) as H2 by (apply ck_run_events; exact Hb). clearbody w2.
    set (w3 := if in_flight w2 then rcar_i2c_cleanup_dma true w2 else w2).
    assert (config_kept w w3) as H3
      by (subst w3; destruct (in_flight w2); [apply ck_cleanup_dma | ]; exact H2).
    pose proof (ck_xfer_result (tst (flags (priv w2)) ID_DONE) num w w3 H3) as H4.
    destruct (xfer_result _ num w3) as [ret w4]. cbn [snd] in H4.
    apply ck_xfer_out. exact H4.
Qed.

Lemma ck_master_xfer_atomic xe ms num turns w :
  config_kept w (snd (rcar_i2c_master_xfer_atomic xe ms num turns w)).
Proof.
  unfold rcar_i2c_master_xfer_atomic. cbv zeta.
  set (w1 := upd_priv _ w).
  assert (config_kept w w1) as H1 by (subst w1; ck_base). clearbody w1.
  destruct (barrier_ret xe <? 0); [apply ck_xfer_out; exact H1 | ].
  pose proof (ck_atomic_loop turns w _
                (ck_first_msg ms num w _ (ck_init w w1 H1))) as Hl.
  destruct (atomic_loop turns _) as [tl w2]. cbn [snd] in Hl.
  pose proof (ck_xfer_result tl num w w2 Hl) as H4.
  destruct (xfer_result tl num w2) as [ret w4]. cbn [snd] in H4.
  apply ck_xfer_out. exact H4.
Qed.

(** Nothing in the transfer path changes the configuration probe leaves:
    a sleeping transfer, an atomic transfer and an interrupt, whatever the
    hardware answers, keep the persistent flags for fast-mode plus, host
    notify and blocked runtime PM, the slave registration, the controller
    generation and the clock settings ICCCR, SCHD, SCLD and SMD; and they
    leave the slave interrupt enables as they are or, in a slave
    interrupt, at a value that has the address interrupt enabled. *)
Theorem transfers_keep_configuration xe ms num evs turns e w :
  config_kept w (snd (rcar_i2c_master_xfer xe ms num evs w))
  /\ config_kept w (snd (rcar_i2c_master_xfer_atomic xe ms num turns w))
  /\ config_kept w (snd (irqhandler e w)).
Proof.
  split; [apply ck_master_xfer | ].
  split; [apply ck_master_xfer_atomic | ].
  apply ck_irqhandler. apply ck_refl.
Qed.

(** ** Requesting DMA channels *)

Lemma request_dma_one xe m w :
  let w' := rcar_i2c_request_dma xe m w in
  dma_rx (priv w')
  = (if deferred (dma_rx (priv w)) && m_rd m then request_chan xe true
     else dma_rx (priv w))
  /\ dma_tx (priv w')
     = (if deferred (dma_tx (priv w)) && negb (m_rd m) then request_chan xe false
        else dma_tx (priv w))
  /\ trace w' = trace w /\ flags (priv w') = flags (priv w)
  /\ dma_direction (priv w') = dma_direction (priv w).
Proof.
  cbv zeta. unfold rcar_i2c_request_dma, deferred. cbv zeta.
  destruct (m_rd m); cbn [negb]; rewrite ?andb_false_r, ?andb_true_r.
  - destruct (dma_rx (priv w)) as [ | errno] eqn:E;
      [rewrite ?E; conj_split; reflexivity | ].
    destruct (errno =? - EPROBE_DEFER); w_simpl; priv_simpl; rewrite ?E;
      conj_split; reflexivity.
  - destruct (dma_tx (priv w)) as [ | errno] eqn:E;
      [rewrite ?E; conj_split; reflexivity | ].
    destruct (errno =? - EPROBE_DEFER); w_simpl; priv_simpl; rewrite ?E;
      conj_split; reflexivity.
Qed.

(** DMA channels are asked for lazily.  The loop over the messages of a
    batch asks for the receive channel exactly when the batch has a read
    and the handle still stands for "not asked yet", and likewise for the
    transmit channel and a write; a channel already granted and a request
    that failed for good are left alone, and a direction the batch does
    not use is not asked for.  The loop touches no register and nothing
    else in the context. *)
Theorem request_dma_lazy xe ms w :
  let w' := request_dma_all xe ms w in
  dma_rx (priv w')
  = (if deferred (dma_rx (priv w)) && existsb m_rd ms then request_chan xe true
     else dma_rx (priv w))
  /\ dma_tx (priv w')
     = (if deferred (dma_tx (priv w)) && existsb (fun m => negb (m_rd m)) ms
        then request_chan xe false else dma_tx (priv w))
  /\ trace w' = trace w /\ flags (priv w') = flags (priv w)
  /\ dma_direction (priv w') = dma_direction (priv w).
Proof.
  cbv zeta. unfold request_dma_all. revert w.
  induction ms as [ | m ms IH]; intros w.
  - cbn [fold_left existsb]. rewrite !andb_false_r. conj_split; reflexivity.
  - cbn [fold_left existsb].
    destruct (IH (rcar_i2c_request_dma xe m w)) as (I1 & I2 & I3 & I4 & I5).
    pose proof (request_dma_one xe m w) as O. cbv zeta in O.
    destruct O as (O1 & O2 & O3 & O4 & O5).
    rewrite I1, I2, I3, I4, I5, O1, O2, O3, O4, O5.
    conj_split; try reflexivity.
    + destruct (deferred (dma_rx (priv w))) eqn:D, (m_rd m);
        cbn [andb orb negb]; rewrite ?D; cbn [andb orb negb]; try reflexivity;
        destruct (deferred (request_chan xe true) && existsb m_rd ms); reflexivity.
    + destruct (deferred (dma_tx (priv w))) eqn:D, (m_rd m);
        cbn [andb orb negb]; rewrite ?D; cbn [andb orb negb]; try reflexivity;
        destruct (deferred (request_chan xe false)
                  && existsb (fun m0 => negb (m_rd m0)) ms); reflexivity.
Qed.

(** ** The forced NACK of the slave interface *)

Lemma icscr_writes_app l1 l2 : icscr_writes (l1 ++ l2) = icscr_writes l1 ++ icscr_writes l2.
Proof. unfold icscr_writes. apply flat_map_app. Qed.

(** [x] continues [w] with the NACK latched and nothing but forced NACKs
    written to ICSCR. *)
Lemma nack_step_base w x a :
  (tst (slave_flags (priv x)) ID_SLAVE_NACK = true
   /\ exists l, trace x = trace w ++ l
        /\ Forall (fun v => v = Z.lor (Z.lor SIE SDBS) FNA) (icscr_writes l)) ->
  match a with
  | Write ICSCR v => v = Z.lor (Z.lor SIE SDBS) FNA
  | _ => True
  end ->
  tst (slave_flags (priv (emit a x))) ID_SLAVE_NACK = true
  /\ exists l, trace (emit a x) = trace w ++ l
       /\ Forall (fun v => v = Z.lor (Z.lor SIE SDBS) FNA) (icscr_writes l).
Proof.
  intros (N & l & T & Fa) Ha. split; [exact N | ].
  exists (l ++ [a]). w_simpl. rewrite T, app_assoc. split; [reflexivity | ].
  rewrite icscr_writes_app. apply Forall_app. split; [exact Fa | ].
  destruct a as [r v | | | | | | | | | | | ]; try constructor.
  destruct r; cbn; constructor; auto.
Qed.

Lemma slave_irq_nack_kept e w :
  tst (slave_flags (priv w)) ID_SLAVE_NACK = true ->
  tst (ssr_filtered e w) SSR = false ->
  let w' := snd (rcar_i2c_slave_irq e w) in
  tst (slave_flags (priv w')) ID_SLAVE_NACK = true
  /\ Forall (fun v => v = Z.lor (Z.lor SIE SDBS) FNA) (icscr_writes (since w w')).
Proof.
  intros N Hs. cbv zeta.
  set (Q := fun x =>
    tst (slave_flags (priv x)) ID_SLAVE_NACK = true
    /\ exists l, trace x = trace w ++ l
         /\ Forall (fun v => v = Z.lor (Z.lor SIE SDBS) FNA) (icscr_writes l)).
  assert (Q w) as Q0.
  { split; [exact N | ]. exists []. rewrite app_nil_r. split; [reflexivity | constructor]. }
  assert (forall x a, Q x ->
            match a with
            | Write ICSCR v => v = Z.lor (Z.lor SIE SDBS) FNA
            | _ => True
            end -> Q (emit a x)) as Qe.
  { intros x a Hx Ha. apply nack_step_base; assumption. }
  assert (forall x r v, Q x ->
            match r with
            | ICSCR => v = Z.lor (Z.lor SIE SDBS) FNA
            | _ => True
            end -> Q (rcar_i2c_write r v x)) as Qw.
  { intros x r v (Nx & l & T & Fa) Hr.
    destruct (nack_step_base w x (Write r v)) as (_ & l' & T' & F');
      [split; [exact Nx | exists l; auto] | destruct r; exact Hr | ].
    split; [exact Nx | ]. exists l'. split; [exact T' | exact F']. }
  assert (forall x ret, Q x -> Q (slave_nack_if ret x)) as Qn.
  { intros x ret (Nx & l & T & Fa). unfold slave_nack_if.
    destruct (ret =? 0); [split; [exact Nx | exists l; auto] | ].
    split; [ | exists l; auto]. w_simpl. priv_simpl.
    unfold ID_SLAVE_NACK in *. rewrite tst_lor by lia. rewrite Nx. reflexivity. }
  assert (Q (snd (rcar_i2c_slave_irq e w))) as (N' & l & T & Fa).
  { unfold ssr_filtered in Hs.
    unfold rcar_i2c_slave_irq, i2c_slave_event, rcar_i2c_read.
    cbn [fst snd]. cbv zeta. w_simpl. rewrite Hs.
    repeat match goal with
           | |- context [slave_cb e ?ev] => destruct (slave_cb e ev) as [? ?]
           end.
    match goal with |- context [if ?c then (false, _) else _] => destruct c end;
      cbn [snd]; [auto | ].
    cbn [fst snd]; slave_blocks;
    repeat first
      [ assumption
      | apply Qn
      | apply Qw; [ | exact I ]
      | apply Qe; [ | exact I ]
      | match goal with
        | |- Q (rcar_i2c_write ICSCR
                  (Z.lor _ (if tst (slave_flags (priv ?y)) ID_SLAVE_NACK
                            then FNA else 0)) _) =>
            let Hy := fresh in
            assert (Q y) as Hy;
              [ | rewrite (proj1 Hy); apply Qw; [exact Hy | reflexivity] ]
        | |- Q (if ?c then _ else _) => destruct c
        end ]. }
  split; [exact N' | ]. rewrite (since_app _ _ _ T). exact Fa.
Qed.

Lemma slave_run_nack_kept es w :
  tst (slave_flags (priv w)) ID_SLAVE_NACK = true ->
  no_stop es w ->
  tst (slave_flags (priv (slave_run es w))) ID_SLAVE_NACK = true
  /\ Forall (fun v => v = Z.lor (Z.lor SIE SDBS) FNA)
       (icscr_writes (since w (slave_run es w))).
Proof.
  revert w. induction es as [ | e es IH]; intros w N Hns.
  - cbn. split; [exact N | ]. unfold since. rewrite drop_all. constructor.
  - cbn [no_stop] in Hns. destruct Hns as (Hs & Hns).
    pose proof (slave_irq_nack_kept e w N Hs) as K. cbv zeta in K.
    destruct K as (N1 & F1).
    change (slave_run (e :: es) w) with (slave_run es (snd (rcar_i2c_slave_irq e w))).
    destruct (IH _ N1 Hns) as (N2 & F2). split; [exact N2 | ].
    assert (exists l1, trace (snd (rcar_i2c_slave_irq e w)) = trace w ++ l1) as (l1 & T1).
    { destruct (appends_slave_irq e w) as (l1 & T1 & _). exists l1. exact T1. }
    assert (exists l2, trace (slave_run es (snd (rcar_i2c_slave_irq e w)))
                       = trace (snd (rcar_i2c_slave_irq e w)) ++ l2) as (l2 & T2).
    { clear. generalize (snd (rcar_i2c_slave_irq e w)) as x.
      induction es as [ | e' es IH']; intros x.
      - exists []. rewrite app_nil_r. reflexivity.
      - change (slave_run (e' :: es) x)
          with (slave_run es (snd (rcar_i2c_slave_irq e' x))).
        destruct (IH' (snd (rcar_i2c_slave_irq e' x))) as (l2 & T2).
        destruct (appends_slave_irq e' x) as (l1 & T1 & _).
        exists (l1 ++ l2). rewrite T2, T1, app_assoc. reflexivity. }
    rewrite (since_app _ _ _ T1) in F1. rewrite (since_app _ _ _ T2) in F2.
    assert (trace (slave_run es (snd (rcar_i2c_slave_irq e w)))
            = trace w ++ (l1 ++ l2)) as T by (rewrite T2, T1, app_assoc; reflexivity).
    rewrite (since_app _ _ _ T), icscr_writes_app. apply Forall_app. auto.
Qed.

Lemma slave_irq_reject e w :
  tst (ssr_filtered e w) SDR = true ->
  fst (slave_cb e I2C_SLAVE_WRITE_RECEIVED) <> 0 ->
  let w' := snd (rcar_i2c_slave_irq e w) in
  tst (slave_flags (priv w')) ID_SLAVE_NACK = true
  /\ In (Write ICSCR (Z.lor (Z.lor SIE SDBS) FNA)) (since w w').
Proof.
  intros Hs Hret. cbv zeta. unfold ssr_filtered in Hs.
  assert ((Z.land (Z.land (u32 (hw_icssr e)) 255) (r_icsier w) =? 0) = false) as Hnz.
  { apply Z.eqb_neq. intros E. rewrite E in Hs. vm_compute in Hs. discriminate Hs. }
  unfold rcar_i2c_slave_irq, i2c_slave_event, rcar_i2c_read, slave_nack_if.
  cbn [fst snd]. cbv zeta. w_simpl. rewrite Hs, Hnz.
  destruct (slave_cb e I2C_SLAVE_WRITE_RECEIVED) as [ret val]. cbn [fst] in Hret.
  apply Z.eqb_neq in Hret. rewrite Hret.
  repeat match goal with
         | |- context [slave_cb e ?ev] => destruct (slave_cb e ev) as [? ?]
         end.
  cbn [snd].
  repeat match goal with
         | |- context [if ?c then _ else _] =>
             lazymatch c with
             | tst (slave_flags _) _ => fail
             | _ => destruct c
             end
         end;
    w_simpl; priv_simpl;
    (assert (forall f, tst (Z.lor f ID_SLAVE_NACK) ID_SLAVE_NACK = true) as Hn
       by (intros f; unfold ID_SLAVE_NACK; rewrite tst_lor by lia;
           apply orb_true_r));
    rewrite ?Hn; (split; [apply Hn || reflexivity | ]);
    unfold since; w_simpl; rewrite <- ?app_assoc; rewrite drop_app_length;
    cbn [app]; repeat first [left; reflexivity | right].
Qed.

(** When the slave backend rejects a received byte, that byte and every
    byte received after it are answered with a forced NACK until a stop is
    handled: the interrupt of the rejection writes ICSCR with the bit FNA
    set next to SIE and SDBS and latches ID_SLAVE_NACK, and through any run
    of further slave interrupts none of which handles a stop the latch
    stays set and every value written to ICSCR has FNA set. *)
Theorem slave_nack_until_stop e0 es w :
  tst (ssr_filtered e0 w) SDR = true ->
  fst (slave_cb e0 I2C_SLAVE_WRITE_RECEIVED) <> 0 ->
  no_stop es (snd (rcar_i2c_slave_irq e0 w)) ->
  let w1 := snd (rcar_i2c_slave_irq e0 w) in
  In (Write ICSCR (Z.lor (Z.lor SIE SDBS) FNA)) (since w w1)
  /\ tst (slave_flags (priv (slave_run es w1))) ID_SLAVE_NACK = true
  /\ Forall (fun v => v = Z.lor (Z.lor SIE SDBS) FNA)
       (icscr_writes (since w1 (slave_run es w1))).
Proof.
  intros Hs Hret Hns. cbv zeta.
  pose proof (slave_irq_reject e0 w Hs Hret) as R. cbv zeta in R.
  destruct R as (N & Hin).
  destruct (slave_run_nack_kept es _ N Hns) as (N2 & F2).
  conj_split; assumption.
Qed.

Lemma slave_nack_until_stop_witness :
  tst (slave_flags
         (priv (slave_run [slave_answers SDR 0]
                  (snd (rcar_i2c_slave_irq (slave_answers SDR 1) slave_receiving)))))
    ID_SLAVE_NACK = true.
Proof.
  refine (proj1 (proj2 (slave_nack_until_stop (slave_answers SDR 1)
                          [slave_answers SDR 0] slave_receiving _ _ _))).
  - vm_compute. reflexivity.
  - vm_compute. discriminate.
  - vm_compute. auto.
Defined.

(** ** Probe, removal and runtime PM *)

Ltac d_simpl :=
  cbn [ctl recovery_icmcr host_notify_client host_notify_devs pm_enabled
       pm_usage irq_depth adap_added dma_released upd_ctl set_recovery_icmcr
       set_host_notify set_pm_enabled set_pm_usage set_irq_depth
       set_adap_added set_dma_released pm_runtime_get_sync pm_runtime_put
       pm_runtime_enable pm_runtime_disable disable_irq enable_irq
       fst snd] in *.

Lemma clock_calculate_frame bits rate t p :
  let q := snd (rcar_i2c_clock_calculate bits rate t p) in
  devtype q = devtype p /\ slave q = slave p
  /\ dma_tx q = dma_tx p /\ dma_rx q = dma_rx p
  /\ dma_direction q = dma_direction p
  /\ tst (flags q) ID_P_HOST_NOTIFY = tst (flags p) ID_P_HOST_NOTIFY
  /\ tst (flags q) ID_P_PM_BLOCKED = tst (flags p) ID_P_PM_BLOCKED.
Proof.
  cbv zeta. unfold rcar_i2c_clock_calculate. cbv zeta.
  repeat match goal with
         | |- context [if ?c then _ else _] => destruct c; priv_simpl
         end;
    conj_split; try reflexivity; flags_norm; reflexivity.
Qed.

Lemma reset_slave_priv w : priv (rcar_i2c_reset_slave w) = priv w.
Proof. reflexivity. Qed.

Lemma release_dma_frame d :
  let d' := rcar_i2c_release_dma d in
  flags (priv (ctl d')) = flags (priv (ctl d))
  /\ pm_enabled d' = pm_enabled d /\ pm_usage d' = pm_usage d
  /\ adap_added d' = adap_added d
  /\ host_notify_client d' = host_notify_client d
  /\ host_notify_devs d' = host_notify_devs d.
Proof.
  cbv zeta. unfold rcar_i2c_release_dma. cbv zeta.
  destruct (negb (IS_ERR (dma_tx (priv (ctl d))))); d_simpl; w_simpl; priv_simpl;
    destruct (negb (IS_ERR (dma_rx (priv (ctl d))))); d_simpl; w_simpl; priv_simpl;
    conj_split; reflexivity.
Qed.

Lemma is_err_ptr_neg x : IS_ERR_PTR x = true -> x < 0.
Proof. unfold IS_ERR_PTR. intros H. apply andb_prop in H. lia. Qed.

Lemma known_state_frame hn w w' :
  known_state hn w ->
  r_icmier w' = r_icmier w -> r_icsier w' = r_icsier w ->
  slave (priv w') = slave (priv w) ->
  dma_direction (priv w') = dma_direction (priv w) ->
  dma_tx (priv w') = dma_tx (priv w) -> dma_rx (priv w') = dma_rx (priv w) ->
  known_state hn w'.
Proof.
  unfold known_state. intros H E1 E2 E3 E4 E5 E6.
  rewrite E1, E2, E3, E4, E5, E6. exact H.
Qed.

Lemma init_enables w :
  r_icmier (rcar_i2c_init w) = 0 /\ r_icsier (rcar_i2c_init w) = r_icsier w.
Proof.
  unfold rcar_i2c_init. cbv zeta. w_simpl.
  destruct (devtype_val (devtype (priv w)) <? devtype_val I2C_RCAR_GEN3);
    split; reflexivity.
Qed.

(** The two outcomes of rcar_i2c_probe on an unbound device. *)
Lemma probe_cases pe d :
  unbound d -> pe_host_notify pe <> 0 ->
  let r := rcar_i2c_probe pe d in
  let mm := pe_multi_master pe in
  let hn := pe_smbus pe
            && (devtype_val (pe_match_data pe) <? devtype_val I2C_RCAR_GEN3) in
  (fst r < 0 /\ unbound (snd r) /\ pm_usage (snd r) = pm_usage d)
  \/ (fst r = 0
      /\ pm_enabled (snd r) = true /\ adap_added (snd r) = true
      /\ pm_usage (snd r)
         = pm_usage d + (if mm then 1 else 0) + (if hn then 1 else 0)
      /\ tst (flags (priv (ctl (snd r)))) ID_P_PM_BLOCKED = mm
      /\ tst (flags (priv (ctl (snd r)))) ID_P_HOST_NOTIFY = hn
      /\ host_notify_client (snd r) = (if hn then pe_host_notify pe else 0)
      /\ host_notify_live (snd r) = hn
      /\ host_notify_devs (snd r) = (if hn then 1 else 0)
      /\ devtype (priv (ctl (snd r))) = pe_match_data pe
      /\ known_state hn (ctl (snd r))
      /\ (hn = true ->
          exists l, trace (ctl (snd r))
                    = l ++ [Write ICSAR 8; Write ICSSR 0; Write ICSIER SAR;
                            Write ICSCR (Z.lor SIE SDBS)])).
Proof.
  intros (Upm & Uad & Uhn) Hptr. cbv zeta. unfold rcar_i2c_probe.
  assert (unbound d) as Hu by (repeat split; assumption).
  destruct (negb (pe_kzalloc pe)).
  { left. split; [vm_compute; reflexivity | split; [exact Hu | reflexivity]]. }
  destruct (IS_ERR_PTR (pe_clk pe)) eqn:Eclk.
  { left. split; [apply is_err_ptr_neg; exact Eclk | split; [exact Hu | reflexivity]]. }
  destruct (IS_ERR_PTR (pe_io pe)) eqn:Eio.
  { left. split; [apply is_err_ptr_neg; exact Eio | split; [exact Hu | reflexivity]]. }
  cbv zeta. d_simpl. w_simpl.
  pose proof (clock_calculate_frame (pe_bits pe) (pe_rate pe) (pe_timings pe)
                (probe_priv (pe_match_data pe))) as F.
  cbv zeta in F.
  destruct (rcar_i2c_clock_calculate (pe_bits pe) (pe_rate pe) (pe_timings pe)
              (probe_priv (pe_match_data pe))) as [ret p].
  cbn [snd] in F. destruct F as (Fd & Fs & Ftx & Frx & Fdir & Fh & Fb).
  change (tst (flags (probe_priv (pe_match_data pe))) ID_P_HOST_NOTIFY) with false in Fh.
  change (tst (flags (probe_priv (pe_match_data pe))) ID_P_PM_BLOCKED) with false in Fb.
  cbn [devtype slave dma_tx dma_rx dma_direction probe_priv] in Fd, Fs, Ftx, Frx, Fdir.
  unfold unbound.
  destruct (Z.ltb_spec ret 0) as [Hret | Hret].
  { left. unfold probe_out_pm_disable. d_simpl. split; [exact Hret | ].
    conj_split; first [reflexivity | assumption | lia]. }
  cbv zeta.
  set (d1 := upd_ctl rcar_i2c_reset_slave _).
  assert (pm_enabled d1 = true /\ pm_usage d1 = pm_usage d + 1
          /\ adap_added d1 = false /\ host_notify_devs d1 = 0
          /\ host_notify_client d1 = 0 /\ priv (ctl d1) = p
          /\ known_state false (ctl d1)) as D1.
  { subst d1. d_simpl. rewrite reset_slave_priv, init_priv. w_simpl.
    conj_split; try first [reflexivity | assumption].
    unfold known_state. rewrite reset_slave_priv, init_priv.
    unfold rcar_i2c_reset_slave. cbv zeta. w_simpl.
    rewrite (proj1 (init_enables _)).
    conj_split; first [reflexivity | assumption]. }
  clearbody d1. destruct D1 as (P1 & P2 & P3 & P4 & P5 & P6 & K1).
  set (d2 := if pe_multi_master pe then _ else _).
  assert (pm_enabled d2 = true
          /\ pm_usage d2 = pm_usage d + (if pe_multi_master pe then 1 else 0)
          /\ adap_added d2 = false /\ host_notify_devs d2 = 0
          /\ host_notify_client d2 = 0
          /\ tst (flags (priv (ctl d2))) ID_P_PM_BLOCKED = pe_multi_master pe
          /\ tst (flags (priv (ctl d2))) ID_P_HOST_NOTIFY = false
          /\ devtype (priv (ctl d2)) = pe_match_data pe
          /\ known_state false (ctl d2)) as D2.
  { subst d2. destruct (pe_multi_master pe); d_simpl; w_simpl; rewrite P6; priv_simpl;
      flags_norm; rewrite ?Fh, ?Fb;
      conj_split;
      first [reflexivity | assumption | lia
            | apply (known_state_frame _ _ K1); reflexivity ]. }
  clearbody d2. clear d1 P1 P2 P3 P4 P5 P6 K1.
  destruct D2 as (P1 & P2 & P3 & P4 & P5 & P6 & P7 & P8 & P9).
  set (d3 := if pe_smbus pe then _ else _).
  assert (pm_enabled d3 = true
          /\ pm_usage d3 = pm_usage d + (if pe_multi_master pe then 1 else 0)
          /\ adap_added d3 = false /\ host_notify_devs d3 = 0
          /\ host_notify_client d3 = 0
          /\ tst (flags (priv (ctl d3))) ID_P_PM_BLOCKED = pe_multi_master pe
          /\ tst (flags (priv (ctl d3))) ID_P_HOST_NOTIFY = pe_smbus pe
          /\ devtype (priv (ctl d3)) = pe_match_data pe
          /\ known_state false (ctl d3)) as D3.
  { subst d3. destruct (pe_smbus pe); d_simpl; w_simpl; priv_simpl;
      flags_norm; flag_names; rewrite ?P6, ?P7;
      conj_split;
      first [reflexivity | assumption | lia
            | apply (known_state_frame _ _ P9); reflexivity ]. }
  clearbody d3. clear d2 P1 P2 P3 P4 P5 P6 P7 P8 P9.
  destruct D3 as (P1 & P2 & P3 & P4 & P5 & P6 & P7 & P8 & P9).
  assert (forall ret0 d', ret0 < 0 ->
            pm_usage d' = pm_usage d + (if pe_multi_master pe then 1 else 0) ->
            tst (flags (priv (ctl d'))) ID_P_PM_BLOCKED = pe_multi_master pe ->
            host_notify_devs d' = 0 -> adap_added d' = false ->
            fst (probe_out_pm_put ret0 d') < 0
            /\ (pm_enabled (snd (probe_out_pm_put ret0 d')) = false
                /\ adap_added (snd (probe_out_pm_put ret0 d')) = false
                /\ host_notify_devs (snd (probe_out_pm_put ret0 d')) = 0)
            /\ pm_usage (snd (probe_out_pm_put ret0 d')) = pm_usage d) as Hput.
  { intros ret0 d' Hneg Q2 Q6 Q4 Q3. unfold probe_out_pm_put, probe_out_pm_disable.
    cbv zeta. rewrite Q6. destruct (pe_multi_master pe); d_simpl;
      conj_split; first [reflexivity | assumption | lia]. }
  rewrite P8.
  set (hn := pe_smbus pe
             && (devtype_val (pe_match_data pe) <? devtype_val I2C_RCAR_GEN3)).
  set (g := if devtype_val (pe_match_data pe) <? devtype_val I2C_RCAR_GEN3
            then _ else _).
  assert ((exists ret0, g = (Some ret0, d3) /\ ret0 < 0)
          \/ (exists d4, g = (None, d4)
              /\ pm_enabled d4 = true
              /\ pm_usage d4 = pm_usage d + (if pe_multi_master pe then 1 else 0)
              /\ adap_added d4 = false /\ host_notify_devs d4 = 0
              /\ host_notify_client d4 = 0
              /\ tst (flags (priv (ctl d4))) ID_P_PM_BLOCKED = pe_multi_master pe
              /\ tst (flags (priv (ctl d4))) ID_P_HOST_NOTIFY = hn
              /\ devtype (priv (ctl d4)) = pe_match_data pe
              /\ known_state false (ctl d4))) as G.
  { subst g hn.
    destruct (devtype_val (pe_match_data pe) <? devtype_val I2C_RCAR_GEN3).
    { right. exists d3. rewrite andb_true_r.
      conj_split; first [reflexivity | assumption]. }
    destruct (IS_ERR_PTR (pe_rstc pe)) eqn:Er.
    { left. eexists. split; [reflexivity | apply is_err_ptr_neg; exact Er]. }
    destruct (Z.ltb_spec (pe_reset_status pe) 0).
    { left. eexists. split; [reflexivity | assumption]. }
    right. eexists. split; [reflexivity | ].
    d_simpl. w_simpl. priv_simpl. rewrite andb_false_r. flags_norm. flag_names.
    rewrite ?P6.
    conj_split;
      first [reflexivity | assumption | apply (known_state_frame _ _ P9); reflexivity ]. }
  clearbody g.
  destruct G as [(ret0 & -> & Hneg) | (d4 & -> & Q1 & Q2 & Q3 & Q4 & Q5 & Q6 & Q7 & Q8 & Q9)].
  { left. apply Hput; assumption. }
  destruct (Z.ltb_spec (pe_irq pe) 0); [left; apply Hput; assumption | ].
  destruct (Z.ltb_spec (pe_request_irq pe) 0); [left; apply Hput; assumption | ].
  destruct (Z.ltb_spec (pe_add_adapter pe) 0); [left; apply Hput; assumption | ].
  rewrite Q7. destruct hn.
  - unfold i2c_new_slave_host_notify_device.
    destruct (IS_ERR_PTR (pe_host_notify pe)) eqn:Eh.
    + left. rewrite Eh. unfold probe_out_del_device. apply Hput;
        [apply is_err_ptr_neg; exact Eh | d_simpl; first [assumption | reflexivity] ..].
    + right. destruct Q9 as (K1 & K2 & K3 & K4 & K5 & K6).
      cbv zeta. unfold rcar_reg_slave. d_simpl. rewrite K3. cbv zeta.
      d_simpl. w_simpl. priv_simpl. cbn [Z.eqb]. cbv iota. rewrite Eh. d_simpl.
      unfold host_notify_live, known_state. d_simpl. w_simpl. priv_simpl.
      rewrite Eh. apply Z.eqb_neq in Hptr. rewrite Hptr.
      conj_split; first [reflexivity | assumption | lia | idtac].
      intros _. rewrite <- !app_assoc. eexists. reflexivity.
  - right. unfold host_notify_live. d_simpl. rewrite Q5.
    conj_split; first [reflexivity | assumption | lia | intros; discriminate].
Qed.

Lemma remove_spec d :
  let d' := rcar_i2c_remove d in
  let live := host_notify_live d in
  pm_enabled d' = false /\ adap_added d' = false
  /\ pm_usage d'
     = pm_usage d - (if tst (flags (priv (ctl d))) ID_P_PM_BLOCKED then 1 else 0)
       - (if live then 1 else 0)
  /\ host_notify_devs d' = host_notify_devs d - (if live then 1 else 0)
  /\ slave (priv (ctl d')) = (if live then false else slave (priv (ctl d)))
  /\ dma_tx (priv (ctl d')) = (if IS_ERR (dma_tx (priv (ctl d)))
                               then dma_tx (priv (ctl d))
                               else ChanErr (- EPROBE_DEFER))
  /\ dma_rx (priv (ctl d')) = (if IS_ERR (dma_rx (priv (ctl d)))
                               then dma_rx (priv (ctl d))
                               else ChanErr (- EPROBE_DEFER))
  /\ dma_released d'
     = dma_released d
       + (if IS_ERR (dma_tx (priv (ctl d))) then 0 else 1)
       + (if IS_ERR (dma_rx (priv (ctl d))) then 0 else 1).
Proof.
  cbv zeta.
  unfold rcar_i2c_remove, i2c_free_slave_host_notify_device, rcar_unreg_slave,
    host_notify_live, rcar_i2c_release_dma, rcar_i2c_reset_slave.
  cbv zeta.
  destruct (host_notify_client d =? 0); cbn [negb andb orb];
    [ | destruct (IS_ERR_PTR (host_notify_client d)); cbn [negb andb orb];
        [ | destruct (slave (priv (ctl d))) ] ];
    d_simpl; w_simpl; priv_simpl;
    destruct (IS_ERR (dma_tx (priv (ctl d)))); cbn [negb]; d_simpl; w_simpl; priv_simpl;
    destruct (IS_ERR (dma_rx (priv (ctl d)))); cbn [negb]; d_simpl; w_simpl; priv_simpl;
    destruct (tst (flags (priv (ctl d))) ID_P_PM_BLOCKED); d_simpl;
    conj_split; first [reflexivity | lia].
Qed.

(** Probe either fails, leaving the device unbound and the runtime-PM usage
    count where it was, or succeeds with runtime PM enabled, the adapter
    registered, one usage reference kept when the bus is multi-master and
    one more for the host-notify client, which probe registers as a slave
    on Gen1 and Gen2 with the smbus property.  Removing a probed device
    unregisters that slave, gives the references back and leaves the device
    unbound again.  The kernel hands out no NULL client. *)
Theorem probe_remove_balance pe d :
  unbound d -> pe_host_notify pe <> 0 ->
  let r := rcar_i2c_probe pe d in
  let hn := pe_smbus pe
            && (devtype_val (pe_match_data pe) <? devtype_val I2C_RCAR_GEN3) in
  fst r <= 0
  /\ (fst r < 0 -> unbound (snd r) /\ pm_usage (snd r) = pm_usage d)
  /\ (fst r = 0 ->
      pm_enabled (snd r) = true /\ adap_added (snd r) = true
      /\ slave (priv (ctl (snd r))) = hn
      /\ pm_usage (snd r)
         = pm_usage d + (if pe_multi_master pe then 1 else 0)
           + (if hn then 1 else 0)
      /\ unbound (rcar_i2c_remove (snd r))
      /\ slave (priv (ctl (rcar_i2c_remove (snd r)))) = false
      /\ pm_usage (rcar_i2c_remove (snd r)) = pm_usage d).
Proof.
  intros Hu Hptr. cbv zeta. pose proof (probe_cases pe d Hu Hptr) as H. cbv zeta in H.
  destruct H as [(Hneg & Hub & Hpm)
                | (H0 & P1 & P2 & P3 & P4 & P5 & P6 & P7 & P8 & P9 & K & _)].
  - split; [lia | ]. split; [auto | lia].
  - split; [lia | ]. split; [lia | ]. intros _.
    pose proof (remove_spec (snd (rcar_i2c_probe pe d))) as R. cbv zeta in R.
    destruct R as (R1 & R2 & R3 & R4 & R5 & _).
    destruct K as (_ & _ & Ks & _).
    rewrite P4, P7, P3 in R3. rewrite P7, P8 in R4. rewrite P7, Ks in R5.
    unfold unbound.
    conj_split; try assumption.
    + rewrite R4. destruct (_ && _); reflexivity.
    + rewrite R5. destruct (_ && _); reflexivity.
    + rewrite R3. destruct (pe_multi_master pe), (_ && _); lia.
Qed.

Lemma probe_remove_balance_witness :
  let pe := probe_answers I2C_RCAR_GEN2 true true in
  let d := unbound_device I2C_RCAR_GEN2 in
  let r := rcar_i2c_probe pe d in
  let hn := pe_smbus pe
            && (devtype_val (pe_match_data pe) <? devtype_val I2C_RCAR_GEN3) in
  fst r <= 0
  /\ (fst r < 0 -> unbound (snd r) /\ pm_usage (snd r) = pm_usage d)
  /\ (fst r = 0 ->
      pm_enabled (snd r) = true /\ adap_added (snd r) = true
      /\ slave (priv (ctl (snd r))) = hn
      /\ pm_usage (snd r)
         = pm_usage d + (if pe_multi_master pe then 1 else 0)
           + (if hn then 1 else 0)
      /\ unbound (rcar_i2c_remove (snd r))
      /\ slave (priv (ctl (rcar_i2c_remove (snd r)))) = false
      /\ pm_usage (rcar_i2c_remove (snd r)) = pm_usage d).
Proof.
  cbv zeta.
  apply (probe_remove_balance (probe_answers I2C_RCAR_GEN2 true true)
           (unbound_device I2C_RCAR_GEN2)).
  - vm_compute. auto.
  - vm_compute. discriminate.
Defined.

Lemma config_kept_fields w x :
  config_kept w x ->
  tst (flags (priv x)) ID_P_FMPLUS = tst (flags (priv w)) ID_P_FMPLUS
  /\ tst (flags (priv x)) ID_P_HOST_NOTIFY = tst (flags (priv w)) ID_P_HOST_NOTIFY
  /\ tst (flags (priv x)) ID_P_PM_BLOCKED = tst (flags (priv w)) ID_P_PM_BLOCKED
  /\ slave (priv x) = slave (priv w)
  /\ devtype (priv x) = devtype (priv w)
  /\ icccr (priv x) = icccr (priv w) /\ schd (priv x) = schd (priv w)
  /\ scld (priv x) = scld (priv w) /\ smd (priv x) = smd (priv w).
Proof.
  intros (H & _). unfold cfg in H. injection H. intros. conj_split; assumption.
Qed.

Lemma pm_inv_world base mm d w :
  pm_inv base mm d -> config_kept (ctl d) w ->
  pm_inv base mm (upd_ctl (fun _ => w) d).
Proof.
  intros (I1 & I2 & I3 & I4 & I5 & I6 & I7) K.
  destruct (config_kept_fields _ _ K) as (_ & _ & Kb & Ks & _).
  unfold pm_inv, host_notify_live in *. d_simpl. rewrite Kb, Ks.
  conj_split; assumption.
Qed.

Lemma pm_inv_usage base mm d d' :
  pm_inv base mm d -> ctl d' = ctl d -> pm_usage d' = pm_usage d ->
  pm_enabled d' = pm_enabled d -> adap_added d' = adap_added d ->
  host_notify_devs d' = host_notify_devs d ->
  host_notify_client d' = host_notify_client d ->
  pm_inv base mm d'.
Proof.
  intros (I1 & I2 & I3 & I4 & I5 & I6 & I7) E1 E2 E3 E4 E5 E6.
  unfold pm_inv, host_notify_live in *.
  rewrite E1, E2, E3, E4, E5, E6. conj_split; assumption.
Qed.

Lemma run_op_pm base mm o d :
  pm_inv base mm d -> op_ok o d -> pm_inv base mm (run_op o d).
Proof.
  intros I Hok. destruct o as [xe ms num evs | xe ms num turns | ten addr | | e];
    cbn [run_op].
  - unfold master_xfer_pm. cbv zeta. d_simpl.
    pose proof (ck_master_xfer xe ms num evs (ctl d)) as K.
    destruct (rcar_i2c_master_xfer xe ms num evs (ctl d)) as [ret w]. cbn [snd] in *.
    eapply pm_inv_usage; [exact (pm_inv_world _ _ _ _ I K) | d_simpl; first [reflexivity | lia] ..].
  - unfold master_xfer_atomic_pm. cbv zeta. d_simpl.
    pose proof (ck_master_xfer_atomic xe ms num turns (ctl d)) as K.
    destruct (rcar_i2c_master_xfer_atomic xe ms num turns (ctl d)) as [ret w].
    cbn [snd] in *.
    eapply pm_inv_usage; [exact (pm_inv_world _ _ _ _ I K) | d_simpl; first [reflexivity | lia] ..].
  - unfold rcar_reg_slave. destruct I as (I1 & I2 & I3 & I4 & I5 & I6 & I7).
    destruct (slave (priv (ctl d))) eqn:Es.
    { cbn [snd]. unfold pm_inv. rewrite Es. conj_split; assumption. }
    destruct ten.
    { cbn [snd]. unfold pm_inv. rewrite Es. conj_split; assumption. }
    cbv zeta. unfold pm_inv, host_notify_live in *. d_simpl. w_simpl. priv_simpl.
    conj_split; first [assumption | lia | reflexivity | intros; reflexivity].
  - unfold rcar_unreg_slave. destruct I as (I1 & I2 & I3 & I4 & I5 & I6 & I7).
    cbn [op_ok] in Hok. destruct Hok as (Hs & Hl).
    rewrite Hs in *. cbv zeta. unfold pm_inv, host_notify_live in *.
    d_simpl. w_simpl. priv_simpl. rewrite Hl in *.
    conj_split; first [assumption | lia | intros; discriminate].
  - pose proof (ck_irqhandler e (ctl d) (ctl d) (ck_refl _)) as K.
    exact (pm_inv_world _ _ _ _ I K).
Qed.

Lemma run_ops_pm base mm ops d :
  pm_inv base mm d -> ops_ok ops d -> pm_inv base mm (run_ops ops d).
Proof.
  revert d. induction ops as [ | o ops IH]; intros d I Hok; [exact I | ].
  cbn [ops_ok] in Hok. destruct Hok as (Ho & Hok).
  change (run_ops (o :: ops) d) with (run_ops ops (run_op o d)).
  apply IH; [ | exact Hok]. apply run_op_pm; assumption.
Qed.

Lemma run_op_client o d : host_notify_client (run_op o d) = host_notify_client d.
Proof.
  destruct o as [xe ms num evs | xe ms num turns | ten addr | | e]; cbn [run_op].
  - unfold master_xfer_pm. cbv zeta.
    destruct (rcar_i2c_master_xfer _ _ _ _ _). reflexivity.
  - unfold master_xfer_atomic_pm. cbv zeta.
    destruct (rcar_i2c_master_xfer_atomic _ _ _ _ _). reflexivity.
  - unfold rcar_reg_slave. destruct (slave _); [reflexivity | ].
    destruct ten; reflexivity.
  - unfold rcar_unreg_slave. cbv zeta. destruct (slave _); reflexivity.
  - reflexivity.
Qed.

Lemma run_ops_client ops d :
  host_notify_client (run_ops ops d) = host_notify_client d.
Proof.
  revert d. induction ops as [ | o ops IH]; intros d; [reflexivity | ].
  change (run_ops (o :: ops) d) with (run_ops ops (run_op o d)).
  rewrite IH. apply run_op_client.
Qed.

(** The runtime-PM usage count of a probed device is always what it was
    before probe, plus one on a multi-master bus, plus one while a slave is
    registered, whatever transfers (sleeping or atomic), interrupts and
    slave registrations happen.  Where probe has set up host notify (Gen1
    and Gen2 with the smbus property) its client is that slave from probe
    to removal.  When no slave but that one is left registered, removal
    returns the count to its value before probe and leaves the device
    unbound, with no slave registered.  The kernel hands out no NULL
    client. *)
Theorem runtime_pm_balance pe d ops :
  unbound d -> pe_host_notify pe <> 0 ->
  fst (rcar_i2c_probe pe d) = 0 ->
  ops_ok ops (snd (rcar_i2c_probe pe d)) ->
  let d2 := run_ops ops (snd (rcar_i2c_probe pe d)) in
  let hn := pe_smbus pe
            && (devtype_val (pe_match_data pe) <? devtype_val I2C_RCAR_GEN3) in
  pm_usage d2
  = pm_usage d + (if pe_multi_master pe then 1 else 0)
    + (if slave (priv (ctl d2)) then 1 else 0)
  /\ pm_enabled d2 = true
  /\ host_notify_live d2 = hn
  /\ (hn = true -> slave (priv (ctl d2)) = true)
  /\ (slave (priv (ctl d2)) = hn ->
      unbound (rcar_i2c_remove d2)
      /\ slave (priv (ctl (rcar_i2c_remove d2))) = false
      /\ pm_usage (rcar_i2c_remove d2) = pm_usage d).
Proof.
  intros Hu Hptr H0 Hok. cbv zeta.
  pose proof (probe_cases pe d Hu Hptr) as H. cbv zeta in H.
  destruct H as [(Hneg & _)
                | (_ & P1 & P2 & P3 & P4 & P5 & P6 & P7 & P8 & P9 & K & _)];
    [lia | ].
  set (hn := pe_smbus pe
             && (devtype_val (pe_match_data pe) <? devtype_val I2C_RCAR_GEN3)) in *.
  assert (pm_inv (pm_usage d) (pe_multi_master pe) (snd (rcar_i2c_probe pe d))) as I.
  { unfold pm_inv. rewrite (proj1 (proj2 (proj2 K))), P7, P6.
    conj_split; try assumption.
    - destruct hn; [right; reflexivity | left; reflexivity].
    - intros ->. reflexivity. }
  pose proof (run_ops_pm _ _ ops _ I Hok) as (I1 & I2 & I3 & I4 & I5 & I6 & I7).
  assert (host_notify_live (run_ops ops (snd (rcar_i2c_probe pe d))) = hn) as Hl.
  { unfold host_notify_live. rewrite run_ops_client. exact P7. }
  split; [exact I1 | ]. split; [exact I3 | ]. split; [exact Hl | ].
  split; [intros Hh; apply I7; rewrite Hl; exact Hh | ]. intros Hs.
  pose proof (remove_spec (run_ops ops (snd (rcar_i2c_probe pe d)))) as R.
  cbv zeta in R. destruct R as (R1 & R2 & R3 & R4 & R5 & _).
  rewrite Hl in *. unfold unbound. rewrite R3, R4, R5, I1, I2, I5, Hs.
  conj_split; try assumption.
  - destruct hn; lia.
  - destruct hn; reflexivity.
  - destruct (pe_multi_master pe), hn; lia.
Qed.

Lemma runtime_pm_balance_witness :
  let pe := probe_answers I2C_RCAR_GEN2 true true in
  let d := unbound_device I2C_RCAR_GEN2 in
  let ops :=
    [OpRegSlave false 80; OpIrq (irq_answers 0 0);
     OpXferAtomic xfer_answers [msg_write 80 [1; 2]] 1
       [(irq_answers 9 0, irq_answers 9 0, true);
        (irq_answers 8 0, irq_answers 8 0, true);
        (irq_answers 8 0, irq_answers 8 0, true);
        (irq_answers 16 0, irq_answers 16 0, true)]] in
  let d2 := run_ops ops (snd (rcar_i2c_probe pe d)) in
  let hn := pe_smbus pe
            && (devtype_val (pe_match_data pe) <? devtype_val I2C_RCAR_GEN3) in
  pm_usage d2
  = pm_usage d + (if pe_multi_master pe then 1 else 0)
    + (if slave (priv (ctl d2)) then 1 else 0)
  /\ pm_enabled d2 = true
  /\ host_notify_live d2 = hn
  /\ (hn = true -> slave (priv (ctl d2)) = true)
  /\ (slave (priv (ctl d2)) = hn ->
      unbound (rcar_i2c_remove d2)
      /\ slave (priv (ctl (rcar_i2c_remove d2))) = false
      /\ pm_usage (rcar_i2c_remove d2) = pm_usage d).
Proof.
  cbv zeta.
  apply (runtime_pm_balance (probe_answers I2C_RCAR_GEN2 true true)
           (unbound_device I2C_RCAR_GEN2)
           [OpRegSlave false 80; OpIrq (irq_answers 0 0);
            OpXferAtomic xfer_answers [msg_write 80 [1; 2]] 1
              [(irq_answers 9 0, irq_answers 9 0, true);
               (irq_answers 8 0, irq_answers 8 0, true);
               (irq_answers 8 0, irq_answers 8 0, true);
               (irq_answers 16 0, irq_answers 16 0, true)]]).
  - vm_compute. auto.
  - vm_compute. discriminate.
  - vm_compute. reflexivity.
  - cbn [ops_ok op_ok]. auto.
Defined.

(** A successful probe leaves the controller in a known state: master
    interrupts disabled, no DMA in flight and no channel asked for yet, the
    generation as the match data give it.  Host notify is set up only
    before Gen3 and only with the smbus property: there probe returns with
    the host-notify client registered as the slave at address 8, so that
    priv->slave is set, ICSIER holds SAR and the last register writes are
    those of rcar_reg_slave.  On Gen3 and later the smbus property is
    ignored: the flag is clear, no client is made, no slave is registered
    and ICSIER is 0, as without the property.  The kernel hands out no NULL
    client. *)
Theorem probe_known_state pe d :
  unbound d -> pe_host_notify pe <> 0 ->
  fst (rcar_i2c_probe pe d) = 0 ->
  let d' := snd (rcar_i2c_probe pe d) in
  let hn := pe_smbus pe
            && (devtype_val (pe_match_data pe) <? devtype_val I2C_RCAR_GEN3) in
  r_icmier (ctl d') = 0
  /\ r_icsier (ctl d') = (if hn then SAR else 0)
  /\ slave (priv (ctl d')) = hn
  /\ in_flight (ctl d') = false
  /\ dma_tx (priv (ctl d')) = ChanErr (- EPROBE_DEFER)
  /\ dma_rx (priv (ctl d')) = ChanErr (- EPROBE_DEFER)
  /\ devtype (priv (ctl d')) = pe_match_data pe
  /\ tst (flags (priv (ctl d'))) ID_P_HOST_NOTIFY = hn
  /\ host_notify_client d' = (if hn then pe_host_notify pe else 0)
  /\ host_notify_devs d' = (if hn then 1 else 0)
  /\ (hn = true ->
      exists l, trace (ctl d')
                = l ++ [Write ICSAR 8; Write ICSSR 0; Write ICSIER SAR;
                        Write ICSCR (Z.lor SIE SDBS)]).
Proof.
  intros Hu Hptr H0. cbv zeta.
  pose proof (probe_cases pe d Hu Hptr) as H. cbv zeta in H.
  destruct H as [(Hneg & _)
                | (_ & P1 & P2 & P3 & P4 & P5 & P6 & P7 & P8 & P9 & K & T)];
    [lia | ].
  destruct K as (K1 & K2 & K3 & K4 & K5 & K6).
  conj_split; try assumption.
  unfold in_flight. rewrite K4. reflexivity.
Qed.

Lemma probe_known_state_witness :
  let pe := probe_answers I2C_RCAR_GEN2 false true in
  let d' := snd (rcar_i2c_probe pe (unbound_device I2C_RCAR_GEN2)) in
  let hn := pe_smbus pe
            && (devtype_val (pe_match_data pe) <? devtype_val I2C_RCAR_GEN3) in
  r_icmier (ctl d') = 0
  /\ r_icsier (ctl d') = (if hn then SAR else 0)
  /\ slave (priv (ctl d')) = hn
  /\ in_flight (ctl d') = false
  /\ dma_tx (priv (ctl d')) = ChanErr (- EPROBE_DEFER)
  /\ dma_rx (priv (ctl d')) = ChanErr (- EPROBE_DEFER)
  /\ devtype (priv (ctl d')) = pe_match_data pe
  /\ tst (flags (priv (ctl d'))) ID_P_HOST_NOTIFY = hn
  /\ host_notify_client d' = (if hn then pe_host_notify pe else 0)
  /\ host_notify_devs d' = (if hn then 1 else 0)
  /\ (hn = true ->
      exists l, trace (ctl d')
                = l ++ [Write ICSAR 8; Write ICSSR 0; Write ICSIER SAR;
                        Write ICSCR (Z.lor SIE SDBS)]).
Proof.
  cbv zeta.
  apply (probe_known_state (probe_answers I2C_RCAR_GEN2 false true)
           (unbound_device I2C_RCAR_GEN2)).
  - vm_compute. auto.
  - vm_compute. discriminate.
  - vm_compute. reflexivity.
Defined.

(** ** The slave registration *)

Lemma registered_world d d' w :
  registered d d' -> config_kept (ctl d') w ->
  registered d (upd_ctl (fun _ => w) d').
Proof.
  intros (S1 & S2 & S3 & S4 & S5) K.
  destruct (config_kept_fields _ _ K) as (_ & _ & _ & Ks & Kd & _).
  destruct K as (_ & [E | L]).
  - unfold registered. d_simpl. rewrite Ks, Kd, E. conj_split; assumption.
  - unfold registered. d_simpl. rewrite Ks, Kd. conj_split; assumption.
Qed.

Lemma run_op_registered d o d' :
  registered d d' -> keeps_slave o = true -> registered d (run_op o d').
Proof.
  intros R Hk. destruct o as [xe ms num evs | xe ms num turns | ten addr | | e];
    cbn [run_op]; [ | | | discriminate Hk | ].
  - unfold master_xfer_pm. cbv zeta. d_simpl.
    pose proof (ck_master_xfer xe ms num evs (ctl d')) as K.
    destruct (rcar_i2c_master_xfer xe ms num evs (ctl d')) as [ret w]. cbn [snd] in *.
    pose proof (registered_world d d' w R K) as (S1 & S2 & S3 & S4 & S5).
    unfold registered in *. d_simpl. conj_split; first [assumption | lia].
  - unfold master_xfer_atomic_pm. cbv zeta. d_simpl.
    pose proof (ck_master_xfer_atomic xe ms num turns (ctl d')) as K.
    destruct (rcar_i2c_master_xfer_atomic xe ms num turns (ctl d')) as [ret w].
    cbn [snd] in *.
    pose proof (registered_world d d' w R K) as (S1 & S2 & S3 & S4 & S5).
    unfold registered in *. d_simpl. conj_split; first [assumption | lia].
  - unfold rcar_reg_slave. rewrite (proj1 R). exact R.
  - pose proof (ck_irqhandler e (ctl d') (ctl d') (ck_refl _)) as K.
    exact (registered_world d d' _ R K).
Qed.

Lemma run_ops_registered d ops d' :
  registered d d' -> forallb keeps_slave ops = true -> registered d (run_ops ops d').
Proof.
  revert d'. induction ops as [ | o ops IH]; intros d' R Hk; [exact R | ].
  cbn [forallb] in Hk. apply andb_prop in Hk. destruct Hk as (Ho & Hk).
  change (run_ops (o :: ops) d') with (run_ops ops (run_op o d')).
  apply IH; [ | exact Hk]. apply run_op_registered; assumption.
Qed.

Lemma reg_slave_registered addr d :
  slave (priv (ctl d)) = false ->
  rcar_reg_slave false addr d
  = (0, snd (rcar_reg_slave false addr d))
  /\ registered d (snd (rcar_reg_slave false addr d)).
Proof.
  intros Hs. unfold rcar_reg_slave. rewrite Hs. cbv zeta. cbn [snd].
  split; [reflexivity | ].
  unfold registered, listening. d_simpl. w_simpl. priv_simpl.
  conj_split; first [reflexivity | lia | left; reflexivity].
Qed.

(** From a successful registration of a slave until it is unregistered,
    whatever transfers, interrupts and further registration attempts
    happen: the slave stays registered, the address interrupt stays
    enabled in ICSIER, one runtime-PM reference is held, a further
    registration is refused with -EBUSY and changes nothing, and on Gen3
    and later every sleeping master transfer whose bus barrier passes is
    refused with -EISCONN. *)
Theorem while_slave_registered addr d ops :
  slave (priv (ctl d)) = false ->
  forallb keeps_slave ops = true ->
  let r := rcar_reg_slave false addr d in
  let d2 := run_ops ops (snd r) in
  fst r = 0
  /\ slave (priv (ctl d2)) = true
  /\ listening (r_icsier (ctl d2)) /\ tst (r_icsier (ctl d2)) SAR = true
  /\ pm_usage d2 = pm_usage d + 1
  /\ (forall ten' addr', rcar_reg_slave ten' addr' d2 = (- EBUSY, d2))
  /\ (devtype_val I2C_RCAR_GEN3 <= devtype_val (devtype (priv (ctl d))) ->
      forall xe ms num evs,
        0 <= barrier_ret xe ->
        fst (master_xfer_pm xe ms num evs d2) = - EISCONN).
Proof.
  intros Hs Hk. cbv zeta.
  destruct (reg_slave_registered addr d Hs) as (E & R).
  pose proof (run_ops_registered d ops _ R Hk) as (S1 & S2 & S3 & S4 & S5).
  split; [rewrite E; reflexivity | ].
  set (d2 := run_ops ops (snd (rcar_reg_slave false addr d))) in *. clearbody d2.
  conj_split; try assumption.
  - destruct S2 as [-> | [-> | ->]]; vm_compute; reflexivity.
  - intros ten' addr'. unfold rcar_reg_slave. rewrite S1. reflexivity.
  - intros Hg xe ms num evs Hb. unfold master_xfer_pm. cbv zeta. d_simpl.
    unfold rcar_i2c_master_xfer, master_xfer_begin, rcar_i2c_do_reset. cbv zeta.
    w_simpl. priv_simpl. rewrite S1, S3.
    destruct (Z.ltb_spec (barrier_ret xe) 0) as [Hlt | _]; [lia | ].
    destruct (Z.leb_spec (devtype_val I2C_RCAR_GEN3)
                (devtype_val (devtype (priv (ctl d))))) as [_ | Hlt]; [ | lia].
    reflexivity.
Qed.

Lemma while_slave_registered_witness :
  listening
    (r_icsier
       (ctl (run_ops [OpIrq (irq_answers 0 0)]
               (snd (rcar_reg_slave false 80 (unbound_device I2C_RCAR_GEN3)))))).
Proof.
  refine (proj1 (proj2 (proj2 (while_slave_registered 80 (unbound_device I2C_RCAR_GEN3)
                                 [OpIrq (irq_answers 0 0)] _ _)))).
  - reflexivity.
  - reflexivity.
Defined.

(** Unregistering undoes a registration: whatever happened in between, the
    slave interface is reset with the four writes of rcar_i2c_reset_slave
    and nothing else, no warning is raised, the slave interrupts are
    disabled, the interrupt line is enabled as before, the runtime-PM
    reference is given back, and a new registration succeeds. *)
Theorem unreg_slave_undoes_reg addr d ops :
  slave (priv (ctl d)) = false ->
  forallb keeps_slave ops = true ->
  let d2 := run_ops ops (snd (rcar_reg_slave false addr d)) in
  let r := rcar_unreg_slave d2 in
  fst r = 0
  /\ slave (priv (ctl (snd r))) = false
  /\ r_icsier (ctl (snd r)) = 0
  /\ since (ctl d2) (ctl (snd r))
     = [Write ICSIER 0; Write ICSSR 0; Write ICSCR SDBS; Write ICSAR 0]
  /\ pm_usage (snd r) = pm_usage d
  /\ irq_depth (snd r) = irq_depth d
  /\ forall addr', fst (rcar_reg_slave false addr' (snd r)) = 0.
Proof.
  intros Hs Hk. cbv zeta.
  destruct (reg_slave_registered addr d Hs) as (_ & R).
  pose proof (run_ops_registered d ops _ R Hk) as (S1 & S2 & S3 & S4 & S5).
  set (d2 := run_ops ops (snd (rcar_reg_slave false addr d))) in *. clearbody d2.
  unfold rcar_unreg_slave. rewrite S1. cbv zeta. d_simpl.
  unfold rcar_i2c_reset_slave. cbv zeta. w_simpl. priv_simpl.
  conj_split; try first [reflexivity | lia].
  apply since_app. w_simpl. rewrite <- !app_assoc. reflexivity.
Qed.

Lemma unreg_slave_undoes_reg_witness :
  r_icsier
    (ctl (snd (rcar_unreg_slave
                 (run_ops [OpIrq (irq_answers 0 0)]
                    (snd (rcar_reg_slave false 80 (unbound_device I2C_RCAR_GEN2)))))))
  = 0.
Proof.
  refine (proj1 (proj2 (proj2 (unreg_slave_undoes_reg 80 (unbound_device I2C_RCAR_GEN2)
                                 [OpIrq (irq_answers 0 0)] _ _)))).
  - reflexivity.
  - reflexivity.
Defined.

(** ** Bus recovery *)

Lemma poll_spec v rest d :
  let r := readl_poll_timeout_fsda v rest d in
  fst r = (if polled_free v rest then 0 else - ETIMEDOUT)
  /\ priv (ctl (snd r)) = priv (ctl d)
  /\ recovery_icmcr (snd r) = recovery_icmcr d
  /\ exists l, trace (ctl (snd r)) = trace (ctl d) ++ l
               /\ forallb barrier_ok l = true
               /\ existsb is_write l = false.
Proof.
  cbv zeta. revert v d. induction rest as [ | v' rest IH]; intros v d.
  - cbn [readl_poll_timeout_fsda]. unfold polled_free. cbn [existsb].
    rewrite orb_false_r.
    destruct (negb (tst (u32 v) FSDA)); cbn [fst snd]; d_simpl; w_simpl;
      (conj_split; try reflexivity; exists [Read ICMCR (u32 v)]; auto).
  - cbn [readl_poll_timeout_fsda]. unfold polled_free. cbn [existsb].
    destruct (negb (tst (u32 v) FSDA)); cbn [orb fst snd].
    + d_simpl; w_simpl. conj_split; try reflexivity.
      exists [Read ICMCR (u32 v)]; auto.
    + specialize (IH v' (upd_ctl (emit (Read ICMCR (u32 v))) d)).
      destruct IH as (I1 & I2 & I3 & l & I4 & I5 & I6).
      unfold polled_free in I1. cbn [existsb] in I1.
      conj_split; try assumption.
      exists (Read ICMCR (u32 v) :: l). d_simpl. w_simpl. rewrite I4 in *.
      rewrite <- app_assoc. cbn [forallb existsb barrier_ok is_write app].
      auto.
Qed.

Lemma pins_u8 s a :
  u8 (Z.lor (icmcr_pins s a) FSCL) = icmcr_pins true a
  /\ u8 (Z.land (icmcr_pins s a) (Z.lnot FSCL)) = icmcr_pins false a
  /\ u8 (Z.lor (icmcr_pins s a) FSDA) = icmcr_pins s true
  /\ u8 (Z.land (icmcr_pins s a) (Z.lnot FSDA)) = icmcr_pins s false.
Proof. destruct s, a; vm_compute; auto. Qed.

Lemma barrier_ok_pins s a : barrier_ok (Write ICMCR (icmcr_pins s a)) = true.
Proof. destruct s, a; vm_compute; reflexivity. Qed.

Lemma run_bri_spec calls : forall s a d,
  recovery_icmcr d = icmcr_pins s a ->
  let d' := fold_left (fun d c => run_bri c d) calls d in
  let '(s', a') :=
    fold_left
      (fun '(scl, sda) c =>
         match c with
         | SetScl val => (negb (val =? 0), sda)
         | SetSda val => (scl, negb (val =? 0))
         | _ => (scl, sda)
         end) calls (s, a) in
  recovery_icmcr d' = icmcr_pins s' a'
  /\ priv (ctl d') = priv (ctl d)
  /\ exists l, trace (ctl d') = trace (ctl d) ++ l /\ forallb barrier_ok l = true.
Proof.
  induction calls as [ | c calls IH]; intros s a d Hr.
  - cbn [fold_left]. conj_split; [exact Hr | reflexivity | ].
    exists []. rewrite app_nil_r. auto.
  - cbn [fold_left].
    set (sa := match c with
               | SetScl val => (negb (val =? 0), a)
               | SetSda val => (s, negb (val =? 0))
               | _ => (s, a)
               end).
    assert (recovery_icmcr (run_bri c d) = icmcr_pins (fst sa) (snd sa)
            /\ priv (ctl (run_bri c d)) = priv (ctl d)
            /\ exists a0, trace (ctl (run_bri c d)) = trace (ctl d) ++ [a0]
                          /\ barrier_ok a0 = true) as (R1 & R2 & a0 & R3 & R4).
    { subst sa. destruct (pins_u8 s a) as (U1 & U2 & U3 & U4).
      destruct c as [v | val | val | v]; cbn [run_bri fst snd].
      - unfold rcar_i2c_get_scl. cbn [snd]. d_simpl. w_simpl.
        conj_split; [exact Hr | reflexivity | ]. eexists. split; reflexivity.
      - unfold rcar_i2c_set_scl. destruct (negb (val =? 0)); d_simpl; w_simpl;
          rewrite Hr, ?U1, ?U2;
          (conj_split; [reflexivity | reflexivity | ]; eexists;
           split; [reflexivity | apply barrier_ok_pins]).
      - unfold rcar_i2c_set_sda. destruct (negb (val =? 0)); d_simpl; w_simpl;
          rewrite Hr, ?U3, ?U4;
          (conj_split; [reflexivity | reflexivity | ]; eexists;
           split; [reflexivity | apply barrier_ok_pins]).
      - unfold rcar_i2c_get_bus_free. cbn [snd]. d_simpl. w_simpl.
        conj_split; [exact Hr | reflexivity | ]. eexists. split; reflexivity. }
    destruct sa as [s1 a1]. cbn [fst snd] in R1.
    specialize (IH s1 a1 (run_bri c d) R1). cbv zeta in IH.
    destruct (fold_left _ calls (s1, a1)) as [s' a'].
    destruct IH as (I1 & I2 & l & I3 & I4).
    conj_split; [exact I1 | rewrite I2; exact R2 | ].
    exists (a0 :: l). rewrite I3, R3, <- app_assoc. cbn [forallb app].
    rewrite R4, I4. auto.
Qed.

(** The bus barrier reads and writes nothing but ICMCR and leaves the
    driver's context alone.  If one of the polled values shows the bus
    free it returns 0 without a single write.  Otherwise it returns what
    the recovery returned, and whatever calls the recovery made, every
    value written keeps the bus interface and the pin override enabled and
    carries no other bit than the two line levels; the two lines are
    driven independently, the last value standing for the levels asked
    for last. *)
Theorem bus_barrier_recovery v rest calls recover_ret d :
  let r := rcar_i2c_bus_barrier v rest calls recover_ret d in
  priv (ctl (snd r)) = priv (ctl d)
  /\ forallb barrier_ok (since (ctl d) (ctl (snd r))) = true
  /\ (if polled_free v rest
      then fst r = 0
           /\ existsb is_write (since (ctl d) (ctl (snd r))) = false
           /\ recovery_icmcr (snd r) = recovery_icmcr d
      else fst r = recover_ret
           /\ recovery_icmcr (snd r)
              = icmcr_pins (fst (pin_levels calls)) (snd (pin_levels calls))).
Proof.
  cbv zeta. unfold rcar_i2c_bus_barrier.
  pose proof (poll_spec v rest d) as P. cbv zeta in P.
  destruct (readl_poll_timeout_fsda v rest d) as [ret d1]. cbn [fst snd] in P.
  destruct P as (P1 & P2 & P3 & l & P4 & P5 & P6).
  destruct (polled_free v rest); rewrite P1.
  - cbn [negb Z.eqb fst snd]. rewrite (since_app _ _ _ P4).
    conj_split; first [assumption | reflexivity].
  - change (negb (- ETIMEDOUT =? 0)) with true. cbv beta iota.
    pose proof (run_bri_spec calls true true
                  (set_recovery_icmcr (Z.lor (Z.lor (Z.lor MDBS OBPC) FSDA) FSCL) d1)
                  eq_refl) as R.
    cbv zeta in R. unfold pin_levels.
    destruct (fold_left _ calls (true, true)) as [s' a'].
    destruct R as (R1 & R2 & l2 & R3 & R4). cbn [fst snd].
    conj_split.
    + rewrite R2. d_simpl. exact P2.
    + assert (trace (ctl (fold_left (fun d c => run_bri c d) calls
                            (set_recovery_icmcr
                               (Z.lor (Z.lor (Z.lor MDBS OBPC) FSDA) FSCL) d1)))
              = trace (ctl d) ++ (l ++ l2)) as E.
      { rewrite R3. d_simpl. rewrite P4, app_assoc. reflexivity. }
      rewrite (since_app _ _ _ E), forallb_app, P5, R4. reflexivity.
    + reflexivity.
    + exact R1.
Qed.

(** ** Receive DMA once per transfer *)




























(** ** The data of a transfer done byte by byte *)

Lemma sent_app l1 l2 : sent (l1 ++ l2) = sent l1 ++ sent l2.
Proof. unfold sent. apply flat_map_app. Qed.

Lemma rcvd_app l1 l2 : rcvd (l1 ++ l2) = rcvd l1 ++ rcvd l2.
Proof. unfold rcvd. apply flat_map_app. Qed.

Lemma first_bytes_0 m : first_bytes m 0 = [].
Proof. reflexivity. Qed.

Lemma first_bytes_succ m n :
  0 <= n -> first_bytes m (n + 1) = first_bytes m n ++ [buf_at m n].
Proof.
  intros Hn. unfold first_bytes.
  replace (Z.to_nat (n + 1)) with (S (Z.to_nat n)) by lia.
  rewrite seq_S, map_app. cbn [map Nat.add]. rewrite Z2Nat.id by lia. reflexivity.
Qed.

Lemma first_bytes_ext m m' n :
  (forall i, 0 <= i < n -> buf_at m' i = buf_at m i) ->
  first_bytes m' n = first_bytes m n.
Proof.
  intros H. unfold first_bytes. apply map_ext_in. intros i Hi.
  apply in_seq in Hi. apply H. lia.
Qed.

Lemma neutral_refl p : neutral p p.
Proof. unfold neutral. conj_split; reflexivity. Qed.

Lemma neutral_facts ms p p' :
  neutral p p' ->
  cur_msg p' = cur_msg p /\ ms_at ms p' = ms_at ms p
  /\ pio_sent ms p' = pio_sent ms p /\ pio_rcvd p' = pio_rcvd p.
Proof.
  intros (E1 & E2 & E3 & _).
  assert (cur_msg p' = cur_msg p) as Ec by (apply cur_msg_eq; assumption).
  unfold ms_at, pio_sent, pio_rcvd, ms_at. rewrite Ec, E1, E2, E3.
  conj_split; reflexivity.
Qed.

Lemma pj_neutral ms w0 x y l :
  pio_inv ms w0 x ->
  trace y = trace x ++ l -> sent l = [] -> rcvd l = [] ->
  neutral (priv x) (priv y) -> r_icsier y = r_icsier x ->
  pio_inv ms w0 y.
Proof.
  intros ((l0 & T & S & R) & Hlen & K & L & Rm & I & F & P) Et Es Er N Ei.
  destruct (neutral_facts ms _ _ N) as (Ec & Em & Eps & Epr).
  destruct N as (N1 & N2 & N3 & N4 & N5 & N6 & N7 & N8).
  unfold pio_inv. conj_split.
  - exists (l0 ++ l). rewrite Et, T, app_assoc, sent_app, rcvd_app, Es, Er, !app_nil_r.
    rewrite Eps, Epr, N8. conj_split; auto.
  - rewrite N3. exact Hlen.
  - unfold cur_agrees. rewrite Ec, Em. exact K.
  - unfold later_agree. rewrite N1, N3. exact L.
  - unfold cur_room. rewrite Ec, N2. exact Rm.
  - rewrite Ei. exact I.
  - unfold in_flight in *. rewrite N4. exact F.
  - unfold pio in *. rewrite N5, N6, N7. exact P.
Qed.

Lemma pj_write ms w0 x r v :
  pio_inv ms w0 x ->
  match r with ICRXTX => False | ICSIER => False | _ => True end ->
  pio_inv ms w0 (rcar_i2c_write r v x).
Proof.
  intros H Hr. apply (pj_neutral ms w0 x _ [Write r v] H).
  - reflexivity.
  - destruct r; first [reflexivity | contradiction].
  - reflexivity.
  - apply neutral_refl.
  - destruct r; first [reflexivity | contradiction].
Qed.

Lemma pj_emit ms w0 x a :
  pio_inv ms w0 x ->
  match a with Write _ _ => False | Read ICRXTX _ => False | _ => True end ->
  pio_inv ms w0 (emit a x).
Proof.
  intros H Ha. apply (pj_neutral ms w0 x _ [a] H).
  - reflexivity.
  - destruct a; first [reflexivity | contradiction].
  - destruct a as [ | r v | | | | | | | | | | ]; try reflexivity.
    destruct r; first [reflexivity | contradiction].
  - apply neutral_refl.
  - reflexivity.
Qed.

Lemma pj_upd ms w0 x f :
  pio_inv ms w0 x -> neutral (priv x) (f (priv x)) -> pio_inv ms w0 (upd_priv f x).
Proof.
  intros H N. apply (pj_neutral ms w0 x _ [] H); auto.
  w_simpl. rewrite app_nil_r. reflexivity.
Qed.

Ltac pj_neutral_tac :=
  unfold neutral; priv_simpl; flags_norm; conj_split; reflexivity.

Ltac pj_base :=
  repeat first
    [ assumption
    | apply pj_upd; [ | pj_neutral_tac ]
    | apply pj_write; [ | exact I ]
    | apply pj_emit; [ | exact I ]
    | match goal with
      | |- pio_inv _ _ (rcar_i2c_clear_irq _ _) => unfold rcar_i2c_clear_irq
      | |- pio_inv _ _ (if ?c then _ else _) => destruct c
      end ].

Lemma dma_pio e x : pio (priv x) -> rcar_i2c_dma e x = (false, x).
Proof.
  intros P. unfold rcar_i2c_dma, dma_infeasible. cbv zeta.
  destruct P as [-> | (Htx & Hrx)]; [reflexivity | ].
  destruct (tst (flags (priv x)) ID_P_NOT_ATOMIC); [ | reflexivity].
  destruct (m_rd (cur_msg (priv x))); rewrite ?Htx, ?Hrx; reflexivity.
Qed.

Lemma pj_dma ms w0 e x : pio_inv ms w0 x -> rcar_i2c_dma e x = (false, x).
Proof. intros (_ & _ & _ & _ & _ & _ & _ & P). apply dma_pio. exact P. Qed.

Lemma pj_irq_out ms w0 x : pio_inv ms w0 x -> pio_inv ms w0 (irq_out x).
Proof. intros H. unfold irq_out. cbv zeta. pj_base. Qed.

Lemma pj_slave_irq ms w0 e x :
  pio_inv ms w0 x -> pio_inv ms w0 (snd (rcar_i2c_slave_irq e x)).
Proof.
  intros H. assert (r_icsier x = 0) as I0 by apply H.
  unfold rcar_i2c_slave_irq, rcar_i2c_read. cbn [fst snd]. cbv zeta. w_simpl.
  rewrite I0, Z.land_0_r. cbn [Z.eqb snd]. pj_base.
Qed.

Lemma prep_flags_eproto p : tst (prep_flags p) ID_EPROTO = false.
Proof. unfold prep_flags. destruct (msgs_left p =? 1); flags_norm; reflexivity. Qed.

Lemma prepare_msg_data w :
  sent (since w (rcar_i2c_prepare_msg w)) = []
  /\ rcvd (since w (rcar_i2c_prepare_msg w)) = []
  /\ r_icsier (rcar_i2c_prepare_msg w) = r_icsier w.
Proof.
  rewrite (since_app _ _ _ (prepare_msg_trace w)).
  split; [ | split].
  - destruct (tst (flags (priv w)) ID_P_NOT_ATOMIC),
      (tst (flags (priv w)) ID_REP_AFTER_RD); reflexivity.
  - destruct (tst (flags (priv w)) ID_P_NOT_ATOMIC),
      (tst (flags (priv w)) ID_REP_AFTER_RD); reflexivity.
  - unfold rcar_i2c_prepare_msg. cbv zeta. w_simpl.
    repeat match goal with
           | |- context [if ?c then _ else _] => destruct c; w_simpl
           end; reflexivity.
Qed.

(** rcar_i2c_prepare_msg on a state that points at a message not yet
    begun. *)
Lemma pj_start_msg ms w0 y l :
  trace y = trace w0 ++ l ->
  sent l = flat_map write_bytes (take (msg (priv y)) ms) ->
  (Forall has_room ms ->
   rcvd l = flat_map read_bytes (take (msg (priv y)) (msgs (priv y)))) ->
  length (msgs (priv y)) = length ms ->
  msgs (priv y) !! msg (priv y) = ms !! msg (priv y) ->
  later_agree ms (priv y) ->
  r_icsier y = 0 -> in_flight y = false -> pio (priv y) ->
  pio_inv ms w0 (rcar_i2c_prepare_msg y).
Proof.
  intros T S R Hlen Hcur L I F P.
  destruct (prepare_msg_data y) as (D1 & D2 & D3).
  pose proof (prepare_msg_trace y) as Tp.
  rewrite (since_app _ _ _ Tp) in D1, D2.
  assert (cur_msg (priv (rcar_i2c_prepare_msg y)) = ms_at ms (priv y)
          /\ ms_at ms (priv (rcar_i2c_prepare_msg y)) = ms_at ms (priv y)) as (Ec & Em).
  { rewrite prepare_msg_priv. unfold cur_msg, ms_at. priv_simpl. rewrite Hcur. auto. }
  unfold pio_inv. conj_split.
  - eexists. split; [rewrite Tp, T, <- app_assoc; reflexivity | ].
    rewrite sent_app, rcvd_app, D1, D2, !app_nil_r.
    unfold pio_sent, pio_rcvd. rewrite Ec, Em. rewrite prepare_msg_priv. priv_simpl.
    rewrite first_bytes_0.
    split.
    + rewrite S. destruct (m_rd (ms_at ms (priv y))); rewrite app_nil_r; reflexivity.
    + intros Hr _. rewrite (R Hr).
      destruct (m_rd (ms_at ms (priv y))); rewrite app_nil_r; reflexivity.
  - rewrite prepare_msg_priv. priv_simpl. exact Hlen.
  - unfold cur_agrees. rewrite Ec, Em. auto.
  - rewrite prepare_msg_priv. unfold later_agree in *. priv_simpl. exact L.
  - intros Hr. unfold cur_room. rewrite Ec. rewrite prepare_msg_priv. priv_simpl.
    cbn [Z.eqb andb]. unfold ms_at.
    destruct (ms !! msg (priv y)) as [m | ] eqn:Em0; cbn [default].
    + rewrite Forall_forall in Hr. apply Hr. eapply list_elem_of_lookup_2. exact Em0.
    + cbn. discriminate.
  - rewrite D3. exact I.
  - unfold in_flight in *. rewrite prepare_msg_priv. priv_simpl. exact F.
  - unfold pio in *. rewrite prepare_msg_priv. priv_simpl.
    rewrite (proj1 (proj2 (proj2 (proj2 (proj2 (proj2 (prep_flags_tests (priv y)))))))).
    exact P.
Qed.

Lemma pj_first_msg ms w0 :
  r_icsier w0 = 0 -> in_flight w0 = false -> pio (priv w0) ->
  pio_inv ms w0 (rcar_i2c_first_msg ms (Z.of_nat (length ms)) w0).
Proof.
  intros I F P. unfold rcar_i2c_first_msg. cbv zeta.
  apply (pj_start_msg ms w0 _ [Write ICMSR 0]); w_simpl; priv_simpl; auto.
  intros i Hi. reflexivity.
Qed.

Lemma pj_next_msg ms w0 x :
  pio_inv ms w0 x ->
  (msg (priv x) < length ms)%nat ->
  pos (priv x) = len (cur_msg (priv x)) ->
  tst (flags (priv x)) ID_EPROTO = false ->
  pio_inv ms w0 (rcar_i2c_next_msg x).
Proof.
  intros ((l0 & T & S & R) & Hlen & (K1 & K2) & L & Rm & I & F & P) Hidx Hpos He.
  unfold rcar_i2c_next_msg. cbv zeta.
  destruct (lookup_lt_is_Some_2 ms (msg (priv x)) Hidx) as [m Hm].
  assert (ms_at ms (priv x) = m) as Em by (unfold ms_at; rewrite Hm; reflexivity).
  assert (msgs (priv x) !! msg (priv x) = Some (cur_msg (priv x))) as Hc.
  { unfold cur_msg.
    destruct (lookup_lt_is_Some_2 (msgs (priv x)) (msg (priv x))) as [c Hc];
      [lia | rewrite Hc; reflexivity]. }
  apply (pj_start_msg ms w0 _ l0); w_simpl; priv_simpl; auto.
  1: rewrite S; unfold pio_sent; rewrite (take_S_r _ _ _ Hm), flat_map_app, Em.
  1: {
    cbn [flat_map]. rewrite app_nil_r. unfold write_bytes.
    destruct (m_rd m) eqn:Hrd; [reflexivity | ].
    rewrite Em, Hrd in K1. rewrite Hpos, (K2 K1), Em. reflexivity. }
  1: { intros Hr. rewrite (R Hr He). unfold pio_rcvd.
    rewrite (take_S_r _ _ _ Hc), flat_map_app. cbn [flat_map]. rewrite app_nil_r.
    unfold read_bytes. rewrite Hpos. reflexivity. }
  all: unfold later_agree in *; priv_simpl; intros; apply L; lia.
Qed.

Lemma pj_send_byte ms w0 x :
  pio_inv ms w0 x ->
  m_rd (cur_msg (priv x)) = false -> 0 <= pos (priv x) ->
  pio_inv ms w0
    (upd_priv (fun p => set_pos (pos p + 1) p)
       (rcar_i2c_write ICRXTX (buf_at (cur_msg (priv x)) (pos (priv x))) x)).
Proof.
  intros ((l0 & T & S & R) & Hlen & (K1 & K2) & L & Rm & I & F & P) Hrd Hpos.
  unfold pio_inv, cur_agrees, later_agree, cur_room, in_flight, pio, pio_sent,
    pio_rcvd, ms_at, cur_msg in *.
  w_simpl. priv_simpl. conj_split; auto.
  - eexists. split; [rewrite T, <- app_assoc; reflexivity | ].
    rewrite sent_app, rcvd_app, S. cbn [sent rcvd flat_map app]. rewrite app_nil_r.
    rewrite Hrd. rewrite <- K1, Hrd, <- (K2 Hrd).
    rewrite first_bytes_succ by exact Hpos. rewrite app_assoc.
    split; [reflexivity | ]. intros Hr He. rewrite (R Hr He).
    rewrite Hrd. reflexivity.
  - intros Hr. rewrite Hrd. discriminate.
Qed.

Lemma pj_irq_send ms w0 e msr x :
  pio_inv ms w0 x ->
  m_rd (cur_msg (priv x)) = false ->
  (msg (priv x) < length ms)%nat ->
  0 <= pos (priv x) <= len (cur_msg (priv x)) ->
  tst (flags (priv x)) ID_EPROTO = false ->
  pio_inv ms w0 (rcar_i2c_irq_send e msr x).
Proof.
  intros H Hrd Hidx Hpos He. unfold rcar_i2c_irq_send. cbv zeta.
  destruct (negb (tst msr MDE)); [pj_base | ].
  rewrite (pj_dma ms w0 e x H).
  assert ((if pos (priv x) =? 1 then (false, x) else (false, x)) = (false, x)) as ->
    by (destruct (pos (priv x) =? 1); reflexivity).
  unfold rcar_i2c_clear_irq. apply pj_write; [ | exact I].
  destruct (Z.ltb_spec (pos (priv x)) (len (cur_msg (priv x)))) as [Hlt | Hge].
  - apply pj_send_byte; [exact H | exact Hrd | lia].
  - destruct (tst (flags (priv x)) ID_LAST_MSG); [pj_base | ].
    apply pj_next_msg; [exact H | exact Hidx | lia | exact He].
Qed.

Lemma pj_irq_recv_tail ms w0 rli itc x :
  pio_inv ms w0 x ->
  (msg (priv x) < length ms)%nat ->
  tst (flags (priv x)) ID_EPROTO = false ->
  pio_inv ms w0 (irq_recv_tail rli itc x).
Proof.
  intros H Hidx He. unfold irq_recv_tail. cbv zeta.
  unfold rcar_i2c_clear_irq. apply pj_write; [ | exact I].
  match goal with
  | |- pio_inv _ _ (if ?c then rcar_i2c_next_msg ?y else _) => set (w1 := y)
  end.
  assert (pio_inv ms w0 w1 /\ msg (priv w1) = msg (priv x)
          /\ tst (flags (priv w1)) ID_EPROTO = false) as (H1 & E1 & He1).
  { subst w1.
    destruct ((pos (priv x) + 1 =? len (cur_msg (priv x))) && negb rli);
      [ | auto].
    destruct (tst (flags (priv x)) ID_LAST_MSG).
    - split; [pj_base | auto].
    - split; [pj_base | ]. w_simpl. priv_simpl. flags_norm. auto. }
  clearbody w1.
  destruct (Z.eqb_spec (pos (priv w1)) (len (cur_msg (priv w1)))) as [Ep | Hne];
    [ | exact H1].
  destruct (tst (flags (priv w1)) ID_LAST_MSG); cbn [negb andb]; [exact H1 | ].
  apply pj_next_msg; [exact H1 | rewrite E1; exact Hidx | exact Ep | exact He1].
Qed.

Lemma upd_cur_msg_twice f g p :
  (msg p < length (msgs p))%nat ->
  upd_cur_msg f (upd_cur_msg g p) = upd_cur_msg (fun m => f (g m)) p.
Proof.
  intros H. unfold upd_cur_msg at 1 3.
  rewrite (cur_msg_upd g p H). unfold upd_cur_msg. priv_simpl.
  rewrite list_insert_insert_eq. reflexivity.
Qed.

Lemma buf_at_insert m k d i :
  0 <= i -> 0 <= k ->
  buf_at (set_buf (<[Z.to_nat k := d]> (buf m)) m) i
  = if (i =? k) && (k <? Z.of_nat (length (buf m))) then d else buf_at m i.
Proof.
  intros Hi Hk. unfold buf_at. cbn [buf set_buf].
  destruct (Z.eqb_spec i k) as [-> | Hne]; cbn [andb].
  - destruct (Z.ltb_spec k (Z.of_nat (length (buf m)))) as [Hlt | Hge].
    + rewrite list_lookup_insert_eq by lia. reflexivity.
    + rewrite list_insert_ge by lia. reflexivity.
  - rewrite list_lookup_insert_ne by lia. reflexivity.
Qed.

(** One received byte: read from the data register, stored at the
    position, the position moved on; [g] is what happens to the message,
    the store and, for a count byte, the new length. *)
Lemma pj_recv_byte ms w0 x y v g :
  pio_inv ms w0 x ->
  m_rd (cur_msg (priv x)) = true ->
  0 <= pos (priv x) < len (cur_msg (priv x)) ->
  (msg (priv x) < length ms)%nat ->
  tst (flags (priv x)) ID_EPROTO = false ->
  trace y = trace x ++ [Read ICRXTX v] -> r_icsier y = r_icsier x ->
  priv y = set_pos (pos (priv x) + 1) (upd_cur_msg g (priv x)) ->
  m_rd (g (cur_msg (priv x))) = true ->
  buf (g (cur_msg (priv x)))
  = <[Z.to_nat (pos (priv x)) := u8 v]> (buf (cur_msg (priv x))) ->
  (Forall has_room ms ->
   len (g (cur_msg (priv x))) <= Z.of_nat (length (buf (cur_msg (priv x))))) ->
  pio_inv ms w0 y.
Proof.
  intros ((l0 & T & S & R) & Hlen & (K1 & K2) & L & Rm & I & F & P)
    Hrd Hpos Hidx He Ty Iy Py Grd Gbuf Glen.
  assert (msg (priv x) < length (msgs (priv x)))%nat as Hidx' by lia.
  assert (cur_msg (priv y) = g (cur_msg (priv x))) as Ec.
  { rewrite Py. rewrite <- (cur_msg_upd g (priv x) Hidx'). reflexivity. }
  destruct (upd_cur_msg_fields g (priv x)) as (U1 & U2 & U3 & U4 & U5 & U6 & U7 & U8).
  assert (flags (priv y) = flags (priv x) /\ msg (priv y) = msg (priv x)
          /\ pos (priv y) = pos (priv x) + 1
          /\ dma_direction (priv y) = dma_direction (priv x)
          /\ dma_rx (priv y) = dma_rx (priv x) /\ dma_tx (priv y) = dma_tx (priv x)
          /\ msgs (priv y) = <[msg (priv x) := g (cur_msg (priv x))]> (msgs (priv x)))
    as (Y1 & Y2 & Y3 & Y4 & Y5 & Y6 & Y7).
  { rewrite Py. priv_simpl. conj_split; try assumption; reflexivity. }
  assert (ms_at ms (priv y) = ms_at ms (priv x)) as Em
    by (unfold ms_at; rewrite Y2; reflexivity).
  unfold pio_inv. conj_split.
  - exists (l0 ++ [Read ICRXTX v]).
    split; [rewrite Ty, T, app_assoc; reflexivity | ].
    rewrite sent_app, rcvd_app, S. cbn [sent rcvd flat_map app]. rewrite !app_nil_r.
    split.
    + unfold pio_sent. rewrite Em, Y2, Y3. rewrite <- K1, Hrd. reflexivity.
    + intros Hr _. rewrite (R Hr He). unfold pio_rcvd.
      rewrite Ec, Grd, Hrd, Y2, Y3, Y7.
      rewrite take_insert_ge by lia.
      rewrite first_bytes_succ by lia. rewrite app_assoc. f_equal.
      * f_equal. apply first_bytes_ext. intros i Hi.
        unfold buf_at. rewrite Gbuf. rewrite list_lookup_insert_ne by lia. reflexivity.
      * f_equal. unfold buf_at. rewrite Gbuf.
        specialize (Rm Hr Hrd).
        rewrite list_lookup_insert_eq; [reflexivity | ].
        destruct ((pos (priv x) =? 0) && m_recv_len (cur_msg (priv x)));
          unfold I2C_SMBUS_BLOCK_MAX in Rm; lia.
  - rewrite Y7, length_insert. exact Hlen.
  - unfold cur_agrees. rewrite Ec, Em, Grd, <- K1.
    split; [symmetry; exact Hrd | discriminate].
  - unfold later_agree. rewrite Y2, Y7. intros i Hi.
    rewrite list_lookup_insert_ne by lia. apply L. exact Hi.
  - intros Hr _. rewrite Ec, Y3, Gbuf, length_insert.
    destruct (Z.eqb_spec (pos (priv x) + 1) 0) as [E0 | _]; [lia | ].
    cbn [andb]. specialize (Glen Hr). lia.
  - rewrite Iy. exact I.
  - unfold in_flight in *. rewrite Y4. exact F.
  - unfold pio in *. rewrite Y1, Y5, Y6. exact P.
Qed.

(** The invalid count byte of a length-prefixed receive: read and stored,
    the transfer ended with ID_EPROTO. *)
Lemma pj_recv_eproto ms w0 x y v g :
  pio_inv ms w0 x ->
  m_rd (cur_msg (priv x)) = true ->
  (msg (priv x) < length ms)%nat ->
  trace y = trace x ++ [Read ICRXTX v] -> r_icsier y = r_icsier x ->
  priv y = set_flags (Z.lor (flags (priv x)) (Z.lor ID_DONE ID_EPROTO))
             (upd_cur_msg g (priv x)) ->
  m_rd (g (cur_msg (priv x))) = true ->
  len (g (cur_msg (priv x))) = len (cur_msg (priv x)) ->
  m_recv_len (g (cur_msg (priv x))) = m_recv_len (cur_msg (priv x)) ->
  length (buf (g (cur_msg (priv x)))) = length (buf (cur_msg (priv x))) ->
  pio_inv ms w0 y.
Proof.
  intros ((l0 & T & S & R) & Hlen & (K1 & K2) & L & Rm & I & F & P)
    Hrd Hidx Ty Iy Py Grd Glen Grl Gbuf.
  assert (msg (priv x) < length (msgs (priv x)))%nat as Hidx' by lia.
  assert (cur_msg (priv y) = g (cur_msg (priv x))) as Ec.
  { rewrite Py. rewrite <- (cur_msg_upd g (priv x) Hidx'). reflexivity. }
  destruct (upd_cur_msg_fields g (priv x)) as (U1 & U2 & U3 & U4 & U5 & U6 & U7 & U8).
  assert (tst (flags (priv y)) ID_P_NOT_ATOMIC = tst (flags (priv x)) ID_P_NOT_ATOMIC
          /\ tst (flags (priv y)) ID_EPROTO = true
          /\ msg (priv y) = msg (priv x) /\ pos (priv y) = pos (priv x)
          /\ dma_direction (priv y) = dma_direction (priv x)
          /\ dma_rx (priv y) = dma_rx (priv x) /\ dma_tx (priv y) = dma_tx (priv x)
          /\ msgs (priv y) = <[msg (priv x) := g (cur_msg (priv x))]> (msgs (priv x)))
    as (Y1 & Y0 & Y2 & Y3 & Y4 & Y5 & Y6 & Y7).
  { rewrite Py. priv_simpl. flags_norm. conj_split; try assumption; reflexivity. }
  assert (ms_at ms (priv y) = ms_at ms (priv x)) as Em
    by (unfold ms_at; rewrite Y2; reflexivity).
  unfold pio_inv. conj_split.
  - exists (l0 ++ [Read ICRXTX v]).
    split; [rewrite Ty, T, app_assoc; reflexivity | ].
    rewrite sent_app, S. cbn [sent flat_map app]. rewrite !app_nil_r.
    split.
    + unfold pio_sent. rewrite Em, Y2, Y3. reflexivity.
    + intros _ He. rewrite Y0 in He. discriminate He.
  - rewrite Y7, length_insert. exact Hlen.
  - unfold cur_agrees. rewrite Ec, Em, Grd, <- K1.
    split; [symmetry; exact Hrd | discriminate].
  - unfold later_agree. rewrite Y2, Y7. intros i Hi.
    rewrite list_lookup_insert_ne by lia. apply L. exact Hi.
  - intros Hr _. rewrite Ec, Y3, Glen, Grl, Gbuf. exact (Rm Hr Hrd).
  - rewrite Iy. exact I.
  - unfold in_flight in *. rewrite Y4. exact F.
  - unfold pio in *. rewrite Y1, Y5, Y6. exact P.
Qed.

Lemma u16_le z : 0 <= z -> u16 z <= z.
Proof. intros H. unfold u16. apply Z.mod_le; lia. Qed.

Ltac msg_fields :=
  cbn [addr m_rd m_dma_safe m_recv_len len buf set_buf set_len] in *.

Ltac pj_side :=
  try eassumption; try reflexivity;
  try (msg_fields; w_simpl;
       first [assumption | reflexivity | apply length_insert]).

Lemma pj_irq_recv ms w0 e msr x :
  pio_inv ms w0 x ->
  m_rd (cur_msg (priv x)) = true ->
  (msg (priv x) < length ms)%nat ->
  0 <= pos (priv x) <= len (cur_msg (priv x)) ->
  tst (flags (priv x)) ID_EPROTO = false ->
  pio_inv ms w0 (rcar_i2c_irq_recv e msr x).
Proof.
  intros H Hrd Hidx Hpos He. unfold rcar_i2c_irq_recv. cbv zeta.
  destruct (negb (tst msr MDR)); [exact H | ].
  destruct (tst msr MAT).
  { rewrite (pj_dma ms w0 e x H). apply pj_irq_recv_tail; assumption. }
  destruct (Z.ltb_spec (pos (priv x)) (len (cur_msg (priv x)))) as [Hlt | Hge];
    [ | apply pj_irq_recv_tail; assumption].
  unfold rcar_i2c_read. cbn [fst snd].
  set (v := u32 (hw_icrxtx e)).
  assert (msg (priv x) < length (msgs (priv x)))%nat as Hidx'
    by (destruct H as (_ & -> & _); exact Hidx).
  assert (pio (priv x)) as P by apply H.
  assert (Forall has_room ms -> cur_room (priv x)) as Rm by apply H.
  destruct ((pos (priv x) =? 0) && m_recv_len (cur_msg (priv x))) eqn:Hrli.
  - apply andb_prop in Hrli. destruct Hrli as (Hp0 & Hrl). apply Z.eqb_eq in Hp0.
    destruct ((u8 v =? 0) || (I2C_SMBUS_BLOCK_MAX <? u8 v)) eqn:Hbad.
    + eapply (pj_recv_eproto ms w0 x _ v); pj_side.
    + apply orb_false_elim in Hbad. destruct Hbad as (Hb0 & Hb32).
      apply Z.eqb_neq in Hb0. apply Z.ltb_ge in Hb32.
      match goal with
      | |- context [rcar_i2c_dma e ?y] =>
          rewrite (dma_pio e y) by (w_simpl; unfold pio, upd_cur_msg in *;
                                    priv_simpl; exact P)
      end.
      apply pj_irq_recv_tail.
      * eapply (pj_recv_byte ms w0 x _ v); pj_side.
        -- lia.
        -- w_simpl. rewrite (upd_cur_msg_twice _ _ _ Hidx'). reflexivity.
        -- msg_fields. exact Hrd.
        -- reflexivity.
        -- intros Hr. specialize (Rm Hr Hrd). rewrite Hp0, Hrl in Rm.
           cbn [Z.eqb andb] in Rm. cbn [len set_len].
           pose proof (u8_range v) as Hu.
           rewrite buf_at_insert by lia. rewrite Hp0. cbn [Z.eqb andb].
           unfold I2C_SMBUS_BLOCK_MAX in *.
           destruct (Z.ltb_spec 0 (Z.of_nat (length (buf (cur_msg (priv x))))))
             as [_ | Hz]; [ | lia].
           cbn [len set_buf].
           pose proof (u16_le (len (cur_msg (priv x)) + u8 v) ltac:(lia)). lia.
      * w_simpl. unfold upd_cur_msg. priv_simpl. exact Hidx.
      * w_simpl. unfold upd_cur_msg. priv_simpl. exact He.
  - apply pj_irq_recv_tail.
    + eapply (pj_recv_byte ms w0 x _ v); pj_side.
      * lia.
      * intros Hr. specialize (Rm Hr Hrd). cbn [len set_buf].
        destruct ((pos (priv x) =? 0) && m_recv_len (cur_msg (priv x)));
          unfold I2C_SMBUS_BLOCK_MAX in Rm; lia.
    + w_simpl. unfold upd_cur_msg. priv_simpl. exact Hidx.
    + w_simpl. unfold upd_cur_msg. priv_simpl. exact He.
Qed.

Lemma pj_irq ms w0 e msr x :
  pio_inv ms w0 x ->
  (msr <> 0 ->
   (msg (priv x) < length ms)%nat
   /\ 0 <= pos (priv x) <= len (cur_msg (priv x))
   /\ tst (flags (priv x)) ID_EPROTO = false) ->
  pio_inv ms w0 (snd (rcar_i2c_irq e msr x)).
Proof.
  intros H Hd. unfold rcar_i2c_irq.
  destruct (Z.eqb_spec msr 0) as [E0 | Hne].
  { pose proof (pj_slave_irq ms w0 e x H) as Hs.
    destruct (rcar_i2c_slave_irq e x) as [handled w1]. exact Hs. }
  destruct (Hd Hne) as (Hidx & Hpos & He).
  destruct (tst msr MAL); [cbn [snd]; apply pj_irq_out; pj_base | ].
  destruct (tst msr MNR); [cbn [snd]; apply pj_irq_out; pj_base | ].
  destruct (tst msr MST); [cbn [snd]; apply pj_irq_out; pj_base | ].
  cbn [snd]. apply pj_irq_out. unfold rcar_i2c_is_recv.
  destruct (m_rd (cur_msg (priv x))) eqn:Hrd;
    [apply pj_irq_recv | apply pj_irq_send]; assumption.
Qed.

Lemma pj_read_msr ms w0 e x :
  pio_inv ms w0 x ->
  pio_inv ms w0 (snd (read_msr e x))
  /\ fst (read_msr e x) = irq_msr e x
  /\ priv (snd (read_msr e x)) = priv x.
Proof.
  intros H. destruct (read_msr_spec e x) as (B1 & B2 & _).
  split; [ | split; assumption].
  unfold read_msr, rcar_i2c_read. w_simpl.
  destruct (tst (flags (priv x)) ID_P_NOT_ATOMIC); cbn [snd]; pj_base.
Qed.

Lemma pj_irqhandler ms w0 e x :
  pio_inv ms w0 x -> core_inv ms x ->
  (irq_msr e x <> 0 -> tst (flags (priv x)) ID_DONE = false) ->
  pio_inv ms w0 (snd (irqhandler e x)).
Proof.
  intros H C Hd.
  assert (irq_msr e x <> 0 ->
          (msg (priv x) < length ms)%nat
          /\ 0 <= pos (priv x) <= len (cur_msg (priv x))
          /\ tst (flags (priv x)) ID_EPROTO = false) as Hdata.
  { intros Hne. conj_split; [apply C | apply C | apply C | ].
    apply (inv_run ms x C). apply Hd. exact Hne. }
  unfold irqhandler, rcar_i2c_gen2_irq, rcar_i2c_gen3_irq. cbv zeta.
  destruct (devtype_val (devtype (priv x)) <? devtype_val I2C_RCAR_GEN3).
  - match goal with |- context [read_msr e ?y] => set (xa := y) end.
    assert (pio_inv ms w0 xa /\ priv xa = priv x /\ irq_msr e xa = irq_msr e x)
      as (Ha & Pa & Ma).
    { subst xa. destruct (negb (tst (flags (priv x)) ID_REP_AFTER_RD));
        (split; [pj_base | auto]). }
    clearbody xa.
    destruct (pj_read_msr ms w0 e xa Ha) as (Hm & Em & Ep).
    destruct (read_msr e xa) as [msr w1]. cbn [fst snd] in *. subst msr.
    apply pj_irq; [exact Hm | ]. rewrite Ma, Ep, Pa. exact Hdata.
  - destruct (pj_read_msr ms w0 e x H) as (Hm & Em & Ep).
    destruct (read_msr e x) as [msr w1]. cbn [fst snd] in *. subst msr.
    match goal with |- context [rcar_i2c_irq e _ ?y] => set (w2 := y) end.
    assert (pio_inv ms w0 w2 /\ priv w2 = priv x) as (H2 & E2).
    { subst w2. split; [pj_base | ]. destruct (_ && _); w_simpl; exact Ep. }
    clearbody w2.
    apply pj_irq; [exact H2 | ]. rewrite E2. exact Hdata.
Qed.

Lemma pj_step ms w0 x x' :
  xfer_inv ms x -> step x x' -> pio_inv ms w0 x -> pio_inv ms w0 x'.
Proof.
  intros (C & _ & Hi) Hs H. destruct Hs as [e x Hna Hc | x Hfl | e0 e x Hna Hd Hc].
  - apply pj_irqhandler; [exact H | exact C | ].
    intros Hne. destruct (tst (flags (priv x)) ID_DONE) eqn:Hdone; [ | reflexivity].
    exfalso. apply Hne. unfold irq_msr. rewrite Hna.
    destruct (Hi Hna) as [Hz _]. rewrite (Hz Hdone). apply Z.land_0_r.
  - assert (in_flight x = false) as F by apply H. congruence.
  - unfold atomic_poll, rcar_i2c_read. cbv zeta.
    match goal with |- context [if ?c then _ else _] => destruct c end.
    + pj_base.
    + apply pj_irqhandler; [pj_base | | intros _; exact Hd].
      destruct C. constructor; assumption.
Qed.

Lemma pj_reachable ms w0 w :
  batch_ok ms -> in_flight w0 = false -> r_icsier w0 = 0 -> pio (priv w0) ->
  reachable ms w0 w -> pio_inv ms w0 w.
Proof.
  intros Hb F I P Hr. induction Hr as [ | w w' Hr IH Hs].
  - apply pj_first_msg; assumption.
  - destruct (reachable_inv ms w0 w Hb F Hr) as (Hinv & _).
    exact (pj_step ms w0 w w' Hinv Hs IH).
Qed.

(** A transfer done byte by byte (atomic, or with no DMA channel), with no
    slave interface enabled, writes to the data register exactly the bytes
    of the caller's write messages, in order and each once: at every point
    of the transfer, all bytes of the write messages before the current
    message, followed by the first bytes of the current message up to the
    position if it is a write. *)
Theorem pio_sends_in_order ms w0 w :
  batch_ok ms -> in_flight w0 = false -> r_icsier w0 = 0 -> pio (priv w0) ->
  reachable ms w0 w ->
  sent (since w0 w)
  = flat_map write_bytes (take (msg (priv w)) ms)
    ++ (if m_rd (ms_at ms (priv w)) then []
        else first_bytes (ms_at ms (priv w)) (pos (priv w))).
Proof.
  intros Hb F I P Hr.
  destruct (pj_reachable ms w0 w Hb F I P Hr) as ((l & T & S & _) & _).
  rewrite (since_app _ _ _ T). exact S.
Qed.

(** In such a transfer, with receive buffers as long as the messages
    declare (and 32 bytes longer for a length-prefixed receive), the bytes
    read from the data register are stored in the buffers in the order
    they arrive, a receive message's bytes at the positions 0, 1, ... of
    its buffer: unless a length-prefixed receive was ended with a protocol
    error, the bytes read so far are the contents of the receive messages
    before the current one up to their lengths, followed by the contents
    of the current buffer up to the position. *)
Theorem pio_receives_in_order ms w0 w :
  batch_ok ms -> Forall has_room ms ->
  in_flight w0 = false -> r_icsier w0 = 0 -> pio (priv w0) ->
  reachable ms w0 w ->
  tst (flags (priv w)) ID_EPROTO = false ->
  rcvd (since w0 w)
  = flat_map read_bytes (take (msg (priv w)) (msgs (priv w)))
    ++ (if m_rd (cur_msg (priv w))
        then first_bytes (cur_msg (priv w)) (pos (priv w)) else []).
Proof.
  intros Hb Hroom F I P Hr He.
  destruct (pj_reachable ms w0 w Hb F I P Hr) as ((l & T & _ & R) & _).
  rewrite (since_app _ _ _ T). exact (R Hroom He).
Qed.

Lemma pio_sends_in_order_witness :
  let ms := [msg_write 80 [1; 2]] in
  let w0 := idle_world I2C_RCAR_GEN3 in
  let w := snd (irqhandler (irq_answers 9 0) (rcar_i2c_first_msg ms 1 w0)) in
  sent (since w0 w)
  = flat_map write_bytes (take (msg (priv w)) ms)
    ++ (if m_rd (ms_at ms (priv w)) then []
        else first_bytes (ms_at ms (priv w)) (pos (priv w))).
Proof.
  cbv zeta.
  apply (pio_sends_in_order [msg_write 80 [1; 2]] (idle_world I2C_RCAR_GEN3)).
  - batch_check.
  - reflexivity.
  - reflexivity.
  - right. split; reflexivity.
  - eapply reach_step; [apply reach_first | ].
    apply step_irq; [vm_compute; reflexivity | contract_check].
Defined.

Lemma pio_receives_in_order_witness :
  let ms := [msg_read 80 2] in
  let w0 := idle_world I2C_RCAR_GEN3 in
  let w := snd (irqhandler (irq_answers 2 17)
                  (snd (irqhandler (irq_answers 3 0) (rcar_i2c_first_msg ms 1 w0)))) in
  rcvd (since w0 w)
  = flat_map read_bytes (take (msg (priv w)) (msgs (priv w)))
    ++ (if m_rd (cur_msg (priv w))
        then first_bytes (cur_msg (priv w)) (pos (priv w)) else []).
Proof.
  cbv zeta.
  apply (pio_receives_in_order [msg_read 80 2] (idle_world I2C_RCAR_GEN3)).
  - batch_check.
  - constructor; [vm_compute; intros; discriminate | constructor].
  - reflexivity.
  - reflexivity.
  - right. split; reflexivity.
  - apply (reach_step _ _
             (snd (irqhandler (irq_answers 3 0)
                     (rcar_i2c_first_msg [msg_read 80 2] 1 (idle_world I2C_RCAR_GEN3))))).
    + apply (reach_step _ _
               (rcar_i2c_first_msg [msg_read 80 2] 1 (idle_world I2C_RCAR_GEN3)));
        [apply reach_first | ].
      apply step_irq; [vm_compute; reflexivity | contract_check].
    + apply step_irq; [vm_compute; reflexivity | contract_check].
  - vm_compute. reflexivity.
Defined.

(** ** Atomic transfers, end to end *)

Lemma atomic_loop_reachable ms w0 turns : forall x,
  batch_ok ms -> in_flight w0 = false ->
  tst (flags (priv w0)) ID_P_NOT_ATOMIC = false ->
  reachable ms w0 x ->
  tst (flags (priv x)) ID_DONE = false ->
  admissible_turns turns x ->
  reachable ms w0 (snd (atomic_loop turns x))
  /\ (fst (atomic_loop turns x) = true ->
      tst (flags (priv (snd (atomic_loop turns x)))) ID_DONE = true).
Proof.
  induction turns as [ | [[e0 e] tl] turns IH]; intros x Hb Hfl Hna Hr Hd Ha.
  - cbn. split; [exact Hr | discriminate].
  - cbn [atomic_loop admissible_turns] in *. cbv zeta. destruct Ha as (Hc & Ha).
    assert (reachable ms w0 (atomic_poll e0 e x)) as Hr1.
    { eapply reach_step; [exact Hr | ]. apply step_poll; [ | exact Hd | exact Hc].
      destruct (reachable_inv ms w0 x Hb Hfl Hr) as (_ & E). rewrite E. exact Hna. }
    destruct (tst (flags (priv (atomic_poll e0 e x))) ID_DONE) eqn:Hd1; cbn [negb andb].
    + cbn [fst snd]. split; [exact Hr1 | intros _; exact Hd1].
    + destruct tl; cbn [fst snd].
      * apply IH; auto.
      * split; [exact Hr1 | discriminate].
Qed.

Lemma init_data w :
  exists l, trace (rcar_i2c_init w) = trace w ++ l /\ sent l = [] /\ rcvd l = [].
Proof.
  unfold rcar_i2c_init. cbv zeta. w_simpl.
  destruct (devtype_val (devtype (priv w)) <? devtype_val I2C_RCAR_GEN3); w_simpl;
    rewrite <- ?app_assoc; eexists; (split; [reflexivity | split; reflexivity]).
Qed.

Lemma xfer_out_data ret w :
  fst (xfer_out ret w) = ret /\ priv (snd (xfer_out ret w)) = priv w
  /\ exists l, trace (snd (xfer_out ret w)) = trace w ++ l /\ sent l = [].
Proof.
  unfold xfer_out. cbn [fst snd].
  destruct ((ret <? 0) && negb (ret =? - ENXIO)); w_simpl.
  - conj_split; try reflexivity. eexists. split; reflexivity.
  - conj_split; try reflexivity. exists []. rewrite app_nil_r. split; reflexivity.
Qed.

Lemma atomic_started_eq ms w :
  atomic_started ms w
  = rcar_i2c_first_msg ms (Z.of_nat (length ms))
      (rcar_i2c_init (upd_priv (fun p => set_flags (clr (flags p) ID_P_NOT_ATOMIC) p) w)).
Proof. reflexivity. Qed.

(** An atomic transfer, end to end.  For a well-formed batch of n messages
    on a controller with no DMA in flight and no slave interface enabled,
    with a bus barrier that passes and polling turns within the hardware's
    rules, rcar_i2c_master_xfer_atomic returns a negative error or a count
    between 1 and n, and the bytes it has written to the data register are
    exactly the bytes of the write messages before the message it stopped
    in, followed by the first bytes of that message up to the position if
    it is a write. *)
Theorem atomic_transfer_data xe ms turns w :
  batch_ok ms -> in_flight w = false -> r_icsier w = 0 ->
  0 <= barrier_ret xe ->
  admissible_turns turns (atomic_started ms w) ->
  let r := rcar_i2c_master_xfer_atomic xe ms (Z.of_nat (length ms)) turns w in
  (fst r < 0 \/ 1 <= fst r <= Z.of_nat (length ms))
  /\ sent (since w (snd r))
     = flat_map write_bytes (take (msg (priv (snd r))) ms)
       ++ (if m_rd (ms_at ms (priv (snd r))) then []
           else first_bytes (ms_at ms (priv (snd r))) (pos (priv (snd r)))).
Proof.
  intros Hb Hfl Hi Hbar Hadm. cbv zeta.
  unfold rcar_i2c_master_xfer_atomic. cbv zeta.
  destruct (Z.ltb_spec (barrier_ret xe) 0) as [Hlt | _]; [lia | ].
  rewrite atomic_started_eq in Hadm.
  set (w1 := upd_priv (fun p => set_flags (clr (flags p) ID_P_NOT_ATOMIC) p) w) in *.
  set (w0 := rcar_i2c_init w1) in *.
  assert (priv w0 = priv w1) as Ep0 by apply init_priv.
  assert (in_flight w0 = false) as Hfl0.
  { rewrite (in_flight_priv _ _ Ep0). exact Hfl. }
  assert (tst (flags (priv w0)) ID_P_NOT_ATOMIC = false) as Hna0.
  { rewrite Ep0. subst w1. w_simpl. priv_simpl. flags_norm. reflexivity. }
  assert (r_icsier w0 = 0) as Hi0.
  { subst w0. rewrite (proj2 (init_enables w1)). exact Hi. }
  destruct (init_data w1) as (li & Ti & Si & _). fold w0 in Ti.
  assert (trace w1 = trace w) as T1 by reflexivity.
  rewrite T1 in Ti.
  set (x0 := rcar_i2c_first_msg ms (Z.of_nat (length ms)) w0) in *.
  assert (tst (flags (priv x0)) ID_DONE = false) as Hd0.
  { subst x0. unfold rcar_i2c_first_msg. cbv zeta. rewrite prepare_msg_priv. priv_simpl.
    apply prep_flags_tests. }
  destruct (atomic_loop_reachable ms w0 turns x0 Hb Hfl0 Hna0 (reach_first ms w0) Hd0 Hadm)
    as (Hr & Hdone).
  destruct (atomic_loop turns x0) as [tl x2]. cbn [fst snd] in Hr, Hdone.
  assert (pio (priv w0)) as Hp by (left; exact Hna0).
  destruct (pj_reachable ms w0 x2 Hb Hfl0 Hi0 Hp Hr) as ((l & T2 & S2 & _) & _).
  destruct (msgs_left_accounting ms w0 x2 Hb Hfl0 Hr) as (_ & Hidx & _ & Hcnt).
  unfold xfer_result. unfold pio_sent in S2.
  clearbody x0. clearbody w0. clearbody w1.
  destruct tl; cbn [negb]; cbv beta iota.
  - specialize (Hdone eq_refl).
    assert (forall ret,
              sent (since w (snd (xfer_out ret x2)))
              = flat_map write_bytes (take (msg (priv (snd (xfer_out ret x2)))) ms)
                ++ (if m_rd (ms_at ms (priv (snd (xfer_out ret x2)))) then []
                    else first_bytes (ms_at ms (priv (snd (xfer_out ret x2))))
                           (pos (priv (snd (xfer_out ret x2)))))) as Hs.
    { intros ret. destruct (xfer_out_data ret x2) as (_ & Ep & lo & To & So).
      rewrite Ep, <- S2.
      assert (trace (snd (xfer_out ret x2)) = trace w ++ (li ++ l ++ lo)) as T
        by (rewrite To, T2, Ti, <- !app_assoc; reflexivity).
      rewrite (since_app _ _ _ T), !sent_app, Si, So, app_nil_r. reflexivity. }
    assert (forall ret, ret < 0 -> fst (xfer_out ret x2) < 0) as Hneg
      by (intros ret Hret; rewrite (proj1 (xfer_out_data _ _)); exact Hret).
    destruct (tst (flags (priv x2)) ID_NACK);
      [split; [left; apply Hneg; unfold ENXIO; lia | apply Hs] | ].
    destruct (tst (flags (priv x2)) ID_ARBLOST);
      [split; [left; apply Hneg; unfold EAGAIN; lia | apply Hs] | ].
    destruct (tst (flags (priv x2)) ID_EPROTO);
      [split; [left; apply Hneg; unfold EPROTO; lia | apply Hs] | ].
    split; [ | apply Hs].
    right. rewrite (proj1 (xfer_out_data _ _)).
    rewrite (Hcnt Hdone eq_refl eq_refl). lia.
  - destruct (xfer_out_data (- ETIMEDOUT) (rcar_i2c_init x2)) as (Er & Ep & lo & To & So).
    split; [left; rewrite Er; unfold ETIMEDOUT; lia | ].
    rewrite Ep, init_priv, <- S2.
    destruct (init_data x2) as (l3 & T3 & S3 & _).
    assert (trace (snd (xfer_out (- ETIMEDOUT) (rcar_i2c_init x2)))
            = trace w ++ (li ++ l ++ l3 ++ lo)) as T
      by (rewrite To, T3, T2, Ti, <- !app_assoc; reflexivity).
    rewrite (since_app _ _ _ T), !sent_app, Si, S3, So, !app_nil_r. reflexivity.
Qed.

Lemma atomic_transfer_data_witness :
  let ms := [msg_write 80 [1; 2]] in
  let turns :=
    [(irq_answers 9 0, irq_answers 9 0, true); (irq_answers 8 0, irq_answers 8 0, true);
     (irq_answers 8 0, irq_answers 8 0, true); (irq_answers 16 0, irq_answers 16 0, true)] in
  let w := probe_world I2C_RCAR_GEN3 in
  let r := rcar_i2c_master_xfer_atomic xfer_answers ms (Z.of_nat (length ms)) turns w in
  (fst r < 0 \/ 1 <= fst r <= Z.of_nat (length ms))
  /\ sent (since w (snd r))
     = flat_map write_bytes (take (msg (priv (snd r))) ms)
       ++ (if m_rd (ms_at ms (priv (snd r))) then []
           else first_bytes (ms_at ms (priv (snd r))) (pos (priv (snd r)))).
Proof.
  cbv zeta.
  apply (atomic_transfer_data xfer_answers [msg_write 80 [1; 2]]
           [(irq_answers 9 0, irq_answers 9 0, true); (irq_answers 8 0, irq_answers 8 0, true);
            (irq_answers 8 0, irq_answers 8 0, true); (irq_answers 16 0, irq_answers 16 0, true)]
           (probe_world I2C_RCAR_GEN3)).
  - batch_check.
  - reflexivity.
  - reflexivity.
  - cbn. lia.
  - cbn [admissible_turns].
    repeat (split; [contract_check | intros _]). exact I.
Defined.
